(* ===== verification/_CoqProject ===== *)
-Q . S2P
Prelude.v
Bytes.v
Framing.v
Packets.v
Posix.v
RelayServer.v
RelayBuffers.v
RelaySpec.v
RelayRefinement.v
RelayHandlers.v
RelayTheorems.v
WinSock.v
ConnectionManager.v
ManagerInvariant.v
ManagerCalls.v
ManagerTheorems.v
ManagerReconnect.v
P2PNetwork.v
P2PTheorems.v
Hook.v
HookHost.v
HookConfig.v
HookTheorems.v
HookRuns.v
Winmm.v
WinmmTheorems.v
