(* ===== verification/Prelude.v ===== *)
(** * isaac-p2p-relay, verified

    The program lets two copies of a game exchange packets over TCP instead of
    Steam's peer-to-peer network.  A proxy of winmm.dll loads a hook into the
    game; the hook replaces three functions of Steam's networking object and
    sends the game's packets through a client library to a relay server, which
    forwards them to the other player's hook.

    ** The parts, their sources and their files here

    - The relay, [server/main.cpp]: [RelayServer] (definitions, over the system
      calls of [Posix]), [RelayBuffers] (its two buffers as byte streams),
      [RelaySpec] (the abstract relay: a map from descriptors to peers and the
      step relation [relay_step]), [RelayRefinement] and [RelayHandlers] (the
      server simulates the abstract relay), [RelayTheorems].
    - Packets, [src/packet_queue.h] and [.cpp]: [Packets], on the wire format of
      [Framing] (a four-byte little-endian length before every packet) and the
      bytes of [Bytes].
    - The client library's [ConnectionManager], [src/connection_manager.cpp],
      [.h] and [src/platform_win.h]: [ConnectionManager] (definitions, over the
      socket calls of [WinSock]), [ManagerInvariant] and [ManagerCalls] (the
      invariant [wf], kept by every method), [ManagerTheorems] and
      [ManagerReconnect].
    - Its C interface, [src/p2p_network.cpp] and [include/p2p_network.h]:
      [P2PNetwork], [P2PTheorems].
    - The hook, [hook/hook.cpp]: [Hook] (over the game process [Host]),
      [HookHost] (what it relies on), [HookConfig] (the configuration file),
      [HookTheorems], [HookRuns] (concrete runs).
    - The proxy, [winmm/winmm.cpp] and [winmm/x86.def]: [Winmm],
      [WinmmTheorems].

    Definitions have the names of the functions, fields and constants they
    model.  A part of a function that is a definition of its own (a loop, the
    fields an assignment block resets) says so in its comment.

    ** How code is modelled

    Stateful code is a program of type [prog St A] (this file): a function from
    a state to a returned value with a new state, to undefined behaviour with
    its cause [ub], or to exhausted fuel.  The state is the record of the
    program's globals and, as its last field, the world: a value of an arbitrary
    type [W] with the operations of a class ([Posix], [WinSock], [Host],
    [Loader]) for the calls of the operating system and of the game.  What the
    code relies on there is a class of laws ([PosixLaws], [WinSockLaws],
    [HostLaws]): documented behaviour such as "[read] delivers at most the
    bytes asked for", "[close] removes the descriptor", never more.  Every such
    class has an instance, a world that plays a script ([ScriptOS],
    [ScriptNet], [ScriptHost]), on which the witnesses of the theorems run.

    A reference to a map node is its key; using it after the node was erased is
    [UseAfterErase].  A walk over an [unordered_map] follows the order the world
    gives and is [IteratorInvalidated] when its keys change.  Fixed-width
    integers are [Z] with [u8] to [u64] where the code can wrap; buffers are
    lists of bytes of the length the code gives them.

    Fuel bounds loops that the network drives.  The inner loops of the relay
    compute their own, from the bytes buffered; that it never runs out is part
    of [main_correct].  [main] and [PumpThread] take the number of iterations,
    since they run until told to stop, and report that they were still running.
    [processRead] and [acceptNewConnections] take a bound above the data in
    flight ([in_flight]); the theorems assume only this and prove that the
    calls return.

    [wp m Q E s] is the total weakest precondition: no theorem about a run is
    only "if it returns".

    ** What is proved

    - The relay, for every behaviour of peers and system calls: [main] never
      gets stuck, releases everything at exit, and its only undefined behaviour
      is the use of an erased connection, which is real
      ([self_forward_use_after_erase]); each peer is sent exactly the payloads
      addressed to it, in order ([relay_delivers]); the registry is exact;
      pending output is always armed; the handlers refine [relay_step];
      registration, forwarding, closing, the limit of four and the signals.
    - The client library: every method returns, keeps the invariant (no leaked
      and no shared socket) and reaches no undefined behaviour, for every
      callback that satisfies [callback_ok], as the hook's does; sending adds
      exactly one frame, flushing preserves the stream, receiving rebuilds the
      packets however the bytes were split; removal, shutdown; which
      connections a round of reconnection dials and when the next attempt is
      due; the C interface loses no packet and reports its errors.
    - The hook: installation and removal of the virtual table, what the game
      reads and sends, unloading, the configuration file, and the path of a
      packet from one game through the relay to the other
      ([hook_packet_delivered]).
    - The proxy forwards every export to the function of the same name.
    - Closed runs that show where the code goes wrong: a use after erase and a
      stale event in the relay; a packet that overtakes another, a stale
      removal and a cancelled reconnect in the client.

    ** What is not modelled

    Threads: each method of [PacketQueue] is atomic by its mutex; the manager
    has no lock, and the races between the game's thread, the pump thread and
    the injection thread of the hook are left out, as each is modelled as a
    program of its own.  A signal is delivered between two iterations of the
    relay's loop, the only place where its flag is read.  The text of log and
    trace lines, and the arithmetic in [double] of the performance report, are
    left out; log messages are values.  The relay's [main] is modelled from its
    arguments on, without the usage text.  Tests, the vendored test framework,
    the build files and the script [hook/load.js] are not modelled. *)

From stdpp Require Import base gmap sets list strings fin_maps.
From Stdlib Require Import ZArith Lia.

#[global] Open Scope Z_scope.

(** ** Programs with state, undefined behaviour and bounded loops *)

(** What goes wrong when a C++ run has no defined meaning. *)
Inductive ub : Type :=
  | UseAfterErase (key : Z)       (* a reference into an [unordered_map] node that was erased *)
  | OutOfBounds                   (* an index, iterator or pointer outside its object *)
  | IteratorInvalidated           (* a container changed while a range-for walks over it *)
  | UncaughtException.            (* an exception left the program's entry point *)

(** A run returns a value, reaches undefined behaviour, or exhausts the
    fuel of a loop.  Theorems about total correctness exclude the last two. *)
Inductive outcome (A : Type) : Type :=
  | Ret (a : A)
  | Undef (why : ub)
  | OutOfFuel.
Arguments Ret {A} a.
Arguments Undef {A} why.
Arguments OutOfFuel {A}.

Definition prog (St A : Type) : Type := St → outcome (A * St).

#[global] Instance prog_ret St : MRet (prog St) := λ A a s, Ret (a, s).
#[global] Instance prog_bind St : MBind (prog St) := λ A B f m s,
  match m s with
  | Ret (a, s') => f a s'
  | Undef u => Undef u
  | OutOfFuel => OutOfFuel
  end.

Definition gets {St A} (f : St → A) : prog St A := λ s, Ret (f s, s).
Definition modify {St} (f : St → St) : prog St unit := λ s, Ret (tt, f s).
Definition undef {St A} (u : ub) : prog St A := λ _, Undef u.
Definition out_of_fuel {St A} : prog St A := λ _, OutOfFuel.

(** [for (x : l) body(x)] *)
Fixpoint for_each {St A} (body : A → prog St unit) (l : list A) : prog St unit :=
  match l with
  | [] => mret tt
  | x :: l' => body x ;; for_each body l'
  end.

(** ** Weakest preconditions

    [wp m Q E s]: the run of [m] from [s] does not exhaust its fuel; if it
    returns, [Q] holds of the value and the final state; if it reaches
    undefined behaviour, [E] holds of the cause. *)
Definition wp {St A} (m : prog St A) (Q : A → St → Prop) (E : ub → Prop) (s : St) : Prop :=
  match m s with
  | Ret (a, s') => Q a s'
  | Undef u => E u
  | OutOfFuel => False
  end.

(** No undefined behaviour at all. *)
Definition no_ub : ub → Prop := λ _, False.

Section wp.
Context {St : Type}.
Implicit Types (s : St) (E : ub → Prop).

Lemma wp_ret {A} (a : A) (Q : A → St → Prop) E s : Q a s → wp (mret a) Q E s.
Proof. done. Qed.

Lemma wp_bind {A B} (m : prog St A) (f : A → prog St B) Q E s :
  wp m (λ a, wp (f a) Q E) E s → wp (m ≫= f) Q E s.
Proof. unfold wp, mbind, prog_bind. by destruct (m s) as [[a s']| |]. Qed.

Lemma wp_bind_inv {A B} (m : prog St A) (f : A → prog St B) Q E s :
  wp (m ≫= f) Q E s → wp m (λ a, wp (f a) Q E) E s.
Proof. unfold wp, mbind, prog_bind. by destruct (m s) as [[a s']| |]. Qed.

Lemma wp_mono {A} (m : prog St A) (Q Q' : A → St → Prop) (E E' : ub → Prop) s :
  wp m Q E s → (∀ a s', Q a s' → Q' a s') → (∀ u, E u → E' u) → wp m Q' E' s.
Proof. unfold wp. destruct (m s) as [[a s']| |]; eauto. Qed.

Lemma wp_conseq {A} (m : prog St A) (Q Q' : A → St → Prop) E s :
  wp m Q E s → (∀ a s', Q a s' → Q' a s') → wp m Q' E s.
Proof. intros H HQ. by eapply wp_mono. Qed.

Lemma wp_gets {A} (f : St → A) Q E s : Q (f s) s → wp (gets f) Q E s.
Proof. done. Qed.

Lemma wp_modify (f : St → St) Q E s : Q tt (f s) → wp (modify f) Q E s.
Proof. done. Qed.

Lemma wp_undef {A} u (Q : A → St → Prop) E s : E u → wp (undef u) Q E s.
Proof. done. Qed.

(** Two facts about the same run. *)
Lemma wp_and {A} (m : prog St A) (Q1 Q2 : A → St → Prop) E s :
  wp m Q1 E s → wp m Q2 E s → wp m (λ a s', Q1 a s' ∧ Q2 a s') E s.
Proof. unfold wp. destruct (m s) as [[a s']| |]; auto. Qed.

(** From a weakest precondition without undefined behaviour to the run. *)
Lemma wp_returns {A} (m : prog St A) Q s :
  wp m Q no_ub s → ∃ a s', m s = Ret (a, s') ∧ Q a s'.
Proof. unfold wp. destruct (m s) as [[a s']| |]; [eauto|done..]. Qed.

Lemma wp_of_run {A} (m : prog St A) Q E s a s' :
  wp m Q E s → m s = Ret (a, s') → Q a s'.
Proof. unfold wp. intros H Hr. by rewrite Hr in H. Qed.

Lemma wp_for_each {A} (body : A → prog St unit) (l : list A)
    (I : list A → St → Prop) E s :
  (∀ x l' s, I (x :: l') s → wp (body x) (λ _, I l') E s) →
  I l s → wp (for_each body l) (λ _, I []) E s.
Proof.
  intros Hbody. revert s. induction l as [|x l IH]; intros s Hs; [done|].
  apply wp_bind. eapply wp_conseq; [by apply Hbody|]. intros [] s' Hs'. by apply IH.
Qed.
End wp.

(** The step tactic of the development: it applies the rule of the head
    construct of a program.  Calls of named operations are left to the
    operation's own lemma. *)
Ltac wp_step :=
  lazymatch goal with
  | |- wp (mbind _ _) _ _ _ => apply wp_bind
  | |- wp (mret _) _ _ _ => apply wp_ret
  | |- wp (gets _) _ _ _ => apply wp_gets
  | |- wp (modify _) _ _ _ => apply wp_modify
  | |- wp (undef _) _ _ _ => apply wp_undef
  | |- wp (if ?b then _ else _) _ _ _ => let H := fresh "Hif" in destruct b eqn:H
  | |- wp (let _ := _ in _) _ _ _ => cbv zeta
  | |- wp (match ?x with _ => _ end) _ _ _ => let H := fresh "Hcase" in destruct x eqn:H
  end.
Ltac wp_steps := repeat (wp_step; simpl).

(** Use the lemma [L] about the operation at the head of the program. *)
Tactic Notation "wp_apply" uconstr(L) := eapply wp_conseq; [eapply L|].

(** ** Machine integers *)

Definition u8 (z : Z) : Z := z mod 2 ^ 8.
Definition u16 (z : Z) : Z := z mod 2 ^ 16.
Definition u32 (z : Z) : Z := z mod 2 ^ 32.
Definition u64 (z : Z) : Z := z mod 2 ^ 64.

Lemma u32_small z : 0 ≤ z < 2 ^ 32 → u32 z = z.
Proof. apply Z.mod_small. Qed.
Lemma u64_small z : 0 ≤ z < 2 ^ 64 → u64 z = z.
Proof. apply Z.mod_small. Qed.
Lemma u32_range z : 0 ≤ u32 z < 2 ^ 32.
Proof. by apply Z.mod_pos_bound. Qed.
Lemma u64_range z : 0 ≤ u64 z < 2 ^ 64.
Proof. by apply Z.mod_pos_bound. Qed.

Create Rewrite HintDb machine.
#[export] Hint Rewrite u32_small u64_small using lia : machine.

(** Length of a list as the unsigned integer the code computes with. *)
Definition Zlen {A} (l : list A) : Z := Z.of_nat (length l).

(** ** Lists *)

Section lists.
Context {A : Type}.
Implicit Types l k : list A.

(** A window of [l]. *)
Definition slice (from len : nat) (l : list A) : list A := take len (drop from l).

(** [memcpy]/[memmove] of [k] to offset [i] of a buffer; [None] when it
    does not fit. *)
Definition write_at (i : nat) (k l : list A) : option (list A) :=
  if decide (i + length k ≤ length l)%nat
  then Some (take i l ++ k ++ drop (i + length k) l) else None.

Lemma write_at_length i k l l' : write_at i k l = Some l' → length l' = length l.
Proof.
  unfold write_at. case_decide; intros; simplify_eq.
  rewrite !length_app, length_take, length_drop. lia.
Qed.

(** Writing behind the valid prefix extends that prefix. *)
Lemma write_at_prefix i k l l' :
  write_at i k l = Some l' → take (i + length k) l' = take i l ++ k.
Proof.
  unfold write_at. case_decide as Hd; intros; simplify_eq.
  rewrite app_assoc, take_app_length'; [done|].
  rewrite length_app, length_take. lia.
Qed.

(** Overwriting a middle segment, and the last one. *)
Lemma write_at_app l k m k' : length k = length m →
  write_at (length l) k (l ++ m ++ k') = Some (l ++ k ++ k').
Proof.
  intros Hk. unfold write_at. rewrite decide_True by (rewrite !length_app; lia).
  rewrite take_app_length, Hk. rewrite drop_app_ge by lia.
  replace (length l + length m - length l)%nat with (length m) by lia.
  by rewrite drop_app_length.
Qed.

Lemma write_at_end i l m k : i = length l → length k = length m →
  write_at i k (l ++ m) = Some (l ++ k).
Proof.
  intros -> Hk. rewrite <- (app_nil_r m), (write_at_app l k m []) by done.
  by rewrite app_nil_r.
Qed.

Lemma take_drop_shift i n l : take n (drop i l) = drop i (take (i + n) l).
Proof. symmetry. rewrite skipn_firstn_comm. f_equal. lia. Qed.

Lemma skipn_firstn_comm' i n m l : (i + n ≤ m)%nat → take n (drop i (take m l)) = take n (drop i l).
Proof.
  intros. rewrite !take_drop_shift, take_take. by rewrite Nat.min_l by lia.
Qed.
End lists.
