(* ===== verification/Bytes.v ===== *)
(** * Bytes and little-endian integers

    [uint8_t] is the standard library's [byte]; multi-byte integers are
    related to byte strings by [le_bytes]/[le_val], the arithmetic reference
    against which the bit-twiddling readers and writers of the program are
    verified. *)

From stdpp Require Import base list.
From Stdlib Require Export Init.Byte.
From Stdlib Require Import ZArith Lia Strings.Byte.
From S2P Require Import Prelude.

#[export] Instance byte_eq_dec : EqDecision byte := Byte.byte_eq_dec.

(** Value of a byte, and the conversion [static_cast<uint8_t>]. *)
Definition byte_val (b : byte) : Z := Z.of_N (Byte.to_N b).
Definition byte_of (z : Z) : byte := default x00 (Byte.of_N (Z.to_N (u8 z))).

Lemma byte_val_range b : 0 ≤ byte_val b < 256.
Proof. unfold byte_val. pose proof (Byte.to_N_bounded b). lia. Qed.

Lemma byte_of_val b : byte_of (byte_val b) = b.
Proof.
  unfold byte_of, u8. rewrite Z.mod_small by (apply byte_val_range).
  unfold byte_val. by rewrite N2Z.id, Byte.of_to_N.
Qed.

Lemma byte_val_of z : byte_val (byte_of z) = z mod 256.
Proof.
  unfold byte_of, byte_val, u8. change (2 ^ 8) with 256.
  assert (0 ≤ z mod 256 < 256) as Hz by (by apply Z.mod_pos_bound).
  destruct (Byte.of_N (Z.to_N (z mod 256))) as [b|] eqn:Hb; simpl.
  - apply Byte.to_of_N in Hb. rewrite Hb. lia.
  - apply Byte.of_N_None_iff in Hb. lia.
Qed.

Lemma byte_val_inj b b' : byte_val b = byte_val b' → b = b'.
Proof. intros H. by rewrite <- (byte_of_val b), H, byte_of_val. Qed.

Lemma byte_of_add_256 a z : byte_of (a + 256 * z) = byte_of a.
Proof.
  apply byte_val_inj. rewrite !byte_val_of.
  by rewrite Z.mul_comm, Z_mod_plus_full.
Qed.

Fixpoint le_val (bs : list byte) : Z :=
  match bs with
  | [] => 0
  | b :: bs' => byte_val b + 256 * le_val bs'
  end.

Fixpoint le_bytes (n : nat) (z : Z) : list byte :=
  match n with
  | O => []
  | S n' => byte_of z :: le_bytes n' (z / 256)
  end.

Lemma le_bytes_length n z : length (le_bytes n z) = n.
Proof. revert z. induction n; simpl; auto. Qed.

Lemma le_val_nonneg bs : 0 ≤ le_val bs.
Proof. induction bs as [|b bs IH]; simpl; [lia|]. pose proof (byte_val_range b). lia. Qed.

Lemma le_val_bound bs : le_val bs < 256 ^ Zlen bs.
Proof.
  unfold Zlen. induction bs as [|b bs IH]; [done|].
  cbn [le_val length]. rewrite Nat2Z.inj_succ, Z.pow_succ_r by lia.
  pose proof (byte_val_range b). lia.
Qed.

Lemma le_val_bytes n z : 0 ≤ z < 256 ^ Z.of_nat n → le_val (le_bytes n z) = z.
Proof.
  revert z. induction n as [|n IH]; intros z Hz; cbn [le_bytes le_val].
  - simpl in Hz. lia.
  - rewrite Nat2Z.inj_succ, Z.pow_succ_r in Hz by lia.
    rewrite byte_val_of, IH.
    + pose proof (Z.div_mod z 256). lia.
    + split; [apply Z.div_pos; lia|]. apply Z.div_lt_upper_bound; lia.
Qed.

Lemma le_bytes_val bs : le_bytes (length bs) (le_val bs) = bs.
Proof.
  induction bs as [|b bs IH]; [done|]. cbn [length le_bytes le_val].
  rewrite byte_of_add_256, byte_of_val. f_equal.
  replace ((byte_val b + 256 * le_val bs) / 256) with (le_val bs); [done|].
  rewrite Z.mul_comm, Z.div_add by lia.
  rewrite Z.div_small; [lia|]. apply byte_val_range.
Qed.

(** Strings of the same length with the same value are equal. *)
Lemma le_val_inj bs bs' : length bs = length bs' → le_val bs = le_val bs' → bs = bs'.
Proof. intros Hl Hv. by rewrite <- (le_bytes_val bs), Hl, Hv, le_bytes_val. Qed.

(** ** The bit-level accessors of the program

    [z & 0xFF] after shifts, and [b0 | b1 << 8 | b2 << 16 | b3 << 24]. *)

Definition byte_at (z k : Z) : byte := byte_of (Z.land (Z.shiftr z k) 255).

Lemma land_255 z : Z.land z 255 = z mod 256.
Proof. change 255 with (Z.ones 8). by rewrite Z.land_ones. Qed.

Lemma byte_at_div z k : 0 ≤ k → byte_at z k = byte_of (z / 2 ^ k).
Proof.
  intros Hk. unfold byte_at. rewrite land_255, Z.shiftr_div_pow2 by done.
  apply byte_val_inj. rewrite !byte_val_of. by rewrite Zmod_mod.
Qed.

Lemma bytes_at_le z : [byte_at z 0; byte_at z 8; byte_at z 16; byte_at z 24] = le_bytes 4 z.
Proof.
  rewrite !byte_at_div by lia. cbn [le_bytes].
  rewrite !Z.div_div by lia. by rewrite Z.div_1_r.
Qed.

(** Disjoint bit fields: [or] is addition. *)
Lemma lor_shiftl_add a b n :
  0 ≤ n → 0 ≤ a < 2 ^ n → Z.lor a (Z.shiftl b n) = a + b * 2 ^ n.
Proof.
  intros Hn Ha. rewrite Z.shiftl_mul_pow2 by done.
  rewrite <- Z.add_lor_land. cut (Z.land a (b * 2 ^ n) = 0); [lia|].
  apply Z.bits_inj_0. intros i. rewrite Z.land_spec.
  destruct (decide (i < 0)); [by rewrite !Z.testbit_neg_r|].
  destruct (decide (i < n)).
  - rewrite Z.mul_pow2_bits_low by lia. by rewrite andb_false_r.
  - rewrite <- (Z.mod_small a (2 ^ n)) by done.
    by rewrite Z.mod_pow2_bits_high by lia.
Qed.

Definition or_bytes (b0 b1 b2 b3 : byte) : Z :=
  Z.lor (Z.lor (Z.lor (byte_val b0) (Z.shiftl (byte_val b1) 8))
               (Z.shiftl (byte_val b2) 16)) (Z.shiftl (byte_val b3) 24).

Lemma or_bytes_le b0 b1 b2 b3 : or_bytes b0 b1 b2 b3 = le_val [b0; b1; b2; b3].
Proof.
  unfold or_bytes. pose proof (byte_val_range b0). pose proof (byte_val_range b1).
  pose proof (byte_val_range b2). cbn [le_val].
  rewrite (lor_shiftl_add (byte_val b0)) by lia.
  rewrite (lor_shiftl_add (_ + _)) by lia.
  rewrite lor_shiftl_add by lia. lia.
Qed.

Create Rewrite HintDb bytes.
#[export] Hint Rewrite le_bytes_length bytes_at_le or_bytes_le byte_of_val : bytes.

#[global] Opaque le_bytes le_val.
