(* ===== verification/Framing.v ===== *)
(** * The wire format: length-prefixed frames

    Every stream between the game hook, the client library and the relay
    carries frames [4-byte little-endian length][payload].  This file is the
    abstract specification that the two parsers of the program
    ([ReceiveBuffer::tryParsePacket] and the loop of [handle_client_data])
    and the two writers ([createSendFrame] and [process_packet]) implement.
    The parsers differ only in the lengths they accept, the parameter [ok]. *)

From stdpp Require Import base list.
From Stdlib Require Import ZArith Lia.
From S2P Require Import Prelude Bytes.

Definition frame (p : list byte) : list byte := le_bytes 4 (Zlen p) ++ p.

#[global] Arguments frame : simpl never.

Lemma frame_unfold p : frame p = le_bytes 4 (Zlen p) ++ p.
Proof. done. Qed.

(** The bytes of a sequence of frames. *)
Definition stream (ps : list (list byte)) : list byte := concat (frame <$> ps).

Inductive head : Type :=
  | NeedMore
  | BadLength
  | Complete (p rest : list byte).

(** Why a parse stopped, with the bytes not consumed. *)
Inductive tail : Type :=
  | Partial (rest : list byte)
  | Bad (rest : list byte).

Lemma stream_cons p ps : stream (p :: ps) = frame p ++ stream ps.
Proof. done. Qed.

Lemma stream_app ps qs : stream (ps ++ qs) = stream ps ++ stream qs.
Proof. unfold stream. by rewrite fmap_app, concat_app. Qed.

Section framing.
Context (ok : Z → bool).
Implicit Types (bs r : list byte).

Definition header (bs : list byte) : Z := le_val (take 4 bs).

Definition next_frame (bs : list byte) : head :=
  if decide (length bs < 4)%nat then NeedMore
  else if negb (ok (header bs)) then BadLength
  else if decide (Zlen bs < 4 + header bs) then NeedMore
  else Complete (slice 4 (Z.to_nat (header bs)) bs) (drop (4 + Z.to_nat (header bs)) bs).

Fixpoint split_frames (fuel : nat) (bs : list byte) : list (list byte) * tail :=
  match fuel with
  | O => ([], Partial bs)
  | S fuel' =>
      match next_frame bs with
      | NeedMore => ([], Partial bs)
      | BadLength => ([], Bad bs)
      | Complete p rest => let '(ps, t) := split_frames fuel' rest in (p :: ps, t)
      end
  end.

(** All complete frames at the front of [bs]; every frame takes at least
    four bytes, so [S (length bs)] rounds are enough. *)
Definition frames (bs : list byte) : list (list byte) * tail :=
  split_frames (S (length bs)) bs.

Lemma header_nonneg bs : 0 ≤ header bs.
Proof. apply le_val_nonneg. Qed.

Lemma header_bound bs : header bs < 2 ^ 32.
Proof.
  unfold header. eapply Z.lt_le_trans; [apply le_val_bound|].
  change (2 ^ 32) with (256 ^ 4). apply Z.pow_le_mono_r; [lia|].
  unfold Zlen. rewrite length_take. lia.
Qed.

Lemma header_app bs r : (4 ≤ length bs)%nat → header (bs ++ r) = header bs.
Proof. intros. unfold header. by rewrite take_app_le. Qed.

Lemma header_frame p r : Zlen p < 2 ^ 32 → header (frame p ++ r) = Zlen p.
Proof.
  intros. unfold header, frame. rewrite <- app_assoc.
  rewrite take_app_length' by (by rewrite le_bytes_length).
  apply le_val_bytes. unfold Zlen in *. lia.
Qed.

Lemma frame_length p : length (frame p) = (4 + length p)%nat.
Proof. unfold frame. by rewrite length_app, le_bytes_length. Qed.

(** A complete head is a frame of an accepted length, and conversely. *)
Lemma next_frame_complete bs p r :
  next_frame bs = Complete p r → bs = frame p ++ r ∧ ok (Zlen p) = true ∧ Zlen p < 2 ^ 32.
Proof.
  unfold next_frame. case_decide as H4; [done|].
  destruct (ok (header bs)) eqn:Hok; cbn [negb]; [|done].
  case_decide as Hlen; [done|]. intros [= <- <-].
  pose proof (header_nonneg bs). pose proof (header_bound bs).
  assert (Zlen (slice 4 (Z.to_nat (header bs)) bs) = header bs) as Hp.
  { unfold slice, Zlen in *. rewrite length_take, length_drop. lia. }
  rewrite Hp. split_and!; [|done|lia].
  unfold frame. rewrite Hp. unfold header at 1.
  rewrite <- (firstn_skipn 4 bs) at 1. rewrite <- app_assoc. f_equal.
  - rewrite <- (le_bytes_val (take 4 bs)) at 1.
    rewrite length_take. by replace (4 `min` length bs)%nat with 4%nat by lia.
  - unfold slice. change (S (S (S (S ?n)))) with (4 + n)%nat.
    rewrite <- (take_drop (Z.to_nat (header bs)) (drop 4 bs)) at 1.
    by rewrite drop_drop.
Qed.

Lemma next_frame_frame p r :
  ok (Zlen p) = true → Zlen p < 2 ^ 32 → next_frame (frame p ++ r) = Complete p r.
Proof.
  intros Hok Hp. unfold next_frame. rewrite header_frame, Hok by done. cbn [negb].
  assert (length (frame p ++ r) = 4 + length p + length r)%nat as Hl
    by (by rewrite length_app, frame_length).
  rewrite !decide_False by (unfold Zlen; lia).
  assert (Z.to_nat (Zlen p) = length p) as -> by (unfold Zlen; lia).
  f_equal.
  - unfold slice, frame. rewrite <- app_assoc.
    rewrite drop_app_length' by (by rewrite le_bytes_length).
    by rewrite take_app_length.
  - by rewrite drop_app_length' by (by rewrite frame_length).
Qed.

#[local] Opaque frame.

Lemma next_frame_app bs r p r' :
  next_frame bs = Complete p r → next_frame (bs ++ r') = Complete p (r ++ r').
Proof.
  intros (-> & Hok & Hp)%next_frame_complete. rewrite <- app_assoc.
  by apply next_frame_frame.
Qed.

Lemma next_frame_app_bad bs r : next_frame bs = BadLength → next_frame (bs ++ r) = BadLength.
Proof.
  unfold next_frame. case_decide; [done|].
  destruct (ok (header bs)) eqn:Hok; simpl; [by case_decide|]. intros _.
  rewrite decide_False by (rewrite length_app; lia).
  by rewrite header_app, Hok by lia.
Qed.

Lemma next_frame_shorter bs p r : next_frame bs = Complete p r → (length r + 4 ≤ length bs)%nat.
Proof. intros (-> & _)%next_frame_complete. rewrite length_app, frame_length. lia. Qed.

Lemma split_frames_fuel n m bs :
  (length bs < n)%nat → (length bs < m)%nat → split_frames n bs = split_frames m bs.
Proof.
  revert m bs. induction n as [|n IH]; intros m bs Hn Hm; [lia|].
  destruct m as [|m]; [lia|]. simpl. destruct (next_frame bs) eqn:Hh; [done..|].
  apply next_frame_shorter in Hh. by rewrite (IH m) by lia.
Qed.

Lemma frames_unfold bs :
  frames bs = match next_frame bs with
              | NeedMore => ([], Partial bs)
              | BadLength => ([], Bad bs)
              | Complete p rest => let '(ps, t) := frames rest in (p :: ps, t)
              end.
Proof.
  unfold frames. simpl. destruct (next_frame bs) eqn:Hh; [done..|].
  apply next_frame_shorter in Hh. by rewrite (split_frames_fuel _ (S (length rest))) by lia.
Qed.

Lemma frames_cons p r :
  ok (Zlen p) = true → Zlen p < 2 ^ 32 →
  frames (frame p ++ r) = (p :: (frames r).1, (frames r).2).
Proof. intros. rewrite frames_unfold, next_frame_frame by done. by destruct (frames r). Qed.

(** Induction on the frames at the front of a string. *)
Lemma frames_ind (P : list byte → Prop) :
  (∀ bs, (∀ p r, next_frame bs = Complete p r → P r) → P bs) → ∀ bs, P bs.
Proof.
  intros Hstep bs. remember (length bs) as n eqn:Hn. revert bs Hn.
  induction n as [n IH] using lt_wf_ind; intros bs ->.
  apply Hstep. intros p r Hh. eapply IH; [|done].
  apply next_frame_shorter in Hh. lia.
Qed.

(** The parse is sound: the input is the stream of the packets found and
    the tail. *)
Definition tail_bytes (t : tail) : list byte :=
  match t with Partial r | Bad r => r end.

Lemma frames_sound bs :
  bs = stream (frames bs).1 ++ tail_bytes (frames bs).2.
Proof.
  induction bs as [bs IH] using frames_ind. rewrite frames_unfold.
  destruct (next_frame bs) as [| |p r] eqn:Hh; [done..|].
  specialize (IH p r eq_refl). destruct (frames r) as [ps t]; simpl in *.
  apply next_frame_complete in Hh as (-> & _).
  by rewrite stream_cons, <- app_assoc, IH at 1.
Qed.

(** Where a parse stops, no frame is left. *)
Lemma frames_tail bs :
  match (frames bs).2 with
  | Partial r => next_frame r = NeedMore
  | Bad r => next_frame r = BadLength
  end.
Proof.
  induction bs as [bs IH] using frames_ind. rewrite frames_unfold.
  destruct (next_frame bs) as [| |p r] eqn:Hh; [done..|].
  specialize (IH p r eq_refl). by destruct (frames r) as [ps t].
Qed.

Lemma frames_ok bs : Forall (λ p, ok (Zlen p) = true) (frames bs).1.
Proof.
  induction bs as [bs IH] using frames_ind. rewrite frames_unfold.
  destruct (next_frame bs) as [| |p r] eqn:Hh; [constructor..|].
  specialize (IH p r eq_refl). apply next_frame_complete in Hh as (_ & ? & _).
  destruct (frames r) as [ps t]; simpl in *. by constructor.
Qed.

(** Later bytes do not change the frames already complete: parsing is
    independent of how the stream was cut, as long as no bad length was
    met. *)
Lemma frames_app bs r' :
  frames (bs ++ r') =
    match (frames bs).2 with
    | Partial r => ((frames bs).1 ++ (frames (r ++ r')).1, (frames (r ++ r')).2)
    | Bad r => ((frames bs).1, Bad (r ++ r'))
    end.
Proof.
  induction bs as [bs IH] using frames_ind. rewrite (frames_unfold bs).
  destruct (next_frame bs) as [| |p r] eqn:Hh; simpl.
  - by destruct (frames (bs ++ r')).
  - by rewrite frames_unfold, next_frame_app_bad.
  - rewrite frames_unfold. erewrite next_frame_app by done.
    rewrite (IH p r eq_refl). destruct (frames r) as [ps [t|t]]; simpl; done.
Qed.

(** The round trip of the wire format. *)
Lemma frames_stream ps r :
  Forall (λ p, ok (Zlen p) = true ∧ Zlen p < 2 ^ 32) ps →
  frames (stream ps ++ r) = (ps ++ (frames r).1, (frames r).2).
Proof.
  induction 1 as [|p ps [Hok Hp] _ IH]; [simpl; by destruct (frames r)|].
  rewrite stream_cons, <- app_assoc, frames_cons by done. by rewrite IH.
Qed.
End framing.

Arguments Complete p rest : clear implicits.

#[global] Opaque frame.
#[global] Arguments frames : simpl never.
#[global] Arguments next_frame : simpl never.
