(* ===== verification/Packets.v ===== *)
(** * Packets, the packet queue and the stream reassembly buffer

    [src/packet_queue.h] and [src/packet_queue.cpp]: modules [Packet],
    [PacketQueue] and [ReceiveBuffer] are the classes of the same names.
    Methods with an output reference return it beside the result; every
    method of [PacketQueue] holds the mutex for its whole body, so each is one
    atomic step. *)

From stdpp Require Import base list.
From Stdlib Require Import ZArith Lia.
From S2P Require Import Prelude Bytes Framing.

Module Packet.
Record t : Type := mk { data : list byte }.

Definition empty_packet : t := mk [].

(** [Packet(const void* src, uint32_t size)]; [src] is the readable memory
    at the pointer. *)
Definition of_memory (src : list byte) (size : Z) : t := mk (take (Z.to_nat size) src).

Definition size (p : t) : Z := u32 (Zlen (data p)).
Definition empty (p : t) : bool := match data p with [] => true | _ => false end.

#[export] Instance packet_eq_dec : EqDecision t.
Proof. solve_decision. Defined.
End Packet.

Module PacketQueue.
Record t : Type := mk { m_queue : list Packet.t }.

Definition new : t := mk [].

(** [push(Packet&&)] *)
Definition push (q : t) (packet : Packet.t) : t := mk (m_queue q ++ [packet]).

(** [push(const void*, uint32_t)] constructs the packet in place. *)
Definition push_bytes (q : t) (data : list byte) (size : Z) : t :=
  mk (m_queue q ++ [Packet.of_memory data size]).

Definition pop (q : t) (outPacket : Packet.t) : bool * Packet.t * t :=
  match m_queue q with
  | [] => (false, outPacket, q)
  | p :: rest => (true, p, mk rest)
  end.

Definition peek (q : t) (outSize : Z) : bool * Z :=
  match m_queue q with
  | [] => (false, outSize)
  | p :: _ => (true, Packet.size p)
  end.

Definition empty (q : t) : bool := match m_queue q with [] => true | _ => false end.
Definition size (q : t) : nat := length (m_queue q).
Definition clear (q : t) : t := mk [].

(** Move construction takes the contents of the other queue. *)
Definition move (other : t) : t := mk (m_queue other).

(** The calls another thread can interleave, one critical section each. *)
Inductive call : Type := Push (p : Packet.t) | Pop | Clear.

(** One call: the packet handed to the caller, the queue after it. *)
Definition run_call (q : t) (c : call) : list Packet.t * t :=
  match c with
  | Push p => ([], push q p)
  | Pop => let '(ok, p, q') := pop q Packet.empty_packet in (if ok then [p] else [], q')
  | Clear => ([], clear q)
  end.

Fixpoint run_calls (q : t) (cs : list call) : list Packet.t * t :=
  match cs with
  | [] => ([], q)
  | c :: cs' =>
      let '(out, q') := run_call q c in
      let '(outs, q'') := run_calls q' cs' in (out ++ outs, q'')
  end.

Definition pushed (cs : list call) : list Packet.t :=
  omap (λ c, match c with Push p => Some p | _ => None end) cs.
End PacketQueue.

Module ReceiveBuffer.
Record t : Type := mk { m_buffer : list byte }.

Definition HEADER_SIZE : Z := 4.
Definition MAX_PACKET_SIZE : Z := 1024 * 1024.

Definition new : t := mk [].
Definition append (b : t) (data : list byte) (size : Z) : t :=
  mk (m_buffer b ++ take (Z.to_nat size) data).
Definition size (b : t) : nat := length (m_buffer b).
Definition clear (b : t) : t := mk [].

(** [m_buffer[i]], read only behind the size check of [tryParsePacket]. *)
Definition at_index (b : t) (i : nat) : byte := default x00 (m_buffer b !! i).

Definition tryParsePacket (b : t) (outPacket : Packet.t) : bool * Packet.t * t :=
  if Zlen (m_buffer b) <? HEADER_SIZE then (false, outPacket, b)
  else
    let packetSize :=
      or_bytes (at_index b 0) (at_index b 1) (at_index b 2) (at_index b 3) in
    if (packetSize =? 0) || (packetSize >? MAX_PACKET_SIZE)
    then (false, outPacket, clear b)
    else
      let totalSize := u32 (HEADER_SIZE + packetSize) in
      if Zlen (m_buffer b) <? totalSize then (false, outPacket, b)
      else
        (true,
         Packet.mk (slice (Z.to_nat HEADER_SIZE) (Z.to_nat (totalSize - HEADER_SIZE)) (m_buffer b)),
         mk (drop (Z.to_nat totalSize) (m_buffer b))).

(** The lengths this parser accepts. *)
Definition accepts (n : Z) : bool := (0 <? n) && (n <=? MAX_PACKET_SIZE).

(** [while (recvBuffer.tryParsePacket(packet)) receiveQueue.push(std::move(packet));]
    of [ConnectionManager::processRead]. *)
Fixpoint drain (fuel : nat) (b : t) (q : PacketQueue.t) : option (t * PacketQueue.t) :=
  match fuel with
  | O => None
  | S fuel' =>
      match tryParsePacket b Packet.empty_packet with
      | (true, packet, b') => drain fuel' b' (PacketQueue.push q packet)
      | (false, _, b') => Some (b', q)
      end
  end.

(** Append a chunk from the socket and drain. *)
Definition receive (st : t * PacketQueue.t) (chunk : list byte) : option (t * PacketQueue.t) :=
  let b := append st.1 chunk (Zlen chunk) in
  drain (S (size b)) b st.2.

Fixpoint receive_all (st : t * PacketQueue.t) (chunks : list (list byte))
    : option (t * PacketQueue.t) :=
  match chunks with
  | [] => Some st
  | c :: cs => st' ← receive st c; receive_all st' cs
  end.
End ReceiveBuffer.

(** ** Theorems: the queue *)

Section queue.
Import PacketQueue.

Lemma run_calls_fifo cs q outs q' :
  run_calls q cs = (outs, q') → Clear ∉ cs →
  outs ++ m_queue q' = m_queue q ++ pushed cs.
Proof.
  revert q outs q'. induction cs as [|c cs IH]; intros q outs q' Hrun Hcl; simpl in *.
  { simplify_eq. by rewrite app_nil_r. }
  destruct (run_call q c) as [out q1] eqn:Hc. destruct (run_calls q1 cs) as [outs' q2] eqn:Hcs.
  simplify_eq. apply not_elem_of_cons in Hcl as [Hne Hcl].
  apply IH in Hcs; [|done]. rewrite <- app_assoc, Hcs.
  destruct c as [p| |]; simplify_eq/=; [by rewrite <- app_assoc|].
  unfold pop in Hc. destruct q as [[|p l]]; by simplify_eq/=.
Qed.
End queue.



(** ** Theorems: the reassembly buffer *)

Section receive_buffer.
Import ReceiveBuffer.
Implicit Types (b : t) (q : PacketQueue.t).

Lemma accepts_spec n : accepts n = true ↔ 0 < n ≤ MAX_PACKET_SIZE.
Proof. unfold accepts. rewrite andb_true_iff. lia. Qed.

Lemma rejects_eq n : 0 ≤ n → (n =? 0) || (n >? MAX_PACKET_SIZE) = negb (accepts n).
Proof. unfold accepts. lia. Qed.

(** The length read from the first four bytes is the little-endian one. *)
Lemma or_bytes_header b :
  HEADER_SIZE ≤ Zlen (m_buffer b) →
  or_bytes (at_index b 0) (at_index b 1) (at_index b 2) (at_index b 3) = header (m_buffer b).
Proof.
  unfold at_index, HEADER_SIZE, Zlen. destruct b as [l]; simpl. intros Hl.
  destruct l as [|b0 [|b1 [|b2 [|b3 l]]]]; simpl in Hl; try lia.
  apply or_bytes_le.
Qed.

(** The parser is the frame parser of the wire format, except that a bad
    length empties the buffer. *)
Lemma tryParsePacket_next_frame b out :
  tryParsePacket b out =
    match next_frame accepts (m_buffer b) with
    | NeedMore => (false, out, b)
    | BadLength => (false, out, clear b)
    | Complete p rest => (true, Packet.mk p, mk rest)
    end.
Proof.
  unfold tryParsePacket, next_frame.
  destruct (Zlen (m_buffer b) <? HEADER_SIZE) eqn:H4.
  { rewrite decide_True; [done|]. unfold Zlen, HEADER_SIZE in *. lia. }
  rewrite decide_False by (unfold Zlen, HEADER_SIZE in *; lia).
  rewrite or_bytes_header, rejects_eq by (first [apply header_nonneg | lia]).
  destruct (accepts (header (m_buffer b))) eqn:Hok; cbn [negb]; [|done].
  apply accepts_spec in Hok. cbv zeta. unfold HEADER_SIZE, MAX_PACKET_SIZE in *.
  rewrite u32_small by lia.
  replace (4 + header (m_buffer b) - 4) with (header (m_buffer b)) by lia.
  case_decide as Hl.
  - by rewrite (proj2 (Z.ltb_lt _ _) Hl).
  - rewrite (proj2 (Z.ltb_ge _ _)) by lia. do 3 f_equal. lia.
Qed.

Definition after_drain (t : tail) : ReceiveBuffer.t :=
  match t with Partial r => mk r | Bad _ => mk [] end.

Lemma drain_frames fuel b q :
  (size b < fuel)%nat →
  drain fuel b q =
    Some (after_drain (frames accepts (m_buffer b)).2,
          PacketQueue.mk (PacketQueue.m_queue q ++
                          (Packet.mk <$> (frames accepts (m_buffer b)).1))).
Proof.
  revert b q. induction fuel as [|fuel IH]; intros b q Hf; [lia|]. simpl.
  rewrite tryParsePacket_next_frame, frames_unfold.
  destruct (next_frame accepts (m_buffer b)) as [| |p r] eqn:Hh; simpl.
  1-2: rewrite app_nil_r; by destruct b, q.
  rewrite IH by (apply next_frame_shorter in Hh; unfold size in *; simpl; lia).
  simpl. destruct (frames accepts r) as [ps t]. simpl. by rewrite <- app_assoc.
Qed.

Lemma receive_frames b q chunk :
  receive (b, q) chunk =
    let '(ps, t) := frames accepts (m_buffer b ++ chunk) in
    Some (after_drain t, PacketQueue.mk (PacketQueue.m_queue q ++ (Packet.mk <$> ps))).
Proof.
  unfold receive. rewrite drain_frames by lia. simpl. unfold Zlen.
  rewrite Nat2Z.id, take_ge by lia. by destruct (frames accepts _).
Qed.

Lemma receive_all_frames b q chunks r :
  (frames accepts (m_buffer b ++ concat chunks)).2 = Partial r →
  (frames accepts (m_buffer b)).1 = [] → (frames accepts (m_buffer b)).2 = Partial (m_buffer b) →
  receive_all (b, q) chunks =
    Some (mk r, PacketQueue.mk (PacketQueue.m_queue q ++
      (Packet.mk <$> (frames accepts (m_buffer b ++ concat chunks)).1))).
Proof.
  revert b q. induction chunks as [|c cs IH]; intros b q Hr Hnil Hpart.
  { simpl in *. rewrite !app_nil_r in *. rewrite Hpart in Hr. simplify_eq.
    rewrite Hnil. simpl. rewrite app_nil_r. by destruct b, q. }
  simpl in *. rewrite receive_frames. rewrite app_assoc, (frames_app _ (m_buffer b ++ c)) in Hr |- *.
  destruct (frames accepts (m_buffer b ++ c)) as [ps [r'|r']] eqn:Hfr; simpl in *; [|done].
  pose proof (frames_tail accepts (m_buffer b ++ c)) as Htail. rewrite Hfr in Htail. simpl in Htail.
  assert (frames accepts r' = ([], Partial r')) as Hr' by (by rewrite frames_unfold, Htail).
  rewrite (IH (mk r')); [simpl|done|by simpl; rewrite Hr'..].
  by rewrite fmap_app, app_assoc.
Qed.
End receive_buffer.

(** A packet the library can carry: between 1 byte and 1 MB. *)
Definition carriable (p : list byte) : Prop := ReceiveBuffer.accepts (Zlen p) = true.

Lemma carriable_u32 p : carriable p → Zlen p < 2 ^ 32.
Proof. intros H%accepts_spec. unfold ReceiveBuffer.MAX_PACKET_SIZE in H. lia. Qed.

(** C20. [tryParsePacket] implements the frame parser of the wire format: it
    returns the first complete frame and removes exactly its bytes, leaves an
    incomplete frame untouched, and empties the buffer on a length of zero or
    above 1 MB. *)
Theorem tryParsePacket_refines_next_frame b out :
  ReceiveBuffer.tryParsePacket b out =
    match next_frame ReceiveBuffer.accepts (ReceiveBuffer.m_buffer b) with
    | NeedMore => (false, out, b)
    | BadLength => (false, out, ReceiveBuffer.new)
    | Complete p rest => (true, Packet.mk p, ReceiveBuffer.mk rest)
    end.
Proof. apply tryParsePacket_next_frame. Qed.

(** C12. However TCP cuts the stream of the packets [ps] followed by an incomplete
    frame [r], receiving the pieces one by one terminates, queues exactly
    [ps] in order, and leaves [r] in the buffer. *)
Theorem receive_all_chunks ps r chunks :
  Forall carriable ps → next_frame ReceiveBuffer.accepts r = NeedMore →
  concat chunks = stream ps ++ r →
  ReceiveBuffer.receive_all (ReceiveBuffer.new, PacketQueue.new) chunks =
    Some (ReceiveBuffer.mk r, PacketQueue.mk (Packet.mk <$> ps)).
Proof.
  intros Hps Hr Hc.
  assert (frames ReceiveBuffer.accepts (stream ps ++ r) = (ps, Partial r)) as Hf.
  { rewrite frames_stream.
    - by rewrite (frames_unfold _ r), Hr, app_nil_r.
    - eapply Forall_impl; [done|]. intros p Hp. split; [done|by apply carriable_u32]. }
  rewrite (receive_all_frames _ _ _ r); simpl; [|by rewrite Hc, Hf|done..].
  by rewrite Hc, Hf.
Qed.

Lemma receive_all_chunks_witness :
  ReceiveBuffer.receive_all (ReceiveBuffer.new, PacketQueue.new)
    [take 2 (frame [x07; x08]); drop 2 (frame [x07; x08]) ++ frame [x09] ++ [x05]]
  = Some (ReceiveBuffer.mk [x05], PacketQueue.mk [Packet.mk [x07; x08]; Packet.mk [x09]]).
Proof.
  apply (receive_all_chunks [[x07; x08]; [x09]] [x05]).
  - repeat (apply Forall_cons; split); [vm_compute; reflexivity..|constructor].
  - vm_compute. reflexivity.
  - vm_compute. reflexivity.
Defined.
