(* ===== verification/Posix.v ===== *)
(** * The operating system below the relay server

    The system calls of [server/main.cpp] are not part of the repository:
    they are the operations of the class [Posix], over an arbitrary type of
    worlds.  [PosixLaws] states the documented behaviour the server relies on
    through four observations of a world: the open descriptors, the epoll
    interest list, and the bytes written to and read from each descriptor.
    [ScriptOS] is a concrete instance whose answers are read from a script;
    the witnesses of the server's theorems run on it. *)

From stdpp Require Import base gmap sets list fin_maps.
From Stdlib Require Import ZArith Lia.
From S2P Require Import Prelude Bytes.

(** Constants of the Linux headers. *)
Definition EINTR : Z := 4.
Definition EAGAIN : Z := 11.
Definition EWOULDBLOCK : Z := 11.
Definition EPOLLIN : Z := 1.
Definition EPOLLOUT : Z := 4.
Definition EPOLLERR : Z := 8.
Definition EPOLLHUP : Z := 16.
Definition O_NONBLOCK : Z := 2048.
Definition SIGINT : Z := 2.
Definition SIGPIPE : Z := 13.
Definition SIGTERM : Z := 15.

Inductive epoll_op : Type := EPOLL_CTL_ADD | EPOLL_CTL_MOD | EPOLL_CTL_DEL.
Inductive sockopt : Type := SO_REUSEADDR | SO_KEEPALIVE | TCP_NODELAY.
Inductive sig_disposition : Type := SigHandler | SigIgnore.

(** A call that fails returns [inr errno]. *)
Class Posix (W : Type) : Type := {
  sys_read : W → Z → nat → (list byte + Z) * W;
  sys_write : W → Z → list byte → (nat + Z) * W;
  sys_accept : W → Z → (Z + Z) * W;
  sys_close : W → Z → W;
  sys_epoll_ctl : W → Z → epoll_op → Z → Z → bool * W;
  sys_getfl : W → Z → option Z * W;
  sys_setfl : W → Z → Z → bool * W;
  sys_setsockopt : W → Z → sockopt → bool * W;
  sys_socket : W → option Z * W;
  sys_bind : W → Z → Z → bool * W;
  sys_listen : W → Z → bool * W;
  sys_epoll_create : W → option Z * W;
  sys_epoll_wait : W → Z → nat → Z → (list (Z * Z) + Z) * W;
  sys_signal : W → Z → sig_disposition → W;
  (** Signals that arrived since the last call. *)
  sys_signals : W → list Z * W;
  sys_clock_ms : W → Z * W;
  (** Standard output ([false]) or error ([true]), and syslog with a priority;
      messages are of any type. *)
  sys_print (M : Type) : W → bool → M → W;
  sys_syslog (M : Type) : W → Z → M → W
}.

(** The observations of a world. *)
Class PosixObs (W : Type) : Type := {
  open_fds : W → gset Z;
  interest : W → gmap Z Z;
  sent : W → Z → list byte;
  recvd : W → Z → list byte
}.

(** Two worlds no observation distinguishes. *)
Definition same_obs `{PosixObs W} (w w' : W) : Prop :=
  open_fds w' = open_fds w ∧ interest w' = interest w ∧
  (∀ fd, sent w' fd = sent w fd) ∧ (∀ fd, recvd w' fd = recvd w fd).

(** A descriptor is created: it was not open and carries no data yet. *)
Definition fd_created `{PosixObs W} (w w' : W) (fd : Z) : Prop :=
  0 ≤ fd ∧ fd ∉ (open_fds w) ∧ open_fds w' = {[fd]} ∪ open_fds w ∧
  interest w' = interest w ∧ sent w' fd = [] ∧ recvd w' fd = [] ∧
  (∀ fd', fd' ≠ fd → sent w' fd' = sent w fd' ∧ recvd w' fd' = recvd w fd').

Class PosixLaws (W : Type) `{Posix W} `{PosixObs W} : Prop := {
  read_law w fd n r w' : sys_read w fd n = (r, w') →
    open_fds w' = open_fds w ∧ interest w' = interest w ∧
    (∀ fd', sent w' fd' = sent w fd') ∧
    (∀ fd', fd' ≠ fd → recvd w' fd' = recvd w fd') ∧
    match r with
    | inl bs => (length bs ≤ n)%nat ∧ recvd w' fd = recvd w fd ++ bs
    | inr _ => recvd w' fd = recvd w fd
    end;
  write_law w fd bs r w' : sys_write w fd bs = (r, w') →
    open_fds w' = open_fds w ∧ interest w' = interest w ∧
    (∀ fd', recvd w' fd' = recvd w fd') ∧
    (∀ fd', fd' ≠ fd → sent w' fd' = sent w fd') ∧
    match r with
    | inl n => (n ≤ length bs)%nat ∧ sent w' fd = sent w fd ++ take n bs
    | inr _ => sent w' fd = sent w fd
    end;
  accept_law w lfd r w' : sys_accept w lfd = (r, w') →
    match r with inl fd => fd_created w w' fd | inr _ => same_obs w w' end;
  close_law w fd :
    open_fds (sys_close w fd) = open_fds w ∖ {[fd]} ∧
    interest (sys_close w fd) = delete fd (interest w) ∧
    (∀ fd', sent (sys_close w fd) fd' = sent w fd') ∧
    (∀ fd', recvd (sys_close w fd) fd' = recvd w fd');
  epoll_ctl_law w epfd op fd ev b w' : sys_epoll_ctl w epfd op fd ev = (b, w') →
    open_fds w' = open_fds w ∧
    interest w' = (if b then match op with
                             | EPOLL_CTL_DEL => delete fd (interest w)
                             | _ => <[fd := ev]> (interest w)
                             end else interest w) ∧
    (∀ fd', sent w' fd' = sent w fd') ∧ (∀ fd', recvd w' fd' = recvd w fd');
  socket_law w r w' : sys_socket w = (r, w') →
    match r with Some fd => fd_created w w' fd | None => same_obs w w' end;
  epoll_create_law w r w' : sys_epoll_create w = (r, w') →
    match r with Some fd => fd_created w w' fd | None => same_obs w w' end;
  getfl_law w fd r w' : sys_getfl w fd = (r, w') → same_obs w w';
  setfl_law w fd fl r w' : sys_setfl w fd fl = (r, w') → same_obs w w';
  setsockopt_law w fd o r w' : sys_setsockopt w fd o = (r, w') → same_obs w w';
  bind_law w fd p r w' : sys_bind w fd p = (r, w') → same_obs w w';
  listen_law w fd r w' : sys_listen w fd = (r, w') → same_obs w w';
  epoll_wait_law w epfd n t r w' : sys_epoll_wait w epfd n t = (r, w') →
    same_obs w w' ∧
    match r with
    | inl evs => (length evs ≤ n)%nat ∧ Forall (λ ev, is_Some (interest w !! ev.1)) evs
    | inr _ => True
    end;
  signal_law w n d : same_obs w (sys_signal w n d);
  signals_law w r w' : sys_signals w = (r, w') → same_obs w w';
  clock_law w r w' : sys_clock_ms w = (r, w') → same_obs w w';
  print_law M w b (m : M) : same_obs w (sys_print M w b m);
  syslog_law M w p (m : M) : same_obs w (sys_syslog M w p m)
}.

#[export] Instance same_obs_refl `{PosixObs W} : Reflexive same_obs.
Proof. by intros w. Qed.

#[export] Instance same_obs_trans `{PosixObs W} : Transitive same_obs.
Proof.
  intros w1 w2 w3 (H1 & H2 & H3 & H4) (H5 & H6 & H7 & H8). split_and!.
  - by rewrite H5.
  - by rewrite H6.
  - intros. by rewrite H7.
  - intros. by rewrite H8.
Qed.

(** ** A scripted operating system

    [reads], [writes], [accepts], [ctls], [polls] and [pending_signals] hold
    the coming answers; what is left of an exhausted script is an idle
    system (would-block, writes that take everything, no events).
    Observations are kept exactly. *)
Module ScriptOS.
Record t : Type := mk {
  reads : gmap Z (list (list byte + Z));
  writes : gmap Z (list (nat + Z));
  accepts : list (option Z);
  ctls : list bool;
  polls : list (list (Z * Z));
  pending_signals : list (list Z);
  clock : Z;
  opened : gset Z;
  watched : gmap Z Z;
  out : gmap Z (list byte);
  inp : gmap Z (list byte)
}.

Definition idle : t := mk ∅ ∅ [] [] [] [] 0 ∅ ∅ ∅ ∅.

Definition at_fd (m : gmap Z (list byte)) (fd : Z) : list byte := default [] (m !! fd).
Definition next {A} (m : gmap Z (list A)) (fd : Z) : option A * gmap Z (list A) :=
  match m !! fd with
  | Some (x :: l) => (Some x, <[fd := l]> m)
  | _ => (None, m)
  end.
Definition pop {A} (l : list A) : option A * list A :=
  match l with x :: l' => (Some x, l') | [] => (None, []) end.

(** The smallest descriptor above the open ones. *)
Definition fresh_fd (w : t) : Z := 1 + Z.max 2 (fold_right Z.max 0 (elements (opened w))).

Definition add_fd (w : t) (fd : Z) (acc : list (option Z)) : t :=
  mk (reads w) (writes w) acc (ctls w) (polls w) (pending_signals w) (clock w)
     ({[fd]} ∪ opened w) (watched w) (<[fd := []]> (out w)) (<[fd := []]> (inp w)).

Definition do_read (w : t) (fd : Z) (n : nat) : (list byte + Z) * t :=
  let '(r, reads') := next (reads w) fd in
  let w' inp' := mk reads' (writes w) (accepts w) (ctls w) (polls w) (pending_signals w)
                    (clock w) (opened w) (watched w) (out w) inp' in
  match r with
  | Some (inl bs) => (inl (take n bs), w' (<[fd := at_fd (inp w) fd ++ take n bs]> (inp w)))
  | Some (inr e) => (inr e, w' (inp w))
  | None => (inr EAGAIN, w' (inp w))
  end.

Definition do_write (w : t) (fd : Z) (bs : list byte) : (nat + Z) * t :=
  let '(r, writes') := next (writes w) fd in
  let w' out' := mk (reads w) writes' (accepts w) (ctls w) (polls w) (pending_signals w)
                    (clock w) (opened w) (watched w) out' (inp w) in
  let wrote n := (inl n, w' (<[fd := at_fd (out w) fd ++ take n bs]> (out w))) in
  match r with
  | Some (inl n) => wrote (n `min` length bs)%nat
  | Some (inr e) => (inr e, w' (out w))
  | None => wrote (length bs)
  end.

Definition do_accept (w : t) (lfd : Z) : (Z + Z) * t :=
  match accepts w with
  | Some fd :: acc =>
      let fd' := if decide (fd ∈ opened w ∨ fd < 0) then fresh_fd w else fd in
      (inl fd', add_fd w fd' acc)
  | _ => (inr EAGAIN, w)
  end.

Definition do_close (w : t) (fd : Z) : t :=
  mk (reads w) (writes w) (accepts w) (ctls w) (polls w) (pending_signals w) (clock w)
     (opened w ∖ {[fd]}) (delete fd (watched w)) (out w) (inp w).

(** [EPOLL_CTL_MOD] succeeds exactly on the watched descriptors. *)
Definition do_ctl (w : t) (op : epoll_op) (fd ev : Z) : bool * t :=
  let '(b, ctls') :=
    match op with
    | EPOLL_CTL_MOD => (bool_decide (is_Some (watched w !! fd)), ctls w)
    | _ => let '(r, l) := pop (ctls w) in (default true r, l)
    end in
  let watched' := if b then match op with
                            | EPOLL_CTL_DEL => delete fd (watched w)
                            | _ => <[fd := ev]> (watched w)
                            end else watched w in
  (b, mk (reads w) (writes w) (accepts w) ctls' (polls w) (pending_signals w) (clock w)
         (opened w) watched' (out w) (inp w)).

Definition do_wait (w : t) (n : nat) : (list (Z * Z) + Z) * t :=
  let '(r, polls') := pop (polls w) in
  (inl (take n (filter (λ ev, is_Some (watched w !! ev.1)) (default [] r))),
   mk (reads w) (writes w) (accepts w) (ctls w) polls' (pending_signals w) (clock w)
      (opened w) (watched w) (out w) (inp w)).

Definition do_signals (w : t) : list Z * t :=
  let '(r, sigs') := pop (pending_signals w) in
  (default [] r,
   mk (reads w) (writes w) (accepts w) (ctls w) (polls w) sigs' (clock w)
      (opened w) (watched w) (out w) (inp w)).

Definition do_new_fd (w : t) : option Z * t :=
  (Some (fresh_fd w), add_fd w (fresh_fd w) (accepts w)).

#[global] Instance script_posix : Posix t := {
  sys_read := do_read; sys_write := do_write; sys_accept := do_accept; sys_close := do_close;
  sys_epoll_ctl w _ op fd ev := do_ctl w op fd ev;
  sys_getfl w _ := (Some 2, w); sys_setfl w _ _ := (true, w);
  sys_setsockopt w _ _ := (true, w);
  sys_socket := do_new_fd; sys_bind w _ _ := (true, w); sys_listen w _ := (true, w);
  sys_epoll_create := do_new_fd;
  sys_epoll_wait w _ n _ := do_wait w n;
  sys_signal w _ _ := w; sys_signals := do_signals;
  sys_clock_ms w := (clock w, w); sys_print _ w _ _ := w; sys_syslog _ w _ _ := w
}.

#[global] Instance script_obs : PosixObs t := {
  open_fds := opened; interest := watched;
  sent w := at_fd (out w); recvd w := at_fd (inp w)
}.

Lemma at_fd_insert_eq m fd bs : at_fd (<[fd := bs]> m) fd = bs.
Proof. unfold at_fd. by rewrite lookup_insert_eq. Qed.
Lemma at_fd_insert_ne m fd fd' bs : fd' ≠ fd → at_fd (<[fd := bs]> m) fd' = at_fd m fd'.
Proof. intros. unfold at_fd. by rewrite lookup_insert_ne. Qed.

Lemma fold_max_ge (l : list Z) x : x ∈ l → x ≤ fold_right Z.max 0 l.
Proof.
  induction l as [|y l IH]; [by intros ?%elem_of_nil|].
  intros [->|Hx]%elem_of_cons; simpl; [lia|]. specialize (IH Hx). lia.
Qed.
Lemma fold_max_nonneg (l : list Z) : 0 ≤ fold_right Z.max 0 l.
Proof. induction l; simpl; lia. Qed.

Lemma fresh_fd_fresh w : fresh_fd w ∉ opened w.
Proof.
  unfold fresh_fd. intros Hin%elem_of_elements%fold_max_ge. lia.
Qed.
Lemma fresh_fd_nonneg w : 0 ≤ fresh_fd w.
Proof. unfold fresh_fd. pose proof (fold_max_nonneg (elements (opened w))). lia. Qed.

Lemma add_fd_created w fd acc : fd ∉ opened w → 0 ≤ fd → fd_created w (add_fd w fd acc) fd.
Proof.
  intros. unfold fd_created; simpl. split_and!; try done.
  - by apply at_fd_insert_eq.
  - by apply at_fd_insert_eq.
  - intros. by rewrite !at_fd_insert_ne.
Qed.

#[global] Instance script_laws : PosixLaws t.
Proof.
  split; simpl.
  - intros w fd n r w'. unfold do_read. destruct (next (reads w) fd) as [[[bs|e]|] rs];
      intros; simplify_eq; simpl; split_and!; try done.
    + intros. by rewrite at_fd_insert_ne.
    + rewrite length_take. lia.
    + by rewrite at_fd_insert_eq.
  - intros w fd bs r w'. unfold do_write. destruct (next (writes w) fd) as [[[n|e]|] ws];
      intros; simplify_eq; simpl; split_and!; try done; try lia;
      try (intros; by rewrite at_fd_insert_ne); by rewrite at_fd_insert_eq.
  - intros w lfd r w'. unfold do_accept. destruct (accepts w) as [|[fd|] acc];
      intros; simplify_eq; try done.
    apply add_fd_created; case_decide as Hfd; try (by apply fresh_fd_fresh || by apply fresh_fd_nonneg).
    + intros ?. apply Hfd. by left.
    + destruct (decide (fd < 0)); [|lia]. destruct Hfd. by right.
  - done.
  - intros w epfd op fd ev b w'. unfold do_ctl. destruct (pop (ctls w)), op; intros; by simplify_eq.
  - intros w r w' [= <- <-]. apply add_fd_created; auto using fresh_fd_fresh, fresh_fd_nonneg.
  - intros w r w' [= <- <-]. apply add_fd_created; auto using fresh_fd_fresh, fresh_fd_nonneg.
  - intros. by simplify_eq.
  - intros. by simplify_eq.
  - intros. by simplify_eq.
  - intros. by simplify_eq.
  - intros. by simplify_eq.
  - intros w epfd n t' r w'. unfold do_wait. destruct (pop (polls w)) as [evs ps]. intros. simplify_eq.
    simpl. split_and!; try done; [rewrite length_take; lia|].
    apply Forall_take, Forall_forall. by intros ev [? _]%list_elem_of_filter.
  - done.
  - intros w r w'. unfold do_signals. destruct (pop (pending_signals w)). intros. by simplify_eq.
  - intros. by simplify_eq.
  - done.
  - done.
Qed.
End ScriptOS.
