(* ===== verification/RelayServer.v ===== *)
(** * The relay server

    [server/main.cpp], definition by definition.  The globals of the program
    are the fields of [Server]; a C++ reference into [g_connections] is the
    key of its node, read through [conn_at], so that using a reference after
    [g_connections.erase] is the undefined behaviour [UseAfterErase].
    Lengths of type [size_t] are [Z] (they stay far below 2^64); [uint32_t]
    arithmetic wraps.  [LOGD] expands to nothing ([DEBUG_MODE] off). *)

From stdpp Require Import base gmap sets list strings fin_maps.
From Stdlib Require Import ZArith Lia.
From S2P Require Import Prelude Bytes Posix.

Definition MAX_CONNECTIONS : Z := 4.
Definition MAX_EVENTS : nat := 8.
Definition BUFFER_SIZE : Z := 65536.
Definition MAX_PACKET_SIZE : Z := 65535.
Definition LENGTH_SIZE : Z := 4.
Definition MARK_SIZE : Z := 8.

(** ** Logging *)

Inductive LogLevel : Type := LVL_DEBUG | LVL_INFO | LVL_WARN | LVL_ERR.

Definition level_value (l : LogLevel) : Z :=
  match l with LVL_DEBUG => 0 | LVL_INFO => 1 | LVL_WARN => 2 | LVL_ERR => 3 end.

Definition log_level_to_syslog (l : LogLevel) : Z :=
  match l with LVL_DEBUG => 7 | LVL_INFO => 6 | LVL_WARN => 4 | LVL_ERR => 3 end.

(** [%02x] *)
Definition hex_digit (n : Z) : Z := if n <? 10 then 48 + n else 87 + n.
Definition hex2 (b : byte) : list Z := [hex_digit (byte_val b / 16); hex_digit (byte_val b mod 16)].

(** [Logger::format_mark], as character codes. *)
Definition format_mark (mark : list byte) : list Z := mark ≫= hex2.

(** The messages of the program, by call site. *)
Inductive log_msg : Type :=
  | EpollModFailed (fd : Z) | FcntlFailed | SocketFailed | ReuseAddrFailed | BindFailed
  | ListenFailed | Disconnected (fd : Z) (mark : list Z) | UnregisteredDisconnected (fd : Z)
  | AcceptFailed | ConnectionsFull (fd : Z) | NoDelayFailed (fd : Z) | KeepAliveFailed (fd : Z)
  | EpollAddFailed | NewConnection (fd : Z) (count : nat)
  | BadRegistration (fd data_len : Z) | MarkTaken (fd : Z) (mark : list Z)
  | Registered (fd : Z) (mark : list Z) | PacketTooSmall (fd size : Z)
  | NoTarget (fd : Z) (mark : list Z) (size : Z) | UnknownConnection (fd : Z)
  | ReceiveBufferFull (fd : Z) | ReadFailed (fd : Z) | BadPacketLength (fd len : Z)
  | EpollCreateFailed | EpollWaitFailed | Started (port : Z) | ShuttingDown | Stopped
  | Usage | InvalidPort
  | Perf (elapsed_ms : Z) (deltas : list Z) | PerfDrop (no_target small_packet : Z).

(** ** State *)

Record Connection : Type := mkConnection {
  fd : Z;
  mark : list byte;
  registered : bool;
  send_buf : list byte;
  recv_buf : list byte;
  recv_len : Z
}.

(** [Connection(int socket_fd)]: mark and receive buffer are zeroed. *)
Definition new_connection (socket_fd : Z) : Connection :=
  mkConnection socket_fd (replicate (Z.to_nat MARK_SIZE) x00) false []
               (replicate (Z.to_nat BUFFER_SIZE) x00) 0.

Definition with_mark (m : list byte) (c : Connection) : Connection :=
  mkConnection (fd c) m (registered c) (send_buf c) (recv_buf c) (recv_len c).
Definition with_registered (b : bool) (c : Connection) : Connection :=
  mkConnection (fd c) (mark c) b (send_buf c) (recv_buf c) (recv_len c).
Definition with_send_buf (b : list byte) (c : Connection) : Connection :=
  mkConnection (fd c) (mark c) (registered c) b (recv_buf c) (recv_len c).
Definition with_recv (b : list byte) (n : Z) (c : Connection) : Connection :=
  mkConnection (fd c) (mark c) (registered c) (send_buf c) b n.

(** [Connection::consume]; [None] when the [memmove] leaves the buffer. *)
Definition consume (len : Z) (c : Connection) : option Connection :=
  if recv_len c <=? len then Some (with_recv (recv_buf c) 0 c)
  else
    let rest := Z.to_nat (recv_len c - len) in
    buf ← write_at 0 (slice (Z.to_nat len) rest (recv_buf c)) (recv_buf c);
    Some (with_recv buf (recv_len c - len) c).

(** [mark_to_key]: [memcpy] of eight bytes into a [uint64_t] of the
    little-endian host. *)
Definition mark_to_key (mark : list byte) : Z := le_val (take (Z.to_nat MARK_SIZE) mark).

(** The [g_stat_*] counters. *)
Record Stats : Type := mkStats {
  bytes_in : Z; bytes_out : Z; packets_in : Z; packets_out : Z;
  drop_no_target : Z; drop_small_packet : Z; drop_send_eagain : Z;
  partial_writes : Z; write_errors : Z; event_loops : Z; events : Z
}.

Definition zero_stats : Stats := mkStats 0 0 0 0 0 0 0 0 0 0 0.

(** [fetch_add] on the counters the program updates. *)
Definition add_bytes_in (n : Z) (t : Stats) : Stats :=
  mkStats (u64 (bytes_in t + n)) (bytes_out t) (packets_in t) (packets_out t) (drop_no_target t)
    (drop_small_packet t) (drop_send_eagain t) (partial_writes t) (write_errors t) (event_loops t) (events t).
Definition add_bytes_out (n : Z) (t : Stats) : Stats :=
  mkStats (bytes_in t) (u64 (bytes_out t + n)) (packets_in t) (packets_out t) (drop_no_target t)
    (drop_small_packet t) (drop_send_eagain t) (partial_writes t) (write_errors t) (event_loops t) (events t).
Definition add_packets_in (n : Z) (t : Stats) : Stats :=
  mkStats (bytes_in t) (bytes_out t) (u64 (packets_in t + n)) (packets_out t) (drop_no_target t)
    (drop_small_packet t) (drop_send_eagain t) (partial_writes t) (write_errors t) (event_loops t) (events t).
Definition add_packets_out (n : Z) (t : Stats) : Stats :=
  mkStats (bytes_in t) (bytes_out t) (packets_in t) (u64 (packets_out t + n)) (drop_no_target t)
    (drop_small_packet t) (drop_send_eagain t) (partial_writes t) (write_errors t) (event_loops t) (events t).
Definition add_drop_no_target (n : Z) (t : Stats) : Stats :=
  mkStats (bytes_in t) (bytes_out t) (packets_in t) (packets_out t) (u64 (drop_no_target t + n))
    (drop_small_packet t) (drop_send_eagain t) (partial_writes t) (write_errors t) (event_loops t) (events t).
Definition add_drop_small_packet (n : Z) (t : Stats) : Stats :=
  mkStats (bytes_in t) (bytes_out t) (packets_in t) (packets_out t) (drop_no_target t)
    (u64 (drop_small_packet t + n)) (drop_send_eagain t) (partial_writes t) (write_errors t) (event_loops t) (events t).
Definition add_write_errors (n : Z) (t : Stats) : Stats :=
  mkStats (bytes_in t) (bytes_out t) (packets_in t) (packets_out t) (drop_no_target t)
    (drop_small_packet t) (drop_send_eagain t) (partial_writes t) (u64 (write_errors t + n)) (event_loops t) (events t).
Definition add_event_loops (n : Z) (t : Stats) : Stats :=
  mkStats (bytes_in t) (bytes_out t) (packets_in t) (packets_out t) (drop_no_target t)
    (drop_small_packet t) (drop_send_eagain t) (partial_writes t) (write_errors t) (u64 (event_loops t + n)) (events t).
Definition add_events (n : Z) (t : Stats) : Stats :=
  mkStats (bytes_in t) (bytes_out t) (packets_in t) (packets_out t) (drop_no_target t)
    (drop_small_packet t) (drop_send_eagain t) (partial_writes t) (write_errors t) (event_loops t) (u64 (events t + n)).

(** The globals, with [Logger::initialized_] and the operating system. *)
Record Server (W : Type) : Type := mkServer {
  g_running : bool;
  g_connections : gmap Z Connection;
  g_mark_to_fd : gmap Z Z;
  g_stat : Stats;
  initialized_ : bool;
  os : W
}.
Arguments mkServer {W} _ _ _ _ _ _.
Arguments g_running {W} _.
Arguments g_connections {W} _.
Arguments g_mark_to_fd {W} _.
Arguments g_stat {W} _.
Arguments initialized_ {W} _.
Arguments os {W} _.

(** ** Packet framing *)

(** [read_packet_length]: the first four bytes of the buffer. *)
Definition read_packet_length (buf : list byte) : Z :=
  let at_index i := default x00 (buf !! i) in
  or_bytes (at_index 0%nat) (at_index 1%nat) (at_index 2%nat) (at_index 3%nat).

(** [write_packet_length(buf + i, len)]; [None] when it leaves the buffer. *)
Definition write_packet_length (i : nat) (len : Z) (buf : list byte) : option (list byte) :=
  write_at i [byte_at len 0; byte_at len 8; byte_at len 16; byte_at len 24] buf.

(** The block of [process_packet] that appends a frame to the target's
    [send_buf]: [resize], length prefix, [memcpy] of the payload. *)
Definition queue_frame (send_buf data : list byte) (payload_len : Z) : option (list byte) :=
  let prev_size := length send_buf in
  let grown := send_buf ++ replicate (Z.to_nat (LENGTH_SIZE + payload_len)) x00 in
  buf ← write_packet_length prev_size payload_len grown;
  write_at (prev_size + Z.to_nat LENGTH_SIZE)
           (slice (Z.to_nat MARK_SIZE) (Z.to_nat payload_len) data) buf.

(** [main]'s performance report: the snapshot of the previous report and
    the differences printed now. *)
Record PerfState : Type := mkPerf { last : Stats; last_perf_ts : Z }.

(** Counters in the order of [Perf]: bytes in and out, packets in and out,
    dropped on EAGAIN, partial writes, write errors, loops, events. *)
Definition perf_deltas (now before : Stats) : list Z :=
  [u64 (bytes_in now - bytes_in before); u64 (bytes_out now - bytes_out before);
   u64 (packets_in now - packets_in before); u64 (packets_out now - packets_out before);
   u64 (drop_send_eagain now - drop_send_eagain before);
   u64 (partial_writes now - partial_writes before);
   u64 (write_errors now - write_errors before);
   u64 (event_loops now - event_loops before); u64 (events now - events before)].

(** [std::atoi]: white space, sign, digits. *)
Fixpoint atoi_digits (s : list Z) (acc : Z) : Z :=
  match s with
  | c :: s' => if (48 <=? c) && (c <=? 57) then atoi_digits s' (10 * acc + (c - 48)) else acc
  | [] => acc
  end.
Fixpoint atoi (s : list Z) : Z :=
  match s with
  | [] => 0
  | c :: s' =>
      if (c =? 32) || ((9 <=? c) && (c <=? 13)) then atoi s'
      else if c =? 45 then - atoi_digits s' 0
      else if c =? 43 then atoi_digits s' 0
      else atoi_digits s 0
  end.

Section server.
Context {W : Type} `{Posix W}.
Implicit Types (s : Server W).

Definition set_os (w : W) (s : Server W) : Server W :=
  mkServer (g_running s) (g_connections s) (g_mark_to_fd s) (g_stat s) (initialized_ s) w.
Definition set_connections (m : gmap Z Connection) (s : Server W) : Server W :=
  mkServer (g_running s) m (g_mark_to_fd s) (g_stat s) (initialized_ s) (os s).
Definition set_marks (m : gmap Z Z) (s : Server W) : Server W :=
  mkServer (g_running s) (g_connections s) m (g_stat s) (initialized_ s) (os s).
Definition upd_stat (f : Stats → Stats) (s : Server W) : Server W :=
  mkServer (g_running s) (g_connections s) (g_mark_to_fd s) (f (g_stat s)) (initialized_ s) (os s).
Definition set_running (b : bool) (s : Server W) : Server W :=
  mkServer b (g_connections s) (g_mark_to_fd s) (g_stat s) (initialized_ s) (os s).
Definition set_logger (b : bool) (s : Server W) : Server W :=
  mkServer (g_running s) (g_connections s) (g_mark_to_fd s) (g_stat s) b (os s).

(** A system call, its answer. *)
Definition call {A} (f : W → A * W) : prog (Server W) A :=
  λ s, let '(a, w) := f (os s) in Ret (a, set_os w s).
Definition call_ (f : W → W) : prog (Server W) unit := modify (λ s, set_os (f (os s)) s).

Definition stat (f : Stats → Stats) : prog (Server W) unit := modify (upd_stat f).

(** [Logger::log]: standard output or error, and syslog once opened. *)
Definition log (level : LogLevel) (m : log_msg) : prog (Server W) unit :=
  call_ (λ w, sys_print log_msg w (level_value LVL_WARN <=? level_value level) m) ;;
  init ← gets initialized_;
  if (init : bool) then call_ (λ w, sys_syslog log_msg w (log_level_to_syslog level) m)
  else mret tt.

(** Reading and writing through a reference to the node of key [r]. *)
Definition conn_at (r : Z) : prog (Server W) Connection :=
  o ← gets (λ s, g_connections s !! r);
  match o with Some c => mret c | None => undef (UseAfterErase r) end.
Definition store (r : Z) (f : Connection → Connection) : prog (Server W) unit :=
  c ← conn_at r; modify (λ s, set_connections (<[r := f c]> (g_connections s)) s).

(** ** Connections *)

Definition update_epoll_events (epfd fd : Z) (want_write : bool) : prog (Server W) bool :=
  let events := if want_write then Z.lor EPOLLIN EPOLLOUT else EPOLLIN in
  ok ← call (λ w, sys_epoll_ctl w epfd EPOLL_CTL_MOD fd events);
  if (ok : bool) then mret true
  else log LVL_ERR (EpollModFailed fd) ;; mret false.

Definition close_connection (fd epfd : Z) : prog (Server W) unit :=
  it ← gets (λ s, g_connections s !! fd);
  match it with
  | Some c =>
      if registered c then
        modify (λ s, set_marks (delete (mark_to_key (mark c)) (g_mark_to_fd s)) s) ;;
        log LVL_INFO (Disconnected fd (format_mark (mark c))) ;;
        modify (λ s, set_connections (delete fd (g_connections s)) s)
      else
        log LVL_INFO (UnregisteredDisconnected fd) ;;
        modify (λ s, set_connections (delete fd (g_connections s)) s)
  | None => mret tt
  end ;;
  call (λ w, sys_epoll_ctl w epfd EPOLL_CTL_DEL fd 0) ;;
  call_ (λ w, sys_close w fd).

(** The loop of [flush_send_buffer]; a write never takes zero bytes of a
    non-empty buffer without entering the error branch, so the buffer
    shrinks and [S (length send_buf)] rounds suffice. *)
Fixpoint flush_loop (fuel : nat) (r epfd : Z) : prog (Server W) unit :=
  match fuel with
  | O => out_of_fuel
  | S fuel' =>
      conn ← conn_at r;
      match send_buf conn with
      | [] => update_epoll_events epfd (fd conn) false ;; mret tt
      | _ :: _ =>
          sent ← call (λ w, sys_write w (fd conn) (send_buf conn));
          match sent with
          | inl (S n) =>
              stat (add_bytes_out (Z.of_nat (S n))) ;;
              if decide (S n ≤ length (send_buf conn))%nat then
                store r (with_send_buf (drop (S n) (send_buf conn))) ;;
                flush_loop fuel' r epfd
              else undef OutOfBounds
          | inl O => stat (add_write_errors 1) ;; close_connection (fd conn) epfd
          | inr errno =>
              if (errno =? EAGAIN) || (errno =? EWOULDBLOCK)
              then update_epoll_events epfd (fd conn) true ;; mret tt
              else stat (add_write_errors 1) ;; close_connection (fd conn) epfd
          end
      end
  end.

Definition flush_send_buffer (r epfd : Z) : prog (Server W) unit :=
  conn ← conn_at r;
  if fd conn <? 0 then mret tt
  else match send_buf conn with
       | [] => update_epoll_events epfd (fd conn) false ;; mret tt
       | _ :: _ => flush_loop (S (length (send_buf conn))) r epfd
       end.

Definition handle_client_write (fd epfd : Z) : prog (Server W) unit :=
  it ← gets (λ s, g_connections s !! fd);
  match it with
  | None => close_connection fd epfd
  | Some _ => flush_send_buffer fd epfd
  end.

Definition signal_handler (signum : Z) (s : Server W) : Server W :=
  if (signum =? SIGINT) || (signum =? SIGTERM) then set_running false s else s.

Definition set_nonblocking (fd : Z) : prog (Server W) bool :=
  flags ← call (λ w, sys_getfl w fd);
  match flags with
  | None => log LVL_ERR FcntlFailed ;; mret false
  | Some fl =>
      ok ← call (λ w, sys_setfl w fd (Z.lor fl O_NONBLOCK));
      if (ok : bool) then mret true else log LVL_ERR FcntlFailed ;; mret false
  end.

(** [None] is the result -1. *)
Definition create_listen_socket (port : Z) : prog (Server W) (option Z) :=
  sock ← call sys_socket;
  match sock with
  | None => log LVL_ERR SocketFailed ;; mret None
  | Some listen_fd =>
      ok ← call (λ w, sys_setsockopt w listen_fd SO_REUSEADDR);
      if negb ok then
        log LVL_ERR ReuseAddrFailed ;; call_ (λ w, sys_close w listen_fd) ;; mret None
      else
      ok ← call (λ w, sys_bind w listen_fd (u16 port));
      if negb ok then
        log LVL_ERR BindFailed ;; call_ (λ w, sys_close w listen_fd) ;; mret None
      else
      ok ← call (λ w, sys_listen w listen_fd);
      if negb ok then
        log LVL_ERR ListenFailed ;; call_ (λ w, sys_close w listen_fd) ;; mret None
      else
      ok ← set_nonblocking listen_fd;
      if negb ok then call_ (λ w, sys_close w listen_fd) ;; mret None
      else mret (Some listen_fd)
  end.

Definition handle_new_connection (listen_fd epfd : Z) : prog (Server W) unit :=
  res ← call (λ w, sys_accept w listen_fd);
  match res with
  | inr errno =>
      if negb (errno =? EAGAIN) && negb (errno =? EWOULDBLOCK)
      then log LVL_ERR AcceptFailed else mret tt
  | inl client_fd =>
      count ← gets (λ s, Z.of_nat (size (g_connections s)));
      if MAX_CONNECTIONS <=? count then
        log LVL_WARN (ConnectionsFull client_fd) ;; call_ (λ w, sys_close w client_fd)
      else
      ok ← set_nonblocking client_fd;
      if negb ok then call_ (λ w, sys_close w client_fd)
      else
      ok ← call (λ w, sys_setsockopt w client_fd TCP_NODELAY);
      (if negb ok then log LVL_WARN (NoDelayFailed client_fd) else mret tt) ;;
      ok ← call (λ w, sys_setsockopt w client_fd SO_KEEPALIVE);
      (if negb ok then log LVL_WARN (KeepAliveFailed client_fd) else mret tt) ;;
      ok ← call (λ w, sys_epoll_ctl w epfd EPOLL_CTL_ADD client_fd EPOLLIN);
      if negb ok then
        log LVL_ERR EpollAddFailed ;; call_ (λ w, sys_close w client_fd)
      else
      modify (λ s, set_connections (<[client_fd := new_connection client_fd]> (g_connections s)) s) ;;
      count ← gets (λ s, size (g_connections s));
      log LVL_INFO (NewConnection client_fd count)
  end.

(** ** Client data *)

(** [conn] is the reference [r]; [data] is the window of its receive
    buffer that holds the packet.  The result [false] asks the caller to
    close the connection. *)
Definition process_packet (r : Z) (data : list byte) (data_len epfd : Z)
    : prog (Server W) bool :=
  conn ← conn_at r;
  stat (add_packets_in 1) ;;
  if negb (registered conn) then
    if negb (data_len =? MARK_SIZE) then
      log LVL_ERR (BadRegistration (fd conn) data_len) ;; mret false
    else
      let m := take (Z.to_nat MARK_SIZE) data in
      store r (with_mark m) ;;
      let key := mark_to_key m in
      known ← gets (λ s, g_mark_to_fd s !! key);
      match known with
      | Some _ => log LVL_WARN (MarkTaken (fd conn) (format_mark m)) ;; mret false
      | None =>
          store r (with_registered true) ;;
          modify (λ s, set_marks (<[key := fd conn]> (g_mark_to_fd s)) s) ;;
          log LVL_INFO (Registered (fd conn) (format_mark m)) ;;
          mret true
      end
  else if data_len <? MARK_SIZE then
    log LVL_WARN (PacketTooSmall (fd conn) data_len) ;;
    stat (add_drop_small_packet 1) ;; mret true
  else
    let target_key := mark_to_key data in
    target_it ← gets (λ s, g_mark_to_fd s !! target_key);
    match target_it with
    | None =>
        log LVL_WARN (NoTarget (fd conn) (format_mark (take (Z.to_nat MARK_SIZE) data))
                               (u32 (data_len - MARK_SIZE))) ;;
        stat (add_drop_no_target 1) ;; mret true
    | Some target_fd =>
        let payload_len := u32 (data_len - MARK_SIZE) in
        if 0 <? payload_len then
          t_it ← gets (λ s, g_connections s !! target_fd);
          match t_it with
          | None => mret true
          | Some target_conn =>
              match queue_frame (send_buf target_conn) data payload_len with
              | None => undef OutOfBounds
              | Some buf =>
                  store target_fd (with_send_buf buf) ;;
                  stat (add_packets_out 1) ;;
                  flush_send_buffer target_fd epfd ;; mret true
              end
          end
        else mret true
    end.

(** [while (conn.recv_len >= LENGTH_SIZE)]: every round but the last
    consumes at least five bytes, so [S recv_len] rounds suffice. *)
Fixpoint packet_loop (fuel : nat) (r fd epfd : Z) : prog (Server W) unit :=
  match fuel with
  | O => out_of_fuel
  | S fuel' =>
      conn ← conn_at r;
      if recv_len conn <? LENGTH_SIZE then mret tt
      else
      let packet_len := read_packet_length (recv_buf conn) in
      if (packet_len =? 0) || (MAX_PACKET_SIZE <? packet_len)
         || (BUFFER_SIZE <? u32 (LENGTH_SIZE + packet_len)) then
        log LVL_ERR (BadPacketLength fd packet_len) ;; close_connection fd epfd
      else
      let total_len := u32 (LENGTH_SIZE + packet_len) in
      if recv_len conn <? total_len then mret tt
      else
      let packet_data := slice (Z.to_nat LENGTH_SIZE) (Z.to_nat packet_len) (recv_buf conn) in
      ok ← process_packet r packet_data packet_len epfd;
      if negb ok then close_connection fd epfd
      else
      conn ← conn_at r;
      match consume total_len conn with
      | None => undef OutOfBounds
      | Some conn' => store r (λ _, conn') ;; packet_loop fuel' r fd epfd
      end
  end.

Definition handle_client_data (fd epfd : Z) : prog (Server W) unit :=
  it ← gets (λ s, g_connections s !! fd);
  match it with
  | None => log LVL_ERR (UnknownConnection fd) ;; close_connection fd epfd
  | Some conn =>
      let available := BUFFER_SIZE - recv_len conn in
      if available =? 0 then
        log LVL_ERR (ReceiveBufferFull fd) ;; close_connection fd epfd
      else
      n ← call (λ w, sys_read w fd (Z.to_nat available));
      match n with
      | inl [] => close_connection fd epfd
      | inr errno =>
          if negb (errno =? EAGAIN) && negb (errno =? EWOULDBLOCK) then
            log LVL_ERR (ReadFailed fd) ;; close_connection fd epfd
          else mret tt
      | inl bs =>
          match write_at (Z.to_nat (recv_len conn)) bs (recv_buf conn) with
          | None => undef OutOfBounds
          | Some buf =>
              let recv_len' := recv_len conn + Zlen bs in
              store fd (with_recv buf recv_len') ;;
              stat (add_bytes_in (Zlen bs)) ;;
              packet_loop (S (Z.to_nat recv_len')) fd fd epfd
          end
      end
  end.

(** ** The event loop *)

Definition handle_event (listen_fd epfd : Z) (ev : Z * Z) : prog (Server W) unit :=
  let '(fd, events) := ev in
  if fd =? listen_fd then handle_new_connection listen_fd epfd
  else
    (if negb (Z.land events (Z.lor EPOLLERR EPOLLHUP) =? 0) then close_connection fd epfd
     else if negb (Z.land events EPOLLIN =? 0) then handle_client_data fd epfd
     else mret tt) ;;
    (if negb (Z.land events EPOLLOUT =? 0) then handle_client_write fd epfd else mret tt).

(** The performance report of one iteration. *)
Definition perf_report (p : PerfState) : prog (Server W) PerfState :=
  now_ts ← call sys_clock_ms;
  let elapsed_ms := now_ts - last_perf_ts p in
  if 1000 <=? elapsed_ms then
    now ← gets g_stat;
    let no_target := u64 (drop_no_target now - drop_no_target (last p)) in
    let small_packet := u64 (drop_small_packet now - drop_small_packet (last p)) in
    log LVL_INFO (Perf elapsed_ms (perf_deltas now (last p))) ;;
    (if (0 <? no_target) || (0 <? small_packet)
     then log LVL_INFO (PerfDrop no_target small_packet) else mret tt) ;;
    mret (mkPerf now now_ts)
  else mret p.

(** Signals are asynchronous; [g_running] is read only at the head of the
    loop, so the handlers that ran since the last test are run there. *)
Definition deliver_signals : prog (Server W) unit :=
  sigs ← call sys_signals;
  modify (λ s, foldl (λ s n, signal_handler n s) s sigs).

(** [true]: the loop was left, by [g_running] or [break]; [false]: it was
    still running after [fuel] iterations. *)
Fixpoint main_loop (fuel : nat) (listen_fd epfd : Z) (p : PerfState) : prog (Server W) bool :=
  match fuel with
  | O => mret false
  | S fuel' =>
      deliver_signals ;;
      running ← gets g_running;
      if negb running then mret true
      else
      stat (add_event_loops 1) ;;
      nfds ← call (λ w, sys_epoll_wait w epfd MAX_EVENTS 1000);
      match nfds with
      | inr errno =>
          if errno =? EINTR then main_loop fuel' listen_fd epfd p
          else log LVL_ERR EpollWaitFailed ;; mret true
      | inl evs =>
          stat (add_events (Zlen evs)) ;;
          p' ← perf_report p;
          for_each (handle_event listen_fd epfd) evs ;;
          main_loop fuel' listen_fd epfd p'
      end
  end.

Definition logger_init : prog (Server W) unit := modify (set_logger true).
Definition logger_close : prog (Server W) unit := modify (set_logger false).

(** The clean-up behind the loop; the order in which an [unordered_map]
    yields its keys is not specified, and closing does not depend on it. *)
Definition cleanup (listen_fd epfd : Z) : prog (Server W) unit :=
  log LVL_INFO ShuttingDown ;;
  fds ← gets (λ s, elements (dom (g_connections s)));
  for_each (λ fd, call_ (λ w, sys_close w fd)) fds ;;
  modify (set_connections ∅) ;;
  modify (set_marks ∅) ;;
  call_ (λ w, sys_close w epfd) ;;
  call_ (λ w, sys_close w listen_fd) ;;
  log LVL_INFO Stopped ;;
  logger_close.

(** [main]: [argv] without the program name; the result is the exit code,
    or [None] when the loop was still running after [fuel] iterations. *)
Definition main (fuel : nat) (argv : list (list Z)) : prog (Server W) (option Z) :=
  match argv with
  | [arg] =>
      let port := atoi arg in
      if (port <=? 0) || (65535 <? port) then
        call_ (λ w, sys_print log_msg w true InvalidPort) ;; mret (Some 1)
      else
      logger_init ;;
      call_ (λ w, sys_signal w SIGINT SigHandler) ;;
      call_ (λ w, sys_signal w SIGTERM SigHandler) ;;
      call_ (λ w, sys_signal w SIGPIPE SigIgnore) ;;
      lfd ← create_listen_socket port;
      match lfd with
      | None => logger_close ;; mret (Some 1)
      | Some listen_fd =>
          ep ← call sys_epoll_create;
          match ep with
          | None =>
              log LVL_ERR EpollCreateFailed ;;
              call_ (λ w, sys_close w listen_fd) ;; logger_close ;; mret (Some 1)
          | Some epfd =>
              ok ← call (λ w, sys_epoll_ctl w epfd EPOLL_CTL_ADD listen_fd EPOLLIN);
              if negb ok then
                log LVL_ERR EpollAddFailed ;;
                call_ (λ w, sys_close w epfd) ;; call_ (λ w, sys_close w listen_fd) ;;
                logger_close ;; mret (Some 1)
              else
              log LVL_INFO (Started port) ;;
              now ← call sys_clock_ms;
              left ← main_loop fuel listen_fd epfd (mkPerf zero_stats now);
              if negb left then mret None
              else cleanup listen_fd epfd ;; mret (Some 0)
          end
      end
  | _ => call_ (λ w, sys_print log_msg w false Usage) ;; mret (Some 1)
  end.
End server.

(** The program's start: zero-initialised globals, [g_running = 1]. *)
Definition boot {W} (w : W) : Server W := mkServer true ∅ ∅ zero_stats false w.
