(* ===== verification/RelayBuffers.v ===== *)
(** * The relay's buffers and encodings

    Lemmas about the pure part of [RelayServer]: the length prefix, the
    frame appended for a target, the receive buffer and [consume], the map
    key of a mark.  The receive buffer is an array of [BUFFER_SIZE] bytes
    whose first [recv_len] bytes are live; [live] is the list it represents. *)

From stdpp Require Import base gmap list.
From Stdlib Require Import ZArith Lia.
From S2P Require Import Prelude Bytes Framing RelayServer.

(** The constants by value, for [lia]. *)
Ltac relay_consts :=
  unfold MAX_CONNECTIONS, BUFFER_SIZE, MAX_PACKET_SIZE, LENGTH_SIZE, MARK_SIZE in *.

(** The lengths [handle_client_data] accepts. *)
Definition relay_accepts (n : Z) : bool :=
  negb ((n =? 0) || (MAX_PACKET_SIZE <? n) || (BUFFER_SIZE <? u32 (LENGTH_SIZE + n))).

Lemma relay_accepts_spec n : 0 ≤ n < 2 ^ 32 → relay_accepts n = true ↔ 0 < n ≤ 65532.
Proof.
  intros Hn. unfold relay_accepts. rewrite negb_true_iff, !orb_false_iff.
  relay_consts. destruct (decide (n ≤ 65535)).
  - rewrite u32_small by lia. lia.
  - lia.
Qed.

(** ** Length prefix *)

Lemma read_packet_length_header buf : (4 ≤ length buf)%nat → read_packet_length buf = header buf.
Proof.
  intros Hl. destruct buf as [|b0 [|b1 [|b2 [|b3 l]]]]; simpl in Hl; try lia.
  apply or_bytes_le.
Qed.

Lemma write_packet_length_bytes i n buf :
  write_packet_length i n buf = write_at i (le_bytes 4 n) buf.
Proof. unfold write_packet_length. by rewrite bytes_at_le. Qed.

(** The frame queued for a target is the frame of the payload. *)
Lemma queue_frame_ok send_buf data payload_len :
  0 ≤ payload_len → Zlen data = MARK_SIZE + payload_len →
  queue_frame send_buf data payload_len = Some (send_buf ++ frame (drop 8 data)).
Proof.
  intros Hp Hd. unfold queue_frame. rewrite write_packet_length_bytes.
  assert (length data = 8 + Z.to_nat payload_len)%nat as Hlen
    by (unfold Zlen, MARK_SIZE in Hd; lia).
  relay_consts. unfold slice. change (Z.to_nat 8) with 8%nat. change (Z.to_nat 4) with 4%nat.
  rewrite (take_ge (drop 8 data)) by (rewrite length_drop; lia).
  rewrite Z2Nat.inj_add by lia. change (Z.to_nat 4) with 4%nat.
  rewrite replicate_add.
  rewrite (write_at_app _ _ (replicate 4 x00)) by (by rewrite le_bytes_length).
  cbn [mbind option_bind]. rewrite (app_assoc send_buf).
  rewrite (write_at_end _ _ (replicate (Z.to_nat payload_len) x00)).
  - rewrite <- app_assoc. do 3 f_equal. rewrite frame_unfold. do 2 f_equal.
    unfold Zlen. rewrite length_drop. lia.
  - by rewrite length_app, le_bytes_length.
  - rewrite length_drop, length_replicate. lia.
Qed.

(** ** The receive buffer *)

Definition live (c : Connection) : list byte := take (Z.to_nat (recv_len c)) (recv_buf c).

(** The array keeps its size and the live part fits in it. *)
Record buffer_wf (c : Connection) : Prop := {
  buffer_size : Zlen (recv_buf c) = BUFFER_SIZE;
  live_range : 0 ≤ recv_len c ≤ BUFFER_SIZE
}.

Lemma live_length c : buffer_wf c → Zlen (live c) = recv_len c.
Proof. intros [Hs Hr]. unfold live, Zlen in *. rewrite length_take. lia. Qed.

Lemma header_live c : buffer_wf c → LENGTH_SIZE ≤ recv_len c →
  read_packet_length (recv_buf c) = header (live c).
Proof.
  intros [Hs Hr] H4. relay_consts. unfold Zlen in Hs.
  rewrite read_packet_length_header by lia. unfold header, live.
  rewrite take_take. f_equal. f_equal. lia.
Qed.

Lemma slice_live c i n : (i + n ≤ Z.to_nat (recv_len c))%nat →
  slice i n (recv_buf c) = slice i n (live c).
Proof.
  intros Hle. unfold slice, live. by rewrite skipn_firstn_comm'.
Qed.

Lemma consume_ok len c :
  buffer_wf c → 0 ≤ len ≤ recv_len c →
  ∃ buf, consume len c = Some (with_recv buf (recv_len c - len) c) ∧
    buffer_wf (with_recv buf (recv_len c - len) c) ∧
    live (with_recv buf (recv_len c - len) c) = drop (Z.to_nat len) (live c).
Proof.
  intros Hwf Hlen. pose proof (live_length c Hwf) as Hll. destruct Hwf as [Hs Hr].
  unfold consume. destruct (Z.leb_spec (recv_len c) len) as [Hle|Hgt].
  - exists (recv_buf c). replace (recv_len c - len) with 0 by lia. split_and!; [done| |].
    + split; simpl; [done|relay_consts; lia].
    + unfold live at 1. simpl. rewrite drop_ge; [done|]. unfold Zlen in Hll. lia.
  - set (n := Z.to_nat (recv_len c - len)).
    assert (length (slice (Z.to_nat len) n (recv_buf c)) = n) as Hsl.
    { unfold slice, Zlen in *. rewrite length_take, length_drop. lia. }
    destruct (write_at 0 (slice (Z.to_nat len) n (recv_buf c)) (recv_buf c)) as [buf|] eqn:Hw.
    2: { unfold write_at in Hw. rewrite decide_True in Hw; [done|]. rewrite Hsl. unfold Zlen in *. lia. }
    exists buf. split_and!; [done| |].
    + apply write_at_length in Hw. split; simpl; [|lia]. unfold Zlen in *. by rewrite Hw.
    + apply write_at_prefix in Hw. unfold live. simpl. fold n.
      rewrite Hsl in Hw. simpl in Hw. rewrite Hw. unfold slice.
      rewrite take_drop_shift. f_equal. f_equal. lia.
Qed.

Lemma receive_live c bs buf :
  buffer_wf c → write_at (Z.to_nat (recv_len c)) bs (recv_buf c) = Some buf →
  recv_len c + Zlen bs ≤ BUFFER_SIZE →
  buffer_wf (with_recv buf (recv_len c + Zlen bs) c) ∧
  live (with_recv buf (recv_len c + Zlen bs) c) = live c ++ bs.
Proof.
  intros [Hs Hr] Hw Hle. split.
  - apply write_at_length in Hw. split; simpl; [unfold Zlen in *; by rewrite Hw|].
    unfold Zlen in *. lia.
  - apply write_at_prefix in Hw. unfold live. simpl. rewrite <- Hw. f_equal.
    unfold Zlen. lia.
Qed.

Lemma receive_fits c bs :
  buffer_wf c → recv_len c + Zlen bs ≤ BUFFER_SIZE →
  ∃ buf, write_at (Z.to_nat (recv_len c)) bs (recv_buf c) = Some buf.
Proof.
  intros [Hs Hr] Hle. unfold write_at. rewrite decide_True; [eauto|].
  unfold Zlen in *. lia.
Qed.

(** The tests at the head of the loop of [handle_client_data] are the frame
    parser of the wire format on the live bytes. *)
Lemma loop_head c :
  buffer_wf c →
  next_frame relay_accepts (live c) =
    if recv_len c <? LENGTH_SIZE then NeedMore
    else
      let packet_len := read_packet_length (recv_buf c) in
      if (packet_len =? 0) || (MAX_PACKET_SIZE <? packet_len)
         || (BUFFER_SIZE <? u32 (LENGTH_SIZE + packet_len)) then BadLength
      else
        let total_len := u32 (LENGTH_SIZE + packet_len) in
        if recv_len c <? total_len then NeedMore
        else Complete (slice (Z.to_nat LENGTH_SIZE) (Z.to_nat packet_len) (recv_buf c))
                      (drop (Z.to_nat total_len) (live c)).
Proof.
  intros Hwf. pose proof (live_length c Hwf) as Hll. unfold next_frame.
  destruct (recv_len c <? LENGTH_SIZE) eqn:H4.
  { rewrite decide_True; [done|]. relay_consts. unfold Zlen in Hll. lia. }
  rewrite decide_False by (relay_consts; unfold Zlen in Hll; lia).
  rewrite header_live by (done || lia). cbv zeta.
  pose proof (header_nonneg (live c)) as Hh. pose proof (header_bound (live c)) as Hb.
  unfold relay_accepts. rewrite negb_involutive.
  destruct ((header (live c) =? 0) || (MAX_PACKET_SIZE <? header (live c))
            || (BUFFER_SIZE <? u32 (LENGTH_SIZE + header (live c)))) eqn:Hbad; [done|].
  apply orb_false_elim in Hbad as [[? ?]%orb_false_elim _].
  assert (u32 (LENGTH_SIZE + header (live c)) = 4 + header (live c)) as ->.
  { unfold LENGTH_SIZE. apply u32_small. relay_consts. lia. }
  rewrite Hll. case_decide as Hlen.
  - by rewrite (proj2 (Z.ltb_lt _ _) Hlen).
  - rewrite (proj2 (Z.ltb_ge _ _)) by lia. f_equal.
    + symmetry. apply slice_live. relay_consts. lia.
    + f_equal. lia.
Qed.

(** A buffer without a complete frame is never full. *)
Lemma quiet_not_full c :
  buffer_wf c → next_frame relay_accepts (live c) = NeedMore → recv_len c < BUFFER_SIZE.
Proof.
  intros Hwf. rewrite <- (live_length c Hwf). unfold next_frame. relay_consts.
  case_decide as H4; [unfold Zlen; lia|].
  pose proof (header_nonneg (live c)). pose proof (header_bound (live c)).
  destruct (relay_accepts (header (live c))) eqn:Hok; cbn [negb]; [|done].
  apply relay_accepts_spec in Hok; [|lia]. case_decide; [lia|done].
Qed.

(** ** Marks *)

Lemma mark_to_key_inj m m' :
  Zlen m = MARK_SIZE → Zlen m' = MARK_SIZE → mark_to_key m = mark_to_key m' → m = m'.
Proof.
  unfold mark_to_key, Zlen. relay_consts. intros Hm Hm'.
  rewrite !take_ge by lia. apply le_val_inj. lia.
Qed.

Lemma mark_to_key_take m : mark_to_key (take 8 m) = mark_to_key m.
Proof. unfold mark_to_key. change (Z.to_nat MARK_SIZE) with 8%nat. by rewrite take_take. Qed.

Lemma new_connection_wf r : buffer_wf (new_connection r).
Proof.
  unfold new_connection. split; cbn [recv_buf recv_len].
  - unfold Zlen. rewrite length_replicate. done.
  - relay_consts. lia.
Qed.

Lemma new_connection_live r : live (new_connection r) = [].
Proof. unfold live, new_connection. cbn [recv_buf recv_len]. apply take_0. Qed.

Lemma new_connection_fields r :
  fd (new_connection r) = r ∧ Zlen (mark (new_connection r)) = MARK_SIZE ∧
  registered (new_connection r) = false ∧ send_buf (new_connection r) = [].
Proof. done. Qed.

#[global] Opaque new_connection.
