(* ===== verification/RelaySpec.v ===== *)
(** * What the relay promises

    An abstract relay over whole packets: no buffers, no byte streams, no
    partial reads or writes.  A peer has the key it registered, the packets
    received from it and the packets queued for it.  [RelayRefinement] proves
    that the server implements this transition system; the lemmas of this
    file say what holds in every state it reaches. *)

From stdpp Require Import base gmap list fin_maps.
From Stdlib Require Import ZArith Lia.
From S2P Require Import Prelude Bytes RelayServer RelayBuffers.

Record peer : Type := mkPeer {
  p_key : option Z;
  p_in : list (list byte);
  p_out : list (list byte)
}.

Definition fresh_peer : peer := mkPeer None [] [].
Definition add_in (pkt : list byte) (p : peer) : peer :=
  mkPeer (p_key p) (p_in p ++ [pkt]) (p_out p).
Definition add_out (pkt : list byte) (p : peer) : peer :=
  mkPeer (p_key p) (p_in p) (p_out p ++ [pkt]).
Definition set_key (k : Z) (p : peer) : peer := mkPeer (Some k) (p_in p) (p_out p).

Inductive event : Type :=
  | Accepted (r : Z)
  | Received (r : Z) (pkt : list byte)
  | Closed (r : Z).

(** Peer [r] is registered under [k]. *)
Definition owns (a : gmap Z peer) (r k : Z) : Prop := ∃ p, a !! r = Some p ∧ p_key p = Some k.

(** What a packet makes the relay do. *)
Inductive relay_step : gmap Z peer → event → gmap Z peer → Prop :=
  | step_accept a r :
      a !! r = None → Z.of_nat (size a) < MAX_CONNECTIONS →
      relay_step a (Accepted r) (<[r := fresh_peer]> a)
  | step_close a r p :
      a !! r = Some p → relay_step a (Closed r) (delete r a)
  (* the first packet of a peer is its mark; it must be new *)
  | step_register a r p m :
      a !! r = Some p → p_key p = None →
      Zlen m = MARK_SIZE → (∀ r', ¬ owns a r' (mark_to_key m)) →
      relay_step a (Received r m) (<[r := set_key (mark_to_key m) (add_in m p)]> a)
  | step_reject a r p m :
      a !! r = Some p → p_key p = None →
      (Zlen m ≠ MARK_SIZE ∨ ∃ r', owns a r' (mark_to_key m)) →
      relay_step a (Received r m) (delete r a)
  (* later packets are a target's mark and a payload *)
  | step_drop a r p k pkt :
      a !! r = Some p → p_key p = Some k →
      (Zlen pkt ≤ MARK_SIZE ∨ ∀ r', ¬ owns a r' (mark_to_key pkt)) →
      relay_step a (Received r pkt) (<[r := add_in pkt p]> a)
  | step_forward a r p k t pkt :
      a !! r = Some p → p_key p = Some k →
      MARK_SIZE < Zlen pkt → owns a t (mark_to_key pkt) →
      relay_step a (Received r pkt)
        (alter (add_out (drop 8 pkt)) t (<[r := add_in pkt p]> a)).

Inductive relay_steps : gmap Z peer → list event → gmap Z peer → Prop :=
  | steps_nil a : relay_steps a [] a
  | steps_cons a e a' es a'' :
      relay_step a e a' → relay_steps a' es a'' → relay_steps a (e :: es) a''.

Lemma relay_steps_one a e a' : relay_step a e a' → relay_steps a [e] a'.
Proof. intros. eapply steps_cons; [done|apply steps_nil]. Qed.

Lemma relay_steps_app a es a' es' a'' :
  relay_steps a es a' → relay_steps a' es' a'' → relay_steps a (es ++ es') a''.
Proof. induction 1; [done|]. intros. eapply steps_cons; eauto. Qed.

(** Closing a descriptor that is no peer is not an event. *)
Lemma relay_steps_close' a r :
  ∃ es, relay_steps a es (delete r a) ∧ (es = [] ∨ es = [Closed r]).
Proof.
  destruct (a !! r) as [p|] eqn:Hr.
  - exists [Closed r]. split; [|by right]. by eapply relay_steps_one, step_close.
  - exists []. rewrite delete_id by done. split; [apply steps_nil|by left].
Qed.

Lemma relay_steps_close a r : ∃ es, relay_steps a es (delete r a).
Proof. destruct (relay_steps_close' a r) as (es & ? & _). eauto. Qed.

(** ** Registry facts *)

Lemma owns_insert_same_key a r p p' t k :
  a !! r = Some p → p_key p' = p_key p → owns (<[r := p']> a) t k ↔ owns a t k.
Proof.
  intros Hr Hk. unfold owns. destruct (decide (t = r)) as [->|Hne].
  - rewrite lookup_insert_eq, Hr. naive_solver congruence.
  - by rewrite lookup_insert_ne.
Qed.

Lemma owns_alter_out a t q r k : owns (alter (add_out q) t a) r k ↔ owns a r k.
Proof.
  unfold owns. rewrite lookup_alter. case_decide as Heq; [subst|done].
  destruct (a !! r) as [p|]; simpl; [|naive_solver]. split; intros (p' & ? & ?); simplify_eq; eauto.
Qed.

Lemma owns_insert_key a r p k0 t k :
  p_key p = Some k0 → owns (<[r := p]> a) t k ↔ (t = r ∧ k = k0) ∨ (t ≠ r ∧ owns a t k).
Proof.
  intros Hp. unfold owns. destruct (decide (t = r)) as [->|Hne].
  - rewrite lookup_insert_eq. naive_solver congruence.
  - rewrite lookup_insert_ne by done. naive_solver.
Qed.

Lemma owns_insert_none a r p t k :
  p_key p = None → owns (<[r := p]> a) t k ↔ t ≠ r ∧ owns a t k.
Proof.
  intros Hp. unfold owns. destruct (decide (t = r)) as [->|Hne].
  - rewrite lookup_insert_eq. naive_solver congruence.
  - rewrite lookup_insert_ne by done. naive_solver.
Qed.

Lemma owns_delete a r t k : owns (delete r a) t k ↔ t ≠ r ∧ owns a t k.
Proof.
  unfold owns. rewrite lookup_delete. case_decide; naive_solver.
Qed.

(** ** Reachable states *)

(** Two peers never share a key, and there are at most four of them. *)
Definition relay_inv (a : gmap Z peer) : Prop :=
  (∀ r r' k, owns a r k → owns a r' k → r = r') ∧ Z.of_nat (size a) ≤ MAX_CONNECTIONS.

Lemma size_insert_present (a : gmap Z peer) r p p' :
  a !! r = Some p → size (<[r := p']> a) = size a.
Proof. intros. apply map_size_insert_Some. eauto. Qed.

Lemma size_alter (f : peer → peer) (a : gmap Z peer) r : size (alter f r a) = size a.
Proof. rewrite <- !size_dom. by rewrite dom_alter_L. Qed.

Lemma size_delete_le (a : gmap Z peer) r : (size (delete r a) ≤ size a)%nat.
Proof. rewrite map_size_delete. case_match; simpl; lia. Qed.

Lemma relay_step_inv a e a' : relay_step a e a' → relay_inv a → relay_inv a'.
Proof.
  intros Hstep [Huniq Hsize].
  destruct Hstep; split; try (intros r1 r2 k1).
  - rewrite !owns_insert_none by done. naive_solver.
  - rewrite map_size_insert_None by done. lia.
  - rewrite !owns_delete. naive_solver.
  - pose proof (size_delete_le a r). lia.
  - rewrite !owns_insert_key by done. naive_solver.
  - erewrite size_insert_present by done. lia.
  - rewrite !owns_delete. naive_solver.
  - pose proof (size_delete_le a r). lia.
  - erewrite !owns_insert_same_key by done. naive_solver.
  - erewrite size_insert_present by done. lia.
  - rewrite !owns_alter_out. erewrite !owns_insert_same_key by done. naive_solver.
  - rewrite size_alter. erewrite size_insert_present by done. lia.
Qed.

Lemma relay_steps_inv a es a' : relay_steps a es a' → relay_inv a → relay_inv a'.
Proof. induction 1; eauto using relay_step_inv. Qed.

Lemma relay_inv_empty : relay_inv ∅.
Proof.
  split; [|done]. intros r r' k (p & Hp & _). by rewrite lookup_empty in Hp.
Qed.

(** The step a forwarded packet takes is determined. *)
Lemma forward_step a r p k t data a1 :
  relay_inv a → a !! r = Some p → p_key p = Some k → owns a t (mark_to_key data) →
  MARK_SIZE < Zlen data → relay_step a (Received r data) a1 →
  a1 = alter (add_out (drop 8 data)) t (<[r := add_in data p]> a).
Proof.
  intros [Huniq _] Hp Hk Ht Hlen Hstep. inversion Hstep; simplify_eq.
  - match goal with H : _ ∨ _ |- _ => destruct H as [|Hno] end; [lia|].
    by destruct (Hno _ Ht).
  - match goal with H : owns a ?t0 _ |- _ = alter _ ?t' _ =>
      by rewrite (Huniq t' t0 _ Ht ltac:(eassumption)) end.
Qed.

(** The packets received from the present peer [r]: those since it was last
    accepted. *)
Definition input_step (r : Z) (acc : list (list byte)) (e : event) : list (list byte) :=
  match e with
  | Accepted r' => if decide (r' = r) then [] else acc
  | Received r' pkt => if decide (r' = r) then acc ++ [pkt] else acc
  | Closed _ => acc
  end.

Definition inputs (r : Z) (es : list event) : list (list byte) := foldl (input_step r) [] es.

Definition inputs_logged (es : list event) (a : gmap Z peer) : Prop :=
  ∀ r p, a !! r = Some p → p_in p = inputs r es.

Lemma inputs_snoc r es e : inputs r (es ++ [e]) = input_step r (inputs r es) e.
Proof. unfold inputs. by rewrite foldl_app. Qed.

Lemma inputs_logged_insert r e es a p :
  (∀ t, t ≠ r → inputs t (es ++ [e]) = inputs t es) → p_in p = inputs r (es ++ [e]) →
  inputs_logged es a → inputs_logged (es ++ [e]) (<[r := p]> a).
Proof.
  intros Hother Hp Ha t pt. rewrite lookup_insert_Some. intros [[<- <-]|[Hne Ht]]; [done|].
  rewrite Hother by done. by apply Ha.
Qed.

Lemma inputs_logged_delete r e es a :
  (∀ t, t ≠ r → inputs t (es ++ [e]) = inputs t es) →
  inputs_logged es a → inputs_logged (es ++ [e]) (delete r a).
Proof. intros Hother Ha t pt [Hne Ht]%lookup_delete_Some. rewrite Hother by done. by apply Ha. Qed.

Lemma inputs_logged_alter q t es a : inputs_logged es a → inputs_logged es (alter (add_out q) t a).
Proof.
  intros Ha r p. rewrite lookup_alter. case_decide as Heq; [|apply Ha].
  intros (p0 & Hp0 & ->)%fmap_Some. subst. by apply (Ha _ p0).
Qed.

Lemma inputs_other t es e :
  match e with Accepted r | Received r _ => t ≠ r | Closed _ => True end →
  inputs t (es ++ [e]) = inputs t es.
Proof. rewrite inputs_snoc. destruct e; simpl; intros; try case_decide; congruence. Qed.

Lemma inputs_received es a r p pkt :
  inputs_logged es a → a !! r = Some p → p_in p ++ [pkt] = inputs r (es ++ [Received r pkt]).
Proof. intros Ha Hr. rewrite inputs_snoc. simpl. rewrite decide_True by done. by rewrite (Ha r p Hr). Qed.

Lemma relay_step_inputs es a e a' :
  relay_step a e a' → inputs_logged es a → inputs_logged (es ++ [e]) a'.
Proof.
  intros Hstep Ha.
  destruct Hstep; try apply inputs_logged_alter;
    first [apply inputs_logged_delete|apply inputs_logged_insert]; try done;
    try (intros t' Ht'; by apply inputs_other); try (by eapply inputs_received).
  rewrite inputs_snoc. simpl. by rewrite decide_True.
Qed.

Lemma relay_steps_inputs es0 a es a' :
  relay_steps a es a' → inputs_logged es0 a → inputs_logged (es0 ++ es) a'.
Proof.
  intros Hsteps. revert es0. induction Hsteps as [a|a e a' es a'' Hs _ IH]; intros es0 Ha.
  - by rewrite app_nil_r.
  - rewrite cons_middle, app_assoc. apply IH. by eapply relay_step_inputs.
Qed.

(** What a trace says about peer [r], replayed from its packets alone: the
    peers past their registration packet, the key [r] registered and the
    payloads addressed to that key since then. *)
Record view : Type := mkView { v_active : gset Z; v_key : option Z; v_out : list (list byte) }.

Definition view_step (r : Z) (v : view) (e : event) : view :=
  match e with
  | Accepted r' =>
      mkView (v_active v ∖ {[r']})
             (if decide (r' = r) then None else v_key v) (if decide (r' = r) then [] else v_out v)
  | Received r' q =>
      if decide (r' ∈ v_active v) then
        if decide (MARK_SIZE < Zlen q ∧ v_key v = Some (mark_to_key q))
        then mkView (v_active v) (v_key v) (v_out v ++ [drop 8 q]) else v
      else mkView ({[r']} ∪ v_active v) (if decide (r' = r) then Some (mark_to_key q) else v_key v)
                  (v_out v)
  | Closed _ => v
  end.

Definition view_of (r : Z) (es : list event) : view := foldl (view_step r) (mkView ∅ None []) es.

(** The payloads the relay owes peer [r] after the trace [es]. *)
Definition outputs (r : Z) (es : list event) : list (list byte) := v_out (view_of r es).

Lemma view_of_snoc r es e : view_of r (es ++ [e]) = view_step r (view_of r es) e.
Proof. unfold view_of. by rewrite foldl_app. Qed.

Lemma active_indep r r' es : v_active (view_of r es) = v_active (view_of r' es).
Proof.
  induction es as [|e es IH] using rev_ind; [done|]. rewrite !view_of_snoc.
  destruct e; simpl; [by rewrite IH| |done].
  rewrite IH. repeat case_decide; simpl; by rewrite ?IH.
Qed.

(** A present peer agrees with its view. *)
Definition agrees (es : list event) (r : Z) (p : peer) : Prop :=
  v_key (view_of r es) = p_key p ∧ v_out (view_of r es) = p_out p ∧
  (r ∈ v_active (view_of r es) ↔ is_Some (p_key p)).

Definition viewed (es : list event) (a : gmap Z peer) : Prop :=
  ∀ r p, a !! r = Some p → agrees es r p.

Lemma viewed_empty es : viewed es ∅.
Proof. intros r p Hr. by rewrite lookup_empty in Hr. Qed.

(** Events of other peers: a packet that is not forwarded to [r]. *)
Lemma agrees_other es r p e :
  agrees es r p →
  match e with
  | Accepted r' => r' ≠ r
  | Received r' q =>
      (r' ∈ v_active (view_of r es) ∨ r' ≠ r) ∧
      (r' ∈ v_active (view_of r es) → ¬ (MARK_SIZE < Zlen q ∧ p_key p = Some (mark_to_key q)))
  | Closed _ => True
  end → agrees (es ++ [e]) r p.
Proof.
  unfold agrees. rewrite view_of_snoc. intros (Hk & Ho & Ha). destruct e as [r'|r' q|r']; simpl.
  - intros Hne. rewrite !decide_False by done. rewrite Hk, Ho. split_and!; [done..|set_solver].
  - intros Hcase. rewrite Hk. case_decide as Hact.
    + rewrite decide_False by naive_solver. done.
    + destruct Hcase as [[?|Hne] _]; [done|]. simpl. rewrite decide_False by done.
      split_and!; [done..|set_solver].
  - done.
Qed.

Lemma agrees_add_in es r p q : agrees es r (add_in q p) ↔ agrees es r p.
Proof. done. Qed.

(** Senders past their registration packet. *)
Lemma viewed_active es a r r' p' :
  viewed es a → a !! r' = Some p' → r' ∈ v_active (view_of r es) ↔ is_Some (p_key p').
Proof. intros Ha Hr'. rewrite (active_indep r r'). by apply (Ha r' p'). Qed.

Lemma viewed_other es e a r p :
  viewed es a → a !! r = Some p →
  match e with
  | Accepted r' => r' ≠ r
  | Received r' q => ∃ p', a !! r' = Some p' ∧ (is_Some (p_key p') ∨ r' ≠ r) ∧
      (is_Some (p_key p') → ¬ (MARK_SIZE < Zlen q ∧ p_key p = Some (mark_to_key q)))
  | Closed _ => True
  end → agrees (es ++ [e]) r p.
Proof.
  intros Ha Hr He. apply agrees_other; [by apply Ha|]. destruct e as [|r' q|]; [done| |done].
  destruct He as (p' & Hr' & ?). by rewrite (viewed_active es a r r' p').
Qed.

Lemma relay_step_viewed es a e a' :
  relay_step a e a' → relay_inv a → viewed es a → viewed (es ++ [e]) a'.
Proof.
  intros Hstep [Huniq _] Ha.
  destruct Hstep as [a r0|a r0 p0 Hr0|a r0 p0 m Hr0 Hk0|a r0 p0 m Hr0 Hk0
                    |a r0 p0 k pkt Hr0 Hk0 Hdrop|a r0 p0 k t pkt Hr0 Hk0 Hlen Ht]; intros r p Hr.
  - apply lookup_insert_Some in Hr as [[<- <-]|[Hne Hr]]; [|by eapply viewed_other].
    unfold agrees. rewrite view_of_snoc. simpl. rewrite !decide_True by done.
    split_and!; [done..|]. rewrite elem_of_difference, elem_of_singleton. split; [naive_solver|by intros [? ?]].
  - apply lookup_delete_Some in Hr as [Hne Hr]. by eapply viewed_other.
  - apply lookup_insert_Some in Hr as [[<- <-]|[Hne Hr]].
    + destruct (Ha r0 p0 Hr0) as (_ & Ho & Hact). unfold agrees. rewrite view_of_snoc. simpl.
      rewrite decide_False by (rewrite Hact, Hk0; by intros [? ?]). simpl. rewrite decide_True by done.
      split_and!; [done..|]. split; [eauto|]. intros _. apply elem_of_union_l. by apply elem_of_singleton.
    + eapply viewed_other; [done..|]. exists p0. rewrite Hk0. split_and!; [done|by right|by intros [? ?]].
  - apply lookup_delete_Some in Hr as [Hne Hr]. eapply viewed_other; [done..|].
    exists p0. rewrite Hk0. split_and!; [done|by right|by intros [? ?]].
  - assert (∀ r p, a !! r = Some p → agrees (es ++ [Received r0 pkt]) r p) as Hall.
    { intros r1 p1 Hr1. eapply viewed_other; [done..|]. exists p0. rewrite Hk0.
      split_and!; [done|by left; eauto|]. intros _ [Hlen Hk1]. destruct Hdrop as [|Hno]; [lia|].
      apply (Hno r1). by exists p1. }
    apply lookup_insert_Some in Hr as [[<- <-]|[Hne Hr]]; [|by apply Hall].
    apply agrees_add_in. by apply Hall.
  - assert (∀ p', a !! t = Some p' → agrees (es ++ [Received r0 pkt]) t (add_out (drop 8 pkt) p')) as Htarget.
    { intros p' Hp'. destruct (Ha t p' Hp') as (Hk & Ho & Hact). unfold agrees. rewrite view_of_snoc.
      simpl. rewrite decide_True by (rewrite (viewed_active es a t r0 p0), Hk0; eauto).
      destruct Ht as (pt & ? & Hkt). simplify_eq. rewrite decide_True by (by rewrite Hk).
      simpl. by rewrite Ho. }
    assert (∀ r p, r ≠ t → a !! r = Some p → agrees (es ++ [Received r0 pkt]) r p) as Hall.
    { intros r1 p1 Hne Hr1. eapply viewed_other; [done..|]. exists p0. rewrite Hk0.
      split_and!; [done|by left; eauto|]. intros _ [_ Hk1]. apply Hne. eapply Huniq; [|exact Ht].
      by exists p1. }
    rewrite lookup_alter in Hr. case_decide as Heq.
    + subst r. apply fmap_Some in Hr as (p1 & Hp1 & ->).
      apply lookup_insert_Some in Hp1 as [[-> <-]|[Hne Hp1]]; [|by apply Htarget].
      by apply (Htarget p0).
    + apply lookup_insert_Some in Hr as [[<- <-]|[Hne Hr]]; [|by apply Hall].
      apply agrees_add_in. by apply Hall.
Qed.

Lemma relay_steps_viewed es0 a es a' :
  relay_steps a es a' → relay_inv a → viewed es0 a → viewed (es0 ++ es) a'.
Proof.
  intros Hsteps. revert es0. induction Hsteps as [a|a e a' es a'' Hs _ IH]; intros es0 Hi Ha.
  - by rewrite app_nil_r.
  - rewrite cons_middle, app_assoc.
    apply IH; [by eapply relay_step_inv|by eapply relay_step_viewed].
Qed.

(** The packets of a trace, with their senders. *)
Definition packets_of (es : list event) : list (Z * list byte) :=
  omap (λ e, match e with Received r q => Some (r, q) | _ => None end) es.

Lemma packets_of_cons e es : packets_of (e :: es) = packets_of [e] ++ packets_of es.
Proof. unfold packets_of. by rewrite (omap_app _ [e] es). Qed.

(** The trace [es] handles the packets [ps] of peer [r] in order: all of
    them, or a prefix when the peer is [gone] afterwards.  Nobody joins. *)
Definition serves (r : Z) (ps : list (list byte)) (gone : Prop) (es : list event) : Prop :=
  (∀ r', Accepted r' ∉ es) ∧
  (packets_of es = (λ q, (r, q)) <$> ps ∨
   gone ∧ packets_of es `prefix_of` ((λ q, (r, q)) <$> ps)).

Lemma serves_nil r (gone : Prop) : serves r [] gone [].
Proof. split; [intros r'; apply not_elem_of_nil|by left]. Qed.

Lemma serves_stop r ps (gone : Prop) es :
  gone → packets_of es = [] → (∀ r', Accepted r' ∉ es) → serves r ps gone es.
Proof. intros Hg He Ha. split; [done|right]. split; [done|]. rewrite He. apply prefix_nil. Qed.

Lemma serves_reject r q ps (gone : Prop) : gone → serves r (q :: ps) gone [Received r q].
Proof.
  intros Hg. split; [intros r' ?%list_elem_of_singleton; done|right]. split; [done|].
  by exists ((λ q, (r, q)) <$> ps).
Qed.

Lemma serves_cons r q ps (gone : Prop) es : serves r ps gone es → serves r (q :: ps) gone (Received r q :: es).
Proof.
  intros [Ha Hp]. split; [intros r'; apply not_elem_of_cons; done|].
  rewrite packets_of_cons, fmap_cons. destruct Hp as [->|[Hg Hp]]; [by left|right].
  split; [done|]. by apply prefix_cons.
Qed.

Lemma serves_closed r ps (gone : Prop) t es : serves r ps gone es → serves r ps gone (Closed t :: es).
Proof. intros [Ha Hp]. split; [intros r'; apply not_elem_of_cons; done|done]. Qed.
