(* ===== verification/RelayRefinement.v ===== *)
(** * The server implements the abstract relay

    [rel] relates a state of the server to an abstract relay: per connection,
    the bytes written plus the bytes waiting in [send_buf] are the frames of
    the packets queued for the peer, and the bytes read are the frames of the
    packets received from it plus the live receive buffer.  [rel] also holds
    the server's own invariants (the registry, the descriptors, the epoll
    interest list).  Two parameters name a connection in the middle of an
    operation: [busy] has packets in its buffer not yet processed, [unarmed]
    may have pending output without [EPOLLOUT]. *)

From stdpp Require Import base gmap sets list fin_maps.
From Stdlib Require Import ZArith Lia.
From S2P Require Import Prelude Bytes Framing Posix RelayServer RelayBuffers RelaySpec.

(** [EPOLL_CTL_MOD] succeeds on a descriptor of the interest list.  The
    server ignores the result, so only the clause about [EPOLLOUT] depends on
    this. *)
Definition mod_succeeds (W : Type) `{Posix W} `{PosixObs W} : Prop :=
  ∀ (w : W) epfd fd ev, is_Some (interest w !! fd) →
    (sys_epoll_ctl w epfd EPOLL_CTL_MOD fd ev).1 = true.

Record conn_rel `{Posix W} `{PosixObs W} (busy unarmed : option Z) (w : W)
    (r : Z) (c : Connection) (p : peer) : Prop := {
  cr_fd : fd c = r;
  cr_nonneg : 0 ≤ r;
  cr_mark : Zlen (mark c) = MARK_SIZE;
  cr_buffer : buffer_wf c;
  cr_key : p_key p = if registered c then Some (mark_to_key (mark c)) else None;
  cr_out : sent w r ++ send_buf c = stream (p_out p);
  cr_in : busy ≠ Some r →
    next_frame relay_accepts (live c) = NeedMore ∧ recvd w r = stream (p_in p) ++ live c;
  cr_armed : unarmed ≠ Some r → mod_succeeds W → send_buf c ≠ [] →
    interest w !! r = Some (Z.lor EPOLLIN EPOLLOUT)
}.

Record rel `{Posix W} `{PosixObs W} (lfd epfd : Z) (busy unarmed : option Z)
    (s : Server W) (a : gmap Z peer) : Prop := {
  r_conns : map_Forall2 (conn_rel busy unarmed (os s)) (g_connections s) a;
  r_marks : ∀ k r, g_mark_to_fd s !! k = Some r ↔ owns a r k;
  r_inv : relay_inv a;
  r_open : open_fds (os s) = {[lfd; epfd]} ∪ dom (g_connections s);
  r_interest : dom (interest (os s)) = {[lfd]} ∪ dom (g_connections s);
  r_fds : lfd ≠ epfd ∧ lfd ∉ dom (g_connections s) ∧ epfd ∉ dom (g_connections s)
}.

(** What no operation on other connections changes: the input side. *)
Definition keeps `{PosixObs W} (s s' : Server W) : Prop :=
  (∀ r, recvd (os s') r = recvd (os s) r) ∧
  (∀ r c', g_connections s' !! r = Some c' →
     ∃ c, g_connections s !! r = Some c ∧ recv_buf c' = recv_buf c ∧ recv_len c' = recv_len c).

Section steps.
Context {W : Type} `{HP : Posix W} `{HO : PosixObs W} `{HL : !PosixLaws W}.
Implicit Types (s : Server W).

(** ** System calls and log output *)

Lemma wp_call {A} (f : W → A * W) (Q : A → Server W → Prop) E s :
  (∀ x w, f (os s) = (x, w) → Q x (set_os w s)) → wp (call f) Q E s.
Proof. unfold wp, call. destruct (f (os s)) eqn:Hf. eauto. Qed.

(** A step that changes nothing a client can observe. *)
Definition silent {A} (m : prog (Server W) A) : Prop :=
  ∀ s, ∃ x w, m s = Ret (x, set_os w s) ∧ same_obs (os s) w.

Lemma set_os_twice w w' s : set_os w' (set_os w s) = set_os w' s.
Proof. done. Qed.

Lemma silent_ret {A} (x : A) : silent (mret x).
Proof. intros s. exists x, (os s). by destruct s. Qed.

Lemma silent_call {A} (f : W → A * W) :
  (∀ w x w', f w = (x, w') → same_obs w w') → silent (call f).
Proof.
  intros Hf s. unfold call. destruct (f (os s)) as [x w] eqn:Hx. exists x, w. eauto.
Qed.

Lemma silent_call_ (f : W → W) : (∀ w, same_obs w (f w)) → silent (call_ f).
Proof. intros Hf s. exists tt, (f (os s)). split; [done|apply Hf]. Qed.

Lemma silent_bind {A B} (m : prog (Server W) A) (f : A → prog (Server W) B) :
  silent m → (∀ x, silent (f x)) → silent (m ≫= f).
Proof.
  intros Hm Hf s. destruct (Hm s) as (x & w & Hr & Hw).
  destruct (Hf x (set_os w s)) as (y & w' & Hr' & Hw'). exists y, w'.
  unfold mbind, prog_bind. rewrite Hr, Hr'. split; [done|by etrans].
Qed.

Lemma silent_gets {A B} (g : Server W → A) (f : A → prog (Server W) B) :
  (∀ x, silent (f x)) → silent (gets g ≫= f).
Proof. intros Hf s. apply (Hf (g s) s). Qed.

Lemma log_silent level m : silent (log level m).
Proof.
  apply silent_bind; [apply silent_call_; intros; apply print_law|intros _].
  apply silent_gets. intros [].
  - apply silent_call_. intros. apply syslog_law.
  - apply silent_ret.
Qed.

Lemma set_nonblocking_silent fd : silent (set_nonblocking fd).
Proof.
  apply silent_bind; [apply silent_call; intros; by eapply getfl_law|].
  intros [fl|]; (apply silent_bind; [|intros x; try apply silent_ret]).
  - apply silent_call. intros. by eapply setfl_law.
  - destruct x; [apply silent_ret|]. apply silent_bind; [apply log_silent|intros; apply silent_ret].
  - apply log_silent.
Qed.

Lemma wp_silent {A} (m : prog (Server W) A) (Q : A → Server W → Prop) E s :
  silent m → (∀ x w, same_obs (os s) w → Q x (set_os w s)) → wp m Q E s.
Proof. intros Hm HQ. destruct (Hm s) as (x & w & Hr & Hw). unfold wp. rewrite Hr. auto. Qed.

Lemma wp_conn_at r c (Q : Connection → Server W → Prop) E s :
  g_connections s !! r = Some c → Q c s → wp (conn_at r) Q E s.
Proof. intros Hc HQ. unfold conn_at. wp_step. wp_step. by rewrite Hc. Qed.

Lemma wp_store r c f (Q : unit → Server W → Prop) E s :
  g_connections s !! r = Some c →
  Q tt (set_connections (<[r := f c]> (g_connections s)) s) → wp (store r f) Q E s.
Proof. intros Hc HQ. unfold store. wp_step. by eapply wp_conn_at. Qed.
End steps.

(** The step for a log message. *)
Ltac wp_log := eapply wp_silent; [apply log_silent|intros [] ?w ?Hobs].

Section refinement.
Context {W : Type} `{HP : Posix W} `{HO : PosixObs W} `{HL : !PosixLaws W}.
Context (lfd epfd : Z).
Implicit Types (s : Server W) (a : gmap Z peer) (busy unarmed : option Z).

#[local] Abbreviation rel := (rel lfd epfd).

#[export] Instance keeps_refl : Reflexive keeps.
Proof. intros s. split; [done|]. eauto. Qed.

#[export] Instance keeps_trans : Transitive keeps.
Proof.
  intros s1 s2 s3 [H1 H2] [H3 H4]. split.
  - intros r. by rewrite H3.
  - intros r c3 (c2 & Hc2 & Hb2 & Hl2)%H4.
    destruct (H2 r c2 Hc2) as (c1 & Hc1 & Hb1 & Hl1).
    exists c1. split_and!; congruence.
Qed.

(** ** Structural facts *)

Lemma rel_lookup_l busy unarmed s a r c :
  rel busy unarmed s a → g_connections s !! r = Some c →
  ∃ p, a !! r = Some p ∧ conn_rel busy unarmed (os s) r c p.
Proof.
  intros Hrel Hc. pose proof (r_conns _ _ _ _ _ _ Hrel r) as Hr. rewrite Hc in Hr.
  inversion Hr; subst. eauto.
Qed.

Lemma rel_lookup_r busy unarmed s a r p :
  rel busy unarmed s a → a !! r = Some p →
  ∃ c, g_connections s !! r = Some c ∧ conn_rel busy unarmed (os s) r c p.
Proof.
  intros Hrel Hp. pose proof (r_conns _ _ _ _ _ _ Hrel r) as Hr. rewrite Hp in Hr.
  inversion Hr; subst. eauto.
Qed.

Lemma rel_none busy unarmed s a r :
  rel busy unarmed s a → g_connections s !! r = None ↔ a !! r = None.
Proof.
  intros Hrel. pose proof (r_conns _ _ _ _ _ _ Hrel r) as Hr.
  by destruct Hr.
Qed.

Lemma rel_size busy unarmed s a : rel busy unarmed s a → size (g_connections s) = size a.
Proof.
  intros Hrel. rewrite <- !size_dom. f_equal. apply set_eq. intros r.
  rewrite !elem_of_dom, <- !not_eq_None_Some. by rewrite (rel_none _ _ _ _ _ Hrel).
Qed.

(** A property of the observations of the world that [same_obs] keeps. *)
Lemma conn_rel_obs busy unarmed (w w' : W) r c p :
  same_obs w w' → conn_rel busy unarmed w r c p → conn_rel busy unarmed w' r c p.
Proof.
  intros (Ho & Hi & Hs & Hr) []. split; try done.
  - by rewrite Hs.
  - by rewrite Hr.
  - by rewrite Hi.
Qed.

Lemma rel_obs busy unarmed s a w :
  same_obs (os s) w → rel busy unarmed s a → rel busy unarmed (set_os w s) a.
Proof.
  intros Hobs []. pose proof Hobs as (Ho & Hi & _ & _).
  split; simpl; try done.
  - eapply map_Forall2_impl; [done|]. intros. by eapply conn_rel_obs.
  - by rewrite Ho.
  - by rewrite Hi.
Qed.

Lemma rel_stat busy unarmed s a f :
  rel busy unarmed s a → rel busy unarmed (upd_stat f s) a.
Proof. by intros []. Qed.

Lemma keeps_obs s w : same_obs (os s) w → keeps s (set_os w s).
Proof. intros (_ & _ & _ & Hr). split; simpl; [done|]. eauto. Qed.

(** Weakening and restoring the exceptions. *)
Lemma rel_exempt busy unarmed s a : rel None None s a → rel busy unarmed s a.
Proof.
  intros []. split; try done. eapply map_Forall2_impl; [done|]. intros r c p []. split; auto.
Qed.

Lemma rel_unarm busy t s a : rel busy None s a → rel busy (Some t) s a.
Proof.
  intros []. split; try done. eapply map_Forall2_impl; [done|]. intros r c p []. split; auto.
Qed.

Lemma rel_armed busy t s a :
  rel busy (Some t) s a →
  (∀ c, g_connections s !! t = Some c → mod_succeeds W → send_buf c ≠ [] →
     interest (os s) !! t = Some (Z.lor EPOLLIN EPOLLOUT)) →
  rel busy None s a.
Proof.
  intros Hrel Harm. split; try apply Hrel. intros r.
  destruct (g_connections s !! r) as [c|] eqn:Hr.
  - destruct (rel_lookup_l _ _ _ _ _ _ Hrel Hr) as (p & -> & []). constructor.
    split; try done. intros _. destruct (decide (t = r)) as [->|]; [eauto|].
    apply cr_armed0. congruence.
  - apply (rel_none _ _ _ _ r Hrel) in Hr as ->. constructor.
Qed.

Lemma rel_rest t unarmed s a :
  rel (Some t) unarmed s a →
  (∀ c p, g_connections s !! t = Some c → a !! t = Some p →
     next_frame relay_accepts (live c) = NeedMore ∧ recvd (os s) t = stream (p_in p) ++ live c) →
  rel None unarmed s a.
Proof.
  intros Hrel Hrest. split; try apply Hrel. intros r.
  destruct (g_connections s !! r) as [c|] eqn:Hr.
  - destruct (rel_lookup_l _ _ _ _ _ _ Hrel Hr) as (p & Hp & []). rewrite Hp. constructor.
    split; try done. intros _. destruct (decide (t = r)) as [->|]; [eauto|].
    apply cr_in0. congruence.
  - apply (rel_none _ _ _ _ r Hrel) in Hr as ->. constructor.
Qed.

Lemma rel_gone_armed busy t s a :
  rel busy (Some t) s a → g_connections s !! t = None → rel busy None s a.
Proof. intros Hrel Ht. eapply rel_armed; [done|]. intros c Hc. congruence. Qed.

Lemma rel_gone_rest t unarmed s a :
  rel (Some t) unarmed s a → g_connections s !! t = None → rel None unarmed s a.
Proof. intros Hrel Ht. eapply rel_rest; [done|]. intros c p Hc. congruence. Qed.

(** Replacing a connection and its peer, with the data of its descriptor. *)
Lemma rel_change busy unarmed s s' a r c c' p p' :
  rel busy unarmed s a → g_connections s !! r = Some c → a !! r = Some p →
  g_connections s' = <[r := c']> (g_connections s) → g_mark_to_fd s' = g_mark_to_fd s →
  p_key p' = p_key p →
  open_fds (os s') = open_fds (os s) → interest (os s') = interest (os s) →
  (∀ r', r' ≠ r → sent (os s') r' = sent (os s) r' ∧ recvd (os s') r' = recvd (os s) r') →
  conn_rel busy unarmed (os s') r c' p' →
  rel busy unarmed s' (<[r := p']> a).
Proof.
  intros Hrel Hc Hp Hconns Hmarks Hk Hopen Hint Hdata Hcr.
  assert (dom (g_connections s') = dom (g_connections s)) as Hdom.
  { rewrite Hconns. apply dom_insert_lookup_L. eauto. }
  split; rewrite ?Hdom, ?Hopen, ?Hint; try apply Hrel.
  - rewrite Hconns. intros t. destruct (decide (t = r)) as [->|Hne].
    + rewrite !lookup_insert_eq. by constructor.
    + rewrite !lookup_insert_ne by done. pose proof (r_conns _ _ _ _ _ _ Hrel t) as Ht.
      destruct Ht as [ct pt []|]; constructor. destruct (Hdata t Hne) as [Hs Hr].
      split; rewrite ?Hs, ?Hr, ?Hint; done.
  - intros k t. rewrite Hmarks, (r_marks _ _ _ _ _ _ Hrel). by erewrite owns_insert_same_key.
  - destruct (r_inv _ _ _ _ _ _ Hrel) as [Hu Hs]. split.
    + intros t t' k. erewrite !owns_insert_same_key by done. apply Hu.
    + by erewrite size_insert_present.
Qed.

Lemma rel_update busy unarmed s a r c c' p p' :
  rel busy unarmed s a → g_connections s !! r = Some c → a !! r = Some p →
  p_key p' = p_key p → conn_rel busy unarmed (os s) r c' p' →
  rel busy unarmed (set_connections (<[r := c']> (g_connections s)) s) (<[r := p']> a).
Proof. intros. by eapply rel_change. Qed.

Lemma rel_store busy unarmed s a r c c' p :
  rel busy unarmed s a → g_connections s !! r = Some c → a !! r = Some p →
  conn_rel busy unarmed (os s) r c' p →
  rel busy unarmed (set_connections (<[r := c']> (g_connections s)) s) a.
Proof. intros. rewrite <- (insert_id a r p) by done. by eapply rel_update. Qed.

Lemma keeps_store s r c c' :
  g_connections s !! r = Some c → recv_buf c' = recv_buf c → recv_len c' = recv_len c →
  keeps s (set_connections (<[r := c']> (g_connections s)) s).
Proof.
  intros Hc Hb Hl. split; simpl; [done|]. intros t ct.
  rewrite lookup_insert_Some. intros [[<- <-]|[_ ?]]; eauto.
Qed.

(** ** [update_epoll_events] and [close_connection] *)

Lemma rel_interest_change busy unarmed s a w :
  rel busy unarmed s a →
  open_fds w = open_fds (os s) → dom (interest w) = dom (interest (os s)) →
  (∀ r, sent w r = sent (os s) r) → (∀ r, recvd w r = recvd (os s) r) →
  (∀ r, unarmed ≠ Some r → interest w !! r = interest (os s) !! r) →
  rel busy unarmed (set_os w s) a.
Proof.
  intros Hrel Ho Hd Hs Hr Hi. split; simpl; rewrite ?Ho, ?Hd; try apply Hrel.
  eapply map_Forall2_impl; [apply Hrel|]. intros r c p [].
  split; rewrite ?Hs, ?Hr; try done. intros Hu. rewrite Hi; auto.
Qed.

Lemma rel_is_watched busy unarmed s a t c :
  rel busy unarmed s a → g_connections s !! t = Some c →
  is_Some (interest (os s) !! t) ∧ t ≠ lfd ∧ t ≠ epfd.
Proof.
  intros Hrel Hc. assert (t ∈ dom (g_connections s)) as Ht by (apply elem_of_dom; eauto).
  destruct (r_fds _ _ _ _ _ _ Hrel) as (_ & Hl & He). split_and!; [|congruence..].
  apply elem_of_dom. rewrite (r_interest _ _ _ _ _ _ Hrel). set_solver.
Qed.

Lemma wp_update_epoll busy t s a c (want : bool) :
  rel busy (Some t) s a → g_connections s !! t = Some c →
  (want = false → send_buf c = []) →
  wp (update_epoll_events epfd t want)
     (λ _ s', rel busy None s' a ∧ keeps s s' ∧ g_connections s' = g_connections s) no_ub s.
Proof.
  intros Hrel Hc Hwant. unfold update_epoll_events. cbv zeta. wp_step. apply wp_call.
  intros ok w Hw. destruct (rel_is_watched _ _ _ _ _ _ Hrel Hc) as (Hwatch & _).
  pose proof (epoll_ctl_law _ _ _ _ _ _ _ Hw) as (Ho & Hi & Hs & Hr).
  assert (rel busy (Some t) (set_os w s) a) as Hrel'.
  { apply rel_interest_change; try done.
    - rewrite Hi. destruct ok; [|done]. by apply dom_insert_lookup_L.
    - intros r Hne. rewrite Hi. destruct ok; [|done]. rewrite lookup_insert_ne; congruence. }
  assert (rel busy None (set_os w s) a) as Harmed.
  { eapply rel_armed; [done|]. simpl. intros c' Hc' Hmod Hpend. simplify_eq.
    destruct want; [|by destruct Hpend; auto].
    pose proof (Hmod (os s) epfd t (Z.lor EPOLLIN EPOLLOUT) Hwatch) as Hok.
    rewrite Hw in Hok. simpl in Hok. rewrite Hi, Hok. by rewrite lookup_insert_eq. }
  assert (keeps s (set_os w s)) as Hkeep by (split; simpl; eauto).
  destruct ok; [by wp_step|]. wp_step. wp_log. wp_step. rewrite set_os_twice.
  split_and!; [by apply (rel_obs _ _ (set_os w s))| |done].
  etrans; [done|]. by apply (keeps_obs (set_os w s)).
Qed.

(** A closed descriptor leaves the open ones and the interest list. *)
Definition closed_obs (w w' : W) (fd : Z) : Prop :=
  open_fds w' = open_fds w ∖ {[fd]} ∧ interest w' = delete fd (interest w) ∧
  (∀ r, sent w' r = sent w r) ∧ (∀ r, recvd w' r = recvd w r).

Lemma closed_obs_l w w1 w2 fd : same_obs w w1 → closed_obs w1 w2 fd → closed_obs w w2 fd.
Proof.
  intros (Ho & Hi & Hs & Hr) (Ho' & Hi' & Hs' & Hr'). split_and!; intros; congruence.
Qed.

Lemma wp_del_close s fd (Q : unit → Server W → Prop) E :
  (∀ w, closed_obs (os s) w fd → Q tt (set_os w s)) →
  wp (call (λ w, sys_epoll_ctl w epfd EPOLL_CTL_DEL fd 0) ;; call_ (λ w, sys_close w fd)) Q E s.
Proof.
  intros HQ. wp_step. apply wp_call. intros b w Hw. apply wp_modify.
  pose proof (epoll_ctl_law _ _ _ _ _ _ _ Hw) as (Ho & Hi & Hs & Hr).
  destruct (close_law w fd) as (Ho' & Hi' & Hs' & Hr'). rewrite set_os_twice. simpl.
  apply HQ. split_and!; [by rewrite Ho', Ho| |intros; by rewrite Hs'|intros; by rewrite Hr'].
  rewrite Hi', Hi. destruct b; [|done]. by rewrite delete_delete_eq.
Qed.

Lemma rel_delete busy unarmed s s' a fd :
  rel busy unarmed s a → fd ≠ lfd → fd ≠ epfd →
  g_connections s' = delete fd (g_connections s) →
  (∀ k r, g_mark_to_fd s' !! k = Some r ↔ r ≠ fd ∧ g_mark_to_fd s !! k = Some r) →
  closed_obs (os s) (os s') fd →
  rel busy unarmed s' (delete fd a).
Proof.
  intros Hrel Hl He Hconns Hmarks (Ho & Hi & Hs & Hr).
  destruct Hrel as [Hc Hm [Hu Hsz] Hopen Hint (Hle & Hld & Hed)].
  split; rewrite ?Hconns, ?dom_delete_L.
  - intros t. rewrite !lookup_delete. case_decide as Heq; [constructor|].
    destruct (Hc t) as [c p []|]; constructor. split; rewrite ?Hs, ?Hr; try done.
    intros. rewrite Hi, lookup_delete_ne by done. auto.
  - intros k r. by rewrite Hmarks, owns_delete, Hm.
  - split; [|pose proof (size_delete_le a fd); lia].
    intros r r' k. rewrite !owns_delete. naive_solver.
  - rewrite Ho, Hopen. set_solver.
  - rewrite Hi, dom_delete_L, Hint. set_solver.
  - set_solver.
Qed.

Lemma keeps_delete s s' fd :
  g_connections s' = delete fd (g_connections s) →
  (∀ r, recvd (os s') r = recvd (os s) r) → keeps s s'.
Proof.
  intros Hc Hr. split; [done|]. intros r c'. rewrite Hc, lookup_delete_Some. naive_solver.
Qed.

(** Closing removes the connection, its registration and its descriptor. *)
Lemma wp_close_connection busy unarmed s a fd :
  rel busy unarmed s a → fd ≠ lfd → fd ≠ epfd →
  wp (close_connection fd epfd)
     (λ _ s', rel busy unarmed s' (delete fd a) ∧ keeps s s' ∧
              g_connections s' = delete fd (g_connections s)) no_ub s.
Proof.
  intros Hrel Hl He.
  assert (∀ s', g_connections s' = delete fd (g_connections s) →
    (∀ k r, g_mark_to_fd s' !! k = Some r ↔ r ≠ fd ∧ g_mark_to_fd s !! k = Some r) →
    closed_obs (os s) (os s') fd →
    rel busy unarmed s' (delete fd a) ∧ keeps s s' ∧
    g_connections s' = delete fd (g_connections s)) as Hdone.
  { intros s' Hc Hm Hobs. split_and!; [by eapply rel_delete| |done].
    eapply keeps_delete; [done|apply Hobs]. }
  assert (∀ k, owns a fd k ↔ ∃ c, g_connections s !! fd = Some c ∧ registered c = true ∧
            mark_to_key (mark c) = k) as Howns.
  { intros k. split.
    - intros (p & Hp & Hk). destruct (rel_lookup_r _ _ _ _ _ _ Hrel Hp) as (c & Hc & Hcr).
      exists c. rewrite (cr_key _ _ _ _ _ _ Hcr) in Hk. destruct (registered c); naive_solver.
    - intros (c & Hc & Hreg & Hk). destruct (rel_lookup_l _ _ _ _ _ _ Hrel Hc) as (p & Hp & Hcr).
      exists p. split; [done|]. by rewrite (cr_key _ _ _ _ _ _ Hcr), Hreg, Hk. }
  assert ((∀ c, g_connections s !! fd = Some c → registered c = false) →
    ∀ k r, g_mark_to_fd s !! k = Some r ↔ r ≠ fd ∧ g_mark_to_fd s !! k = Some r) as Hunreg.
  { intros Hno k r. split; [|by intros [_ ?]]. intros Hk. split; [|done]. intros ->.
    apply (r_marks _ _ _ _ _ _ Hrel), Howns in Hk as (c & Hc & Hreg & _).
    rewrite (Hno c Hc) in Hreg. done. }
  unfold close_connection. wp_step. wp_step.
  destruct (g_connections s !! fd) as [c|] eqn:Hc; wp_step.
  - destruct (registered c) eqn:Hreg.
    + wp_step. wp_step. wp_step. wp_log. wp_step. apply wp_del_close. intros w' Hw.
      apply Hdone; [done| |by eapply closed_obs_l]. intros k r. simpl.
      rewrite lookup_delete_Some. rewrite (r_marks _ _ _ _ _ _ Hrel).
      pose proof (proj1 (r_inv _ _ _ _ _ _ Hrel)) as Huniq.
      assert (owns a fd (mark_to_key (mark c))) as Hown by (apply Howns; eauto).
      split.
      * intros [Hne Ho]. split; [|done]. intros ->. apply Howns in Ho as (c' & ? & ? & ?). naive_solver.
      * intros [Hne Ho]. split; [|done]. intros <-. by destruct (Huniq _ _ _ Hown Ho).
    + wp_step. wp_log. wp_step. apply wp_del_close. intros w' Hw.
      apply Hdone; [done| |by eapply closed_obs_l]. apply Hunreg. naive_solver.
  - wp_step. apply wp_del_close. intros w' Hw. apply Hdone; [|apply Hunreg; naive_solver|done].
    by rewrite delete_id.
Qed.

(** ** [flush_send_buffer] *)

(** The connection [t] was flushed: it survives with all its output
    accounted for, or a write failed and it was closed. *)
Definition flushed busy (t : Z) s a (s' : Server W) : Prop :=
  keeps s s' ∧ (rel busy None s' a ∨ rel busy None s' (delete t a)).

Lemma rel_write busy t s a c n w f :
  rel busy (Some t) s a → g_connections s !! t = Some c →
  sys_write (os s) t (send_buf c) = (inl n, w) →
  rel busy (Some t)
    (set_connections (<[t := with_send_buf (drop n (send_buf c)) c]> (g_connections s))
                     (upd_stat f (set_os w s))) a.
Proof.
  intros Hrel Hc Hw. destruct (rel_lookup_l _ _ _ _ _ _ Hrel Hc) as (p & Hp & Hcr).
  pose proof (write_law _ _ _ _ _ Hw) as (Ho & Hi & Hr & Hs & Hn & Hst).
  rewrite <- (insert_id a t p) by done. eapply rel_change; try done; simpl; [eauto|].
  destruct Hcr as [Hfd Hnn Hm Hb Hk Hout Hin _]. split; simpl; rewrite ?Hr; try done.
  - by destruct Hb.
  - rewrite Hst, <- app_assoc. by rewrite take_drop.
Qed.

Lemma wp_write_failed busy t s a c w f :
  rel busy (Some t) s a → g_connections s !! t = Some c → same_obs (os s) w →
  wp (stat f ;; close_connection t epfd) (λ _ s', flushed busy t s a s') no_ub (set_os w s).
Proof.
  intros Hrel Hc Hobs. destruct (rel_is_watched _ _ _ _ _ _ Hrel Hc) as (_ & Hl & He).
  wp_step. apply wp_modify. wp_apply wp_close_connection; [by apply rel_stat, rel_obs|done..|].
  intros _ s' (Hrel' & Hkeep & Hc'). split.
  - etrans; [by apply keeps_obs|]. etrans; [|done]. by split; simpl; eauto.
  - right. eapply rel_gone_armed; [done|]. rewrite Hc'. simpl. apply lookup_delete_eq.
Qed.

Lemma keeps_upd s w f t c c' :
  (∀ r, recvd w r = recvd (os s) r) → g_connections s !! t = Some c →
  recv_buf c' = recv_buf c → recv_len c' = recv_len c →
  keeps s (set_connections (<[t := c']> (g_connections s)) (upd_stat f (set_os w s))).
Proof.
  intros Hr Hc Hb Hl. split; simpl; [done|]. intros r cr.
  rewrite lookup_insert_Some. intros [[<- <-]|[_ ?]]; eauto.
Qed.

Lemma wp_flush_loop fuel busy t s a c :
  rel busy (Some t) s a → g_connections s !! t = Some c →
  (length (send_buf c) < fuel)%nat →
  wp (flush_loop fuel t epfd) (λ _ s', flushed busy t s a s') no_ub s.
Proof.
  revert s c. induction fuel as [|fuel IH]; intros s c Hrel Hc Hf; [lia|]. simpl.
  destruct (rel_lookup_l _ _ _ _ _ _ Hrel Hc) as (p & Hp & Hcr).
  pose proof (cr_fd _ _ _ _ _ _ Hcr) as Hfd.
  wp_step. eapply wp_conn_at; [done|]. rewrite Hfd.
  destruct (send_buf c) as [|b bs] eqn:Hbuf.
  { wp_step. wp_apply wp_update_epoll; [done..|]. intros _ s' (Hrel' & Hk & _).
    wp_step. split; auto. }
  wp_step. apply wp_call. intros r w Hw.
  pose proof (write_law _ _ _ _ _ Hw) as (Ho & Hi & Hr & Hs & Hres).
  assert (match r with inl (S _) => True | _ => same_obs (os s) w end) as Hobs.
  { assert (sent w t = sent (os s) t → same_obs (os s) w) as Hsame.
    { intros Ht. split_and!; try done. intros x.
      destruct (decide (x = t)) as [->|]; auto. }
    destruct r as [[|n]|e]; [|done|]; apply Hsame; [|done].
    destruct Hres as [_ ->]. by rewrite app_nil_r. }
  destruct r as [[|n]|e].
  - by eapply wp_write_failed.
  - wp_step. apply wp_modify. destruct Hres as [Hlen _]. rewrite decide_True by done.
    wp_step. eapply wp_store; [done|]. rewrite <- Hbuf in *.
    wp_apply IH.
    + by apply (rel_write busy t s).
    + simpl. apply lookup_insert_eq.
    + simpl. rewrite length_drop. rewrite Hbuf in Hf |- *. simpl in *. lia.
    + intros _ s' [Hk Hfl]. split; [|done]. etrans; [|done]. by apply (keeps_upd s w _ t c).
  - wp_step; [|by eapply wp_write_failed].
    wp_step. wp_apply wp_update_epoll; [by apply rel_obs|done..|].
    intros _ s' (Hrel' & Hk & _). wp_step. split; [|by left].
    etrans; [by apply keeps_obs|done].
Qed.

Lemma wp_flush_send_buffer busy t s a c :
  rel busy (Some t) s a → g_connections s !! t = Some c →
  wp (flush_send_buffer t epfd) (λ _ s', flushed busy t s a s') no_ub s.
Proof.
  intros Hrel Hc. destruct (rel_lookup_l _ _ _ _ _ _ Hrel Hc) as (p & Hp & Hcr).
  pose proof (cr_fd _ _ _ _ _ _ Hcr) as Hfd. pose proof (cr_nonneg _ _ _ _ _ _ Hcr) as Hnn.
  unfold flush_send_buffer. wp_step. eapply wp_conn_at; [done|].
  rewrite Hfd. rewrite (proj2 (Z.ltb_ge t 0)) by lia.
  destruct (send_buf c) as [|b bs] eqn:Hbuf.
  - wp_step. wp_apply wp_update_epoll; [done..|]. intros _ s' (Hrel' & Hk & _).
    wp_step. split; auto.
  - eapply wp_flush_loop; [done..|]. rewrite Hbuf. lia.
Qed.

(** ** [process_packet] *)

Lemma rel_add_in r unarmed s a p pkt :
  rel (Some r) unarmed s a → a !! r = Some p →
  rel (Some r) unarmed s (<[r := add_in pkt p]> a).
Proof.
  intros Hrel Hp. destruct (rel_lookup_r _ _ _ _ _ _ Hrel Hp) as (c & Hc & Hcr).
  eapply rel_change; try done; [by rewrite insert_id|]. destruct Hcr. by split.
Qed.

Lemma rel_set_mark r s a c m :
  rel (Some r) None s a → g_connections s !! r = Some c → registered c = false →
  Zlen m = MARK_SIZE →
  rel (Some r) None (set_connections (<[r := with_mark m c]> (g_connections s)) s) a.
Proof.
  intros Hrel Hc Hreg Hm. destruct (rel_lookup_l _ _ _ _ _ _ Hrel Hc) as (p & Hp & Hcr).
  eapply rel_store; [done..|]. destruct Hcr as [? ? ? [] Hk ? ? ?].
  split; simpl; try done. by rewrite Hk, Hreg.
Qed.

Lemma rel_register r s s' a c c' p m :
  rel (Some r) None s a → g_connections s !! r = Some c → a !! r = Some p →
  (∀ r', ¬ owns a r' (mark_to_key m)) → p_key p = None →
  g_connections s' = <[r := c']> (g_connections s) →
  g_mark_to_fd s' = <[mark_to_key m := r]> (g_mark_to_fd s) → os s' = os s →
  mark c' = m → registered c' = true → Zlen m = MARK_SIZE →
  fd c' = fd c → send_buf c' = send_buf c → recv_buf c' = recv_buf c → recv_len c' = recv_len c →
  rel (Some r) None s' (<[r := set_key (mark_to_key m) (add_in m p)]> a).
Proof.
  intros Hrel Hc Hp Hfree Hnone Hconns Hmarks Hos Hm Hreg Hlen Hfd Hsb Hrb Hrl.
  assert (dom (g_connections s') = dom (g_connections s)) as Hdom.
  { rewrite Hconns. apply dom_insert_lookup_L. eauto. }
  split; rewrite ?Hdom, ?Hos; try apply Hrel.
  - rewrite Hconns. destruct (rel_lookup_l _ _ _ _ _ _ Hrel Hc) as (p' & ? & Hcr). simplify_eq.
    apply map_Forall2_insert_2; [|apply Hrel].
    destruct Hcr as [? ? ? [] ? ? ? ?]. split; simpl; rewrite ?Hreg, ?Hfd, ?Hsb; try done.
    split; by rewrite ?Hrb, ?Hrl.
  - intros k t. rewrite Hmarks, lookup_insert_Some, owns_insert_key by done.
    rewrite (r_marks _ _ _ _ _ _ Hrel). split.
    + intros [[<- <-]|[Hne Ho]]; [by left|]. right. split; [|done]. intros ->.
      destruct Ho as (p' & ? & ?). congruence.
    + intros [[-> ->]|[Hne Ho]]; [by left|]. right. split; [|done]. intros <-. by eapply Hfree.
  - eapply relay_step_inv; [by eapply step_register|apply Hrel].
Qed.

Lemma rel_queue r t s a tc q f :
  rel (Some r) None s a → g_connections s !! t = Some tc →
  rel (Some r) (Some t)
    (upd_stat f (set_connections
       (<[t := with_send_buf (send_buf tc ++ frame q) tc]> (g_connections s)) s))
    (alter (add_out q) t a).
Proof.
  intros Hrel%(rel_unarm _ t) Htc.
  destruct (rel_lookup_l _ _ _ _ _ _ Hrel Htc) as (pt & Hpt & Hcr).
  assert (alter (add_out q) t a = <[t := add_out q pt]> a) as ->.
  { apply map_eq. intros i. rewrite lookup_alter, lookup_insert. case_decide as Hi; [|done].
    subst. by rewrite Hpt. }
  apply rel_stat. eapply rel_update; try done.
  destruct Hcr as [? ? ? [] ? Hout ? ?]. split; simpl; try done.
  rewrite app_assoc, Hout, stream_app. by rewrite stream_cons, app_nil_r.
Qed.

(** What one packet did: the abstract step, and the target that a failed
    write closed. *)
Definition processed r (a : gmap Z peer) (p : peer) (data : list byte) (a' : gmap Z peer) : Prop :=
  ∃ a1 p1, relay_step a (Received r data) a1 ∧
    a1 !! r = Some p1 ∧ p_in p1 = p_in p ++ [data] ∧
    p_key p1 = Some (default (mark_to_key data) (p_key p)) ∧
    (a' = a1 ∨ ∃ t, a' = delete t a1 ∧ owns a t (mark_to_key data) ∧
                    is_Some (p_key p) ∧ MARK_SIZE < Zlen data).

(** What is left to do with a packet when nothing is forwarded. *)
Lemma processed_drop r s a p k data :
  rel (Some r) None s a → a !! r = Some p → p_key p = Some k →
  (Zlen data ≤ MARK_SIZE ∨ ∀ r', ¬ owns a r' (mark_to_key data)) →
  ∃ a', processed r a p data a' ∧ rel (Some r) None s a'.
Proof.
  intros Hrel Hp Hk Hdrop. exists (<[r := add_in data p]> a). split; [|by apply rel_add_in].
  exists (<[r := add_in data p]> a), (add_in data p).
  split_and!; [by eapply step_drop|apply lookup_insert_eq|done|by simpl; rewrite Hk|by left].
Qed.

Lemma wp_register r s a c p m :
  rel (Some r) None s a → g_connections s !! r = Some c → a !! r = Some p →
  registered c = false → p_key p = None → Zlen m = MARK_SIZE →
  (∀ r', ¬ owns a r' (mark_to_key m)) → mark c = m →
  wp (store r (with_registered true) ;;
      modify (λ s, set_marks (<[mark_to_key m := fd c]> (g_mark_to_fd s)) s) ;;
      log LVL_INFO (Registered (fd c) (format_mark m)) ;; mret true)
    (λ ok s', keeps s s' ∧ ok = true ∧
              ∃ a', processed r a p m a' ∧ rel (Some r) None s' a') no_ub s.
Proof.
  intros Hrel Hc Hp Hreg Hk Hm Hfree Hmark.
  assert (fd c = r) as Hfd.
  { destruct (rel_lookup_l _ _ _ _ _ _ Hrel Hc) as (? & _ & []). done. }
  rewrite Hfd. wp_step. eapply wp_store; [done|]. wp_step. wp_step. wp_step. wp_log. wp_step.
  split_and!; [|done|].
  - etrans; [|by apply keeps_obs]. split; simpl; [done|]. intros t ct.
    rewrite lookup_insert_Some. intros [[<- <-]|[_ ?]]; eauto.
  - exists (<[r := set_key (mark_to_key m) (add_in m p)]> a). split.
    + exists (<[r := set_key (mark_to_key m) (add_in m p)]> a), (set_key (mark_to_key m) (add_in m p)).
      split_and!; [by eapply step_register|apply lookup_insert_eq|done|by rewrite Hk|by left].
    + apply rel_obs; [done|]. eapply rel_register; done.
Qed.

Lemma wp_forward r t s a c p k tc data payload_len :
  rel (Some r) None s a → g_connections s !! r = Some c → a !! r = Some p →
  p_key p = Some k → owns a t (mark_to_key data) → g_connections s !! t = Some tc →
  0 < payload_len → Zlen data = MARK_SIZE + payload_len →
  wp (match queue_frame (send_buf tc) data payload_len with
      | None => undef OutOfBounds
      | Some buf =>
          store t (with_send_buf buf) ;; stat (add_packets_out 1) ;;
          flush_send_buffer t epfd ;; mret true
      end)
    (λ ok s', keeps s s' ∧ ok = true ∧
              ∃ a', processed r a p data a' ∧ rel (Some r) None s' a') no_ub s.
Proof.
  intros Hrel Hc Hp Hk Hown Htc Hpos Hlen. rewrite queue_frame_ok by (relay_consts; lia).
  set (a0 := <[r := add_in data p]> a). set (q := drop 8 data).
  assert (rel (Some r) None s a0) as Hrel0 by (by apply rel_add_in).
  assert (relay_step a (Received r data) (alter (add_out q) t a0)) as Hstep
    by (eapply step_forward; [done..|relay_consts; lia|done]).
  assert (∃ p1, alter (add_out q) t a0 !! r = Some p1 ∧ p_in p1 = p_in p ++ [data] ∧
                p_key p1 = p_key p) as (p1 & Hp1 & Hin1 & Hk1).
  { unfold a0. destruct (decide (t = r)) as [->|Hne];
      rewrite ?lookup_alter_eq, ?lookup_alter_ne, lookup_insert_eq by done; simpl;
      (eexists; split_and!; [reflexivity|done|done]). }
  wp_step. eapply wp_store; [done|]. wp_step. apply wp_modify. wp_step.
  eapply wp_conseq; [eapply (wp_flush_send_buffer (Some r) t)|].
  - by apply rel_queue.
  - simpl. apply lookup_insert_eq.
  - intros _ s' [Hkeep Hfl]. wp_step. split_and!; [|done|].
    + etrans; [|done]. split; simpl; [done|]. intros x cx.
      rewrite lookup_insert_Some. intros [[<- <-]|[_ ?]]; eauto.
    + destruct Hfl as [Hrel'|Hrel']; eexists; (split; [|exact Hrel']).
      all: exists (alter (add_out q) t a0), p1; rewrite Hk1, Hk; split_and!; try done.
      * by left.
      * right. exists t. split_and!; try done. relay_consts; lia.
Qed.

Lemma wp_process_packet r s a c p data data_len :
  rel (Some r) None s a → g_connections s !! r = Some c → a !! r = Some p →
  Zlen data = data_len → 0 < data_len ≤ 65532 →
  wp (process_packet r data data_len epfd)
     (λ ok s', keeps s s' ∧
        if (ok : bool) then ∃ a', processed r a p data a' ∧ rel (Some r) None s' a'
        else relay_step a (Received r data) (delete r a) ∧ rel (Some r) None s' a) no_ub s.
Proof.
  intros Hrel Hc Hp Hlen Hrange. unfold process_packet.
  destruct (rel_lookup_l _ _ _ _ _ _ Hrel Hc) as (p' & Hp' & Hcr).
  assert (p' = p) as -> by congruence. clear Hp'.
  pose proof (cr_key _ _ _ _ _ _ Hcr) as Hkey.
  wp_step. eapply wp_conn_at; [done|]. wp_step. apply wp_modify. simpl.
  set (s1 := upd_stat (add_packets_in 1) s).
  assert (rel (Some r) None s1 a) as Hrel1 by (by apply rel_stat).
  assert (keeps s s1) as Hk1 by (split; simpl; eauto).
  destruct (registered c) eqn:Hreg; simpl.
  - (* a registered peer: a target's mark and a payload *)
    destruct (data_len <? MARK_SIZE) eqn:Hsmall.
    { wp_step. wp_log. wp_step. apply wp_modify. wp_step.
      split; [etrans; [done|]; etrans; [by apply (keeps_obs s1)|]; split; simpl; eauto|].
      eapply processed_drop; [by apply rel_stat, rel_obs|done..|]. left. lia. }
    wp_step. wp_step.
    destruct (g_mark_to_fd s1 !! mark_to_key data) as [t|] eqn:Ht.
    2: { wp_step. wp_log. wp_step. apply wp_modify. wp_step.
      split; [etrans; [done|]; etrans; [by apply (keeps_obs s1)|]; split; simpl; eauto|].
      eapply processed_drop; [by apply rel_stat, rel_obs|done..|]. right.
      intros r'. rewrite <- (r_marks _ _ _ _ _ _ Hrel1). congruence. }
    apply (r_marks _ _ _ _ _ _ Hrel1) in Ht as Hown.
    assert (u32 (data_len - MARK_SIZE) = data_len - MARK_SIZE) as Hu.
    { apply u32_small. relay_consts. lia. }
    rewrite Hu. destruct (0 <? data_len - MARK_SIZE) eqn:Hpos.
    2: { wp_step. split; [done|]. eapply processed_drop; [done..|]. left. lia. }
    destruct Hown as (pt & Hpt & Hkt).
    destruct (rel_lookup_r _ _ _ _ _ _ Hrel1 Hpt) as (tc & Htc & _).
    wp_step. wp_step. rewrite Htc.
    wp_apply (wp_forward r t s1 a c p); [done..|by exists pt|done|lia|lia|].
    intros ok s' (Hkeep & -> & Hpost). split; [by etrans|done].
  - (* the first packet: registration *)
    destruct (data_len =? MARK_SIZE) eqn:Hsize; simpl.
    2: { wp_step. wp_log. wp_step. split; [etrans; [done|by apply keeps_obs]|].
      split; [|by apply rel_obs]. eapply step_reject; [done..|left; lia]. }
    assert (take (Z.to_nat MARK_SIZE) data = data) as ->.
    { apply take_ge. unfold Zlen in *. relay_consts. lia. }
    wp_step. eapply wp_store; [done|]. simpl.
    set (s2 := set_connections _ s1).
    assert (rel (Some r) None s2 a) as Hrel2 by (apply (rel_set_mark r s1); [done..|lia]).
    assert (keeps s s2) as Hk2 by (etrans; [done|]; by apply (keeps_store s1 r c)).
    wp_step. wp_step. destruct (g_mark_to_fd s2 !! mark_to_key data) as [t|] eqn:Ht.
    { wp_step. wp_log. wp_step. split; [etrans; [done|by apply keeps_obs]|].
      split; [|by apply rel_obs]. eapply step_reject; [done..|right]. exists t.
      by apply (r_marks _ _ _ _ _ _ Hrel). }
    change (fd c) with (fd (with_mark data c)).
    wp_apply (wp_register r s2 a (with_mark data c) p data); try done.
    + apply lookup_insert_eq.
    + lia.
    + intros r'. rewrite <- (r_marks _ _ _ _ _ _ Hrel2). congruence.
    + intros ok s' (Hkeep & -> & Hpost). split; [by etrans|done].
Qed.
End refinement.
