(* ===== verification/RelayHandlers.v ===== *)
(** * The event handlers and the event loop implement the abstract relay

    Simulation lemmas for the loop over received packets, the three event
    handlers, a batch of events, any number of iterations of the main loop,
    and [main] itself.  The only undefined behaviour left open is the use of
    an erased connection when a peer forwards to itself ([self_addressed])
    and the write to its own socket fails. *)

From stdpp Require Import base gmap sets list fin_maps.
From Stdlib Require Import ZArith Lia.
From S2P Require Import Prelude Bytes Framing Posix RelayServer RelayBuffers RelaySpec RelayRefinement.

(** Among the packets [ps] that a peer registered under [k] sends (its first
    packet registers it when [k] is [None]), one with a payload is addressed
    to the peer itself. *)
Definition addressed_to (k : Z) (ps : list (list byte)) : Prop :=
  Exists (λ q, MARK_SIZE < Zlen q ∧ mark_to_key q = k) ps.

Definition self_addressed (k : option Z) (ps : list (list byte)) : Prop :=
  match k, ps with
  | Some k, _ => addressed_to k ps
  | None, m :: ps' => addressed_to (mark_to_key m) ps'
  | None, [] => False
  end.

Lemma self_addressed_cons k m ps :
  self_addressed (Some (default (mark_to_key m) k)) ps → self_addressed k (m :: ps).
Proof.
  destruct k as [k|]; simpl; [|done]. by apply Exists_cons_tl.
Qed.

#[export] Instance self_addressed_dec k ps : Decision (self_addressed k ps).
Proof. destruct k, ps; simpl; unfold addressed_to; apply _. Defined.

Section handlers.
Context {W : Type} `{HP : Posix W} `{HO : PosixObs W} `{HL : !PosixLaws W}.
Context (lfd epfd : Z).
Implicit Types (s : Server W) (a : gmap Z peer).

#[local] Abbreviation rel := (rel lfd epfd).
#[local] Abbreviation idle := (RelayRefinement.rel lfd epfd None None).

(** The run reached a state of the relay. *)
Definition simulates a (s' : Server W) : Prop :=
  ∃ es a', relay_steps a es a' ∧ idle s' a'.

Lemma simulates_here s a : idle s a → simulates a s.
Proof. exists [], a. split; [apply steps_nil|done]. Qed.

Lemma simulates_trans a es a' s' : relay_steps a es a' → simulates a' s' → simulates a s'.
Proof.
  intros Hes (es' & a'' & Hes' & Hrel). exists (es ++ es'), a''.
  split; [by eapply relay_steps_app|done].
Qed.

(** The same, having handled the packets [ps] of connection [r]. *)
Definition simulates_serving (r : Z) ps a (s' : Server W) : Prop :=
  ∃ es a', relay_steps a es a' ∧ idle s' a' ∧ serves r ps (g_connections s' !! r = None) es.

Lemma simulates_serving_weaken r ps a s' : simulates_serving r ps a s' → simulates a s'.
Proof. intros (es & a' & ? & ? & _). by exists es, a'. Qed.

(** Closing the connection whose packets are being processed. *)
Lemma wp_close_busy r ps a0 s a es :
  rel (Some r) None s a → g_connections s !! r ≠ None →
  relay_steps a0 es (delete r a) → (∀ gone : Prop, gone → serves r ps gone es) →
  wp (close_connection r epfd) (λ _ s', simulates_serving r ps a0 s') no_ub s.
Proof.
  intros Hrel Hr Hes Hserves. destruct (g_connections s !! r) as [c|] eqn:Hc; [|done].
  destruct (rel_is_watched _ _ _ _ _ _ _ _ Hrel Hc) as (_ & Hl & He).
  wp_apply wp_close_connection; [done..|]. intros [] s' (Hrel' & _ & Hc').
  assert (g_connections s' !! r = None) as Hgone by (rewrite Hc'; apply lookup_delete_eq).
  exists es, (delete r a). split_and!; [done| |by apply Hserves]. by eapply rel_gone_rest.
Qed.

Lemma wp_weaken_ub {A} (m : prog (Server W) A) Q E s : wp m Q no_ub s → wp m Q E s.
Proof. intros H. by eapply wp_mono. Qed.

(** The steps of the relay for a processed packet. *)
Lemma processed_serves r a p data a' :
  processed r a p data a' → ∃ es, relay_steps a es a' ∧
    ∀ ps gone es', serves r ps gone es' → serves r (data :: ps) gone (es ++ es').
Proof.
  intros (a1 & p1 & Hstep & _ & _ & _ & [->|(t & -> & _)]).
  { exists [Received r data]. split; [by apply relay_steps_one|]. intros. by apply serves_cons. }
  destruct (relay_steps_close' a1 t) as (es & Hes & Hcase). exists (Received r data :: es).
  split; [by eapply steps_cons|]. intros ps gone es' ?. apply serves_cons.
  destruct Hcase as [->| ->]; [done|by apply serves_closed].
Qed.

(** What the loop with this fuel does. *)
Definition loop_correct (fuel : nat) : Prop := ∀ r s a c p,
  rel (Some r) None s a → g_connections s !! r = Some c → a !! r = Some p →
  recvd (os s) r = stream (p_in p) ++ live c → (Z.to_nat (recv_len c) < fuel)%nat →
  wp (packet_loop fuel r r epfd)
     (λ _ s', simulates_serving r (frames relay_accepts (live c)).1 a s')
     (λ u, u = UseAfterErase r ∧
           self_addressed (p_key p) (frames relay_accepts (live c)).1) s.

(** The rest of an iteration behind [process_packet]: its connection is there
    and consumes the packet, or it was erased. *)
Lemma wp_packet_consumed fuel r s a c p data total s1 a' :
  loop_correct fuel → a !! r = Some p → g_connections s !! r = Some c → buffer_wf c →
  recvd (os s) r = stream (p_in p) ++ live c →
  live c = frame data ++ drop (Z.to_nat total) (live c) → 0 < total ≤ recv_len c →
  (Z.to_nat (recv_len c) < S fuel)%nat →
  keeps s s1 → processed r a p data a' → rel (Some r) None s1 a' →
  wp (conn ← conn_at r;
      match consume total conn with
      | None => undef OutOfBounds
      | Some conn' => store r (λ _, conn') ;; packet_loop fuel r r epfd
      end)
     (λ _ s', simulates_serving r (data :: (frames relay_accepts (drop (Z.to_nat total) (live c))).1) a s')
     (λ u, u = UseAfterErase r ∧
           self_addressed (p_key p) (data :: (frames relay_accepts (drop (Z.to_nat total) (live c))).1)) s1.
Proof.
  intros IH Hp Hc Hwf Hin Hlive Htotal Hf [Hrecv Hsame] Hproc Hrel1.
  destruct (processed_serves r a p data a' Hproc) as (es & Hes & Hserves).
  destruct Hproc as (a1 & p1 & Hstep & Hp1 & Hin1 & Hk1 & Ha').
  wp_step. unfold conn_at at 1. wp_step. wp_step.
  destruct (g_connections s1 !! r) as [c1|] eqn:Hc1.
  2: { wp_step. split; [done|]. apply (rel_none _ _ _ _ _ _ _ Hrel1) in Hc1.
    destruct Ha' as [->|(t & -> & Hown & [k Hk] & Hbig)]; [congruence|].
    destruct (decide (t = r)) as [->|Hne]; [|rewrite lookup_delete_ne in Hc1 by done; congruence].
    destruct Hown as (pr & Hpr & Hkr). assert (pr = p) as -> by congruence.
    rewrite Hkr. by apply Exists_cons_hd. }
  wp_step. destruct (Hsame r c1 Hc1) as (c0 & Hc0 & Hbuf & Hrl). assert (c0 = c) as -> by congruence.
  assert (buffer_wf c1) as Hwf1 by (destruct Hwf; split; by rewrite ?Hbuf, ?Hrl).
  assert (live c1 = live c) as Hlive1 by (unfold live; by rewrite Hbuf, Hrl).
  destruct (consume_ok total c1) as (buf & -> & Hwf2 & Hlive2); [done|rewrite Hrl; lia|].
  destruct (rel_lookup_l _ _ _ _ _ _ _ _ Hrel1 Hc1) as (p2 & Hp2 & Hcr1).
  assert (p2 = p1) as ->.
  { destruct Ha' as [->|(t & -> & _)]; [congruence|]. apply lookup_delete_Some in Hp2 as [_ ?]. congruence. }
  wp_step. eapply wp_store; [done|]. eapply wp_mono.
  - eapply (IH r _ a' _ p1).
    + eapply (rel_store lfd epfd (Some r) None s1 a' r c1); [done..|]. destruct Hcr1. by split.
    + simpl. apply lookup_insert_eq.
    + done.
    + simpl. rewrite Hrecv, Hin, Hin1, Hlive2, Hlive1, stream_app, <- app_assoc. f_equal.
      rewrite Hlive at 1. unfold stream at 1. simpl. by rewrite app_nil_r.
    + simpl. rewrite Hrl. lia.
  - intros [] s' (es' & a'' & Hes' & Hrel' & Hserves'). exists (es ++ es'), a''.
    split_and!; [by eapply relay_steps_app|done|]. apply Hserves. by rewrite Hlive2, Hlive1 in Hserves'.
  - intros u [-> Hself]. split; [done|]. apply self_addressed_cons. by rewrite <- Hk1, <- Hlive1, <- Hlive2.
Qed.

Lemma wp_packet_loop fuel : loop_correct fuel.
Proof.
  induction fuel as [|fuel IH]; intros r s a c p Hrel Hc Hp Hin Hf; [lia|].
  simpl. destruct (rel_lookup_l _ _ _ _ _ _ _ _ Hrel Hc) as (p' & Hp' & Hcr).
  assert (p' = p) as -> by congruence. clear Hp'.
  pose proof (cr_buffer _ _ _ _ _ _ Hcr) as Hwf.
  pose proof (loop_head c Hwf) as Hhead. cbv zeta in Hhead.
  assert (next_frame relay_accepts (live c) = NeedMore →
          simulates_serving r (frames relay_accepts (live c)).1 a s) as Hdone.
  { intros Hmore. rewrite (frames_unfold _ (live c)), Hmore.
    exists [], a. split_and!; [apply steps_nil| |apply serves_nil].
    eapply rel_rest; [done|]. intros. by simplify_eq. }
  wp_step. eapply wp_conn_at; [done|].
  destruct (recv_len c <? LENGTH_SIZE) eqn:H4; [wp_step; by apply Hdone|].
  set (len := read_packet_length (recv_buf c)) in *.
  destruct ((len =? 0) || (MAX_PACKET_SIZE <? len) || (BUFFER_SIZE <? u32 (LENGTH_SIZE + len))) eqn:Hbad.
  { wp_step. wp_log. apply wp_weaken_ub. eapply (wp_close_busy r).
    - by apply rel_obs.
    - simpl. congruence.
    - by eapply relay_steps_one, step_close.
    - intros gone Hg. apply serves_stop; [done..|]. intros r' ?%list_elem_of_singleton. done. }
  set (total := u32 (LENGTH_SIZE + len)) in *.
  destruct (recv_len c <? total) eqn:Htot; [wp_step; by apply Hdone|].
  set (data := slice _ _ (recv_buf c)) in *.
  apply next_frame_complete in Hhead as Hfr. destruct Hfr as (Hlive & Hok & H32).
  apply relay_accepts_spec in Hok; [|unfold Zlen in *; lia].
  assert (len = Zlen data) as Hlen.
  { unfold len. rewrite header_live by (done || lia). rewrite Hlive. by apply header_frame. }
  assert (total = 4 + len) as Htotal by (apply u32_small; lia).
  rewrite (frames_unfold _ (live c)), Hhead.
  destruct (frames relay_accepts (drop (Z.to_nat total) (live c))) as [ps t] eqn:Hps. cbn [fst].
  wp_step. eapply wp_mono; [eapply (wp_process_packet lfd epfd r s a c p); [done..|lia]| |done].
  intros ok s1 [Hkeep Hres]. destruct ok; simpl.
  - destruct Hres as (a' & Hproc & Hrel1). change ps with (ps, t).1. rewrite <- Hps.
    by eapply (wp_packet_consumed fuel r s a c p data total s1 a'); try done; lia.
  - destruct Hres as [Hstep Hrel1]. eapply wp_weaken_ub, (wp_close_busy r); [done| |by apply relay_steps_one|].
    + intros ?%(rel_none _ _ _ _ _ _ _ Hrel1). congruence.
    + intros gone Hg. by apply serves_reject.
Qed.

(** ** [handle_client_data] and [handle_client_write] *)

Lemma wp_close_idle s a fd :
  idle s a → fd ≠ lfd → fd ≠ epfd →
  wp (close_connection fd epfd) (λ _ s', simulates a s') no_ub s.
Proof.
  intros Hrel Hl He. wp_apply wp_close_connection; [done..|].
  intros [] s' (Hrel' & _). destruct (relay_steps_close a fd) as (es & Hes). by exists es, (delete fd a).
Qed.

Lemma rel_receive s a fd c p bs buf w f :
  idle s a → g_connections s !! fd = Some c → a !! fd = Some p →
  sys_read (os s) fd (Z.to_nat (BUFFER_SIZE - recv_len c)) = (inl bs, w) →
  write_at (Z.to_nat (recv_len c)) bs (recv_buf c) = Some buf →
  let c' := with_recv buf (recv_len c + Zlen bs) c in
  let s' := upd_stat f (set_connections (<[fd := c']> (g_connections s)) (set_os w s)) in
  rel (Some fd) None s' a ∧ live c' = live c ++ bs ∧
  recvd (os s') fd = stream (p_in p) ++ live c'.
Proof.
  intros Hrel Hc Hp Hread Hbuf c' s'.
  destruct (rel_lookup_l _ _ _ _ _ _ _ _ Hrel Hc) as (p' & Hp' & Hcr).
  assert (p' = p) as -> by congruence. clear Hp'.
  pose proof (cr_buffer _ _ _ _ _ _ Hcr) as Hwf. destruct (cr_in _ _ _ _ _ _ Hcr) as [_ Hin]; [done|].
  pose proof (read_law _ _ _ _ _ Hread) as (Ho & Hi & Hs & Hr & Hn & Hr').
  destruct (receive_live c bs buf) as [Hwf' Hlive']; [done..| |].
  { destruct Hwf. unfold Zlen. lia. }
  split_and!; [|done|].
  - apply (rel_exempt _ _ (Some fd) None) in Hrel. rewrite <- (insert_id a fd p) by done.
    eapply rel_change; try done; simpl; [eauto|].
    destruct Hcr. split; simpl; rewrite ?Hs, ?Hi; done.
  - unfold c', s'. simpl. by rewrite Hr', Hin, Hlive', app_assoc.
Qed.

(** The bytes one call reads, for the connection it reads from. *)
Definition read_self_addressed (fd : Z) s a : Prop :=
  ∃ c p bs, g_connections s !! fd = Some c ∧ a !! fd = Some p ∧
    (sys_read (os s) fd (Z.to_nat (BUFFER_SIZE - recv_len c))).1 = inl bs ∧
    self_addressed (p_key p) (frames relay_accepts (live c ++ bs)).1.

(** The same read off the server's own state. *)
Definition sends_to_itself (fd : Z) s : bool :=
  match g_connections s !! fd with
  | Some c =>
      match (sys_read (os s) fd (Z.to_nat (BUFFER_SIZE - recv_len c))).1 with
      | inl bs =>
          bool_decide (self_addressed
            (if registered c then Some (mark_to_key (mark c)) else None)
            (frames relay_accepts (live c ++ bs)).1)
      | inr _ => false
      end
  | None => false
  end.

Lemma sends_to_itself_spec fd s a :
  idle s a → read_self_addressed fd s a → sends_to_itself fd s = true.
Proof.
  intros Hrel (c & p & bs & Hc & Hp & Hread & Hself). unfold sends_to_itself.
  rewrite Hc, Hread. apply bool_decide_eq_true_2.
  destruct (rel_lookup_l _ _ _ _ _ _ _ _ Hrel Hc) as (p' & Hp' & Hcr).
  assert (p' = p) as -> by congruence. by rewrite <- (cr_key _ _ _ _ _ _ Hcr).
Qed.

(** [handle_client_data] handled the packets its [read] completed. *)
Definition read_served (fd : Z) s a (s' : Server W) : Prop :=
  simulates a s' ∧
  ∀ c bs, g_connections s !! fd = Some c →
    (sys_read (os s) fd (Z.to_nat (BUFFER_SIZE - recv_len c))).1 = inl bs →
    simulates_serving fd (frames relay_accepts (live c ++ bs)).1 a s'.

Lemma read_served_stop fd s a s' c :
  idle s a → g_connections s !! fd = Some c → idle s' (delete fd a) →
  (∀ bs, (sys_read (os s) fd (Z.to_nat (BUFFER_SIZE - recv_len c))).1 = inl bs → bs = []) →
  read_served fd s a s'.
Proof.
  intros Hrel Hc Hrel' Heof. destruct (relay_steps_close' a fd) as (es & Hes & Hcase).
  split; [by exists es, (delete fd a)|]. intros c' bs Hc' Hbs. simplify_eq.
  apply Heof in Hbs as ->. rewrite app_nil_r.
  destruct (rel_lookup_l _ _ _ _ _ _ _ _ Hrel Hc) as (p & _ & Hcr).
  destruct (cr_in _ _ _ _ _ _ Hcr) as [Hquiet _]; [done|]. rewrite frames_unfold, Hquiet.
  exists es, (delete fd a). split_and!; [done..|]. apply serves_stop.
  - apply (rel_none _ _ _ _ _ _ _ Hrel'), lookup_delete_eq.
  - by destruct Hcase as [->| ->].
  - intros r'. destruct Hcase as [->| ->]; [apply not_elem_of_nil|].
    by intros ?%list_elem_of_singleton.
Qed.

Lemma wp_handle_client_data s a fd :
  idle s a → fd ≠ lfd → fd ≠ epfd →
  wp (handle_client_data fd epfd) (λ _ s', read_served fd s a s')
     (λ u, u = UseAfterErase fd ∧ read_self_addressed fd s a) s.
Proof.
  intros Hrel Hl He. unfold handle_client_data. wp_step. wp_step.
  destruct (g_connections s !! fd) as [c|] eqn:Hc.
  2: { wp_step. wp_log. apply wp_weaken_ub. wp_apply wp_close_idle; [by apply rel_obs|done..|].
    intros [] s' Hsim. split; [done|]. intros. congruence. }
  destruct (rel_lookup_l _ _ _ _ _ _ _ _ Hrel Hc) as (p & Hp & Hcr).
  pose proof (cr_buffer _ _ _ _ _ _ Hcr) as Hwf.
  destruct (cr_in _ _ _ _ _ _ Hcr) as [Hquiet _]; [done|].
  pose proof (quiet_not_full c Hwf Hquiet) as Hroom. cbv zeta.
  rewrite (proj2 (Z.eqb_neq _ 0)) by lia. wp_step. apply wp_call. intros r w Hread.
  pose proof (read_law _ _ _ _ _ Hread) as (Ho & Hi & Hs & Hr & Hres).
  assert (match r with inl (_ :: _) => True | _ => idle (set_os w s) a end) as Hidle.
  { assert (recvd w fd = recvd (os s) fd → idle (set_os w s) a) as Hsame.
    { intros Hfd. apply rel_obs; [|done]. split_and!; try done.
      intros x. destruct (decide (x = fd)) as [->|]; auto. }
    destruct r as [[|b bs]|e]; [|done|auto]. apply Hsame.
    destruct Hres as [_ ->]. by rewrite app_nil_r. }
  assert (∀ s1, idle s1 a → (match r with inl (_ :: _) => False | _ => True end) →
    wp (close_connection fd epfd) (λ _ s', read_served fd s a s') no_ub s1) as Hclose.
  { intros s1 Hrel1 Hr0. wp_apply wp_close_connection; [done..|]. intros [] s' (Hrel' & _).
    eapply read_served_stop; [done..|]. rewrite Hread. intros bs Hbs. simpl in Hbs.
    by destruct r as [[|]|]; simplify_eq. }
  destruct r as [[|b bs]|e].
  - by apply wp_weaken_ub, Hclose.
  - set (chunk := b :: bs) in *. destruct Hres as [Hn _].
    destruct (receive_fits c chunk) as [buf Hbuf]; [done|unfold Zlen; lia|]. rewrite Hbuf.
    destruct (rel_receive s a fd c p chunk buf w (add_bytes_in (Zlen chunk)))
      as (Hrel' & Hlive & Hin); [done..|].
    wp_step. eapply wp_store; [done|]. wp_step. apply wp_modify.
    eapply wp_mono.
    + eapply (wp_packet_loop _ fd _ a _ p); [exact Hrel'| |done|exact Hin|].
      * simpl. apply lookup_insert_eq.
      * simpl. lia.
    + intros [] s' Hsim. rewrite Hlive in Hsim. split; [by eapply simulates_serving_weaken|].
      intros c' bs' Hc' Hbs'. simplify_eq. rewrite Hread in Hbs'. by simplify_eq/=.
    + intros u [-> Hself]. split; [done|]. exists c, p, chunk. rewrite Hread.
      split_and!; [done..|]. by rewrite <- Hlive.
  - wp_step.
    + wp_step. wp_log. apply wp_weaken_ub, Hclose; [by apply rel_obs|done].
    + wp_step. split; [by apply simulates_here|]. intros c' bs' Hc' Hbs'. simplify_eq.
      by rewrite Hread in Hbs'.
Qed.

Lemma wp_handle_client_write s a fd :
  idle s a → fd ≠ lfd → fd ≠ epfd →
  wp (handle_client_write fd epfd) (λ _ s', simulates a s') no_ub s.
Proof.
  intros Hrel Hl He. unfold handle_client_write. wp_step. wp_step.
  destruct (g_connections s !! fd) as [c|] eqn:Hc; [|by apply wp_close_idle].
  wp_apply (wp_flush_send_buffer lfd epfd None fd s a); [by apply rel_unarm|done|].
  intros [] s' [_ [Hrel'|Hrel']]; [by apply simulates_here|].
  destruct (relay_steps_close a fd) as (es & Hes). by exists es, (delete fd a).
Qed.

(** ** [handle_new_connection] *)

(** The world after [accept] returned [fd], up to silent steps. *)
Definition accepted (w0 w : W) (fd : Z) : Prop :=
  fd_created w0 w fd.

Lemma accepted_obs w0 w w' fd : accepted w0 w fd → same_obs w w' → accepted w0 w' fd.
Proof.
  intros (Hn & Hf & Ho & Hi & Hs & Hr & Hd) (Ho' & Hi' & Hs' & Hr').
  split_and!; try congruence; try done. intros x Hx. rewrite Hs', Hr'. by apply Hd.
Qed.

Lemma accepted_unknown s a w fd :
  idle s a → accepted (os s) w fd →
  fd ≠ lfd ∧ fd ≠ epfd ∧ fd ∉ dom (g_connections s) ∧ fd ∉ dom (interest (os s)).
Proof.
  intros Hrel (_ & Hf & _). rewrite (r_open _ _ _ _ _ _ Hrel) in Hf.
  rewrite (r_interest _ _ _ _ _ _ Hrel). set_solver.
Qed.

Lemma rel_conns_obs s a w :
  idle s a → open_fds w = open_fds (os s) → interest w = interest (os s) →
  (∀ r, r ∈ dom (g_connections s) → sent w r = sent (os s) r ∧ recvd w r = recvd (os s) r) →
  idle (set_os w s) a.
Proof.
  intros Hrel Ho Hi Hd. split; simpl; rewrite ?Ho, ?Hi; try apply Hrel.
  intros r. destruct (g_connections s !! r) as [c|] eqn:Hc.
  - destruct (rel_lookup_l _ _ _ _ _ _ _ _ Hrel Hc) as (p & -> & []). constructor.
    destruct (Hd r) as [Hs Hr]; [apply elem_of_dom; eauto|].
    split; rewrite ?Hs, ?Hr, ?Hi; done.
  - apply (rel_none _ _ _ _ _ _ r Hrel) in Hc as ->. constructor.
Qed.

(** The new descriptor is dropped again: nothing changed. *)
Lemma wp_drop_accepted s a w fd :
  idle s a → accepted (os s) w fd →
  wp (call_ (λ w, sys_close w fd)) (λ _ s', simulates a s') no_ub (set_os w s).
Proof.
  intros Hrel Hacc. apply wp_modify. rewrite set_os_twice. simpl. apply simulates_here.
  destruct (accepted_unknown _ _ _ _ Hrel Hacc) as (_ & _ & Hd & Hi).
  destruct Hacc as (_ & Hf & Ho & Hint & _ & _ & Hdata).
  destruct (close_law w fd) as (Ho' & Hi' & Hs' & Hr').
  apply rel_conns_obs; [done| | |].
  - rewrite Ho', Ho. set_solver.
  - rewrite Hi', Hint. apply delete_id. by apply not_elem_of_dom.
  - intros r Hr. rewrite Hs', Hr'. apply Hdata. congruence.
Qed.

Lemma rel_accept s s' a fd :
  idle s a → fd ∉ dom (g_connections s) → fd ≠ lfd → fd ≠ epfd → 0 ≤ fd →
  Z.of_nat (size (g_connections s)) < MAX_CONNECTIONS →
  g_connections s' = <[fd := new_connection fd]> (g_connections s) →
  g_mark_to_fd s' = g_mark_to_fd s →
  open_fds (os s') = {[fd]} ∪ open_fds (os s) →
  interest (os s') = <[fd := EPOLLIN]> (interest (os s)) →
  sent (os s') fd = [] → recvd (os s') fd = [] →
  (∀ r, r ≠ fd → sent (os s') r = sent (os s) r ∧ recvd (os s') r = recvd (os s) r) →
  idle s' (<[fd := fresh_peer]> a).
Proof.
  intros Hrel Hnew Hl He Hpos Hsize Hconns Hmarks Ho Hi Hs Hr Hdata.
  assert (a !! fd = None) as Ha.
  { apply (rel_none _ _ _ _ _ _ fd Hrel). by apply not_elem_of_dom. }
  destruct (new_connection_fields fd) as (Hfd & Hm & Hreg & Hsb).
  split; rewrite ?Hconns, ?dom_insert_L, ?Hi, ?dom_insert_L.
  - intros r. destruct (decide (r = fd)) as [->|Hne].
    + rewrite !lookup_insert_eq. constructor.
      split; rewrite ?Hreg, ?Hsb, ?Hs, ?Hr, ?new_connection_live;
        first [exact (new_connection_wf fd) | done].
    + rewrite !lookup_insert_ne by done.
      destruct (Hdata r Hne) as [Hsr Hrr].
      destruct (r_conns _ _ _ _ _ _ Hrel r) as [c p []|]; constructor.
      split; rewrite ?Hsr, ?Hrr, ?Hi, ?lookup_insert_ne by done; done.
  - intros k r. rewrite Hmarks, (r_marks _ _ _ _ _ _ Hrel), owns_insert_none by done.
    split; [|by intros [_ ?]]. intros Hown. split; [|done]. intros ->.
    destruct Hown as (p & ? & _). congruence.
  - eapply relay_step_inv; [apply step_accept; [done|]|apply Hrel].
    by rewrite <- (rel_size _ _ _ _ _ _ Hrel).
  - rewrite Ho, (r_open _ _ _ _ _ _ Hrel). set_solver.
  - rewrite (r_interest _ _ _ _ _ _ Hrel). set_solver.
  - destruct (r_fds _ _ _ _ _ _ Hrel) as (? & ? & ?). set_solver.
Qed.

Lemma silent_warn (b : bool) level m : silent (if negb b then log level m else mret tt).
Proof. destruct b; [apply silent_ret|apply log_silent]. Qed.

Lemma silent_setsockopt fd o : silent (call (λ w, sys_setsockopt w fd o)).
Proof. apply silent_call. intros. by eapply setsockopt_law. Qed.

Lemma wp_handle_new_connection s a :
  idle s a → wp (handle_new_connection lfd epfd) (λ _ s', simulates a s') no_ub s.
Proof.
  intros Hrel. unfold handle_new_connection. wp_step. apply wp_call. intros r w Hacc.
  apply accept_law in Hacc. destruct r as [fd|e].
  2: { destruct (negb (e =? EAGAIN) && negb (e =? EWOULDBLOCK)).
    - wp_log. apply simulates_here. rewrite set_os_twice. by apply rel_obs; [etrans|].
    - wp_step. apply simulates_here. by apply rel_obs. }
  wp_step. wp_step. simpl. destruct (MAX_CONNECTIONS <=? _) eqn:Hfull.
  { wp_step. wp_log. rewrite set_os_twice. apply wp_drop_accepted; [done|].
    by eapply accepted_obs. }
  wp_step. eapply wp_silent; [apply set_nonblocking_silent|]. intros ok w1 Hw1.
  rewrite set_os_twice. apply (accepted_obs _ _ w1) in Hacc; [|done]. clear Hw1.
  destruct ok; simpl; [|by apply wp_drop_accepted].
  wp_step. eapply wp_silent; [apply silent_setsockopt|]. intros ok1 w2 Hw2.
  wp_step. eapply wp_silent; [apply silent_warn|]. intros [] w3 Hw3.
  wp_step. eapply wp_silent; [apply silent_setsockopt|]. intros ok2 w4 Hw4.
  wp_step. eapply wp_silent; [apply silent_warn|]. intros [] w5 Hw5.
  rewrite !set_os_twice. simpl in *.
  assert (accepted (os s) w5 fd) as Hacc5.
  { eapply accepted_obs; [done|]. etrans; [done|]. etrans; [done|]. by etrans. }
  destruct (accepted_unknown _ _ _ _ Hrel Hacc5) as (Hl & He & Hd & Hni).
  destruct Hacc5 as (Hpos & Hf & Ho & Hi & Hs & Hr & Hdata).
  wp_step. apply wp_call. intros b w6 Hctl. simpl in Hctl.
  apply epoll_ctl_law in Hctl as (Ho6 & Hi6 & Hs6 & Hr6). rewrite set_os_twice.
  destruct b; simpl.
  - wp_step. wp_step. wp_step. wp_step. wp_log.
    exists [Accepted fd], (<[fd := fresh_peer]> a).
    assert (Z.of_nat (size (g_connections s)) < MAX_CONNECTIONS) as Hroom by lia.
    split.
    + apply relay_steps_one, step_accept.
      * apply (rel_none _ _ _ _ _ _ fd Hrel). by apply not_elem_of_dom.
      * by rewrite <- (rel_size _ _ _ _ _ _ Hrel).
    + apply rel_obs; [done|]. eapply rel_accept; try done; simpl; [congruence| | | |].
      * by rewrite Hi6, Hi.
      * by rewrite Hs6.
      * by rewrite Hr6.
      * intros r Hne. rewrite Hs6, Hr6. by apply Hdata.
  - wp_step. wp_log. rewrite set_os_twice. apply wp_drop_accepted; [done|].
    eapply accepted_obs; [|done]. split_and!; try done; simpl.
    + congruence.
    + congruence.
    + by rewrite Hs6.
    + by rewrite Hr6.
    + intros. rewrite Hs6, Hr6. by apply Hdata.
Qed.

(** ** Events, batches and the main loop *)

(** Some connection used after a failed write to itself closed it. *)
Definition erased_use (u : ub) : Prop := ∃ r, u = UseAfterErase r.

Lemma wp_handle_event s a ev :
  idle s a → ev.1 ≠ epfd →
  wp (handle_event lfd epfd ev) (λ _ s', simulates a s') erased_use s.
Proof.
  intros Hrel He. destruct ev as [fd evs]; simpl in *.
  destruct (Z.eqb_spec fd lfd) as [->|Hl]; [by apply wp_weaken_ub, wp_handle_new_connection|].
  wp_step. eapply (wp_conseq _ (λ _ s', simulates a s')).
  - wp_step; [by apply wp_weaken_ub, wp_close_idle|]. wp_step.
    + eapply wp_mono; [by apply wp_handle_client_data|by intros [] s' []|]. intros u [-> _]. by exists fd.
    + wp_step. by apply simulates_here.
  - intros [] s1 (es & a1 & Hes & Hrel1). wp_step.
    + eapply wp_mono; [by apply wp_handle_client_write| |done].
      intros [] s2 Hsim. by eapply simulates_trans.
    + wp_step. by exists es, a1.
Qed.

Lemma wp_batch s a evs :
  idle s a → Forall (λ ev, ev.1 ≠ epfd) evs →
  wp (for_each (handle_event lfd epfd) evs) (λ _ s', simulates a s') erased_use s.
Proof.
  intros Hrel Hevs.
  eapply wp_conseq; [apply (wp_for_each _ _
    (λ l s', Forall (λ ev : Z * Z, ev.1 ≠ epfd) l ∧ simulates a s'))|].
  - intros ev l s1 [Hl (es & a1 & Hes & Hrel1)]. apply Forall_cons in Hl as [Hev Hl].
    wp_apply wp_handle_event; [done..|]. intros [] s2 Hsim. split; [done|].
    by eapply simulates_trans.
  - split; [done|by apply simulates_here].
  - by intros [] s' [_ ?].
Qed.

(** Only the maps and the system matter to the relation. *)
Lemma idle_ext s s' a :
  g_connections s' = g_connections s → g_mark_to_fd s' = g_mark_to_fd s → os s' = os s →
  idle s a → idle s' a.
Proof. intros Hc Hm Ho []. split; rewrite ?Hc, ?Hm, ?Ho; done. Qed.

Lemma signals_ext sigs s :
  let s' := foldl (λ s n, signal_handler n s) s sigs in
  g_connections s' = g_connections s ∧ g_mark_to_fd s' = g_mark_to_fd s ∧ os s' = os s.
Proof.
  revert s. induction sigs as [|n sigs IH]; intros s; simpl; [done|].
  destruct (IH (signal_handler n s)) as (-> & -> & ->).
  unfold signal_handler. by destruct ((n =? SIGINT) || (n =? SIGTERM)).
Qed.

Lemma wp_deliver_signals s a :
  idle s a → wp deliver_signals (λ _ s', idle s' a) no_ub s.
Proof.
  intros Hrel. unfold deliver_signals. wp_step. apply wp_call. intros sigs w Hw.
  apply signals_law in Hw. wp_step.
  destruct (signals_ext sigs (set_os w s)) as (? & ? & ?).
  eapply idle_ext; [done..|]. by apply rel_obs.
Qed.

Lemma perf_report_silent p : silent (perf_report (W := W) p).
Proof.
  apply silent_bind; [apply silent_call; intros; by eapply clock_law|]. intros now.
  cbv zeta. destruct (1000 <=? _); [|apply silent_ret].
  apply silent_gets. intros st. cbv zeta. apply silent_bind; [apply log_silent|intros _].
  apply silent_bind; [|intros; apply silent_ret].
  destruct (_ || _); [apply log_silent|apply silent_ret].
Qed.

Lemma wp_main_loop fuel s a p :
  idle s a → wp (main_loop fuel lfd epfd p) (λ _ s', simulates a s') erased_use s.
Proof.
  revert s a p. induction fuel as [|fuel IH]; intros s a p Hrel; simpl.
  { wp_step. by apply simulates_here. }
  wp_step. eapply wp_weaken_ub, wp_conseq; [by apply wp_deliver_signals|].
  intros [] s1 Hrel1. wp_step. wp_step. destruct (g_running s1); simpl.
  2: { wp_step. by apply simulates_here. }
  wp_step. apply wp_modify. wp_step. apply wp_call. intros r w Hw.
  apply epoll_wait_law in Hw as [Hobs Hevs].
  set (s2 := set_os w (upd_stat (add_event_loops 1) s1)).
  assert (idle s2 a) as Hrel2 by (apply rel_obs; [done|by apply rel_stat]).
  destruct r as [evs|e].
  - wp_step. apply wp_modify. wp_step. eapply wp_silent; [apply perf_report_silent|].
    intros p' w' Hobs'. wp_step. set (s3 := set_os w' _).
    assert (idle s3 a) as Hrel3 by (apply rel_obs; [done|by apply rel_stat]).
    eapply wp_conseq; [apply (wp_batch s3 a); [done|]|].
    + destruct Hevs as [_ Hevs]. eapply Forall_impl; [exact Hevs|]. intros ev Hev Heq.
      simpl in Hev. rewrite Heq in Hev. apply elem_of_dom in Hev. destruct Hobs as (_ & Hi & _).
      change (interest (os (upd_stat (add_event_loops 1) s1))) with (interest (os s1)) in Hev.
      rewrite (r_interest _ _ _ _ _ _ Hrel1) in Hev.
      destruct (r_fds _ _ _ _ _ _ Hrel1) as (? & ? & ?). set_solver.
    + intros [] s4 (es & a4 & Hes & Hrel4). eapply wp_conseq; [by apply IH|].
      intros b s5 Hsim. by eapply simulates_trans.
  - destruct (e =? EINTR); [by apply IH|]. wp_step. wp_log. wp_step.
    apply simulates_here. by apply rel_obs.
Qed.
End handlers.

(** ** [main] *)

Section main.
Context {W : Type} `{HP : Posix W} `{HO : PosixObs W} `{HL : !PosixLaws W}.
Implicit Types (s : Server W) (F : gset Z).

(** No connection, and exactly the descriptors [F] open. *)
Definition bare s F : Prop :=
  g_connections s = ∅ ∧ g_mark_to_fd s = ∅ ∧ open_fds (os s) = F ∧ interest (os s) = ∅.

Lemma bare_obs s w F : same_obs (os s) w → bare s F → bare (set_os w s) F.
Proof. intros (Ho & Hi & _) (? & ? & ? & ?). split_and!; simpl; congruence. Qed.

Lemma wp_close_bare s F fd :
  bare s F → wp (call_ (λ w, sys_close w fd)) (λ _ s', bare s' (F ∖ {[fd]})) no_ub s.
Proof.
  intros (Hc & Hm & Ho & Hi). apply wp_modify. destruct (close_law (os s) fd) as (Ho' & Hi' & _).
  split_and!; simpl; [done|done|by rewrite Ho', Ho|]. by rewrite Hi', Hi, delete_empty.
Qed.

Definition new_fd_result s F (r : option Z) (s' : Server W) : Prop :=
  match r with
  | Some fd => fd ∉ F ∧ bare s' ({[fd]} ∪ F)
  | None => bare s' F
  end.

Lemma wp_new_fd s F (f : W → option Z * W) :
  (∀ w r w', f w = (r, w') →
     match r with Some fd => fd_created w w' fd | None => same_obs w w' end) →
  bare s F → wp (call f) (new_fd_result s F) no_ub s.
Proof.
  intros Hlaw Hb. apply wp_call. intros r w Hw. apply Hlaw in Hw. destruct r as [fd|]; simpl.
  - destruct Hb as (? & ? & Ho & Hi), Hw as (_ & Hf & Ho' & Hi' & _).
    split; [congruence|]. split_and!; simpl; congruence.
  - by apply bare_obs.
Qed.

Lemma wp_fail_listen s fd :
  bare s ({[fd]} ∪ ∅) →
  wp (call_ (λ w, sys_close w fd) ;; mret None) (new_fd_result s ∅) no_ub s.
Proof.
  intros Hb. wp_step. wp_apply wp_close_bare; [done|]. intros [] s' Hb'. wp_step. simpl.
  by replace (({[fd]} ∪ ∅) ∖ {[fd]}) with (∅ : gset Z) in Hb' by set_solver.
Qed.

(** A step of [create_listen_socket]: a silent call that may fail. *)
Lemma wp_listen_step s fd (m : prog (Server W) bool) f g :
  bare s ({[fd]} ∪ ∅) → silent m →
  (∀ w, bare (set_os w s) ({[fd]} ∪ ∅) → wp f (new_fd_result s ∅) no_ub (set_os w s)) →
  (∀ w, bare (set_os w s) ({[fd]} ∪ ∅) → wp g (new_fd_result s ∅) no_ub (set_os w s)) →
  wp (m ≫= λ ok, if negb ok then f else g) (new_fd_result s ∅) no_ub s.
Proof.
  intros Hb Hm Hf Hg. wp_step. eapply wp_silent; [done|]. intros ok w Hw.
  apply (bare_obs _ w) in Hb; [|done]. destruct ok; simpl; auto.
Qed.

Lemma wp_create_listen_socket s port :
  bare s ∅ → wp (create_listen_socket port) (new_fd_result s ∅) no_ub s.
Proof.
  intros Hb. unfold create_listen_socket. wp_step.
  wp_apply (wp_new_fd s ∅); [intros w r w'; apply socket_law|done|].
  intros [fd|] s1; simpl.
  2: { intros Hb1. wp_step. wp_log. wp_step. simpl. by apply bare_obs. }
  intros [_ Hb1].
  assert (∀ w m, bare (set_os w s1) ({[fd]} ∪ ∅) →
    wp (log LVL_ERR m ;; call_ (λ w, sys_close w fd) ;; mret None)
       (new_fd_result s1 ∅) no_ub (set_os w s1)) as Hfail.
  { intros w m Hbw. wp_step. wp_log. apply wp_fail_listen. by apply bare_obs. }
  apply (wp_listen_step s1 fd); [done|apply silent_setsockopt|auto|intros w1 Hw1].
  apply (wp_listen_step (set_os w1 s1) fd); [done| |intros; by apply Hfail|intros w2 Hw2].
  { apply silent_call. intros. by eapply bind_law. }
  apply (wp_listen_step (set_os w2 s1) fd); [done| |intros; by apply Hfail|intros w3 Hw3].
  { apply silent_call. intros. by eapply listen_law. }
  apply (wp_listen_step (set_os w3 s1) fd);
    [done|apply set_nonblocking_silent|intros; by apply wp_fail_listen|intros w4 Hw4].
  wp_step. split; [set_solver|done].
Qed.

Lemma wp_close_all s l :
  wp (for_each (λ fd, call_ (λ w, sys_close w fd)) l)
     (λ _ s', g_connections s' = g_connections s ∧
        open_fds (os s') = open_fds (os s) ∖ list_to_set l ∧
        (∀ x, x ∈ dom (interest (os s')) → x ∈ dom (interest (os s)) ∧ x ∉ l)) no_ub s.
Proof.
  revert s. induction l as [|fd l IH]; intros s; simpl.
  - wp_step. split_and!; [done|set_solver|]. intros x Hx. split; [done|]. apply not_elem_of_nil.
  - wp_step. apply wp_modify. wp_apply IH. intros [] s' (Hc & Ho & Hi). simpl in *.
    destruct (close_law (os s) fd) as (Ho' & Hi' & _). rewrite Ho' in Ho. rewrite Hi' in Hi.
    split_and!; [done|by rewrite Ho, difference_difference_l_L|].
    intros x [Hx Hl]%Hi. rewrite dom_delete_L in Hx.
    apply elem_of_difference in Hx as [Hx Hne]. split; [done|].
    rewrite elem_of_singleton in Hne. by apply not_elem_of_cons.
Qed.

(** Every descriptor the server opened is closed again. *)
Lemma wp_cleanup lfd epfd s a :
  RelayRefinement.rel lfd epfd None None s a →
  wp (cleanup lfd epfd) (λ _ s', bare s' ∅ ∧ initialized_ s' = false) no_ub s.
Proof.
  intros Hrel. unfold cleanup. wp_step. wp_log. apply (rel_obs _ _ _ _ _ _ w) in Hrel; [|done].
  destruct Hrel as [_ _ _ Hopen Hint (_ & _ & _)].
  wp_step. wp_step. wp_step. wp_apply wp_close_all. intros [] s1 (Hc1 & Ho1 & Hi1).
  wp_step. wp_step. wp_step. wp_step. wp_step. apply wp_modify. wp_step. apply wp_modify.
  wp_step. wp_log. apply wp_modify. split; [|done]. simpl in *.
  destruct (close_law (os s1) epfd) as (Ho2 & Hi2 & _).
  destruct (close_law (sys_close (os s1) epfd) lfd) as (Ho3 & Hi3 & _).
  destruct Hobs0 as (Ho4 & Hi4 & _). split_and!; [done|done| |]; simpl in *.
  - rewrite Ho4, Ho3, Ho2, Ho1, Hopen. rewrite list_to_set_elements_L. set_solver.
  - apply dom_empty_inv_L. rewrite Hi4, Hi3, Hi2, !dom_delete_L.
    apply elem_of_equiv_empty_L. intros x. rewrite !elem_of_difference, !elem_of_singleton.
    intros [[Hx ?] ?]. apply Hi1 in Hx as [Hx Hne]. rewrite elem_of_elements in Hne. set_solver.
Qed.

(** What [main] leaves behind: an exit code and no resources, or a loop
    still running on a state of the relay. *)
Definition main_result (r : option Z) (s' : Server W) : Prop :=
  match r with
  | Some code => bare s' ∅ ∧ initialized_ s' = false
  | None => ∃ lfd epfd es a, relay_steps ∅ es a ∧ RelayRefinement.rel lfd epfd None None s' a
  end.

Lemma rel_start s lfd epfd :
  g_connections s = ∅ → g_mark_to_fd s = ∅ → open_fds (os s) = {[lfd; epfd]} →
  interest (os s) = {[lfd := EPOLLIN]} → lfd ≠ epfd →
  RelayRefinement.rel lfd epfd None None s ∅.
Proof.
  intros Hc Hm Ho Hi Hne. split; rewrite ?Hc, ?Hm, ?Ho, ?Hi, ?dom_empty_L.
  - apply map_Forall2_empty.
  - intros k r. rewrite lookup_empty. split; [done|]. intros (p & Hp & _).
    by rewrite lookup_empty in Hp.
  - apply relay_inv_empty.
  - set_solver.
  - rewrite dom_singleton_L. set_solver.
  - set_solver.
Qed.

Lemma wp_main fuel argv s :
  bare s ∅ → initialized_ s = false → wp (main fuel argv) main_result erased_use s.
Proof.
  intros Hb Hinit. unfold main.
  assert (∀ (b : bool) m,
    wp (call_ (λ w, sys_print log_msg w b m) ;; mret (Some 1)) main_result erased_use s) as Husage.
  { intros b m. wp_step. apply wp_modify. wp_step. split; [|done].
    apply bare_obs; [apply print_law|done]. }
  destruct argv as [|arg [|]]; [by apply Husage| |by apply Husage]. cbv zeta.
  wp_step; [by apply Husage|]. clear Husage.
  do 4 (wp_step; apply wp_modify). rewrite !set_os_twice. simpl. set (s1 := set_os _ _).
  assert (bare s1 ∅) as Hb1.
  { apply bare_obs; [|done]. etrans; [apply signal_law|].
    etrans; [apply signal_law|]. apply signal_law. }
  wp_step. eapply wp_weaken_ub, wp_conseq; [by apply wp_create_listen_socket|].
  intros [lfd|] s2; simpl.
  2: { intros Hb2. wp_step. apply wp_modify. wp_step. by split. }
  intros [_ Hb2]. wp_step. eapply wp_weaken_ub, wp_conseq.
  { apply (wp_new_fd s2 ({[lfd]} ∪ ∅)); [intros w r w'; apply epoll_create_law|done]. }
  intros [epfd|] s3; simpl.
  2: { intros Hb3. wp_step. wp_log. apply (bare_obs _ w) in Hb3; [|done].
    wp_step. eapply wp_weaken_ub, wp_conseq; [by apply wp_close_bare|].
    intros [] s4 Hb4. wp_step. apply wp_modify. wp_step. split; [|done].
    replace (({[lfd]} ∪ ∅) ∖ {[lfd]}) with (∅ : gset Z) in Hb4 by set_solver. apply Hb4. }
  intros [Hne Hb3]. wp_step. apply wp_call. intros ok w Hctl.
  apply epoll_ctl_law in Hctl as (Ho & Hi & _ & _). destruct ok; simpl.
  2: { wp_step. wp_log. rewrite set_os_twice.
    assert (bare (set_os w0 s3) ({[epfd]} ∪ ({[lfd]} ∪ ∅))) as Hb4.
    { destruct Hb3 as (? & ? & ? & ?), Hobs as (Ho' & Hi' & _).
      split_and!; simpl in *; congruence. }
    wp_step. eapply wp_weaken_ub, wp_conseq; [by apply wp_close_bare|]. intros [] s4 Hb5.
    wp_step. eapply wp_weaken_ub, wp_conseq; [by apply wp_close_bare|]. intros [] s5 Hb6.
    wp_step. apply wp_modify. wp_step. split; [|done].
    replace (_ ∖ {[lfd]}) with (∅ : gset Z) in Hb6 by set_solver. apply Hb6. }
  wp_step. wp_log. rewrite set_os_twice. wp_step. apply wp_call. intros now w1 Hclk.
  apply clock_law in Hclk. rewrite set_os_twice. simpl in Hclk.
  assert (RelayRefinement.rel lfd epfd None None (set_os w1 s3) ∅) as Hrel.
  { destruct Hobs as (Ho' & Hi' & _), Hclk as (Ho'' & Hi'' & _). simpl in *.
    destruct Hb3 as (? & ? & Ho3 & Hi3). apply rel_start; simpl; [done|done| | |set_solver].
    - rewrite Ho'', Ho', Ho, Ho3. set_solver.
    - by rewrite Hi'', Hi', Hi, Hi3. }
  wp_step. eapply wp_conseq; [by apply wp_main_loop|].
  intros left s4 (es & a & Hes & Hrel4). destruct left; simpl.
  - wp_step. eapply wp_weaken_ub, wp_conseq; [by eapply wp_cleanup|]. intros [] s5 Hdone.
    by wp_step.
  - wp_step. by exists lfd, epfd, es, a.
Qed.
End main.
