(* ===== verification/RelayTheorems.v ===== *)
(** * What the relay server guarantees

    The theorems about [server/main.cpp].  Each follows from the simulation
    lemmas of [RelayHandlers] and the invariants of [RelaySpec].  The
    witnesses run the server on [ScriptOS] against two peers. *)

From stdpp Require Import base gmap sets list fin_maps.
From Stdlib Require Import ZArith Lia.
From S2P Require Import Prelude Bytes Framing Posix RelayServer RelayBuffers RelaySpec RelayRefinement RelayHandlers.

(** ** Running the server on a script *)

Module Demo.
Definition mark_a : list byte := replicate 8 x61.
Definition mark_b : list byte := replicate 8 x62.
Definition hello : list byte := [x01; x02; x03].

(** Listening on descriptor 3, polling on 4. *)
Definition start (w : ScriptOS.t) : Server ScriptOS.t := mkServer true ∅ ∅ zero_stats true w.

Definition script (reads : gmap Z (list (list byte + Z))) (writes : gmap Z (list (nat + Z)))
    (accepts : list (option Z)) (polls : list (list (Z * Z))) : ScriptOS.t :=
  ScriptOS.mk reads writes accepts [] polls [] 0 {[3; 4]} {[3 := EPOLLIN]} ∅ ∅.

(** The state after [n] iterations of the main loop. *)
Definition after (n : nat) (w : ScriptOS.t) : Server ScriptOS.t :=
  match main_loop n 3 4 (mkPerf zero_stats 0) (start w) with
  | Ret (_, s) => s
  | _ => start w
  end.

Lemma start_rel w :
  ScriptOS.opened w = {[3; 4]} → ScriptOS.watched w = {[3 := EPOLLIN]} →
  rel 3 4 None None (start w) ∅.
Proof. intros Ho Hw. by apply rel_start. Qed.

Definition is_ret {A} (o : outcome A) : bool := match o with Ret _ => true | _ => false end.

(** A run that returned is at a state of the relay. *)
Lemma after_rel n w :
  is_ret (main_loop n 3 4 (mkPerf zero_stats 0) (start w)) = true →
  ScriptOS.opened w = {[3; 4]} → ScriptOS.watched w = {[3 := EPOLLIN]} →
  ∃ a, rel 3 4 None None (after n w) a.
Proof.
  intros Hret Ho Hw. pose proof (wp_main_loop 3 4 n _ _ (mkPerf zero_stats 0) (start_rel w Ho Hw)) as Hwp.
  unfold wp in Hwp. unfold after. destruct (main_loop _ _ _ _ _) as [[b s]| |]; [|done..].
  destruct Hwp as (es & a & _ & Hrel). by exists a.
Qed.

(** Peers on 5 and 6 join and register as [a] and [b]; then 5 sends [hello]
    to [b]. *)
Definition two_peers : ScriptOS.t :=
  script (<[5 := [inl (frame mark_a); inl (frame (mark_b ++ hello))]]> {[6 := [inl (frame mark_b)]]})
         ∅ [Some 5; Some 6] [[(3, 1)]; [(3, 1)]; [(5, 1)]; [(6, 1)]; [(5, 1)]].

Lemma two_peers_rel n : is_ret (main_loop n 3 4 (mkPerf zero_stats 0) (start two_peers)) = true →
  ∃ a, rel 3 4 None None (after n two_peers) a.
Proof. intros H. by apply after_rel. Qed.

(** The same from [main], with port 222. *)
Definition boot_two_peers : ScriptOS.t :=
  ScriptOS.mk (ScriptOS.reads two_peers) ∅ (ScriptOS.accepts two_peers) [] (ScriptOS.polls two_peers)
              [] 0 ∅ ∅ ∅ ∅.
Definition port : list Z := [50; 50; 50].

Definition is_running (o : outcome (option Z * Server ScriptOS.t)) : bool :=
  match o with Ret (None, _) => true | _ => false end.
Definition final (o : outcome (option Z * Server ScriptOS.t)) : Server ScriptOS.t :=
  match o with Ret (_, s) => s | _ => boot ScriptOS.idle end.

Lemma running_final o : is_running o = true → o = Ret (None, final o).
Proof. by destruct o as [[[|] s]| |]. Qed.
End Demo.

(** ** The event handlers *)

(** C3. [handle_client_data] implements the relay: from a state that stands
    for the abstract relay [a], unless the bytes it reads complete a packet
    the peer addresses to itself, it returns (no undefined behaviour, no
    endless loop) in a state reached from [a] by relay steps that handle, in
    order, exactly the packets completed by the bytes it read (a prefix of
    them when the peer was disconnected on the way). *)
Theorem handle_client_data_refines `{PosixLaws W} lfd epfd (s : Server W) a fd :
  rel lfd epfd None None s a → fd ≠ lfd → fd ≠ epfd → sends_to_itself fd s = false →
  ∃ s', handle_client_data fd epfd s = Ret (tt, s') ∧ read_served lfd epfd fd s a s'.
Proof.
  intros Hrel Hl He Hself.
  assert (wp (handle_client_data fd epfd) (λ _ s', read_served lfd epfd fd s a s') no_ub s) as Hwp.
  { eapply wp_mono; [by apply wp_handle_client_data|done|].
    intros u [_ Hu]. apply (sends_to_itself_spec lfd epfd fd s a) in Hu; [congruence|done]. }
  apply wp_returns in Hwp as ([] & s' & Hrun & Hs'). by exists s'.
Qed.

Lemma handle_client_data_refines_witness :
  ∃ a s', handle_client_data 5 4 (Demo.after 4 Demo.two_peers) = Ret (tt, s') ∧
          read_served 3 4 5 (Demo.after 4 Demo.two_peers) a s'.
Proof.
  destruct (Demo.two_peers_rel 4) as [a Hrel]; [by vm_compute|].
  destruct (handle_client_data_refines 3 4 (Demo.after 4 Demo.two_peers) a 5) as (s' & H);
    [done|lia|lia|by vm_compute|]. by exists a, s'.
Defined.

(** ** The whole program *)



(** The abstract relay behind a running server. *)
Lemma running_rel `{PosixLaws W} fuel argv (w : W) s :
  open_fds w = ∅ → interest w = ∅ → main fuel argv (boot w) = Ret (None, s) →
  ∃ lfd epfd es a, rel lfd epfd None None s a ∧ viewed es a ∧ inputs_logged es a.
Proof.
  intros Ho Hi Hrun. pose proof (wp_main fuel argv (boot w)) as Hwp.
  unfold wp in Hwp. rewrite Hrun in Hwp.
  destruct Hwp as (lfd & epfd & es & a & Hes & Hrel); [done..|].
  exists lfd, epfd, es, a. split_and!; [done| |].
  - apply (relay_steps_viewed [] ∅ es a); [done|apply relay_inv_empty|apply viewed_empty].
  - apply (relay_steps_inputs [] ∅ es a); [done|]. intros r p Hr. by rewrite lookup_empty in Hr.
Qed.



(** C10. The registry is exact and one-to-one at every iteration of the event
    loop: a key maps to a descriptor exactly when that descriptor is a
    registered connection with a mark of this key, no two registered
    connections have the same mark, there are at most four connections, and
    the open descriptors are theirs, the listening and the epoll one. *)
Theorem registry_exact `{PosixLaws W} fuel argv (w : W) s :
  open_fds w = ∅ → interest w = ∅ → main fuel argv (boot w) = Ret (None, s) →
  (∀ k r, g_mark_to_fd s !! k = Some r ↔
     ∃ c, g_connections s !! r = Some c ∧ registered c = true ∧ mark_to_key (mark c) = k) ∧
  (∀ r r' c c', g_connections s !! r = Some c → g_connections s !! r' = Some c' →
     registered c = true → registered c' = true → mark c = mark c' → r = r') ∧
  Z.of_nat (size (g_connections s)) ≤ 4 ∧
  ∃ lfd epfd, open_fds (os s) = {[lfd; epfd]} ∪ dom (g_connections s).
Proof.
  intros Ho Hi Hrun. destruct (running_rel _ _ _ _ Ho Hi Hrun) as (lfd & epfd & es & a & Hrel & _ & _).
  assert (∀ k r, g_mark_to_fd s !! k = Some r ↔
     ∃ c, g_connections s !! r = Some c ∧ registered c = true ∧ mark_to_key (mark c) = k) as Hreg.
  { intros k r. rewrite (r_marks _ _ _ _ _ _ Hrel). split.
    - intros (p & Hp & Hk). destruct (rel_lookup_r _ _ _ _ _ _ _ _ Hrel Hp) as (c & Hc & Hcr).
      exists c. rewrite (cr_key _ _ _ _ _ _ Hcr) in Hk. destruct (registered c); by simplify_eq.
    - intros (c & Hc & Hr & Hk). destruct (rel_lookup_l _ _ _ _ _ _ _ _ Hrel Hc) as (p & Hp & Hcr).
      exists p. split; [done|]. by rewrite (cr_key _ _ _ _ _ _ Hcr), Hr, Hk. }
  split_and!; [done| | |by exists lfd, epfd; apply Hrel].
  - intros r r' c c' Hc Hc' Hr Hr' Hm.
    assert (g_mark_to_fd s !! mark_to_key (mark c) = Some r) as Hone by (apply Hreg; eauto).
    assert (g_mark_to_fd s !! mark_to_key (mark c) = Some r') as Htwo by (apply Hreg; rewrite Hm; eauto).
    congruence.
  - rewrite (rel_size _ _ _ _ _ _ Hrel). apply (r_inv _ _ _ _ _ _ Hrel).
Qed.

Lemma registry_exact_witness :
  Z.of_nat (size (g_connections (Demo.final (main 6 [Demo.port] (boot Demo.boot_two_peers))))) ≤ 4.
Proof.
  refine (proj1 (proj2 (proj2 (registry_exact 6 [Demo.port] Demo.boot_two_peers _ _ _ _))));
    [reflexivity..|]. apply Demo.running_final. vm_compute. reflexivity.
Defined.

(** C19. No pending output is forgotten: at every iteration of the event
    loop, a connection with bytes in its send buffer is watched for
    [EPOLLOUT], so a later event flushes it (given that [EPOLL_CTL_MOD]
    succeeds on a watched descriptor, the result the server ignores). *)
Theorem pending_output_armed `{PosixLaws W} fuel argv (w : W) s r c :
  open_fds w = ∅ → interest w = ∅ → mod_succeeds W →
  main fuel argv (boot w) = Ret (None, s) → g_connections s !! r = Some c → send_buf c ≠ [] →
  interest (os s) !! r = Some (Z.lor EPOLLIN EPOLLOUT).
Proof.
  intros Ho Hi Hmod Hrun Hc Hpend.
  destruct (running_rel _ _ _ _ Ho Hi Hrun) as (lfd & epfd & es & a & Hrel & _ & _).
  destruct (rel_lookup_l _ _ _ _ _ _ _ _ Hrel Hc) as (p & _ & Hcr).
  by apply (cr_armed _ _ _ _ _ _ Hcr).
Qed.

Lemma script_mod_succeeds : mod_succeeds ScriptOS.t.
Proof. intros w epfd fd ev Hw. simpl. unfold ScriptOS.do_ctl. by rewrite bool_decide_eq_true_2. Qed.

(** C31. The branch "receive buffer full" of [handle_client_data] is dead: at
    every iteration of the event loop every receive buffer has room, since a
    full buffer would hold a complete packet.  [recv_len] stays within the
    65536 bytes of the buffer. *)
Theorem receive_buffer_never_full `{PosixLaws W} fuel argv (w : W) s r c :
  open_fds w = ∅ → interest w = ∅ →
  main fuel argv (boot w) = Ret (None, s) → g_connections s !! r = Some c →
  0 ≤ recv_len c < BUFFER_SIZE ∧ Zlen (recv_buf c) = BUFFER_SIZE.
Proof.
  intros Ho Hi Hrun Hc.
  destruct (running_rel _ _ _ _ Ho Hi Hrun) as (lfd & epfd & es & a & Hrel & _ & _).
  destruct (rel_lookup_l _ _ _ _ _ _ _ _ Hrel Hc) as (p & _ & Hcr).
  pose proof (cr_buffer _ _ _ _ _ _ Hcr) as Hwf. destruct (cr_in _ _ _ _ _ _ Hcr) as [Hquiet _]; [done|].
  pose proof (quiet_not_full c Hwf Hquiet). destruct Hwf as [Hsize [Hlow _]]. done.
Qed.

(** A run with output pending on 6: the kernel takes three bytes, then blocks. *)
Definition slow_peer : ScriptOS.t :=
  ScriptOS.mk (ScriptOS.reads Demo.two_peers) {[6 := [inl 3%nat; inr EAGAIN]]}
    (ScriptOS.accepts Demo.two_peers) [] (ScriptOS.polls Demo.two_peers) [] 0 ∅ ∅ ∅ ∅.

(** The connection on [r] of a final state. *)
Definition conn_of (r : Z) (s : Server ScriptOS.t) : Connection :=
  default (new_connection r) (g_connections s !! r).

Lemma conn_of_lookup r s :
  bool_decide (is_Some (g_connections s !! r)) = true → g_connections s !! r = Some (conn_of r s).
Proof. intros [c Hc]%bool_decide_eq_true_1. unfold conn_of. by rewrite Hc. Qed.

Lemma pending_output_armed_witness :
  interest (os (Demo.final (main 6 [Demo.port] (boot slow_peer)))) !! 6 = Some (Z.lor EPOLLIN EPOLLOUT).
Proof.
  eapply (pending_output_armed 6 [Demo.port] slow_peer _ 6);
    [reflexivity|reflexivity|apply script_mod_succeeds| |apply conn_of_lookup; vm_compute; reflexivity|].
  - apply Demo.running_final. vm_compute. reflexivity.
  - intros Hnil. apply (f_equal (@length byte)) in Hnil. vm_compute in Hnil. discriminate Hnil.
Defined.

Lemma receive_buffer_never_full_witness :
  0 ≤ recv_len (conn_of 5 (Demo.final (main 6 [Demo.port] (boot slow_peer)))) < BUFFER_SIZE ∧
  Zlen (recv_buf (conn_of 5 (Demo.final (main 6 [Demo.port] (boot slow_peer))))) = BUFFER_SIZE.
Proof.
  eapply (receive_buffer_never_full 6 [Demo.port] slow_peer _ 5);
    [reflexivity|reflexivity| |apply conn_of_lookup; vm_compute; reflexivity].
  apply Demo.running_final. vm_compute. reflexivity.
Defined.

(** ** One packet *)

(** The output side of a connection, in two related states. *)
Lemma rel_outputs `{PosixLaws W} lfd epfd b b' (s s' : Server W) a a' x c c' q :
  rel lfd epfd b None s a → rel lfd epfd b' None s' a' →
  g_connections s !! x = Some c → g_connections s' !! x = Some c' →
  p_out <$> a' !! x = (λ l, l ++ q) ∘ p_out <$> a !! x →
  sent (os s') x ++ send_buf c' = (sent (os s) x ++ send_buf c) ++ stream q.
Proof.
  intros Hrel Hrel' Hc Hc' Hq.
  destruct (rel_lookup_l _ _ _ _ _ _ _ _ Hrel Hc) as (p & Hp & Hcr).
  destruct (rel_lookup_l _ _ _ _ _ _ _ _ Hrel' Hc') as (p' & Hp' & Hcr').
  rewrite Hp, Hp' in Hq. simpl in Hq. injection Hq as Hq.
  by rewrite (cr_out _ _ _ _ _ _ Hcr), (cr_out _ _ _ _ _ _ Hcr'), Hq, stream_app.
Qed.

(** What is left of the relay after a forwarding step, the target kept or
    closed. *)
Lemma processed_forward a r p k t data a' :
  relay_inv a → a !! r = Some p → p_key p = Some k → owns a t (mark_to_key data) →
  MARK_SIZE < Zlen data → processed r a p data a' →
  (∀ pt', a' !! t = Some pt' → p_out <$> a' !! t = (λ l, l ++ [drop 8 data]) ∘ p_out <$> a !! t) ∧
  (∀ x, x ≠ t → p_out <$> a' !! x = (λ l, l ++ []) ∘ p_out <$> a !! x).
Proof.
  intros Hinv Hp Hk Ht Hlen (a1 & p1 & Hstep & _ & _ & _ & Ha').
  apply (forward_step a r p k t) in Hstep; [subst a1|done..].
  assert (∀ x, p_out <$> (<[r:=add_in data p]> a : gmap Z peer) !! x = p_out <$> a !! x) as Hsame.
  { intros x. rewrite lookup_insert. case_decide; [subst; by rewrite Hp|done]. }
  set (a0 := <[r:=add_in data p]> a) in *.
  assert (∀ x, x ≠ t → p_out <$> alter (add_out (drop 8 data)) t a0 !! x
                      = (λ l, l ++ []) ∘ p_out <$> a !! x) as Hother.
  { intros x Hx. rewrite lookup_alter_ne, Hsame by done.
    destruct (a !! x); simpl; [by rewrite app_nil_r|done]. }
  assert (p_out <$> alter (add_out (drop 8 data)) t a0 !! t
          = (λ l, l ++ [drop 8 data]) ∘ p_out <$> a !! t) as Htarget.
  { rewrite lookup_alter_eq. specialize (Hsame t).
    destruct (a0 !! t) as [p2|], (a !! t) as [p3|]; simpl in *; try done. injection Hsame as ->. done. }
  destruct Ha' as [->|(t' & -> & Ht' & _)]; [by split|].
  assert (t' = t) as -> by (by eapply Hinv). split.
  - intros pt'. by rewrite lookup_delete_eq.
  - intros x Hx. rewrite lookup_delete_ne by done. by apply Hother.
Qed.



(** C27. Registration: the first packet of a connection registers it under the
    packet's eight bytes exactly when it is eight bytes long and no
    connection holds that mark; otherwise the registry is left as it was and
    the caller is told to disconnect the peer. *)
Theorem registration_outcome `{PosixLaws W} (s : Server W) r c data epfd :
  g_connections s !! r = Some c → registered c = false →
  ∃ s', process_packet r data (Zlen data) epfd s =
        Ret (bool_decide (Zlen data = 8 ∧ g_mark_to_fd s !! mark_to_key data = None), s') ∧
    if decide (Zlen data = 8 ∧ g_mark_to_fd s !! mark_to_key data = None) then
      g_mark_to_fd s' = <[mark_to_key data := fd c]> (g_mark_to_fd s) ∧
      g_connections s' = <[r := with_registered true (with_mark data c)]> (g_connections s)
    else
      g_mark_to_fd s' = g_mark_to_fd s ∧
      ∀ x, x ≠ r → g_connections s' !! x = g_connections s !! x.
Proof.
  intros Hc Hreg.
  assert (wp (process_packet r data (Zlen data) epfd) (λ ok s',
    ok = bool_decide (Zlen data = 8 ∧ g_mark_to_fd s !! mark_to_key data = None) ∧
    if decide (Zlen data = 8 ∧ g_mark_to_fd s !! mark_to_key data = None) then
      g_mark_to_fd s' = <[mark_to_key data := fd c]> (g_mark_to_fd s) ∧
      g_connections s' = <[r := with_registered true (with_mark data c)]> (g_connections s)
    else
      g_mark_to_fd s' = g_mark_to_fd s ∧
      ∀ x, x ≠ r → g_connections s' !! x = g_connections s !! x) no_ub s) as Hwp.
  2: { apply wp_returns in Hwp as (ok & s' & Hrun & -> & Hs'). by exists s'. }
  unfold process_packet. wp_step. eapply wp_conn_at; [done|]. wp_step. apply wp_modify.
  rewrite Hreg. simpl. destruct (Z.eqb_spec (Zlen data) MARK_SIZE) as [Hlen|Hlen]; simpl.
  2: { wp_step. wp_log. wp_step. rewrite bool_decide_eq_false_2, decide_False by (by intros [? _]).
    by split. }
  assert (take (Z.to_nat MARK_SIZE) data = data) as ->.
  { apply take_ge. unfold Zlen, MARK_SIZE in *. lia. }
  wp_step. eapply wp_store; [done|]. wp_step. wp_step.
  change (g_mark_to_fd (set_connections _ _)) with (g_mark_to_fd s).
  destruct (g_mark_to_fd s !! mark_to_key data) as [t|].
  - wp_step. wp_log. wp_step. rewrite bool_decide_eq_false_2, decide_False by (by intros [_ ?]).
    split_and!; [done..|]. intros x Hx. simpl. by rewrite lookup_insert_ne.
  - wp_step. eapply wp_store; [simpl; apply lookup_insert_eq|]. wp_step. wp_step. wp_step. wp_log.
    wp_step. rewrite bool_decide_eq_true_2, decide_True by done. split_and!; [done..|].
    simpl. by rewrite insert_insert_eq.
Qed.

Lemma registration_outcome_witness :
  ∃ s', process_packet 5 Demo.mark_a 8 4 (Demo.after 2 Demo.two_peers) = Ret (true, s').
Proof.
  destruct (registration_outcome (Demo.after 2 Demo.two_peers) 5
    (conn_of 5 (Demo.after 2 Demo.two_peers)) Demo.mark_a 4) as (s' & Hrun & _).
  - apply conn_of_lookup. vm_compute. reflexivity.
  - vm_compute. reflexivity.
  - exists s'. rewrite bool_decide_eq_true_2 in Hrun; [exact Hrun|].
    split; vm_compute; reflexivity.
Defined.

(** C26. [close_connection] releases everything a connection holds: in a state
    of the relay it removes the connection, its registration and its
    descriptor (also from the interest list), keeps the registrations of the
    others, and the result is again a state of the relay. *)
Theorem close_connection_clean `{PosixLaws W} lfd epfd (s : Server W) a r :
  rel lfd epfd None None s a → r ≠ lfd → r ≠ epfd →
  ∃ s', close_connection r epfd s = Ret (tt, s') ∧
    g_connections s' = delete r (g_connections s) ∧
    (∀ k x, g_mark_to_fd s' !! k = Some x ↔ x ≠ r ∧ g_mark_to_fd s !! k = Some x) ∧
    r ∉ open_fds (os s') ∧ interest (os s') !! r = None ∧
    rel lfd epfd None None s' (delete r a).
Proof.
  intros Hrel Hl He.
  destruct (wp_returns _ _ _ (wp_close_connection lfd epfd None None s a r Hrel Hl He))
    as ([] & s' & Hrun & Hrel' & _ & Hconns).
  exists s'. split_and!; [done|done| | | |done].
  - intros k x. by rewrite (r_marks _ _ _ _ _ _ Hrel'), (r_marks _ _ _ _ _ _ Hrel), owns_delete.
  - rewrite (r_open _ _ _ _ _ _ Hrel'), Hconns. set_solver.
  - apply not_elem_of_dom. rewrite (r_interest _ _ _ _ _ _ Hrel'), Hconns. set_solver.
Qed.

Lemma close_connection_clean_witness :
  ∃ s', close_connection 5 4 (Demo.after 4 Demo.two_peers) = Ret (tt, s').
Proof.
  destruct (Demo.two_peers_rel 4) as [a Hrel]; [by vm_compute|].
  destruct (close_connection_clean 3 4 (Demo.after 4 Demo.two_peers) a 5) as (s' & Hrun & _);
    [done|lia|lia|]. exists s'. exact Hrun.
Defined.

(** C33. The limit of four connections holds at the door: with four
    connections, a further [accept] leaves every connection, registration and
    descriptor as it was; the new descriptor is closed at once. *)
Theorem fifth_connection_rejected `{PosixLaws W} lfd epfd (s : Server W) :
  MAX_CONNECTIONS ≤ Z.of_nat (size (g_connections s)) →
  ∃ s', handle_new_connection lfd epfd s = Ret (tt, s') ∧
    g_connections s' = g_connections s ∧ g_mark_to_fd s' = g_mark_to_fd s ∧
    open_fds (os s') = open_fds (os s).
Proof.
  intros Hfull.
  assert (wp (handle_new_connection lfd epfd) (λ _ s', g_connections s' = g_connections s ∧
    g_mark_to_fd s' = g_mark_to_fd s ∧ open_fds (os s') = open_fds (os s)) no_ub s) as Hwp.
  2: { apply wp_returns in Hwp as ([] & s' & Hrun & Hs'). by exists s'. }
  unfold handle_new_connection. wp_step. apply wp_call. intros r w Hacc.
  apply accept_law in Hacc. destruct r as [fd|e].
  - wp_step. wp_step. simpl. rewrite (proj2 (Z.leb_le _ _) Hfull). wp_step. wp_log.
    apply wp_modify. split_and!; [done..|]. simpl in *.
    destruct (close_law w0 fd) as (-> & _). destruct Hobs as (-> & _).
    destruct Hacc as (_ & Hf & -> & _). set_solver.
  - wp_step.
    + wp_log. destruct Hobs as (Ho & _), Hacc as (Ho' & _). simpl in *. split_and!; [done..|congruence].
    + wp_step. destruct Hacc as (Ho' & _). by split_and!.
Qed.

(** Five peers knock. *)
Definition five_peers : ScriptOS.t :=
  Demo.script ∅ ∅ [Some 5; Some 6; Some 7; Some 8; Some 9] (replicate 4 [(3, 1)]).

Lemma fifth_connection_rejected_witness :
  ∃ s', handle_new_connection 3 4 (Demo.after 4 five_peers) = Ret (tt, s') ∧
        g_connections s' = g_connections (Demo.after 4 five_peers).
Proof.
  destruct (fifth_connection_rejected 3 4 (Demo.after 4 five_peers)) as (s' & Hrun & Hc & _).
  - vm_compute. discriminate.
  - exists s'. split; [exact Hrun|exact Hc].
Defined.

(** C34. SIGINT and SIGTERM stop the server: delivered before an iteration of
    the event loop, they end the loop without waiting for events, and
    [main_loop] returns to the clean-up of [main]. *)
Theorem signal_stops_loop `{Posix W} fuel lfd epfd p (s : Server W) sigs w :
  sys_signals (os s) = (sigs, w) → SIGINT ∈ sigs ∨ SIGTERM ∈ sigs →
  main_loop (S fuel) lfd epfd p s = Ret (true, set_running false (set_os w s)).
Proof.
  intros Hsig Hin.
  assert (∀ l (s0 : Server W), g_running s0 = false → foldl (λ s n, signal_handler n s) s0 l = s0) as Hstopped.
  { induction l as [|n l IH]; intros s0 Hs0; simpl; [done|]. rewrite IH.
    - unfold signal_handler. destruct (_ || _); [|done]. destruct s0. by simplify_eq/=.
    - unfold signal_handler. by destruct (_ || _). }
  assert (∀ l (s0 : Server W), SIGINT ∈ l ∨ SIGTERM ∈ l →
    foldl (λ s n, signal_handler n s) s0 l = set_running false s0) as Hstop.
  { induction l as [|n l IH]; intros s0 Hl; [by destruct Hl as [?%elem_of_nil|?%elem_of_nil]|].
    simpl. unfold signal_handler at 2. destruct ((n =? SIGINT) || (n =? SIGTERM)) eqn:Hn.
    - by apply Hstopped.
    - apply IH. rewrite !elem_of_cons in Hl. unfold SIGINT, SIGTERM in *. destruct Hl as [[<-|?]|[<-|?]]; auto; lia. }
  cbn [main_loop]. unfold deliver_signals, call, mbind, prog_bind, gets, modify.
  rewrite Hsig. by rewrite Hstop.
Qed.

Lemma signal_stops_loop_witness :
  let w := ScriptOS.mk ∅ ∅ [] [] [] [[SIGTERM]] 0 {[3; 4]} ∅ ∅ ∅ in
  let w' := ScriptOS.mk ∅ ∅ [] [] [] [] 0 {[3; 4]} ∅ ∅ ∅ in
  main_loop 1 3 4 (mkPerf zero_stats 0) (Demo.start w)
    = Ret (true, set_running false (set_os w' (Demo.start w))).
Proof.
  intros w w'. apply (signal_stops_loop 0 3 4 _ (Demo.start w) [SIGTERM] w').
  - reflexivity.
  - right. left.
Defined.

(** ** Where the server goes wrong *)


(** Peers 5 and 6 are registered; 5 sends to 6, which has reset its socket;
    a third peer connects.  [batch] is what the last [epoll_wait] returns. *)
Definition reset_peer (batch : list (Z * Z)) : ScriptOS.t :=
  ScriptOS.mk (ScriptOS.reads Demo.two_peers) {[6 := [inr 32]]} [Some 5; Some 6; Some 6] []
    [[(3, 1)]; [(3, 1)]; [(5, 1)]; [(6, 1)]; batch] [] 0 ∅ ∅ ∅ ∅.

Definition reset_run (batch : list (Z * Z)) : outcome (option Z * Server ScriptOS.t) :=
  main 5 [Demo.port] (boot (reset_peer batch)).


(** ** Wire format, keys and counters *)

(** C35. The length prefix round-trips: what [write_packet_length] writes at
    any offset of a buffer, [read_packet_length] reads back there, for every
    32-bit length; the rest of the buffer is untouched. *)
Theorem packet_length_roundtrip i n buf buf' :
  0 ≤ n < 2 ^ 32 → write_packet_length i n buf = Some buf' →
  read_packet_length (drop i buf') = n ∧ length buf' = length buf ∧
  take i buf' = take i buf ∧ drop (i + 4) buf' = drop (i + 4) buf.
Proof.
  rewrite write_packet_length_bytes. intros Hn Hw.
  pose proof (write_at_length _ _ _ _ Hw) as Hlen. unfold write_at in Hw.
  case_decide as Hfit; [|done]. rewrite le_bytes_length in *. simplify_eq.
  assert (length (take i buf) = i) as Hi by (rewrite length_take; lia).
  split_and!; [|done| |].
  - rewrite drop_app_length' by done. rewrite read_packet_length_header.
    + unfold header. rewrite take_app_length' by (by rewrite le_bytes_length).
      by apply (le_val_bytes 4).
    + rewrite length_app, le_bytes_length. lia.
  - rewrite take_app_length' by done. done.
  - rewrite app_assoc, drop_app_length'; [done|]. rewrite length_app, le_bytes_length. lia.
Qed.

Lemma packet_length_roundtrip_witness :
  read_packet_length (drop 2 [x00; x00; x03; x02; x01; x00; x07]) = 66051.
Proof.
  apply (packet_length_roundtrip 2 66051 (replicate 6 x00 ++ [x07])); [lia|reflexivity].
Defined.

(** Marks and their keys correspond one to one: two marks of eight bytes
    with the same [uint64_t] key, or with the same hexadecimal form in the
    log, are equal. *)
Lemma mark_to_key_injective m m' :
  Zlen m = MARK_SIZE → Zlen m' = MARK_SIZE →
  mark_to_key m = mark_to_key m' ∨ format_mark m = format_mark m' → m = m'.
Proof.
  intros Hm Hm' [Hk|Hf]; [by apply mark_to_key_inj|].
  clear Hm Hm'. revert m' Hf.
  assert (∀ x y, 0 ≤ x < 16 → 0 ≤ y < 16 → hex_digit x = hex_digit y → x = y) as Hhex.
  { intros x y ? ?. unfold hex_digit. destruct (x <? 10) eqn:?, (y <? 10) eqn:?; lia. }
  induction m as [|b m IH]; intros [|b' m'] Hf; [done..|]. cbn in Hf. injection Hf as Hh Hl Hf.
  f_equal; [|by apply IH]. apply byte_val_inj.
  pose proof (byte_val_range b). pose proof (byte_val_range b').
  assert (byte_val b / 16 = byte_val b' / 16) by (apply Hhex; [split;
    [apply Z.div_pos; lia|apply Z.div_lt_upper_bound; lia]..|done]).
  assert (byte_val b mod 16 = byte_val b' mod 16) by (apply Hhex; [by apply Z.mod_pos_bound..|done]).
  rewrite (Z.div_mod (byte_val b) 16), (Z.div_mod (byte_val b') 16) by lia. lia.
Qed.
