(* ===== verification/WinSock.v ===== *)
(** * Winsock below the client library

    [src/connection_manager.cpp] calls Winsock through the wrappers of
    [src/platform_win.h].  The calls are the operations of the class
    [WinSock] over an arbitrary type of worlds; [INVALID_SOCKET] is [None].
    [WinSockLaws] states the documented behaviour the library relies on, and
    [ScriptNet] is a concrete scripted instance for the witnesses. *)

From stdpp Require Import base gmap sets list strings fin_maps.
From Stdlib Require Import ZArith Lia.
From S2P Require Import Prelude Bytes.

Definition WSAEWOULDBLOCK : Z := 10035.
Definition WSAEINPROGRESS : Z := 10036.
Definition WSAECONNRESET : Z := 10054.

(** What [select] leaves in its three sets, and its result. *)
Record selected : Type := mkSelected {
  sel_result : Z; sel_read : list Z; sel_write : list Z; sel_except : list Z
}.

Class WinSock (W : Type) : Type := {
  WSAStartup : W → bool * W;
  WSACleanup : W → W;
  WSAGetLastError : W → Z;
  ws_socket : W → option Z * W;
  closesocket : W → Z → W;
  ws_nodelay : W → Z → bool * W;
  ws_nonblocking : W → Z → bool * W;
  ws_reuseaddr : W → Z → bool * W;
  inet_pton : string → option Z;
  ws_connect : W → Z → Z → Z → bool * W;
  (** Sockets in the three sets in the order of [FD_SET]; the time-out in
      milliseconds. *)
  ws_select : W → list Z → list Z → list Z → Z → selected * W;
  (** [getsockopt(SO_ERROR)] *)
  ws_so_error : W → Z → option Z * W;
  ws_bind : W → Z → Z → bool * W;
  ws_listen : W → Z → bool * W;
  (** The socket, the peer's address as text and its port. *)
  ws_accept : W → Z → option (Z * string * Z) * W;
  (** At most the given number of bytes; [None] is [SOCKET_ERROR]. *)
  ws_recv : W → Z → nat → option (list byte) * W;
  (** The buffer and the length argument, an [int]. *)
  ws_send : W → Z → list byte → Z → option nat * W;
  steady_clock_ms : W → Z * W;
  (** The order in which an [unordered_map] with these keys yields them; the
      C++ standard leaves it open. *)
  map_order : W → gset Z → list Z
}.

(** The observations: open sockets, bytes sent and received on each; and
    what the network holds for the library, by socket number: the bytes that
    [recv] still delivers before it would block or end, and the connections
    that [accept] still returns. *)
Class WinSockObs (W : Type) : Type := {
  ws_open : W → gset Z;
  ws_sent : W → Z → list byte;
  ws_recvd : W → Z → list byte;
  ws_inbox : W → Z → nat;
  ws_backlog : W → nat
}.

Definition same_net `{WinSockObs W} (w w' : W) : Prop :=
  ws_open w' = ws_open w ∧ ws_backlog w' = ws_backlog w ∧
  ∀ s, ws_sent w' s = ws_sent w s ∧ ws_recvd w' s = ws_recvd w s ∧ ws_inbox w' s = ws_inbox w s.

(** A new socket: it was not open and carries no data. *)
Definition socket_created `{WinSockObs W} (w w' : W) (s : Z) : Prop :=
  0 < s ∧ s ∉ ws_open w ∧ ws_open w' = {[s]} ∪ ws_open w ∧
  ws_sent w' s = [] ∧ ws_recvd w' s = [] ∧
  (∀ s', s' ≠ s → ws_sent w' s' = ws_sent w s' ∧ ws_recvd w' s' = ws_recvd w s') ∧
  ∀ s', ws_inbox w' s' = ws_inbox w s'.

Class WinSockLaws (W : Type) `{WinSock W} `{WinSockObs W} : Prop := {
  startup_same w b w' : WSAStartup w = (b, w') → same_net w w';
  cleanup_same w : same_net w (WSACleanup w);
  socket_new w r w' : ws_socket w = (r, w') →
    match r with
    | Some s => socket_created w w' s ∧ ws_backlog w' = ws_backlog w
    | None => same_net w w'
    end;
  accept_new w l r w' : ws_accept w l = (r, w') →
    match r with
    | Some (s, _, port) =>
        socket_created w w' s ∧ (ws_backlog w' < ws_backlog w)%nat ∧ 0 ≤ port < 2 ^ 16
    | None => same_net w w'
    end;
  close_gone w s :
    ws_open (closesocket w s) = ws_open w ∖ {[s]} ∧
    ws_backlog (closesocket w s) = ws_backlog w ∧
    ∀ s', ws_sent (closesocket w s) s' = ws_sent w s' ∧
          ws_recvd (closesocket w s) s' = ws_recvd w s' ∧
          ws_inbox (closesocket w s) s' = ws_inbox w s';
  recv_data w s n r w' : ws_recv w s n = (r, w') →
    let bs := default [] r in
    (length bs ≤ n)%nat ∧ ws_open w' = ws_open w ∧ ws_backlog w' = ws_backlog w ∧
    ws_recvd w' s = ws_recvd w s ++ bs ∧ (ws_inbox w' s + length bs ≤ ws_inbox w s)%nat ∧
    (∀ s', ws_sent w' s' = ws_sent w s') ∧
    ∀ s', s' ≠ s → ws_recvd w' s' = ws_recvd w s' ∧ ws_inbox w' s' = ws_inbox w s';
  send_data w s bs len r w' : ws_send w s bs len = (r, w') →
    let n := default 0%nat r in
    Z.of_nat n ≤ Z.max 0 len ∧ ws_open w' = ws_open w ∧ ws_backlog w' = ws_backlog w ∧
    ws_sent w' s = ws_sent w s ++ take n bs ∧
    (∀ s', ws_recvd w' s' = ws_recvd w s' ∧ ws_inbox w' s' = ws_inbox w s') ∧
    ∀ s', s' ≠ s → ws_sent w' s' = ws_sent w s';
  nodelay_same w s b w' : ws_nodelay w s = (b, w') → same_net w w';
  nonblocking_same w s b w' : ws_nonblocking w s = (b, w') → same_net w w';
  reuseaddr_same w s b w' : ws_reuseaddr w s = (b, w') → same_net w w';
  connect_same w s a p b w' : ws_connect w s a p = (b, w') → same_net w w';
  select_same w rs ws es t r w' : ws_select w rs ws es t = (r, w') → same_net w w';
  so_error_same w s r w' : ws_so_error w s = (r, w') → same_net w w';
  ws_bind_same w s p b w' : ws_bind w s p = (b, w') → same_net w w';
  ws_listen_same w s b w' : ws_listen w s = (b, w') → same_net w w';
  clock_same w t w' : steady_clock_ms w = (t, w') → same_net w w' ∧ 0 ≤ t < 2 ^ 63;
  map_order_perm w X : map_order w X ≡ₚ elements X
}.

#[export] Instance same_net_refl `{WinSockObs W} : Reflexive same_net.
Proof. by intros w. Qed.

#[export] Instance same_net_trans `{WinSockObs W} : Transitive same_net.
Proof.
  intros w1 w2 w3 (Ho1 & Hb1 & Hd1) (Ho2 & Hb2 & Hd2).
  split_and!; [congruence..|]. intros s.
  destruct (Hd1 s) as (? & ? & ?), (Hd2 s) as (? & ? & ?). split_and!; congruence.
Qed.

(** ** A scripted network

    The coming answers of [recv], [send], [connect] and [accept] and the
    passing of time are scripts; an exhausted script is a quiet network:
    nothing to read, sends that take everything, refused connections.
    [select] reports every socket of its sets as ready. *)
Module ScriptNet.
Record t : Type := mk {
  recvs : gmap Z (list (option (list byte)));
  sends : gmap Z (list (option nat));
  connects : list bool;
  accepts : list (string * Z);
  times : list Z;
  error : Z;
  clock : Z;
  sockets : gset Z;
  fresh : Z;
  out : gmap Z (list byte);
  inp : gmap Z (list byte)
}.

Definition idle : t := mk ∅ ∅ [] [] [] WSAEWOULDBLOCK 0 ∅ 100 ∅ ∅.

Definition at_socket (m : gmap Z (list byte)) (s : Z) : list byte := default [] (m !! s).

Definition set_error (e : Z) (w : t) : t :=
  mk (recvs w) (sends w) (connects w) (accepts w) (times w) e (clock w) (sockets w) (fresh w) (out w) (inp w).

(** A number above all used ones. *)
Definition fresh_socket (w : t) : Z := Z.max (fresh w) (1 + fold_right Z.max 0 (elements (sockets w))).

Definition add_socket (w : t) (s : Z) (acc : list (string * Z)) : t :=
  mk (recvs w) (sends w) (connects w) acc (times w) (error w) (clock w)
     ({[s]} ∪ sockets w) (Z.max (fresh w) (s + 1)) (<[s := []]> (out w)) (<[s := []]> (inp w)).

Definition do_socket (w : t) : option Z * t :=
  (Some (fresh_socket w), add_socket w (fresh_socket w) (accepts w)).

Definition do_accept (w : t) : option (Z * string * Z) * t :=
  match accepts w with
  | (ip, port) :: acc =>
      (Some (fresh_socket w, ip, u16 port), add_socket w (fresh_socket w) acc)
  | [] => (None, w)
  end.

Definition do_close (w : t) (s : Z) : t :=
  mk (recvs w) (sends w) (connects w) (accepts w) (times w) (error w) (clock w)
     (sockets w ∖ {[s]}) (fresh w) (out w) (inp w).

(** The scripted errors are resets; the error of an exhausted script is
    would-block. *)
Definition do_recv (w : t) (s : Z) (n : nat) : option (list byte) * t :=
  match recvs w !! s with
  | Some (r :: rs) =>
      let bs := take n (default [] r) in
      let w' := mk (<[s := rs]> (recvs w)) (sends w) (connects w) (accepts w) (times w)
                   WSAECONNRESET (clock w) (sockets w) (fresh w) (out w)
                   (<[s := at_socket (inp w) s ++ bs]> (inp w)) in
      (match r with Some _ => Some bs | None => None end, w')
  | _ => (None, set_error WSAEWOULDBLOCK w)
  end.

(** A scripted [None] is a would-block; an amount above the length is a
    reset. *)
Definition do_send (w : t) (s : Z) (bs : list byte) (len : Z) : option nat * t :=
  let k := (Z.to_nat len `min` length bs)%nat in
  let wrote n rest :=
    (Some n, mk (recvs w) rest (connects w) (accepts w) (times w) (error w) (clock w) (sockets w)
                (fresh w) (<[s := at_socket (out w) s ++ take n bs]> (out w)) (inp w)) in
  let failed e rest :=
    (None, mk (recvs w) rest (connects w) (accepts w) (times w) e (clock w) (sockets w)
              (fresh w) (<[s := at_socket (out w) s ++ []]> (out w)) (inp w)) in
  match sends w !! s with
  | Some (Some n :: ns) =>
      if decide (n ≤ k)%nat then wrote n (<[s := ns]> (sends w))
      else failed WSAECONNRESET (<[s := ns]> (sends w))
  | Some (None :: ns) => failed WSAEWOULDBLOCK (<[s := ns]> (sends w))
  | _ => wrote k (sends w)
  end.

Definition do_connect (w : t) : bool * t :=
  match connects w with
  | b :: bs =>
      (b, mk (recvs w) (sends w) bs (accepts w) (times w) WSAECONNRESET (clock w) (sockets w)
             (fresh w) (out w) (inp w))
  | [] => (false, set_error WSAECONNRESET w)
  end.

Definition do_clock (w : t) : Z * t :=
  match times w with
  | now :: ts =>
      let now' := Z.max 0 (Z.min now (2 ^ 63 - 1)) in
      (now', mk (recvs w) (sends w) (connects w) (accepts w) ts (error w) now' (sockets w)
                (fresh w) (out w) (inp w))
  | [] => (Z.max 0 (Z.min (clock w) (2 ^ 63 - 1)), w)
  end.

Definition inbox (w : t) (s : Z) : nat :=
  length (concat (default [] <$> default [] (recvs w !! s))).

#[global] Instance script_winsock : WinSock t := {
  WSAStartup w := (true, w); WSACleanup w := w; WSAGetLastError := error;
  ws_socket := do_socket; closesocket := do_close;
  ws_nodelay w _ := (true, w); ws_nonblocking w _ := (true, w); ws_reuseaddr w _ := (true, w);
  inet_pton _ := Some 0; ws_connect w _ _ _ := do_connect w;
  ws_select w rs ws es _ := (mkSelected (Z.of_nat (length rs + length ws)) rs ws [], w);
  ws_so_error w _ := (Some 0, w); ws_bind w _ _ := (true, w); ws_listen w _ := (true, w);
  ws_accept w _ := do_accept w; ws_recv := do_recv; ws_send := do_send;
  steady_clock_ms := do_clock; map_order _ X := elements X
}.

#[global] Instance script_obs : WinSockObs t := {
  ws_open := sockets; ws_sent w := at_socket (out w); ws_recvd w := at_socket (inp w);
  ws_inbox := inbox; ws_backlog w := length (accepts w)
}.
Lemma at_socket_eq m s bs : at_socket (<[s := bs]> m) s = bs.
Proof. unfold at_socket. by rewrite lookup_insert_eq. Qed.
Lemma at_socket_ne m s s' bs : s' ≠ s → at_socket (<[s := bs]> m) s' = at_socket m s'.
Proof. intros. unfold at_socket. by rewrite lookup_insert_ne. Qed.

Lemma socket_max_ge (l : list Z) x : x ∈ l → x ≤ fold_right Z.max 0 l.
Proof.
  induction l as [|y l IH]; [by intros ?%elem_of_nil|].
  intros [->|Hx]%elem_of_cons; simpl; [lia|]. specialize (IH Hx). lia.
Qed.

Lemma fresh_socket_pos w : 0 < fresh_socket w.
Proof.
  unfold fresh_socket. assert (∀ l, 0 ≤ fold_right Z.max 0 l) as Hl by (intros l; induction l; simpl; lia).
  specialize (Hl (elements (sockets w))). lia.
Qed.

Lemma fresh_socket_new w : fresh_socket w ∉ sockets w.
Proof. intros Hin%elem_of_elements%socket_max_ge. unfold fresh_socket in Hin. lia. Qed.

Lemma add_socket_created w acc : socket_created w (add_socket w (fresh_socket w) acc) (fresh_socket w).
Proof.
  split_and!; simpl; [apply fresh_socket_pos|apply fresh_socket_new|done|by apply at_socket_eq..| |done].
  intros s' Hs'. by rewrite !at_socket_ne.
Qed.

Lemma u16_range z : 0 ≤ u16 z < 2 ^ 16.
Proof. by apply Z.mod_pos_bound. Qed.

Lemma inbox_pop w s r rs w' :
  recvs w !! s = Some (r :: rs) → recvs w' = <[s := rs]> (recvs w) →
  (inbox w' s + length (default [] r) = inbox w s)%nat ∧
  ∀ s', s' ≠ s → inbox w' s' = inbox w s'.
Proof.
  intros Hr Hw. unfold inbox. rewrite Hw. split.
  - rewrite lookup_insert_eq, Hr. simpl default. rewrite fmap_cons, concat_cons. rewrite length_app. apply Nat.add_comm.
  - intros s' Hs'. by rewrite lookup_insert_ne.
Qed.

#[global] Instance script_laws : WinSockLaws t.
Proof.
  split; simpl.
  - intros w b w' [= <- <-]. done.
  - done.
  - intros w r w' [= <- <-]. split; [apply add_socket_created|done].
  - intros w l r w'. unfold do_accept. destruct (accepts w) as [|[ip port] acc] eqn:Hacc;
      intros [= <- <-]; [done|]. simpl.
    split_and!; [apply add_socket_created|lia|apply u16_range..].
  - done.
  - intros w s n r w'. unfold do_recv.
    destruct (recvs w !! s) as [[|o rs]|] eqn:Hr; intros [= <- <-]; simpl.
    1, 3: assert (∀ s', inbox (set_error WSAEWOULDBLOCK w) s' = inbox w s') as Hsame by done;
      rewrite app_nil_r, Hsame; split_and!; [lia|done|done|done|lia|done|done].
    assert (default [] (match o with Some _ => Some (take n (default [] o)) | None => None end)
            = take n (default [] o)) as -> by (destruct o; [done|simpl; by rewrite take_nil]).
    set (w1 := mk _ _ _ _ _ _ _ _ _ _ _).
    destruct (inbox_pop w s o rs w1) as [Hin Hother]; [done..|].
    rewrite at_socket_eq, length_take. split_and!; try done; [lia|lia|].
    intros s' Hs'. rewrite at_socket_ne by done. split; [done|by apply Hother].
  - intros w s bs len r w'. unfold do_send.
    assert (∀ (e : Z) rest n, w' = mk (recvs w) rest (connects w) (accepts w) (times w) e (clock w)
      (sockets w) (fresh w) (<[s := at_socket (out w) s ++ take n bs]> (out w)) (inp w) →
      sockets w' = sockets w ∧ length (accepts w') = length (accepts w) ∧
      at_socket (out w') s = at_socket (out w) s ++ take n bs ∧
      (∀ s', at_socket (inp w') s' = at_socket (inp w) s' ∧ inbox w' s' = inbox w s') ∧
      ∀ s', s' ≠ s → at_socket (out w') s' = at_socket (out w) s') as Hsent.
    { intros e rest n ->. simpl. rewrite at_socket_eq. split_and!; try done.
      intros. by rewrite at_socket_ne. }
    destruct (sends w !! s) as [[|[n|] ns]|]; [| |intros [= <- Hw]|].
    1, 4: intros [= <- Hw]; simpl; split; [lia|by eapply Hsent].
    + case_decide; intros [= <- Hw]; simpl; (split; [lia|]); by eapply Hsent.
    + simpl. split; [lia|]. by eapply (Hsent _ _ 0%nat).
  - intros w s b w' [= <- <-]. done.
  - intros w s b w' [= <- <-]. done.
  - intros w s b w' [= <- <-]. done.
  - intros w s a p b w'. unfold do_connect. destruct (connects w); intros [= <- <-]; done.
  - intros w rs ws es t' r w' [= <- <-]. done.
  - intros w s r w' [= <- <-]. done.
  - intros w s p b w' [= <- <-]. done.
  - intros w s b w' [= <- <-]. done.
  - intros w t' w'. unfold do_clock. destruct (times w) as [|now ts]; intros [= <- <-];
      (split; [done|lia]).
  - done.
Qed.
End ScriptNet.
