(* ===== verification/ConnectionManager.v ===== *)
(** * The connection manager of the client library

    [src/connection_manager.h] and [src/connection_manager.cpp], one
    definition per method, with the wrappers of [src/platform_win.h].  A C++
    reference or iterator into [m_connections] is the key of its node: using
    it after the node was erased is [UseAfterErase], and a range-for over a
    container that a callback changed is [IteratorInvalidated].  The
    callback is any program over the same state, so it may call the manager
    again.  Output parameters are returned; a pointer argument that may be
    null is an [option]. *)

From stdpp Require Import base gmap sets list strings fin_maps sorting.
From Stdlib Require Import ZArith Lia.
From S2P Require Import Prelude Bytes Packets WinSock.

Definition P2P_INVALID_PEER_ID : Z := 0.
Definition RECV_BUFFER_SIZE : nat := Z.to_nat 65536.

Record Connection : Type := mkConnection {
  socket : option Z;
  peerID : Z;
  remoteIP : string;
  remotePort : Z;
  connected : bool;
  autoReconnect : bool;
  reconnectBaseDelayMs : Z;
  reconnectMaxDelayMs : Z;
  reconnectAttempt : Z;
  nextReconnectAtMs : Z;
  receiveQueue : PacketQueue.t;
  recvBuffer : ReceiveBuffer.t;
  sendBuffer : list byte
}.

(** A connected [Connection] as [connect] and [acceptNewConnections] fill it. *)
Definition open_connection (sock id : Z) (ip : string) (port : Z) : Connection :=
  mkConnection (Some sock) id ip port true false 500 (10 * 1000) 0 0
               PacketQueue.new ReceiveBuffer.new [].

Definition with_link (sock : option Z) (conn : bool) (c : Connection) : Connection :=
  mkConnection sock (peerID c) (remoteIP c) (remotePort c) conn (autoReconnect c)
    (reconnectBaseDelayMs c) (reconnectMaxDelayMs c) (reconnectAttempt c) (nextReconnectAtMs c)
    (receiveQueue c) (recvBuffer c) (sendBuffer c).
Definition with_policy (enable : bool) (base max : Z) (c : Connection) : Connection :=
  mkConnection (socket c) (peerID c) (remoteIP c) (remotePort c) (connected c) enable
    base max (reconnectAttempt c) (nextReconnectAtMs c)
    (receiveQueue c) (recvBuffer c) (sendBuffer c).
Definition with_schedule (attempt next : Z) (c : Connection) : Connection :=
  mkConnection (socket c) (peerID c) (remoteIP c) (remotePort c) (connected c) (autoReconnect c)
    (reconnectBaseDelayMs c) (reconnectMaxDelayMs c) attempt next
    (receiveQueue c) (recvBuffer c) (sendBuffer c).
Definition with_input (q : PacketQueue.t) (b : ReceiveBuffer.t) (c : Connection) : Connection :=
  mkConnection (socket c) (peerID c) (remoteIP c) (remotePort c) (connected c) (autoReconnect c)
    (reconnectBaseDelayMs c) (reconnectMaxDelayMs c) (reconnectAttempt c) (nextReconnectAtMs c)
    q b (sendBuffer c).
Definition with_output (out : list byte) (c : Connection) : Connection :=
  mkConnection (socket c) (peerID c) (remoteIP c) (remotePort c) (connected c) (autoReconnect c)
    (reconnectBaseDelayMs c) (reconnectMaxDelayMs c) (reconnectAttempt c) (nextReconnectAtMs c)
    (receiveQueue c) (recvBuffer c) out.

(** The assignments [disconnect] and [removeDisconnected] share. *)
Definition dropped (c : Connection) : Connection :=
  with_output [] (with_input (PacketQueue.clear (receiveQueue c)) (ReceiveBuffer.clear (recvBuffer c))
    (with_link None false c)).

Inductive ConnectionEvent : Type := EventConnected | EventDisconnected.

Record Manager : Type := mkManager {
  m_initialized : bool;
  m_listenSocket : option Z;
  m_listenPort : Z;
  m_nextPeerID : Z;
  m_connections : gmap Z Connection;
  m_pendingRemove : list Z;
  m_connectionCallback : bool
}.

Definition new_manager : Manager := mkManager false None 0 1 ∅ [] false.

(** The manager, the state of the program around it, and the network. *)
Record Net (U W : Type) : Type := mkNet { this : Manager; app : U; net : W }.
Arguments mkNet {U W} _ _ _.
Arguments this {U W} _.
Arguments app {U W} _.
Arguments net {U W} _.

(** [createSendFrame]: [size] bytes are read at [data]; [None] when the
    memory there is shorter. *)
Definition createSendFrame (data : list byte) (size : Z) : option (list byte) :=
  if decide (size ≤ Zlen data) then
    Some ([byte_at size 0; byte_at size 8; byte_at size 16; byte_at size 24]
          ++ take (Z.to_nat size) data)
  else None.

(** [static_cast<int>] of a [size_t]. *)
Definition to_int (z : Z) : Z := (z + 2 ^ 31) mod 2 ^ 32 - 2 ^ 31.

(** [std::sort] and [std::unique] on the list of pending removals. *)
Fixpoint unique (l : list Z) : list Z :=
  match l with
  | x :: l' =>
      match l' with
      | y :: _ => if decide (x = y) then unique l' else x :: unique l'
      | [] => [x]
      end
  | [] => []
  end.
Definition sort_unique (l : list Z) : list Z := unique (merge_sort Z.le l).

(** The delay before the next attempt: the loop of [attemptReconnects] that
    doubles [delay] at most [attempt] times, on [uint64_t]. *)
Fixpoint backoff (attempt : nat) (maxDelay delay : Z) : Z :=
  match attempt with
  | O => delay
  | S i =>
      let delay' := u64 (delay * 2) in
      if maxDelay <=? delay' then maxDelay else backoff i maxDelay delay'
  end.

Section manager.
Context {U W : Type} `{WinSock W}.
(** The body of [m_connectionCallback], called when it is set. *)
Context (callback : Z → ConnectionEvent → prog (Net U W) unit).
Implicit Types (s : Net U W).

Definition set_net (w : W) s : Net U W := mkNet (this s) (app s) w.
Definition upd_this (f : Manager → Manager) s : Net U W := mkNet (f (this s)) (app s) (net s).
Definition set_connections (m : gmap Z Connection) : Net U W → Net U W :=
  upd_this (λ t, mkManager (m_initialized t) (m_listenSocket t) (m_listenPort t) (m_nextPeerID t)
                           m (m_pendingRemove t) (m_connectionCallback t)).
Definition set_listen (sock : option Z) (port : Z) : Net U W → Net U W :=
  upd_this (λ t, mkManager (m_initialized t) sock port (m_nextPeerID t)
                           (m_connections t) (m_pendingRemove t) (m_connectionCallback t)).
Definition set_initialized (b : bool) : Net U W → Net U W :=
  upd_this (λ t, mkManager b (m_listenSocket t) (m_listenPort t) (m_nextPeerID t)
                           (m_connections t) (m_pendingRemove t) (m_connectionCallback t)).
Definition set_nextPeerID (n : Z) : Net U W → Net U W :=
  upd_this (λ t, mkManager (m_initialized t) (m_listenSocket t) (m_listenPort t) n
                           (m_connections t) (m_pendingRemove t) (m_connectionCallback t)).
Definition set_pendingRemove (l : list Z) : Net U W → Net U W :=
  upd_this (λ t, mkManager (m_initialized t) (m_listenSocket t) (m_listenPort t) (m_nextPeerID t)
                           (m_connections t) l (m_connectionCallback t)).
Definition setConnectionCallback (b : bool) : prog (Net U W) unit :=
  modify (upd_this (λ t, mkManager (m_initialized t) (m_listenSocket t) (m_listenPort t)
                           (m_nextPeerID t) (m_connections t) (m_pendingRemove t) b)).

Definition connections s : gmap Z Connection := m_connections (this s).

(** A call of Winsock or of the clock. *)
Definition wcall {A} (f : W → A * W) : prog (Net U W) A :=
  λ s, let '(a, w) := f (net s) in Ret (a, set_net w s).
Definition wcall_ (f : W → W) : prog (Net U W) unit := modify (λ s, set_net (f (net s)) s).

(** Access through a reference to the node of [id]. *)
Definition conn_at (id : Z) : prog (Net U W) Connection :=
  o ← gets (λ s, connections s !! id);
  match o with Some c => mret c | None => undef (UseAfterErase id) end.
Definition store (id : Z) (f : Connection → Connection) : prog (Net U W) unit :=
  c ← conn_at id; modify (λ s, set_connections (<[id := f c]> (connections s)) s).

(** [for (auto& [peerID, conn] : m_connections)]: the keys in the map's
    order; a body that inserts or erases invalidates the iterator. *)
Definition for_each_connection (body : Z → prog (Net U W) unit) : prog (Net U W) unit :=
  keys ← gets (λ s, dom (connections s));
  order ← gets (λ s, map_order (net s) keys);
  for_each (λ id, body id ;;
    keys' ← gets (λ s, dom (connections s));
    if decide (keys' = keys) then mret tt else undef IteratorInvalidated) order.

(** ** [platform_win.h] *)

Definition closeSocket (sock : option Z) : prog (Net U W) unit :=
  match sock with Some x => wcall_ (λ w, closesocket w x) | None => mret tt end.
Definition wouldBlock : prog (Net U W) bool :=
  gets (λ s, (WSAGetLastError (net s) =? WSAEWOULDBLOCK) ||
             (WSAGetLastError (net s) =? WSAEINPROGRESS)).
Definition initializeSockets : prog (Net U W) bool := wcall WSAStartup.
Definition cleanupSockets : prog (Net U W) unit := wcall_ WSACleanup.
Definition setNonBlocking (sock : Z) : prog (Net U W) bool := wcall (λ w, ws_nonblocking w sock).
Definition setReuseAddr (sock : Z) : prog (Net U W) bool := wcall (λ w, ws_reuseaddr w sock).
Definition setNoDelay (sock : Z) : prog (Net U W) bool := wcall (λ w, ws_nodelay w sock).

Definition nowMs : prog (Net U W) Z := t ← wcall steady_clock_ms; mret (u64 t).

Definition notifyConnectionEvent (id : Z) (event : ConnectionEvent) : prog (Net U W) unit :=
  installed ← gets (λ s, m_connectionCallback (this s));
  if (installed : bool) then callback id event else mret tt.

(** The descriptor after a failed step of [connectWithTimeout]. *)
Definition abandon (sock : Z) : prog (Net U W) (option Z) := closeSocket (Some sock) ;; mret None.

Definition connectWithTimeout (ip : option string) (port timeoutMs : Z) : prog (Net U W) (option Z) :=
  match ip with
  | None => mret None
  | Some ip =>
      o ← wcall ws_socket;
      match o with
      | None => mret None
      | Some sock =>
          setNoDelay sock ;; setNonBlocking sock ;;
          match inet_pton ip with
          | None => abandon sock
          | Some addr =>
              rc ← wcall (λ w, ws_connect w sock addr port);
              if (rc : bool) then mret (Some sock)
              else
              blocked ← wouldBlock;
              if negb blocked then abandon sock
              else
              sel ← wcall (λ w, ws_select w [] [sock] [sock] timeoutMs);
              if sel_result sel <=? 0 then abandon sock
              else if bool_decide (sock ∈ sel_except sel) then abandon sock
              else
              err ← wcall (λ w, ws_so_error w sock);
              match err with
              | None => abandon sock
              | Some e => if negb (e =? 0) then abandon sock else mret (Some sock)
              end
          end
      end
  end.

Definition stopListen : prog (Net U W) unit :=
  l ← gets (λ s, m_listenSocket (this s));
  match l with
  | Some sock => closeSocket (Some sock) ;; modify (set_listen None 0)
  | None => mret tt
  end.

Definition initialize : prog (Net U W) bool :=
  init ← gets (λ s, m_initialized (this s));
  if (init : bool) then mret true
  else
  ok ← initializeSockets;
  if negb ok then mret false
  else modify (set_initialized true) ;; mret true.

Definition shutdown : prog (Net U W) unit :=
  init ← gets (λ s, m_initialized (this s));
  if negb init then mret tt
  else
  stopListen ;;
  for_each_connection (λ id, conn ← conn_at id; closeSocket (socket conn)) ;;
  modify (set_connections ∅) ;;
  modify (set_pendingRemove []) ;;
  cleanupSockets ;;
  modify (set_initialized false).

Definition listen (port : Z) : prog (Net U W) bool :=
  init ← gets (λ s, m_initialized (this s));
  if negb init then mret false
  else
  stopListen ;;
  o ← wcall ws_socket;
  modify (λ s, set_listen o (m_listenPort (this s)) s) ;;
  match o with
  | None => mret false
  | Some sock =>
      setReuseAddr sock ;; setNonBlocking sock ;;
      ok ← wcall (λ w, ws_bind w sock port);
      if negb ok then
        closeSocket (Some sock) ;; modify (λ s, set_listen None (m_listenPort (this s)) s) ;; mret false
      else
      ok ← wcall (λ w, ws_listen w sock);
      if negb ok then
        closeSocket (Some sock) ;; modify (λ s, set_listen None (m_listenPort (this s)) s) ;; mret false
      else
      modify (λ s, set_listen (m_listenSocket (this s)) port s) ;; mret true
  end.

Definition allocatePeerID : prog (Net U W) Z :=
  id ← gets (λ s, m_nextPeerID (this s));
  modify (set_nextPeerID (u32 (id + 1))) ;; mret id.

(** [m_connections.emplace]: nothing happens when the key is present. *)
Definition emplace (id : Z) (c : Connection) : prog (Net U W) unit :=
  modify (λ s, match connections s !! id with
               | Some _ => s
               | None => set_connections (<[id := c]> (connections s)) s
               end).

Definition connect (ip : option string) (port : Z) : prog (Net U W) (option Z) :=
  init ← gets (λ s, m_initialized (this s));
  match ip with
  | Some text =>
      if negb init then mret None
      else
      o ← connectWithTimeout ip port 2000;
      match o with
      | None => mret None
      | Some sock =>
          id ← allocatePeerID;
          emplace id (open_connection sock id text port) ;;
          notifyConnectionEvent id EventConnected ;;
          mret (Some id)
      end
  | None => mret None
  end.

Definition setAutoReconnect (id : Z) (enable : bool) (baseDelayMs maxDelayMs : Z)
    : prog (Net U W) unit :=
  it ← gets (λ s, connections s !! id);
  match it with
  | None => mret tt
  | Some _ => store id (λ c, with_schedule 0 0 (with_policy enable baseDelayMs maxDelayMs c))
  end.

(** What [disconnect] and [removeDisconnected] do with a connection they
    found: close it, tell the program, and schedule a reconnect or erase. *)
Definition drop_connection (id : Z) : prog (Net U W) unit :=
  conn ← conn_at id;
  closeSocket (socket conn) ;;
  store id dropped ;;
  notifyConnectionEvent id EventDisconnected ;;
  conn ← conn_at id;
  if autoReconnect conn then
    now ← nowMs;
    store id (λ c, with_schedule 0 (u64 (now + reconnectBaseDelayMs c)) c)
  else modify (λ s, set_connections (delete id (connections s)) s).

Definition disconnect (id : Z) : prog (Net U W) unit :=
  it ← gets (λ s, connections s !! id);
  match it with
  | None => mret tt
  | Some _ => drop_connection id
  end.

Definition push_pending (id : Z) : prog (Net U W) unit :=
  modify (λ s, set_pendingRemove (m_pendingRemove (this s) ++ [id]) s).

(** [conn.connected = false; m_pendingRemove.push_back(id);] *)
Definition fail_connection (node id : Z) : prog (Net U W) unit :=
  store node (λ c, with_link (socket c) false c) ;; push_pending id.

(** A call through a [SocketHandle] that may be [INVALID_SOCKET] fails. *)
Definition send (sock : option Z) (bs : list byte) (len : Z) : prog (Net U W) (option nat) :=
  match sock with Some x => wcall (λ w, ws_send w x bs len) | None => mret None end.
Definition recv (sock : option Z) (n : nat) : prog (Net U W) (option (list byte)) :=
  match sock with Some x => wcall (λ w, ws_recv w x n) | None => mret None end.

Definition sendPacket (id : Z) (data : option (list byte)) (size : Z) : prog (Net U W) bool :=
  match data with
  | None => mret false
  | Some data =>
      if size =? 0 then mret false
      else
      it ← gets (λ s, connections s !! id);
      match it with
      | None => mret false
      | Some conn =>
          if negb (connected conn) then mret false
          else
          match createSendFrame data size with
          | None => undef OutOfBounds
          | Some frame =>
              sent ← send (socket conn) frame (to_int (Zlen frame));
              match sent with
              | None =>
                  blocked ← wouldBlock;
                  if (blocked : bool) then
                    store id (λ c, with_output (sendBuffer c ++ frame) c) ;; mret true
                  else fail_connection id id ;; mret false
              | Some n =>
                  (if decide (n < length frame)%nat
                   then store id (λ c, with_output (sendBuffer c ++ drop n frame) c)
                   else mret tt) ;;
                  mret true
              end
          end
      end
  end.

(** The first connection in the map's order with a packet queued. *)
Fixpoint first_with_packet (conns : gmap Z Connection) (order : list Z) : option (Z * Z) :=
  match order with
  | [] => None
  | id :: order' =>
      match conns !! id with
      | Some c =>
          match PacketQueue.peek (receiveQueue c) 0 with
          | (true, size) => Some (size, id)
          | (false, _) => first_with_packet conns order'
          end
      | None => first_with_packet conns order'
      end
  end.

(** The size and the sender, when a packet is available. *)
Definition isPacketAvailable (id : Z) : prog (Net U W) (option (Z * Z)) :=
  conns ← gets connections;
  if negb (id =? P2P_INVALID_PEER_ID) then
    match conns !! id with
    | None => mret None
    | Some c =>
        match PacketQueue.peek (receiveQueue c) 0 with
        | (true, size) => mret (Some (size, id))
        | (false, _) => mret None
        end
    end
  else
    order ← gets (λ s, map_order (net s) (dom conns));
    mret (first_with_packet conns order).

(** [buffer] says that the pointer is not null; the result is what is copied
    to it (and its size), and the sender. *)
Definition readPacket (id : Z) (buffer : bool) (bufferSize : Z)
    : prog (Net U W) (option (list byte * Z)) :=
  if negb buffer || (bufferSize =? 0) then mret None
  else
  conns ← gets connections;
  order ← gets (λ s, map_order (net s) (dom conns));
  let source :=
    if negb (id =? P2P_INVALID_PEER_ID)
    then match conns !! id with Some _ => Some id | None => None end
    else snd <$> first_with_packet conns order in
  match source with
  | None => mret None
  | Some source =>
      conn ← conn_at source;
      match PacketQueue.pop (receiveQueue conn) Packet.empty_packet with
      | (false, _, _) => mret None
      | (true, packet, q) =>
          store source (λ c, with_input q (recvBuffer c) c) ;;
          if bufferSize <? Packet.size packet then mret None
          else mret (Some (Packet.data packet, source))
      end
  end.

(** [while (true)] with one [recv] per round; the kernel's data bounds the
    number of rounds. *)
Fixpoint processRead (fuel : nat) (id : Z) : prog (Net U W) unit :=
  match fuel with
  | O => out_of_fuel
  | S fuel' =>
      conn ← conn_at id;
      received ← recv (socket conn) RECV_BUFFER_SIZE;
      match received with
      | Some [] => fail_connection id (peerID conn)
      | Some bs =>
          match ReceiveBuffer.receive (recvBuffer conn, receiveQueue conn) bs with
          | None => out_of_fuel
          | Some (b, q) => store id (with_input q b) ;; processRead fuel' id
          end
      | None =>
          blocked ← wouldBlock;
          if (blocked : bool) then mret tt else fail_connection id (peerID conn)
      end
  end.

Definition processWrite (id : Z) : prog (Net U W) unit :=
  conn ← conn_at id;
  match sendBuffer conn with
  | [] => mret tt
  | _ :: _ =>
      sent ← send (socket conn) (sendBuffer conn) (to_int (Zlen (sendBuffer conn)));
      match sent with
      | Some (S n) =>
          if decide (S n ≤ length (sendBuffer conn))%nat
          then store id (with_output (drop (S n) (sendBuffer conn)))
          else undef OutOfBounds
      | Some O => mret tt
      | None =>
          blocked ← wouldBlock;
          if (blocked : bool) then mret tt else fail_connection id (peerID conn)
      end
  end.

(** The range-for over [m_pendingRemove]; a callback that pushes to the
    vector invalidates its iterators. *)
Definition removeDisconnected : prog (Net U W) unit :=
  modify (λ s, set_pendingRemove (sort_unique (m_pendingRemove (this s))) s) ;;
  pending ← gets (λ s, m_pendingRemove (this s));
  for_each (λ id, disconnect id ;;
    pending' ← gets (λ s, m_pendingRemove (this s));
    if decide (pending' = pending) then mret tt else undef IteratorInvalidated) pending ;;
  modify (set_pendingRemove []).

Definition attemptReconnects : prog (Net U W) unit :=
  now ← nowMs;
  for_each_connection (λ id,
    conn ← conn_at id;
    if negb (autoReconnect conn) then mret tt
    else if connected conn then mret tt
    else if bool_decide (remoteIP conn = EmptyString) || (remotePort conn =? 0) then mret tt
    else if (nextReconnectAtMs conn =? 0) || (now <? nextReconnectAtMs conn) then mret tt
    else
    sock ← connectWithTimeout (Some (remoteIP conn)) (remotePort conn) 2000;
    match sock with
    | Some x =>
        store id (λ c, with_schedule 0 0 (with_link (Some x) true c)) ;;
        notifyConnectionEvent id EventConnected
    | None =>
        let attempt := reconnectAttempt conn in
        let attempt' := if attempt =? 2 ^ 32 - 1 then attempt else attempt + 1 in
        let delay := backoff (Z.to_nat attempt) (reconnectMaxDelayMs conn) (reconnectBaseDelayMs conn) in
        store id (with_schedule attempt' (u64 (now + delay)))
    end).

Fixpoint acceptNewConnections (fuel : nat) : prog (Net U W) unit :=
  match fuel with
  | O => out_of_fuel
  | S fuel' =>
      l ← gets (λ s, m_listenSocket (this s));
      match l with
      | None => mret tt
      | Some lsock =>
          o ← wcall (λ w, ws_accept w lsock);
          match o with
          | None => mret tt
          | Some (sock, ip, port) =>
              setNonBlocking sock ;; setNoDelay sock ;;
              id ← allocatePeerID;
              emplace id (open_connection sock id ip port) ;;
              notifyConnectionEvent id EventConnected ;;
              acceptNewConnections fuel'
          end
      end
  end.

(** The sockets [processEvents] puts in the read and exception sets, and in
    the write set, in the order of the map. *)
Definition watched_socket (c : Connection) : option Z :=
  if connected c then socket c else None.
Definition read_set (conns : gmap Z Connection) (order : list Z) : list Z :=
  omap (λ id, conns !! id ≫= watched_socket) order.
Definition write_set (conns : gmap Z Connection) (order : list Z) : list Z :=
  omap (λ id, c ← conns !! id; match sendBuffer c with [] => None | _ => watched_socket c end) order.

Definition process_selected (fuel : nat) (sel : selected) (id : Z) : prog (Net U W) unit :=
  conn ← conn_at id;
  match watched_socket conn with
  | None => mret tt
  | Some sock =>
      if bool_decide (sock ∈ sel_except sel) then fail_connection id id
      else
        (if bool_decide (sock ∈ sel_read sel) then processRead fuel id else mret tt) ;;
        (* [conn.socket] is not changed by [processRead] *)
        (if bool_decide (sock ∈ sel_write sel) then processWrite id else mret tt)
  end.

Definition processEvents (fuel : nat) : prog (Net U W) unit :=
  init ← gets (λ s, m_initialized (this s));
  if negb init then mret tt
  else
  attemptReconnects ;;
  acceptNewConnections fuel ;;
  conns ← gets connections;
  order ← gets (λ s, map_order (net s) (dom conns));
  let reads := read_set conns order in
  let maxFd := fold_left Z.max reads 0 in
  if maxFd =? 0 then removeDisconnected ;; attemptReconnects
  else
  sel ← wcall (λ w, ws_select w reads (write_set conns order) reads 0);
  (if 0 <? sel_result sel then for_each_connection (process_selected fuel sel) else mret tt) ;;
  removeDisconnected ;;
  attemptReconnects.

Definition getPeerCount : prog (Net U W) Z := gets (λ s, u32 (Z.of_nat (size (connections s)))).

(** [outPeerIDs] says that the pointer is not null; the result is the array
    that was filled, its length the number returned. *)
Definition getConnectedPeers (outPeerIDs : bool) (maxCount : Z) : prog (Net U W) (list Z) :=
  if negb outPeerIDs || (maxCount =? 0) then mret []
  else
  gets (λ s, take (Z.to_nat maxCount)
    (filter (λ id, default false (connected <$> connections s !! id) = true)
            (map_order (net s) (dom (connections s))))).
End manager.
