(* ===== verification/ManagerInvariant.v ===== *)
(** * The invariant of the connection manager

    [wf] ties the manager's table to the sockets of the network; the lemmas
    of this file show that every method keeps it, returns, and reaches no
    undefined behaviour, for every callback that respects [callback_ok]. *)

From stdpp Require Import base gmap sets list strings fin_maps sorting.
From Stdlib Require Import ZArith Lia.
From S2P Require Import Prelude Bytes Framing Packets WinSock ConnectionManager.

(** Every open socket is the listening one or belongs to one connection, and
    every socket of the table is open: no leak and no use of a closed socket.
    A connection that is not connected but still has its socket is waiting to
    be removed; a connected one has no reconnect scheduled. *)
Record wf `{WinSockObs W} {U} (s : Net U W) : Prop := {
  wf_ids : ∀ k c, connections s !! k = Some c → peerID c = k ∧ 0 < k < m_nextPeerID (this s);
  wf_link : ∀ k c, connections s !! k = Some c → connected c = true → is_Some (socket c);
  wf_schedule : ∀ k c, connections s !! k = Some c → is_Some (socket c) → nextReconnectAtMs c = 0;
  wf_pending : ∀ k c, connections s !! k = Some c → connected c = false → is_Some (socket c) →
    k ∈ m_pendingRemove (this s);
  wf_open : ∀ x, x ∈ ws_open (net s) ↔
    m_listenSocket (this s) = Some x ∨ ∃ k c, connections s !! k = Some c ∧ socket c = Some x;
  wf_distinct : ∀ k k' c c' x, connections s !! k = Some c → connections s !! k' = Some c' →
    socket c = Some x → socket c' = Some x → k = k';
  wf_listen : ∀ k c x, connections s !! k = Some c → socket c = Some x → m_listenSocket (this s) ≠ Some x;
  wf_next : 0 < m_nextPeerID (this s) < 2 ^ 32
}.

(** What no method that handles existing connections changes; the data in
    flight only decreases. *)
Record flow `{WinSockObs W} {U} (s s' : Net U W) : Prop := {
  fl_next : m_nextPeerID (this s') = m_nextPeerID (this s);
  fl_init : m_initialized (this s') = m_initialized (this s);
  fl_listen : m_listenSocket (this s') = m_listenSocket (this s);
  fl_backlog : (ws_backlog (net s') ≤ ws_backlog (net s))%nat;
  fl_inbox : ∀ x, (ws_inbox (net s') x ≤ ws_inbox (net s) x)%nat
}.

(** The table keeps its keys as well. *)
Definition steady `{WinSockObs W} {U} (s s' : Net U W) : Prop :=
  flow s s' ∧ dom (connections s') = dom (connections s).

#[export] Instance flow_refl `{WinSockObs W} {U} : Reflexive (flow (U := U) (W := W)).
Proof. by intros s. Qed.

#[export] Instance flow_trans `{WinSockObs W} {U} : Transitive (flow (U := U) (W := W)).
Proof.
  intros s1 s2 s3 [] []. split; try congruence; [lia|]. intros x. etrans; eauto.
Qed.

#[export] Instance steady_refl `{WinSockObs W} {U} : Reflexive (steady (U := U) (W := W)).
Proof. by intros s. Qed.

#[export] Instance steady_trans `{WinSockObs W} {U} : Transitive (steady (U := U) (W := W)).
Proof. intros s1 s2 s3 [H1 D1] [H2 D2]. split; [by etrans|congruence]. Qed.

(** Sockets stay where they are. *)
Definition same_sockets {U W} (s s' : Net U W) : Prop :=
  ∀ k c', connections s' !! k = Some c' → ∃ c, connections s !! k = Some c ∧ socket c' = socket c.

#[export] Instance same_sockets_refl {U W} : Reflexive (same_sockets (U := U) (W := W)).
Proof. intros s k c. eauto. Qed.

#[export] Instance same_sockets_trans {U W} : Transitive (same_sockets (U := U) (W := W)).
Proof.
  intros s1 s2 s3 H12 H23 k c3 Hc3. destruct (H23 k c3 Hc3) as (c2 & Hc2 & ->).
  destruct (H12 k c2 Hc2) as (c1 & Hc1 & ->). eauto.
Qed.

(** A callback may use the connections, send on them and fail them, but
    neither add nor remove any; when told of a disconnection it adds nothing
    to the pending removals. *)
Definition callback_ok `{WinSockObs W} {U} (callback : Z → ConnectionEvent → prog (Net U W) unit) : Prop :=
  ∀ id ev s, wf s →
    wp (callback id ev) (λ _ s', wf s' ∧ steady s s' ∧ same_sockets s s' ∧
      match ev with
      | EventConnected => ∀ k, k ∈ m_pendingRemove (this s) → k ∈ m_pendingRemove (this s')
      | EventDisconnected => m_pendingRemove (this s') = m_pendingRemove (this s)
      end) no_ub s.

(** The data in flight is less than [fuel]. *)
Definition in_flight `{WinSockObs W} {U} (fuel : nat) (s : Net U W) : Prop :=
  (ws_backlog (net s) < fuel)%nat ∧ ∀ x, (ws_inbox (net s) x < fuel)%nat.

Section invariant.
Context {U W : Type} `{HW : WinSock W} `{HO : WinSockObs W} `{HL : !WinSockLaws W}.
Implicit Types (s : Net U W) (c : Connection).

Lemma flow_in_flight fuel s s' : flow s s' → in_flight fuel s → in_flight fuel s'.
Proof.
  intros [] [Hb Hi]. split; [lia|]. intros x. specialize (Hi x).
  specialize (fl_inbox0 x). lia.
Qed.

(** ** Reading and writing the state *)

Lemma connections_set m s : connections (set_connections m s) = m.
Proof. done. Qed.

Lemma wp_wcall {A} (f : W → A * W) (Q : A → Net U W → Prop) E s :
  (∀ x w, f (net s) = (x, w) → Q x (set_net w s)) → wp (wcall f) Q E s.
Proof. unfold wp, wcall. destruct (f (net s)) eqn:Hf. eauto. Qed.

Lemma wp_at id c (Q : Connection → Net U W → Prop) E s :
  connections s !! id = Some c → Q c s → wp (conn_at id) Q E s.
Proof. intros Hc HQ. unfold conn_at. wp_step. wp_step. by rewrite Hc. Qed.

Lemma wp_store_at id c f (Q : unit → Net U W → Prop) E s :
  connections s !! id = Some c →
  Q tt (set_connections (<[id := f c]> (connections s)) s) → wp (store id f) Q E s.
Proof. intros Hc HQ. unfold store. wp_step. by eapply wp_at. Qed.

(** The network holds the same sockets and the same data in flight. *)
Definition calm (w w' : W) : Prop :=
  ws_open w' = ws_open w ∧ (ws_backlog w' ≤ ws_backlog w)%nat ∧
  ∀ x, (ws_inbox w' x ≤ ws_inbox w x)%nat.

Lemma same_calm w w' : same_net w w' → calm w w'.
Proof. intros (? & ? & Hd). split_and!; [done|lia|]. intros x. destruct (Hd x) as (_ & _ & ->). done. Qed.

Lemma calm_trans w1 w2 w3 : calm w1 w2 → calm w2 w3 → calm w1 w3.
Proof. intros (? & ? & Hi) (? & ? & Hi'). split_and!; [congruence|lia|]. intros x. etrans; eauto. Qed.

Lemma wf_net w s : calm (net s) w → wf s → wf (set_net w s).
Proof. intros (Ho & _) []. split; try done. intros x. simpl. rewrite Ho. apply wf_open0. Qed.

Lemma steady_net w s : calm (net s) w → steady s (set_net w s).
Proof. intros (_ & Hb & Hd). split; [by split|done]. Qed.

(** A call that opens and closes nothing, in sequence with others. *)
Definition quiet {A} (m : prog (Net U W) A) : Prop :=
  ∀ s, ∃ x w, m s = Ret (x, set_net w s) ∧ calm (net s) w.

Lemma quiet_wcall {A} (f : W → A * W) : (∀ w x w', f w = (x, w') → same_net w w') → quiet (wcall f).
Proof.
  intros Hf s. unfold wcall. destruct (f (net s)) as [x w] eqn:Hx. exists x, w.
  split; [done|]. by eapply same_calm, Hf.
Qed.

Lemma quiet_wouldBlock : quiet (wouldBlock (U := U) (W := W)).
Proof. intros s. eexists _, (net s). split; [by destruct s|]. by apply same_calm. Qed.

Lemma wp_quiet {A} (m : prog (Net U W) A) (Q : A → Net U W → Prop) E s :
  quiet m → (∀ x w, calm (net s) w → Q x (set_net w s)) → wp m Q E s.
Proof. intros Hm HQ. destruct (Hm s) as (x & w & Hr & Hw). unfold wp. rewrite Hr. auto. Qed.

(** ** Changing one connection *)

(** [c] may become [c'] in a well-formed table. *)
Definition admissible (pending : list Z) (id : Z) (c c' : Connection) : Prop :=
  peerID c' = peerID c ∧ socket c' = socket c ∧
  (connected c' = true → connected c = true) ∧
  (is_Some (socket c) → nextReconnectAtMs c' = 0) ∧
  (connected c' = false → is_Some (socket c) → connected c = true → id ∈ pending).

Lemma wf_store id c c' s :
  wf s → connections s !! id = Some c → admissible (m_pendingRemove (this s)) id c c' →
  wf (set_connections (<[id := c']> (connections s)) s).
Proof.
  intros [] Hc (Hid & Hs & Hcon & Hsch & Hpen).
  assert (∀ k c0, <[id := c']> (connections s) !! k = Some c0 →
    ∃ c1, connections s !! k = Some c1 ∧ socket c0 = socket c1 ∧ peerID c0 = peerID c1) as Hlk.
  { intros k c0 [[<- <-]|[_ ?]]%lookup_insert_Some; eauto. }
  split; rewrite ?connections_set; simpl.
  - intros k c0 (c1 & Hc1 & _ & ->)%Hlk. by apply wf_ids0.
  - intros k c0 [[<- <-]|[_ Hk]]%lookup_insert_Some Hc0; [|by eapply wf_link0].
    rewrite Hs. eapply wf_link0; [exact Hc|auto].
  - intros k c0 [[<- <-]|[_ Hk]]%lookup_insert_Some Hc0; [|by eapply wf_schedule0].
    apply Hsch. congruence.
  - intros k c0 [[<- <-]|[_ Hk]]%lookup_insert_Some Hc0 Hsock; [|by eapply wf_pending0].
    rewrite Hs in Hsock. destruct (connected c) eqn:Hcc; [by apply Hpen|by eapply wf_pending0].
  - intros x. rewrite wf_open0. f_equiv. split.
    + intros (k & c0 & Hk & Hx). destruct (decide (k = id)) as [->|Hne].
      * exists id, c'. rewrite lookup_insert_eq. split; [done|]. congruence.
      * exists k, c0. by rewrite lookup_insert_ne.
    + intros (k & c0 & (c1 & Hc1 & Hs1 & _)%Hlk & Hx). exists k, c1. split; [done|]. congruence.
  - intros k k' c0 c0' x (c1 & Hc1 & Hs1 & _)%Hlk (c1' & Hc1' & Hs1' & _)%Hlk Hx Hx'.
    eapply (wf_distinct0 _ _ _ _ x); [exact Hc1|exact Hc1'|congruence|congruence].
  - intros k c0 x (c1 & Hc1 & Hs1 & _)%Hlk Hx. eapply (wf_listen0 k c1 x); [exact Hc1|congruence].
  - done.
Qed.

Lemma steady_store id c c' s :
  connections s !! id = Some c → steady s (set_connections (<[id := c']> (connections s)) s).
Proof. intros Hc. split; [done|]. rewrite connections_set. apply dom_insert_lookup_L. eauto. Qed.

Lemma wp_wf_store id c f (Q : unit → Net U W → Prop) E s :
  wf s → connections s !! id = Some c → admissible (m_pendingRemove (this s)) id c (f c) →
  (∀ s', wf s' → steady s s' → s' = set_connections (<[id := f c]> (connections s)) s → Q tt s') →
  wp (store id f) Q E s.
Proof.
  intros Hwf Hc Had HQ. eapply wp_store_at; [done|].
  apply HQ; [by eapply wf_store|by eapply steady_store|done].
Qed.

(** ** Range-for over the table *)

Lemma wp_for_each_connection (body : Z → prog (Net U W) unit) (I : Net U W → Prop) E s :
  (∀ id s, I s → id ∈ dom (connections s) →
     wp (body id) (λ _ s', I s' ∧ dom (connections s') = dom (connections s)) E s) →
  I s →
  wp (for_each_connection body) (λ _ s', I s' ∧ dom (connections s') = dom (connections s)) E s.
Proof.
  intros Hbody HI. unfold for_each_connection. wp_step. wp_step. wp_step. wp_step.
  set (keys := dom (connections s)). set (order := map_order (net s) keys).
  eapply wp_conseq; [apply (wp_for_each _ _ (λ l s', (∀ id, id ∈ l → id ∈ keys) ∧
    I s' ∧ dom (connections s') = keys))|].
  - intros id l s0 (Hin & HI0 & Hd). wp_step.
    assert (id ∈ keys) as Hid by (apply Hin, list_elem_of_here).
    eapply wp_conseq; [apply Hbody; [done|by rewrite Hd]|]. intros [] s1 [HI1 Hd1].
    wp_step. wp_step. rewrite decide_True by congruence. wp_step.
    split_and!; [|done|congruence]. intros id' ?. apply Hin. by apply list_elem_of_further.
  - split_and!; [|done|done]. intros id Hid. unfold order in Hid.
    rewrite (map_order_perm (net s) keys) in Hid. by apply elem_of_elements.
  - by intros [] s' (_ & ? & ?).
Qed.

(** ** Opening and closing sockets *)

Definition opened (w w' : W) (x : Z) : Prop :=
  x ∉ ws_open w ∧ ws_open w' = {[x]} ∪ ws_open w ∧
  (ws_backlog w' ≤ ws_backlog w)%nat ∧ ∀ y, (ws_inbox w' y ≤ ws_inbox w y)%nat.

Lemma created_opened w w' x :
  socket_created w w' x → (ws_backlog w' ≤ ws_backlog w)%nat → opened w w' x.
Proof.
  intros (_ & Hx & Ho & _ & _ & _ & Hi) Hb. split_and!; [done..|]. intros y. by rewrite Hi.
Qed.

Lemma opened_calm w w' w'' x : opened w w' x → calm w' w'' → opened w w'' x.
Proof.
  intros (Hx & Ho & Hb & Hi) (Ho' & Hb' & Hi').
  split_and!; [done|congruence|lia|]. intros y. etrans; eauto.
Qed.

(** The result of [connectWithTimeout]: a new socket, or nothing left behind. *)
Definition dial_result s (r : option Z) s' : Prop :=
  ∃ w, s' = set_net w s ∧
    match r with Some x => opened (net s) w x | None => calm (net s) w end.

Lemma wp_abandon w x s :
  opened (net s) w x → wp (abandon x) (dial_result s) no_ub (set_net w s).
Proof.
  intros (Hx & Ho & Hb & Hi). unfold abandon. wp_step. simpl. apply wp_modify. wp_step.
  exists (closesocket w x). split; [done|]. destruct (close_gone w x) as (Ho' & Hb' & Hd).
  split_and!; [rewrite Ho', Ho; set_solver|lia|].
  intros y. destruct (Hd y) as (_ & _ & ->). apply Hi.
Qed.

(** A quiet step while the socket is open. *)
Lemma wp_dialing {A} (m : prog (Net U W) A) (Q : A → Net U W → Prop) w x s :
  quiet m → opened (net s) w x →
  (∀ y w', opened (net s) w' x → Q y (set_net w' s)) → wp m Q no_ub (set_net w s).
Proof.
  intros Hm Hopen HQ. apply wp_quiet; [done|]. intros y w' Hw'. apply HQ. by eapply opened_calm.
Qed.

Lemma wp_connectWithTimeout ip port t s :
  wp (connectWithTimeout ip port t) (dial_result s) no_ub s.
Proof.
  assert (dial_result s None s) as Hnone.
  { exists (net s). split; [by destruct s|]. by apply same_calm. }
  unfold connectWithTimeout. destruct ip as [ip|]; [|by wp_step].
  wp_step. apply wp_wcall. intros [x|] w Hw; apply socket_new in Hw.
  2: { wp_step. exists w. split; [done|]. by apply same_calm. }
  destruct Hw as [Hcr Hb].
  assert (opened (net s) w x) as Hopen by (apply created_opened; [done|lia]). clear Hcr Hb.
  wp_step. eapply wp_dialing; [apply quiet_wcall; intros; by eapply nodelay_same|done|].
  clear w Hopen. intros _ w Hopen.
  wp_step. eapply wp_dialing; [apply quiet_wcall; intros; by eapply nonblocking_same|done|].
  clear w Hopen. intros _ w Hopen.
  destruct (inet_pton ip) as [addr|]; [|by apply wp_abandon].
  wp_step. eapply wp_dialing; [apply quiet_wcall; intros; by eapply connect_same|done|].
  clear w Hopen. intros [|] w Hopen; [wp_step; by exists w|].
  wp_step. eapply wp_dialing; [apply quiet_wouldBlock|done|]. clear w Hopen.
  intros blocked w Hopen. wp_step; [by apply wp_abandon|].
  wp_step. eapply wp_dialing; [apply quiet_wcall; intros; by eapply select_same|done|].
  clear w Hopen. intros sel w Hopen. wp_step; [by apply wp_abandon|].
  wp_step; [by apply wp_abandon|].
  wp_step. eapply wp_dialing; [apply quiet_wcall; intros; by eapply so_error_same|done|].
  clear w Hopen. intros [e|] w Hopen; [|by apply wp_abandon].
  wp_step; [by apply wp_abandon|]. wp_step. by exists w.
Qed.

(** A connection of the table gets the new socket. *)
Lemma wf_attach id c c' x w s :
  wf s → connections s !! id = Some c → socket c = None → opened (net s) w x →
  peerID c' = peerID c → socket c' = Some x → connected c' = true → nextReconnectAtMs c' = 0 →
  wf (set_connections (<[id := c']> (connections s)) (set_net w s)).
Proof.
  intros [] Hc Hnone (Hx & Ho & _) Hid Hs Hcon Hsch.
  assert (∀ k c0, <[id := c']> (connections s) !! k = Some c0 →
    (k = id ∧ c0 = c') ∨ (k ≠ id ∧ connections s !! k = Some c0)) as Hlk.
  { intros k c0 [[<- <-]|[? ?]]%lookup_insert_Some; eauto. }
  assert (∀ k c0, connections s !! k = Some c0 → socket c0 ≠ Some x) as Hnew.
  { intros k c0 Hk Hsk. apply Hx, wf_open0. eauto. }
  split; rewrite ?connections_set; simpl.
  - intros k c0 [[-> ->]|[_ Hk]]%Hlk; [rewrite Hid|]; by apply wf_ids0.
  - intros k c0 [[-> ->]|[_ Hk]]%Hlk ?; [rewrite Hs; eauto|by eapply wf_link0].
  - intros k c0 [[-> ->]|[_ Hk]]%Hlk ?; [done|by eapply wf_schedule0].
  - intros k c0 [[-> ->]|[_ Hk]]%Hlk ? ?; [congruence|by eapply wf_pending0].
  - intros y. rewrite Ho, elem_of_union, elem_of_singleton, wf_open0. split.
    + intros [->|[Hl|(k & c0 & Hk & Hy)]]; [right; exists id, c'; by rewrite lookup_insert_eq|by left|].
      right. exists k, c0. rewrite lookup_insert_ne; [done|]. intros ->. congruence.
    + intros [Hl|(k & c0 & [[-> ->]|[_ Hk]]%Hlk & Hy)]; [auto|left; congruence|].
      right. right. eauto.
  - intros k k' c0 c0' y [[-> ->]|[Hne Hk]]%Hlk [[-> ->]|[Hne' Hk']]%Hlk Hy Hy'; try done.
    + destruct (Hnew k' c0'); congruence.
    + destruct (Hnew k c0); congruence.
    + by eapply wf_distinct0.
  - intros k c0 y [[-> ->]|[_ Hk]]%Hlk Hy; [|by eapply wf_listen0].
    intros Hl. apply Hx, wf_open0. left. congruence.
  - done.
Qed.

(** A new entry of the table gets the new socket. *)
Lemma wf_add id c x w s :
  wf s → id = m_nextPeerID (this s) → id + 1 < 2 ^ 32 → opened (net s) w x →
  peerID c = id → socket c = Some x → connected c = true → nextReconnectAtMs c = 0 →
  wf (set_connections (<[id := c]> (connections s)) (set_nextPeerID (u32 (id + 1)) (set_net w s))).
Proof.
  intros [] Hnext Hwrap (Hx & Ho & _) Hid Hs Hcon Hsch.
  assert (∀ k c0, <[id := c]> (connections s) !! k = Some c0 →
    (k = id ∧ c0 = c) ∨ (k ≠ id ∧ connections s !! k = Some c0)) as Hlk.
  { intros k c0 [[<- <-]|[? ?]]%lookup_insert_Some; eauto. }
  assert (∀ k c0, connections s !! k = Some c0 → socket c0 ≠ Some x ∧ k ≠ id) as Hnew.
  { intros k c0 Hk. split; [intros Hsk; apply Hx, wf_open0; eauto|].
    destruct (wf_ids0 k c0 Hk) as [_ ?]. lia. }
  assert (u32 (id + 1) = id + 1) as Hu by (apply u32_small; lia).
  split; rewrite ?connections_set; simpl; rewrite ?Hu.
  - intros k c0 [[-> ->]|[_ Hk]]%Hlk; [split; [done|lia]|].
    destruct (wf_ids0 k c0 Hk) as [? ?]. split; [done|lia].
  - intros k c0 [[-> ->]|[_ Hk]]%Hlk ?; [rewrite Hs; eauto|by eapply wf_link0].
  - intros k c0 [[-> ->]|[_ Hk]]%Hlk ?; [done|by eapply wf_schedule0].
  - intros k c0 [[-> ->]|[_ Hk]]%Hlk ? ?; [congruence|by eapply wf_pending0].
  - intros y. rewrite Ho, elem_of_union, elem_of_singleton, wf_open0. split.
    + intros [->|[Hl|(k & c0 & Hk & Hy)]]; [right; exists id, c; by rewrite lookup_insert_eq|by left|].
      right. exists k, c0. rewrite lookup_insert_ne; [done|]. intros <-. by destruct (Hnew _ _ Hk).
    + intros [Hl|(k & c0 & [[-> ->]|[_ Hk]]%Hlk & Hy)]; [auto|left; congruence|].
      right. right. eauto.
  - intros k k' c0 c0' y [[-> ->]|[Hne Hk]]%Hlk [[-> ->]|[Hne' Hk']]%Hlk Hy Hy'; try done.
    + destruct (Hnew k' c0' Hk') as [[] _]. congruence.
    + destruct (Hnew k c0 Hk) as [[] _]. congruence.
    + by eapply wf_distinct0.
  - intros k c0 y [[-> ->]|[_ Hk]]%Hlk Hy; [|by eapply wf_listen0].
    intros Hl. apply Hx, wf_open0. left. congruence.
  - lia.
Qed.

(** The socket of a connection is closed and the connection forgets it. *)
Definition closed_net (o : option Z) (w w' : W) : Prop :=
  ws_open w' = ws_open w ∖ (match o with Some x => {[x]} | None => ∅ end) ∧
  ws_backlog w' = ws_backlog w ∧ ∀ y, ws_inbox w' y = ws_inbox w y.

Lemma wp_closeSocket o (Q : unit → Net U W → Prop) E s :
  (∀ w, closed_net o (net s) w → Q tt (set_net w s)) → wp (closeSocket o) Q E s.
Proof.
  intros HQ. destruct o as [x|]; [apply wp_modify|apply wp_ret].
  - apply HQ. destruct (close_gone (net s) x) as (Ho & Hb & Hd).
    split_and!; [done..|]. intros y. by destruct (Hd y) as (_ & _ & ->).
  - replace s with (set_net (net s) s) by (by destruct s). apply HQ.
    split_and!; [set_solver|done..].
Qed.

Lemma wf_close id c c' w s :
  wf s → connections s !! id = Some c → closed_net (socket c) (net s) w →
  peerID c' = peerID c → socket c' = None → connected c' = false →
  wf (set_connections (<[id := c']> (connections s)) (set_net w s)).
Proof.
  intros [] Hc (Ho & _) Hid Hs Hcon.
  assert (∀ k c0, <[id := c']> (connections s) !! k = Some c0 →
    (k = id ∧ c0 = c') ∨ (k ≠ id ∧ connections s !! k = Some c0)) as Hlk.
  { intros k c0 [[<- <-]|[? ?]]%lookup_insert_Some; eauto. }
  split; rewrite ?connections_set; simpl.
  - intros k c0 [[-> ->]|[_ Hk]]%Hlk; [rewrite Hid|]; by apply wf_ids0.
  - intros k c0 [[-> ->]|[_ Hk]]%Hlk ?; [congruence|by eapply wf_link0].
  - intros k c0 [[-> ->]|[_ Hk]]%Hlk [? ?]; [congruence|by eapply wf_schedule0].
  - intros k c0 [[-> ->]|[_ Hk]]%Hlk ? [? ?]; [congruence|by eapply wf_pending0].
  - intros x. rewrite Ho, elem_of_difference, wf_open0. split.
    + intros [[Hl|(k & c0 & Hk & Hx)] Hne]; [by left|right]. exists k, c0.
      rewrite lookup_insert_ne; [done|]. intros <-. simplify_eq. rewrite Hx in Hne. set_solver.
    + intros [Hl|(k & c0 & [[-> ->]|[Hne Hk]]%Hlk & Hx)]; [|congruence|].
      * split; [by left|]. destruct (socket c) as [y|] eqn:Hy; [|set_solver].
        rewrite elem_of_singleton. intros ->. by destruct (wf_listen0 id c y).
      * split; [right; eauto|]. destruct (socket c) as [y|] eqn:Hy; [|set_solver].
        rewrite elem_of_singleton. intros ->. apply Hne. by eapply (wf_distinct0 _ _ _ _ y).
  - intros k k' c0 c0' x [[-> ->]|[_ Hk]]%Hlk [[-> ->]|[_ Hk']]%Hlk Hx Hx'; try congruence.
    by eapply (wf_distinct0 _ _ _ _ x).
  - intros k c0 x [[-> ->]|[_ Hk]]%Hlk Hx; [congruence|by eapply wf_listen0].
  - done.
Qed.

Lemma flow_connections m s s' : flow s s' → flow s (set_connections m s').
Proof. by intros []. Qed.

Lemma flow_pending l s s' : flow s s' → flow s (set_pendingRemove l s').
Proof. by intros []. Qed.

Lemma flow_closed o w s : closed_net o (net s) w → flow s (set_net w s).
Proof. intros (_ & Hb & Hi). split; try done; simpl; [lia|]. intros y. by rewrite Hi. Qed.

Lemma wf_erase id c s :
  wf s → connections s !! id = Some c → socket c = None →
  wf (set_connections (delete id (connections s)) s).
Proof.
  intros [] Hc Hs. split; rewrite ?connections_set; simpl; try done.
  - intros k c0 [_ Hk]%lookup_delete_Some. by apply wf_ids0.
  - intros k c0 [_ Hk]%lookup_delete_Some. by eapply wf_link0.
  - intros k c0 [_ Hk]%lookup_delete_Some. by eapply wf_schedule0.
  - intros k c0 [_ Hk]%lookup_delete_Some. by eapply wf_pending0.
  - intros x. rewrite wf_open0. f_equiv. split.
    + intros (k & c0 & Hk & Hx). exists k, c0. rewrite lookup_delete_ne; [done|].
      intros <-. congruence.
    + intros (k & c0 & [_ Hk]%lookup_delete_Some & Hx). eauto.
  - intros k k' c0 c0' x [_ Hk]%lookup_delete_Some [_ Hk']%lookup_delete_Some. by eapply wf_distinct0.
  - intros k c0 x [_ Hk]%lookup_delete_Some. by eapply wf_listen0.
Qed.

(** ** Input and output *)

Lemma quiet_send o bs len : quiet (send (U := U) (W := W) o bs len).
Proof.
  intros s. destruct o as [x|]; simpl.
  - unfold wcall. destruct (ws_send (net s) x bs len) as [r w] eqn:Hs. exists r, w. split; [done|].
    apply send_data in Hs as (_ & Ho & Hb & _ & Hd & _). split_and!; [done|lia|].
    intros y. by destruct (Hd y) as [_ ->].
  - exists None, (net s). split; [by destruct s|]. by apply same_calm.
Qed.

(** What sending, receiving and failing a connection leave: the table's
    keys and sockets, and the pending removals extended. *)
Definition kept s s' : Prop :=
  wf s' ∧ steady s s' ∧ same_sockets s s' ∧
  ∀ k, k ∈ m_pendingRemove (this s) → k ∈ m_pendingRemove (this s').

Lemma kept_intro s s' :
  wf s' → steady s s' → same_sockets s s' →
  (∀ k, k ∈ m_pendingRemove (this s) → k ∈ m_pendingRemove (this s')) → kept s s'.
Proof. by unfold kept. Qed.

Lemma kept_refl s : wf s → kept s s.
Proof. intros. by apply kept_intro. Qed.

Lemma kept_trans s1 s2 s3 : kept s1 s2 → kept s2 s3 → kept s1 s3.
Proof.
  intros (_ & H1 & K1 & P1) (H3 & H2 & K2 & P2). apply kept_intro; [done|by etrans|by etrans|auto].
Qed.

Lemma kept_net s w : wf s → calm (net s) w → kept s (set_net w s).
Proof. intros Hwf Hw. apply kept_intro; [by apply wf_net|by apply steady_net|by intros k c; eauto|done]. Qed.

Lemma kept_store id c c' s :
  wf s → connections s !! id = Some c → admissible (m_pendingRemove (this s)) id c c' →
  kept s (set_connections (<[id := c']> (connections s)) s).
Proof.
  intros Hwf Hc Had. apply kept_intro; [by eapply wf_store|by eapply steady_store| |done].
  intros k c0. rewrite connections_set, lookup_insert_Some. intros [[<- <-]|[_ Hk]]; [|eauto].
  exists c. split; [done|]. apply Had.
Qed.

Lemma wp_fail_connection id c s :
  wf s → connections s !! id = Some c →
  wp (fail_connection id id) (λ _ s', kept s s') no_ub s.
Proof.
  intros Hwf Hc. unfold fail_connection. wp_step. eapply wp_store_at; [done|]. apply wp_modify.
  set (c' := with_link (socket c) false c).
  assert (wf (set_pendingRemove (m_pendingRemove (this s) ++ [id]) s)) as Hwf1.
  { destruct Hwf. split; try done. intros k c0 Hk Hcon Hs. simpl. apply elem_of_app. left. by eapply wf_pending0. }
  assert (kept s (set_pendingRemove (m_pendingRemove (this s) ++ [id]) s)) as Hk1.
  { apply kept_intro; [done| |by intros k c0; eauto|].
    - split; [by apply flow_pending|done].
    - intros k Hk. simpl. apply elem_of_app. by left. }
  eapply kept_trans; [exact Hk1|]. apply (kept_store id c c'); [done|done|].
  split_and!; simpl; try done; [by eapply wf_schedule|]. intros _ _ _.
  apply elem_of_app. right. by apply list_elem_of_singleton.
Qed.

Lemma wp_sendPacket id data size s :
  wf s → match data with Some d => size ≤ Zlen d | None => True end →
  wp (sendPacket id data size) (λ _ s', kept s s') no_ub s.
Proof.
  intros Hwf Hsize. unfold sendPacket.
  destruct data as [d|]; [|wp_step; by apply kept_refl].
  wp_step; [wp_step; by apply kept_refl|]. wp_step. wp_step.
  destruct (connections s !! id) as [c|] eqn:Hc; [|wp_step; by apply kept_refl].
  wp_step; [wp_step; by apply kept_refl|].
  unfold createSendFrame. rewrite decide_True by done. set (frame := _ ++ _).
  wp_step. eapply wp_quiet; [apply quiet_send|]. intros sent w Hw.
  assert (connections (set_net w s) !! id = Some c) as Hc' by done.
  pose proof (kept_net s w Hwf Hw) as Hk. pose proof (proj1 Hk) as Hwf'.
  assert (∀ out, admissible (m_pendingRemove (this (set_net w s))) id c (with_output out c)) as Had.
  { intros out. split_and!; try done; simpl; [|congruence]. by eapply (wf_schedule _ Hwf). }
  destruct sent as [n|]; wp_step.
  - eapply (wp_conseq _ (λ _ s', kept s s')); [|intros [] s' Hs'; by wp_step].
    case_decide; [|by wp_step]. eapply wp_store_at; [done|].
    eapply kept_trans; [done|]. by eapply kept_store.
  - eapply wp_quiet; [apply quiet_wouldBlock|]. intros blocked w2 Hw2.
    assert (kept s (set_net w2 (set_net w s))) as Hk2.
    { eapply kept_trans; [done|]. by apply kept_net. }
    destruct blocked; wp_step.
    + eapply wp_store_at; [done|]. wp_step. eapply kept_trans; [done|].
      apply (kept_store id c _ (set_net w2 (set_net w s))); [apply Hk2|done|apply Had].
    + eapply wp_conseq; [apply (wp_fail_connection id c (set_net w2 (set_net w s))); [apply Hk2|done]|].
      intros [] s' Hs'. wp_step. by eapply kept_trans.
Qed.

Lemma admissible_buffers s id c c' :
  wf s → connections s !! id = Some c →
  peerID c' = peerID c → socket c' = socket c → connected c' = connected c →
  nextReconnectAtMs c' = nextReconnectAtMs c → admissible (m_pendingRemove (this s)) id c c'.
Proof.
  intros Hwf Hc Hid Hs Hcon Hn. split_and!; [done|done|congruence| |congruence].
  rewrite Hn. by eapply (wf_schedule _ Hwf).
Qed.

(** A length that does not fit an [int] never grows in the conversion. *)
Lemma to_int_le z : 0 ≤ z → to_int z ≤ z.
Proof. intros Hz. unfold to_int. pose proof (Z.mod_le (z + 2 ^ 31) (2 ^ 32)). lia. Qed.

Lemma wp_processWrite id c s :
  wf s → connections s !! id = Some c →
  wp (processWrite id) (λ _ s', kept s s') no_ub s.
Proof.
  intros Hwf Hc. unfold processWrite. wp_step. eapply wp_at; [done|].
  destruct (sendBuffer c) as [|b bs] eqn:Hbuf; [wp_step; by apply kept_refl|]. rewrite <- Hbuf in *.
  wp_step.
  assert (∀ r w, calm (net s) w → (∀ n, r = Some n → (n ≤ length (sendBuffer c))%nat) →
    wp (match r with
        | Some (S n) => if decide (S n ≤ length (sendBuffer c))%nat
                        then store id (with_output (drop (S n) (sendBuffer c))) else undef OutOfBounds
        | Some O => mret tt
        | None => blocked ← wouldBlock;
                  if (blocked : bool) then mret tt else fail_connection id (peerID c)
        end) (λ _ s', kept s s') no_ub (set_net w s)) as Hrest.
  { intros r w Hw Hr. pose proof (kept_net s w Hwf Hw) as Hk. destruct r as [[|n]|].
    - by wp_step.
    - rewrite decide_True by auto. eapply wp_store_at; [done|]. eapply kept_trans; [done|].
      apply (kept_store id c _ (set_net w s)); [apply Hk|done|].
      by apply (admissible_buffers (set_net w s)); [apply Hk|..].
    - wp_step. eapply wp_quiet; [apply quiet_wouldBlock|]. intros blocked w2 Hw2.
      assert (kept s (set_net w2 (set_net w s))) as Hk2.
      { eapply kept_trans; [done|]. by apply kept_net; [apply Hk|]. }
      destruct blocked; [by wp_step|]. destruct (wf_ids _ Hwf id c Hc) as [-> _].
      eapply wp_conseq; [apply (wp_fail_connection id c (set_net w2 (set_net w s))); [apply Hk2|done]|].
      intros [] s' Hs'. by eapply kept_trans. }
  destruct (socket c) as [x|] eqn:Hx; simpl.
  - apply wp_wcall. intros r w Hs. apply Hrest.
    + apply send_data in Hs as (_ & Ho & Hb & _ & Hd & _). split_and!; [done|lia|].
      intros y. by destruct (Hd y) as [_ ->].
    + intros n ->. apply send_data in Hs as (Hn & _). simpl in Hn.
      pose proof (to_int_le (Zlen (sendBuffer c))). unfold Zlen in *. lia.
  - wp_step. assert (set_net (net s) s = s) as Heq by (by destruct s).
    pose proof (Hrest None (net s)) as Hnone. rewrite Heq in Hnone.
    apply Hnone; [by apply same_calm|done].
Qed.

Lemma wp_processRead fuel id c x s :
  wf s → connections s !! id = Some c → socket c = Some x → (ws_inbox (net s) x < fuel)%nat →
  wp (processRead fuel id) (λ _ s', kept s s') no_ub s.
Proof.
  revert s c. induction fuel as [|fuel IH]; intros s c Hwf Hc Hx Hf; [lia|]. cbn [processRead].
  wp_step. eapply wp_at; [done|]. rewrite Hx. wp_step. simpl. apply wp_wcall.
  intros r w Hr. apply recv_data in Hr as (Hn & Ho & Hb & Hrecv & Hin & _ & Hd).
  assert (calm (net s) w) as Hw.
  { split_and!; [done|lia|]. intros y. destruct (decide (y = x)) as [->|Hne]; [lia|].
    by destruct (Hd y Hne) as [_ ->]. }
  pose proof (kept_net s w Hwf Hw) as Hk.
  assert (peerID c = id) as Hid by (by apply (wf_ids _ Hwf id c)).
  destruct r as [[|b bs]|]; simpl in Hin.
  - rewrite Hid. eapply wp_conseq; [apply (wp_fail_connection id c (set_net w s)); [apply Hk|done]|].
    intros [] s' Hs'. by eapply kept_trans.
  - unfold ReceiveBuffer.receive. simpl fst. simpl snd. rewrite drain_frames by lia. wp_step.
    eapply wp_store_at; [done|]. set (c' := with_input _ _ c). set (s1 := set_connections _ _).
    assert (kept s s1) as Hk1.
    { eapply kept_trans; [done|]. apply (kept_store id c c' (set_net w s)); [apply Hk|done|].
      by apply (admissible_buffers (set_net w s)); [apply Hk|..]. }
    eapply wp_conseq; [apply (IH s1 c'); [apply Hk1|apply lookup_insert_eq|done|simpl; lia]|].
    intros [] s' Hs'. by eapply kept_trans.
  - wp_step. eapply wp_quiet; [apply quiet_wouldBlock|]. intros blocked w2 Hw2.
    assert (kept s (set_net w2 (set_net w s))) as Hk2.
    { eapply kept_trans; [done|]. by apply kept_net; [apply Hk|]. }
    destruct blocked; [by wp_step|]. rewrite Hid.
    eapply wp_conseq; [apply (wp_fail_connection id c (set_net w2 (set_net w s))); [apply Hk2|done]|].
    intros [] s' Hs'. by eapply kept_trans.
Qed.

(** ** One round of events *)

Lemma wp_process_selected fuel sel id s :
  wf s → in_flight fuel s → id ∈ dom (connections s) →
  wp (process_selected fuel sel id) (λ _ s', kept s s') no_ub s.
Proof.
  intros Hwf [_ Hin] [c Hc]%elem_of_dom. unfold process_selected. wp_step. eapply wp_at; [done|].
  unfold watched_socket. destruct (connected c); [|wp_step; by apply kept_refl].
  destruct (socket c) as [x|] eqn:Hx; [|wp_step; by apply kept_refl].
  wp_step; [by eapply wp_fail_connection|]. wp_step.
  eapply (wp_conseq _ (λ _ s', kept s s')).
  - wp_step; [|wp_step; by apply kept_refl]. by eapply (wp_processRead fuel id c x).
  - intros [] s1 Hk. pose proof Hk as (Hwf1 & [_ Hdom] & _).
    assert (id ∈ dom (connections s1)) as [c1 Hc1]%elem_of_dom by (rewrite Hdom; apply elem_of_dom; eauto).
    wp_step; [|by wp_step]. eapply wp_conseq; [by eapply wp_processWrite|].
    intros [] s2 Hk2. by eapply kept_trans.
Qed.

Lemma wp_select_loop fuel sel s :
  wf s → in_flight fuel s →
  wp (for_each_connection (process_selected fuel sel)) (λ _ s', wf s' ∧ flow s s') no_ub s.
Proof.
  intros Hwf Hfl.
  eapply wp_conseq; [apply (wp_for_each_connection _ (λ s', wf s' ∧ flow s s'))|].
  - intros id s1 [Hwf1 Hf1] Hid. eapply wp_conseq.
    + apply wp_process_selected; [done|by eapply flow_in_flight|done].
    + intros [] s2 (Hwf2 & [Hf2 Hd2] & _). split_and!; [done|by etrans|done].
  - by split.
  - by intros [] s' [? _].
Qed.

Lemma unique_elem x l : x ∈ unique l ↔ x ∈ l.
Proof.
  induction l as [|y [|z l] IH]; [done..|]. cbn [unique]. case_decide as Hyz.
  - subst. rewrite IH, !elem_of_cons. tauto.
  - rewrite elem_of_cons, IH. by rewrite (elem_of_cons (z :: l)).
Qed.

Lemma sort_unique_elem x l : x ∈ sort_unique l ↔ x ∈ l.
Proof. unfold sort_unique. rewrite unique_elem. by rewrite merge_sort_Permutation. Qed.

End invariant.

(** ** Methods that run the callback *)

Section with_callback.
Context {U W : Type} `{HW : WinSock W} `{HO : WinSockObs W} `{HL : !WinSockLaws W}.
Context (callback : Z → ConnectionEvent → prog (Net U W) unit) (Hcallback : callback_ok callback).
Implicit Types (s : Net U W) (c : Connection).

(** ** [notifyConnectionEvent] and [drop_connection] *)

Lemma wp_notify id ev s :
  wf s →
  wp (notifyConnectionEvent callback id ev) (λ _ s', wf s' ∧ steady s s' ∧ same_sockets s s' ∧
    match ev with
    | EventConnected => ∀ k, k ∈ m_pendingRemove (this s) → k ∈ m_pendingRemove (this s')
    | EventDisconnected => m_pendingRemove (this s') = m_pendingRemove (this s)
    end) no_ub s.
Proof.
  intros Hwf. unfold notifyConnectionEvent. wp_step. wp_step.
  destruct (m_connectionCallback (this s)); [by apply Hcallback|]. wp_step.
  split_and!; [done..|by destruct ev].
Qed.

(** Connection [id] lost its socket, the others kept theirs. *)
Definition released (id : Z) s s' : Prop :=
  flow s s' ∧ m_pendingRemove (this s') = m_pendingRemove (this s) ∧
  ∀ k c', connections s' !! k = Some c' →
    (k = id → socket c' = None ∧ connected c' = false) ∧
    ∃ c, connections s !! k = Some c ∧ (k ≠ id → socket c' = socket c).

Lemma wp_drop_connection id c s :
  wf s → connections s !! id = Some c →
  wp (drop_connection callback id) (λ _ s', wf s' ∧ released id s s' ∧
    dom (connections s') ⊆ dom (connections s)) no_ub s.
Proof.
  intros Hwf Hc. unfold drop_connection. wp_step. eapply wp_at; [done|].
  wp_step. apply wp_closeSocket. intros w Hw. wp_step. eapply wp_store_at; [done|].
  set (s1 := set_connections _ _).
  assert (wf s1) as Hwf1 by (by apply (wf_close id c (dropped c) w s)).
  assert (flow s s1) as Hflow1 by (by apply flow_connections, (flow_closed (socket c))).
  wp_step. eapply wp_conseq; [by apply wp_notify|]. intros [] s2 (Hwf2 & [Hflow2 Hdom2] & Hsock2 & Hpend2).
  assert (∃ c2, connections s2 !! id = Some c2) as [c2 Hc2].
  { apply elem_of_dom. rewrite Hdom2. apply elem_of_dom. exists (dropped c). apply lookup_insert_eq. }
  assert (socket c2 = None) as Hs2.
  { destruct (Hsock2 id c2 Hc2) as (c1 & Hc1 & ->). unfold s1 in Hc1.
    rewrite connections_set, lookup_insert_eq in Hc1. by simplify_eq. }
  assert (connected c2 = false) as Hcon2.
  { destruct (connected c2) eqn:Hcon; [|done]. destruct (wf_link _ Hwf2 _ _ Hc2 Hcon). congruence. }
  assert (dom (connections s1) = dom (connections s)) as Hdom1 by (apply dom_insert_lookup_L; eauto).
  assert (∀ k c', k ≠ id → connections s2 !! k = Some c' →
    ∃ c0, connections s !! k = Some c0 ∧ socket c' = socket c0) as Hothers.
  { intros k c' Hne Hk. destruct (Hsock2 k c' Hk) as (c1 & Hc1 & ->). unfold s1 in Hc1.
    rewrite connections_set, lookup_insert_ne in Hc1 by done. eauto. }
  wp_step. eapply wp_at; [done|]. destruct (autoReconnect c2).
  - wp_step. unfold nowMs. wp_step. eapply wp_quiet; [apply quiet_wcall; intros; by eapply clock_same|].
    intros now w3 Hw3. wp_step. eapply wp_store_at; [done|].
    split_and!.
    + apply (wf_store id c2 _ (set_net w3 s2)); [by apply wf_net|done|].
      split_and!; simpl; try done; rewrite ?Hs2, ?Hcon2; first [by intros [? ?]|by intros _ [? ?]].
    + split_and!; [| |].
      * apply flow_connections. etrans; [done|]. etrans; [done|]. by apply (steady_net w3 s2).
      * done.
      * intros k c'. rewrite connections_set, lookup_insert_Some. intros [[<- <-]|[Hne Hk]].
        -- split; [done|]. exists c. split; [done|]. done.
        -- split; [done|]. destruct (Hothers k c') as (c0 & ? & ?); eauto.
    + rewrite connections_set. change (connections (set_net w3 s2)) with (connections s2).
      rewrite dom_insert_lookup_L by eauto. set_solver.
  - wp_step. split_and!; [by eapply wf_erase| |].
    + split_and!; [apply flow_connections; by etrans|done|]. intros k c'.
      rewrite connections_set, lookup_delete_Some.
      intros [Hne Hk]. split; [done|]. destruct (Hothers k c') as (c0 & ? & ?); eauto.
    + rewrite connections_set, dom_delete_L. set_solver.
Qed.

Lemma wp_disconnect id s :
  wf s → wp (disconnect callback id) (λ _ s', wf s' ∧ released id s s' ∧
    dom (connections s') ⊆ dom (connections s)) no_ub s.
Proof.
  intros Hwf. unfold disconnect. wp_step. wp_step.
  destruct (connections s !! id) as [c|] eqn:Hc; [by eapply wp_drop_connection|]. wp_step.
  split_and!; [done| |done]. split_and!; [done..|]. intros k c' Hk. split; [|eauto].
  intros ->. congruence.
Qed.

(** ** [removeDisconnected] *)

(** The pending connections outside [todo] have been dealt with. *)
Definition removing (pending todo : list Z) s0 s : Prop :=
  wf s ∧ flow s0 s ∧ m_pendingRemove (this s) = pending ∧ (∀ k, k ∈ todo → k ∈ pending) ∧
  dom (connections s) ⊆ dom (connections s0) ∧
  (∀ k c, connections s !! k = Some c → k ∈ pending → k ∉ todo → socket c = None) ∧
  (∀ k c, connections s !! k = Some c → k ∉ pending →
     ∃ c0, connections s0 !! k = Some c0 ∧ socket c = socket c0).

Lemma wp_remove_one pending id todo s0 s :
  removing pending (id :: todo) s0 s →
  wp (disconnect callback id) (λ _ s', removing pending todo s0 s') no_ub s.
Proof.
  intros (Hwf & Hf & Hp & Htodo & Hdom & Hdone & Hrest). eapply wp_conseq; [by apply wp_disconnect|].
  intros [] s' (Hwf' & (Hf' & Hp' & Hsock) & Hdom').
  assert (id ∈ pending) as Hid by (apply Htodo, list_elem_of_here).
  split_and!; [done|by etrans|congruence| |set_solver| |].
  - intros k Hk. apply Htodo. by apply list_elem_of_further.
  - intros k c Hk Hin Hnin. destruct (Hsock k c Hk) as (Hself & c0 & Hc0 & Hne).
    destruct (decide (k = id)) as [->|Hkid]; [by apply Hself|]. rewrite Hne by done.
    apply (Hdone k); [done|done|]. by apply not_elem_of_cons.
  - intros k c Hk Hnin. destruct (Hsock k c Hk) as (_ & c0 & Hc0 & Hne).
    destruct (Hrest k c0 Hc0 Hnin) as (c1 & Hc1 & Hs1). exists c1. split; [done|].
    rewrite <- Hs1. apply Hne. by intros ->.
Qed.

(** What [removeDisconnected] leaves of the connections that were pending,
    and of the others. *)
Definition removed s s' : Prop :=
  wf s' ∧ flow s s' ∧ m_pendingRemove (this s') = [] ∧
  dom (connections s') ⊆ dom (connections s) ∧
  (∀ k c, connections s' !! k = Some c → k ∈ m_pendingRemove (this s) → socket c = None ∧ connected c = false) ∧
  (∀ k c, connections s' !! k = Some c → k ∉ m_pendingRemove (this s) →
     ∃ c0, connections s !! k = Some c0 ∧ socket c = socket c0).

Lemma wf_set_pending l s :
  wf s → (∀ k c, connections s !! k = Some c → connected c = false → is_Some (socket c) → k ∈ l) →
  wf (set_pendingRemove l s).
Proof. intros [] Hl. by split. Qed.

Lemma wp_removeDisconnected s :
  wf s → wp (removeDisconnected callback) (λ _ s', removed s s') no_ub s.
Proof.
  intros Hwf. unfold removeDisconnected. set (pending := sort_unique (m_pendingRemove (this s))).
  wp_step. apply wp_modify. wp_step. wp_step. simpl m_pendingRemove. fold pending.
  set (s0 := set_pendingRemove pending s).
  assert (removing pending pending s0 s0) as Hstart.
  { split_and!; try done; [|eauto].
    apply wf_set_pending; [done|]. intros k c Hk Hcon Hs. apply sort_unique_elem. by eapply wf_pending. }
  wp_step. eapply wp_conseq.
  { apply (wp_for_each _ _ (λ todo s', removing pending todo s0 s')).
    - intros id todo s1 Hs1. wp_step. eapply wp_conseq; [by apply wp_remove_one|].
      intros [] s2 Hs2. pose proof Hs2 as (_ & _ & Hp & _).
      wp_step. wp_step. rewrite decide_True by done. by wp_step.
    - done. }
  intros [] s1 (Hwf1 & Hf1 & Hp1 & _ & Hdom1 & Hdone1 & Hrest1). apply wp_modify.
  assert (∀ k c, connections s1 !! k = Some c → k ∈ pending → socket c = None) as Hnone.
  { intros k c Hk Hin. apply (Hdone1 k); [done..|]. apply not_elem_of_nil. }
  split_and!; [| |done|done| |].
  - apply wf_set_pending; [done|]. intros k c Hk Hcon Hs.
    pose proof (wf_pending _ Hwf1 k c Hk Hcon Hs) as Hin. rewrite Hp1 in Hin.
    rewrite (Hnone k c Hk Hin) in Hs. by destruct Hs.
  - apply flow_pending. by destruct Hf1.
  - intros k c Hk Hin. assert (socket c = None) as Hsock by (apply (Hnone k); [done|by apply sort_unique_elem]).
    split; [done|]. destruct (connected c) eqn:Hcon; [|done].
    destruct (wf_link _ Hwf1 k c Hk Hcon). congruence.
  - intros k c Hk Hnin. apply (Hrest1 k c Hk). unfold pending. by rewrite sort_unique_elem.
Qed.

(** ** [attemptReconnects] *)

Lemma flow_dial s w :
  (ws_backlog w ≤ ws_backlog (net s))%nat → (∀ y, (ws_inbox w y ≤ ws_inbox (net s) y)%nat) →
  flow s (set_net w s).
Proof. intros Hb Hi. by split. Qed.

Lemma wp_attemptReconnects s :
  wf s → wp (attemptReconnects callback) (λ _ s', wf s' ∧ steady s s') no_ub s.
Proof.
  intros Hwf. unfold attemptReconnects, nowMs. wp_step. wp_step.
  eapply wp_quiet; [apply quiet_wcall; intros; by eapply clock_same|].
  intros t w Hw. wp_step. set (now := u64 t).
  eapply wp_conseq; [apply (wp_for_each_connection _ (λ s', wf s' ∧ flow s s'))|].
  - intros id s1 [Hwf1 Hf1] [c Hc]%elem_of_dom.
    assert ((wf s1 ∧ flow s s1) ∧ dom (connections s1) = dom (connections s1)) as Hskip by done.
    wp_step. eapply wp_at; [done|].
    wp_step; [by wp_step|]. wp_step; [by wp_step|]. wp_step; [by wp_step|]. wp_step; [by wp_step|].
    assert (socket c = None) as Hnone.
    { destruct (socket c) as [x|] eqn:Hx; [|done].
      pose proof (wf_schedule _ Hwf1 id c Hc) as Hn. rewrite Hx in Hn.
      apply orb_false_iff in Hif2 as [Hz _]. rewrite Hn in Hz; [done|eauto]. }
    wp_step. eapply wp_conseq; [apply wp_connectWithTimeout|].
    intros r s2 (w2 & -> & Hres). destruct r as [x|].
    + wp_step. eapply wp_store_at; [done|]. set (s3 := set_connections _ _).
      assert (wf s3) as Hwf3 by (by apply (wf_attach id c _ x w2 s1)).
      eapply wp_conseq; [by apply wp_notify|]. intros [] s4 (Hwf4 & [Hf4 Hd4] & _).
      destruct Hres as (_ & _ & Hb2 & Hi2). split_and!; [done| |].
      * etrans; [done|]. etrans; [|done]. apply flow_connections. by apply flow_dial.
      * rewrite Hd4. unfold s3. rewrite connections_set. apply dom_insert_lookup_L. eauto.
    + eapply wp_store_at; [done|]. split_and!.
      * apply (wf_store id c _ (set_net w2 s1)); [by apply wf_net|done|].
        split_and!; try done; simpl; rewrite Hnone; [by intros [? ?]|by intros _ [? ?]].
      * apply flow_connections. etrans; [done|]. destruct Hres as (_ & ? & ?). by apply flow_dial.
      * rewrite connections_set. apply dom_insert_lookup_L. eauto.
  - split; [by apply wf_net|]. destruct Hw as (_ & ? & ?). by apply flow_dial.
  - intros [] s' [[Hwf' Hf'] Hd']. split_and!; done.
Qed.
End with_callback.
