(* ===== verification/ManagerCalls.v ===== *)
(** * The public methods keep the invariant

    Accepting, connecting, listening, one round of [processEvents], and
    shutting down; and any sequence of calls of the public methods. *)

From stdpp Require Import base gmap sets list strings fin_maps sorting.
From Stdlib Require Import ZArith Lia.
From S2P Require Import Prelude Bytes Framing Packets WinSock ConnectionManager ManagerInvariant.

Section calls.
Context {U W : Type} `{HW : WinSock W} `{HO : WinSockObs W} `{HL : !WinSockLaws W}.
Implicit Types (s : Net U W) (c : Connection).

(** ** Listening *)

Lemma wf_set_listen o port w s :
  wf s → m_listenSocket (this s) = None →
  match o with Some x => opened (net s) w x | None => ws_open w = ws_open (net s) end →
  wf (set_listen o port (set_net w s)).
Proof.
  intros [Hids Hlink Hsch Hpend Hopen Hdist Hlis Hnext] Hl Hw. rewrite Hl in Hopen.
  assert (∀ x k c, o = Some x → connections s !! k = Some c → socket c ≠ Some x) as Hnew.
  { intros x k c -> Hk Hx. destruct Hw as (Hx' & _). apply Hx', Hopen. eauto. }
  split; try done; simpl.
  - intros y. destruct o as [x|].
    + destruct Hw as (_ & -> & _). rewrite elem_of_union, elem_of_singleton, Hopen. naive_solver congruence.
    + rewrite Hw. apply Hopen.
  - intros k c x Hk Hx Ho. by destruct (Hnew x k c).
Qed.

Lemma wf_unlisten port w s :
  wf s → closed_net (m_listenSocket (this s)) (net s) w → wf (set_listen None port (set_net w s)).
Proof.
  intros [Hids Hlink Hsch Hpend Hopen Hdist Hlis Hnext] (Ho & _). split; try done; simpl. intros x. rewrite Ho, elem_of_difference, Hopen. split.
  - intros [[Hl|Hk] Hne]; [|by right]. rewrite Hl in Hne. set_solver.
  - intros [?|(k & c & Hk & Hx)]; [done|]. split; [right; eauto|].
    destruct (m_listenSocket (this s)) as [y|] eqn:Hl; [|set_solver].
    rewrite elem_of_singleton. intros ->. by destruct (Hlis k c y).
Qed.

Lemma wp_stopListen s :
  wf s → wp stopListen (λ _ s', wf s' ∧ m_listenSocket (this s') = None ∧
    connections s' = connections s ∧ m_initialized (this s') = m_initialized (this s)) no_ub s.
Proof.
  intros Hwf. unfold stopListen. wp_step. wp_step.
  destruct (m_listenSocket (this s)) as [x|] eqn:Hl; [|by wp_step].
  wp_step. apply wp_closeSocket. intros w Hw. apply wp_modify. split_and!; [|done..].
  apply wf_unlisten; [done|]. by rewrite Hl.
Qed.

Lemma wp_listen port s :
  wf s → wp (listen port) (λ ok s', wf s' ∧ connections s' = connections s ∧
    (ok = true → is_Some (m_listenSocket (this s')) ∧ m_listenPort (this s') = port) ∧
    (ok = false → m_initialized (this s) = true → m_listenSocket (this s') = None)) no_ub s.
Proof.
  intros Hwf. unfold listen. wp_step. wp_step. wp_step.
  { wp_step. split_and!; [done|done|done|]. intros _ Hi. by rewrite Hi in Hif. }
  wp_step. eapply wp_conseq; [by apply wp_stopListen|]. intros [] s1 (Hwf1 & Hl1 & Hc1 & Hi1).
  wp_step. apply wp_wcall. intros o w Ho. apply socket_new in Ho.
  wp_step. wp_step. set (s2 := set_listen _ _ _).
  assert (wf s2) as Hwf2.
  { apply (wf_set_listen o _ w s1); [done|done|]. destruct o as [x|]; [|apply Ho].
    destruct Ho as [? Hb]. apply created_opened; [done|lia]. }
  destruct o as [x|]; [|by wp_step].
  assert (∀ s', wf s' → m_listenSocket (this s') = Some x → connections s' = connections s →
    wp (closeSocket (Some x) ;; modify (λ s, set_listen None (m_listenPort (this s)) s) ;; mret false)
      (λ ok s', wf s' ∧ connections s' = connections s ∧
         (ok = true → is_Some (m_listenSocket (this s')) ∧ m_listenPort (this s') = port) ∧
         (ok = false → m_initialized (this s) = true → m_listenSocket (this s') = None)) no_ub s') as Hfail.
  { intros s' Hwf' Hl' Hc'. wp_step. apply wp_closeSocket. intros w' Hw'. wp_step. wp_step. wp_step.
    split_and!; [|done..]. apply wf_unlisten; [done|]. by rewrite Hl'. }
  assert (∀ w', calm (net s2) w' → wf (set_net w' s2)) as Hcalm by (intros; by apply wf_net).
  wp_step. eapply wp_quiet; [apply quiet_wcall; intros; by eapply reuseaddr_same|]. intros _ w1 Hw1.
  wp_step. eapply wp_quiet; [apply quiet_wcall; intros; by eapply nonblocking_same|]. intros _ w2 Hw2.
  pose proof (calm_trans _ _ _ Hw1 Hw2) as Hw12. simpl in Hw12.
  wp_step. eapply wp_quiet; [apply quiet_wcall; intros; by eapply ws_bind_same|]. intros ok w3 Hw3.
  pose proof (calm_trans _ _ _ Hw12 Hw3) as Hw13. simpl in Hw13.
  destruct ok; simpl; [|by apply Hfail; [apply (Hcalm w3)|..]].
  wp_step. eapply wp_quiet; [apply quiet_wcall; intros; by eapply ws_listen_same|]. intros ok w4 Hw4.
  pose proof (calm_trans _ _ _ Hw13 Hw4) as Hw14. simpl in Hw14.
  destruct ok; simpl; [|by apply Hfail; [apply (Hcalm w4)|..]].
  wp_step. wp_step. wp_step. split_and!; [|done|by eauto|done].
  destruct (Hcalm w4 Hw14). by split.
Qed.

(** ** Shutting down *)

Lemma wf_empty s :
  connections s = ∅ → m_listenSocket (this s) = None → ws_open (net s) = ∅ →
  0 < m_nextPeerID (this s) < 2 ^ 32 → wf s.
Proof.
  intros Hc Hl Ho Hn. assert (∀ k (c : Connection), connections s !! k ≠ Some c) as Hnone.
  { intros k c. by rewrite Hc, lookup_empty. }
  split; try (intros; exfalso; by eapply Hnone); [|done].
  intros x. rewrite Ho, Hl. split; [by intros ?%elem_of_empty|].
  intros [|(k & c & Hk & _)]; [done|by destruct (Hnone k c)].
Qed.

Lemma wp_close_sockets s :
  wf s → m_listenSocket (this s) = None →
  wp (for_each_connection (λ id, conn ← conn_at id; closeSocket (socket conn)))
     (λ _ s', this s' = this s ∧ ws_open (net s') = ∅) no_ub s.
Proof.
  intros Hwf Hl. unfold for_each_connection. wp_step. wp_step. wp_step. wp_step.
  set (keys := dom (connections s)). set (order := map_order (net s) keys).
  eapply wp_conseq; [apply (wp_for_each _ _ (λ l s', (∀ id, id ∈ l → id ∈ keys) ∧ this s' = this s ∧
    ∀ x, x ∈ ws_open (net s') → ∃ k c, k ∈ l ∧ connections s !! k = Some c ∧ socket c = Some x))|].
  - intros id l s1 (Hin & Ht & Hopen). assert (id ∈ keys) as Hid by (apply Hin, list_elem_of_here).
    apply elem_of_dom in Hid as [c Hc]. wp_step. wp_step.
    eapply wp_at; [unfold connections; rewrite Ht; exact Hc|].
    apply wp_closeSocket. intros w (Ho & _). wp_step. wp_step.
    rewrite decide_True by (unfold connections; simpl; by rewrite Ht). wp_step.
    split_and!; [intros k Hk; apply Hin; by apply list_elem_of_further|done|].
    intros x. simpl. rewrite Ho, elem_of_difference. intros [Hx Hne].
    destruct (Hopen x Hx) as (k & c0 & [->|Hk]%elem_of_cons & Hc0 & Hs); [|eauto].
    simplify_eq. rewrite Hs in Hne. set_solver.
  - split_and!; [|done|].
    + intros id Hid. unfold order in Hid. rewrite (map_order_perm (net s) keys) in Hid. by apply elem_of_elements.
    + intros x Hx. apply (wf_open _ Hwf) in Hx as [Hx|(k & c & Hk & Hs)]; [congruence|].
      exists k, c. split; [|done]. unfold order. rewrite (map_order_perm (net s) keys).
      apply elem_of_elements, elem_of_dom. eauto.
  - intros [] s' (_ & Ht & Hopen). split; [done|]. apply elem_of_equiv_empty_L. intros x Hx.
    destruct (Hopen x Hx) as (k & c & Hk & _). by apply elem_of_nil in Hk.
Qed.

Lemma wp_shutdown s :
  wf s → wp shutdown (λ _ s', wf s' ∧ m_initialized (this s') = false ∧
    (m_initialized (this s) = true →
      connections s' = ∅ ∧ m_listenSocket (this s') = None ∧ m_pendingRemove (this s') = [] ∧
      ws_open (net s') = ∅)) no_ub s.
Proof.
  intros Hwf. unfold shutdown. wp_step. wp_step. destruct (m_initialized (this s)) eqn:Hi; simpl.
  2: { wp_step. by split_and!. }
  wp_step. eapply wp_conseq; [by apply wp_stopListen|]. intros [] s1 (Hwf1 & Hl1 & _).
  wp_step. eapply wp_conseq; [by apply wp_close_sockets|]. intros [] s2 [Ht2 Ho2].
  wp_step. wp_step. wp_step. wp_step. wp_step. apply wp_modify. apply wp_modify.
  destruct (cleanup_same (net s2)) as (Ho3 & _).
  assert (ws_open (WSACleanup (net s2)) = ∅) as Ho by congruence.
  assert (m_listenSocket (this s2) = None) as Hl2 by congruence.
  split_and!; [|done|intros _; by split_and!].
  apply wf_empty; [done|done|done|]. simpl. rewrite Ht2. apply Hwf1.
Qed.
End calls.

Section with_callback.
Context {U W : Type} `{HW : WinSock W} `{HO : WinSockObs W} `{HL : !WinSockLaws W}.
Context (callback : Z → ConnectionEvent → prog (Net U W) unit) (Hcallback : callback_ok callback).
Implicit Types (s : Net U W) (c : Connection).

(** ** New connections *)

(** One connection was added under the next identifier. *)
Record added s s' : Prop := {
  ad_wf : wf s';
  ad_next : m_nextPeerID (this s') = m_nextPeerID (this s) + 1;
  ad_dom : dom (connections s') = {[m_nextPeerID (this s)]} ∪ dom (connections s);
  ad_init : m_initialized (this s') = m_initialized (this s);
  ad_listen : m_listenSocket (this s') = m_listenSocket (this s)
}.

Lemma wp_add_connection {A} x ip port w s (k : Z → prog (Net U W) A) Q :
  wf s → m_nextPeerID (this s) + 1 < 2 ^ 32 → opened (net s) w x →
  (∀ s', added s s' → flow s (set_nextPeerID (m_nextPeerID (this s)) s') →
     (ws_backlog (net s') ≤ ws_backlog w)%nat → wp (k (m_nextPeerID (this s))) Q no_ub s') →
  wp (id ← allocatePeerID; emplace id (open_connection x id ip port) ;;
      notifyConnectionEvent callback id EventConnected ;; k id) Q no_ub (set_net w s).
Proof.
  intros Hwf Hwrap Hopen HQ. set (id := m_nextPeerID (this s)) in *. unfold allocatePeerID.
  wp_step. wp_step. wp_step. wp_step. wp_step. wp_step. simpl m_nextPeerID. fold id.
  set (s1 := set_nextPeerID _ _). set (c := open_connection x id ip port).
  assert (connections s1 !! id = None) as Hnone.
  { change (connections s1) with (connections s). destruct (connections s !! id) as [c0|] eqn:Hc0; [|done].
    destruct (wf_ids _ Hwf id c0 Hc0) as [_ ?]. lia. }
  wp_step. unfold emplace. apply wp_modify. rewrite Hnone.
  set (s2 := set_connections _ _). assert (wf s2) as Hwf2 by (by apply (wf_add id c x w s)).
  wp_step. eapply wp_conseq; [by apply wp_notify|]. intros [] s3 (Hwf3 & [Hf3 Hd3] & _).
  destruct Hopen as (_ & _ & Hb & Hi). destruct Hf3 as [Hn3 Hi3 Hl3 Hb3 Hin3]. simpl in *.
  apply HQ; [| |done].
  - split; [done| | |done|done].
    + rewrite Hn3. apply u32_small. pose proof (wf_next _ Hwf). lia.
    + rewrite Hd3. unfold s2. rewrite connections_set. apply dom_insert_L.
  - split; simpl; [done|done|done|lia|]. intros y. etrans; [apply Hin3|]. apply Hi.
Qed.

(** The table only grows, by at most the connections that were waiting. *)
Lemma wp_acceptNewConnections fuel s :
  wf s → (ws_backlog (net s) < fuel)%nat →
  m_nextPeerID (this s) + Z.of_nat (ws_backlog (net s)) < 2 ^ 32 →
  wp (acceptNewConnections callback fuel)
     (λ _ s', wf s' ∧ flow s (set_nextPeerID (m_nextPeerID (this s)) s') ∧
              dom (connections s) ⊆ dom (connections s')) no_ub s.
Proof.
  revert s. induction fuel as [|fuel IH]; intros s Hwf Hf Hwrap; [lia|]. cbn [acceptNewConnections].
  assert (∀ w, calm (net s) w → wf (set_net w s) ∧
    flow s (set_nextPeerID (m_nextPeerID (this s)) (set_net w s)) ∧
    dom (connections s) ⊆ dom (connections (set_net w s))) as Hstop.
  { intros w Hw. split_and!; [by apply wf_net| |done]. destruct Hw as (_ & ? & ?). by split. }
  wp_step. wp_step. destruct (m_listenSocket (this s)) as [l|] eqn:Hl.
  2: { wp_step. specialize (Hstop (net s)). destruct s. by apply Hstop, same_calm. }
  wp_step. apply wp_wcall. intros o w Hacc. apply accept_new in Hacc.
  destruct o as [[[x ip] port]|]; [|wp_step; by apply Hstop, same_calm].
  destruct Hacc as (Hcr & Hb & _). assert (opened (net s) w x) as Hopen by (apply created_opened; [done|lia]).
  wp_step. eapply wp_quiet; [apply quiet_wcall; intros; by eapply nonblocking_same|]. intros _ w1 Hw1.
  wp_step. eapply wp_quiet; [apply quiet_wcall; intros; by eapply nodelay_same|]. intros _ w2 Hw2.
  change (set_net w2 _) with (set_net w2 s). simpl in Hw1, Hw2.
  assert (calm w w2) as Hw by (by eapply calm_trans). pose proof Hw as (_ & Hbw & _).
  eapply (wp_add_connection x ip port w2 s (λ _, acceptNewConnections callback fuel));
    [done|lia|by eapply opened_calm|].
  intros s' [Hwf' Hn' Hd' Hi' Hl'] Hfl' Hb'.
  eapply wp_conseq; [apply IH; [done|lia|lia]|]. intros [] s'' (Hwf'' & Hfl'' & Hd'').
  split_and!; [done| |set_solver]. destruct Hfl', Hfl''. simpl in *.
  split; simpl; [done|congruence|congruence|lia|]. intros y. etrans; eauto.
Qed.

(** ** [processEvents] *)

Lemma flow_next n s s' : flow s (set_nextPeerID n s') → flow (set_nextPeerID n s) (set_nextPeerID n s').
Proof. by intros []. Qed.

Lemma wp_processEvents fuel s :
  wf s → in_flight fuel s →
  m_nextPeerID (this s) + Z.of_nat (ws_backlog (net s)) < 2 ^ 32 →
  wp (processEvents callback fuel) (λ _ s', wf s' ∧ m_initialized (this s') = m_initialized (this s) ∧
    m_listenSocket (this s') = m_listenSocket (this s)) no_ub s.
Proof.
  intros Hwf Hfl Hwrap. unfold processEvents. wp_step. wp_step.
  destruct (m_initialized (this s)) eqn:Hinit; simpl; [|by wp_step].
  wp_step. eapply wp_conseq; [by apply wp_attemptReconnects|]. intros [] s1 (Hwf1 & [Hf1 _]).
  pose proof (flow_in_flight _ _ _ Hf1 Hfl) as [Hb1 Hi1].
  wp_step. eapply wp_conseq.
  { apply wp_acceptNewConnections; [done|done|]. destruct Hf1. rewrite fl_next. lia. }
  intros [] s2 (Hwf2 & Hf2 & _).
  assert (∀ s3, wf s3 → flow s2 s3 →
    wp (removeDisconnected callback ;; attemptReconnects callback)
       (λ _ s', wf s' ∧ m_initialized (this s') = true ∧
                m_listenSocket (this s') = m_listenSocket (this s)) no_ub s3) as Hrest.
  { intros s3 Hwf3 Hf3. wp_step. eapply wp_conseq; [by apply wp_removeDisconnected|].
    intros [] s4 (Hwf4 & Hf4 & _). eapply wp_conseq; [by apply wp_attemptReconnects|].
    intros [] s5 (Hwf5 & [Hf5 _]). destruct Hf1, Hf2, Hf3, Hf4, Hf5. simpl in *.
    split_and!; [done|congruence|congruence]. }
  wp_step. wp_step. wp_step. wp_step. wp_step; [by apply Hrest|].
  wp_step. eapply wp_quiet; [apply quiet_wcall; intros; by eapply select_same|].
  intros sel w Hw. assert (wf (set_net w s2)) as Hwf3 by (by apply wf_net).
  assert (flow s2 (set_net w s2)) as Hf3 by (by apply steady_net).
  wp_step. eapply (wp_conseq _ (λ _ s', wf s' ∧ flow (set_net w s2) s')).
  - wp_step; [|by wp_step]. apply wp_select_loop; [done|]. eapply flow_in_flight; [done|].
    destruct Hf2 as [_ _ _ Hb2 Hi2]. simpl in *. split; [lia|]. intros x. specialize (Hi1 x). specialize (Hi2 x). lia.
  - intros [] s4 [Hwf4 Hf4]. apply Hrest; [done|by etrans].
Qed.

(** ** The other public methods *)

Lemma wp_connect ip port s :
  wf s → m_nextPeerID (this s) + 1 < 2 ^ 32 →
  wp (connect callback ip port)
    (λ r s', wf s' ∧ match r with
       | Some id => id = m_nextPeerID (this s) ∧ added s s'
       | None => steady s s'
       end) no_ub s.
Proof.
  intros Hwf Hwrap. unfold connect. wp_step. wp_step.
  destruct ip as [text|]; [|by wp_step]. wp_step; [by wp_step|].
  wp_step. eapply wp_conseq; [apply wp_connectWithTimeout|]. intros r s1 (w & -> & Hr).
  destruct r as [x|].
  - eapply (wp_add_connection x text port w s (λ id, mret (Some id))); [done..|].
    intros s' Had _ _. wp_step. by split; [apply Had|].
  - wp_step. split; [by apply wf_net|by apply steady_net].
Qed.

Lemma wp_initialize s :
  wf s → wp initialize (λ ok s', wf s' ∧ steady (set_initialized (m_initialized (this s')) s) s' ∧
    (ok = true → m_initialized (this s') = true)) no_ub s.
Proof.
  intros Hwf. unfold initialize. wp_step. wp_step. wp_step.
  { wp_step. split_and!; [done| |done]. rewrite Hif. by split; [split|]. }
  wp_step. unfold initializeSockets. eapply wp_quiet; [apply quiet_wcall; intros; by eapply startup_same|].
  intros ok w Hw. assert (wf (set_net w s)) as Hwf1 by (by apply wf_net).
  destruct Hw as (_ & Hb & Hi). wp_step.
  - wp_step. split_and!; [done| |done]. simpl. rewrite Hif. by split; [split|].
  - wp_step. wp_step. wp_step. split_and!; [|by split; [split|]|done]. destruct Hwf1. by split.
Qed.

Lemma wp_setAutoReconnect id enable base max s :
  wf s → wp (setAutoReconnect id enable base max) (λ _ s', kept s s') no_ub s.
Proof.
  intros Hwf. unfold setAutoReconnect. wp_step. wp_step.
  destruct (connections s !! id) as [c|] eqn:Hc; [|wp_step; by apply kept_refl].
  eapply wp_store_at; [done|]. apply (kept_store id c); [done..|].
  split_and!; try done. simpl. congruence.
Qed.

Lemma first_with_packet_present conns order size id :
  first_with_packet conns order = Some (size, id) →
  ∃ c, conns !! id = Some c ∧ PacketQueue.peek (receiveQueue c) 0 = (true, size).
Proof.
  induction order as [|k order IH]; simpl; [done|].
  destruct (conns !! k) as [c|] eqn:Hc; [|done].
  destruct (PacketQueue.peek (receiveQueue c) 0) as [[] n] eqn:Hp; [|done].
  intros [= <- <-]. eauto.
Qed.

Lemma wp_readPacket id buffer bufferSize s :
  wf s → wp (readPacket id buffer bufferSize) (λ _ s', kept s s') no_ub s.
Proof.
  intros Hwf. unfold readPacket. wp_step; [wp_step; by apply kept_refl|].
  wp_step. wp_step. wp_step. wp_step. cbv zeta. set (source := if negb _ then _ else _).
  destruct source as [k|] eqn:Hs; [|wp_step; by apply kept_refl].
  assert (∃ c, connections s !! k = Some c) as [c Hc].
  { unfold source in Hs. destruct (negb (id =? P2P_INVALID_PEER_ID)).
    - destruct (connections s !! id) eqn:?; simplify_eq; eauto.
    - apply fmap_Some in Hs as ([size k'] & Hf & ->).
      apply first_with_packet_present in Hf as (c & Hc & _). eauto. }
  wp_step. eapply wp_at; [done|].
  destruct (PacketQueue.pop _ _) as [[[] packet] q]; [|wp_step; by apply kept_refl].
  wp_step. eapply wp_store_at; [done|].
  assert (kept s (set_connections (<[k := with_input q (recvBuffer c) c]> (connections s)) s)) as Hk.
  { apply (kept_store k c); [done..|]. by apply (admissible_buffers s). }
  wp_step; by wp_step.
Qed.

(** ** Any call *)

Inductive api_call : Type :=
  | CallInitialize | CallShutdown | CallListen (port : Z) | CallStopListen
  | CallConnect (ip : option string) (port : Z)
  | CallSetAutoReconnect (id : Z) (enable : bool) (baseDelayMs maxDelayMs : Z)
  | CallDisconnect (id : Z)
  | CallSendPacket (id : Z) (data : option (list byte)) (size : Z)
  | CallIsPacketAvailable (id : Z)
  | CallReadPacket (id : Z) (buffer : bool) (bufferSize : Z)
  | CallProcessEvents | CallSetConnectionCallback (b : bool) | CallGetPeerCount
  | CallGetConnectedPeers (outPeerIDs : bool) (maxCount : Z).

Definition run_api (fuel : nat) (call : api_call) : prog (Net U W) unit :=
  match call with
  | CallInitialize => initialize ;; mret tt
  | CallShutdown => shutdown
  | CallListen port => listen port ;; mret tt
  | CallStopListen => stopListen
  | CallConnect ip port => connect callback ip port ;; mret tt
  | CallSetAutoReconnect id enable base max => setAutoReconnect id enable base max
  | CallDisconnect id => disconnect callback id
  | CallSendPacket id data size => sendPacket id data size ;; mret tt
  | CallIsPacketAvailable id => isPacketAvailable id ;; mret tt
  | CallReadPacket id buffer size => readPacket id buffer size ;; mret tt
  | CallProcessEvents => processEvents callback fuel
  | CallSetConnectionCallback b => setConnectionCallback b
  | CallGetPeerCount => getPeerCount ;; mret tt
  | CallGetConnectedPeers out max => getConnectedPeers out max ;; mret tt
  end.

(** What the caller owes: memory of the size it names; and the 32-bit
    identifiers must not run out. *)
Definition callable (fuel : nat) (call : api_call) s : Prop :=
  match call with
  | CallSendPacket _ (Some d) size => size ≤ Zlen d
  | CallConnect _ _ => m_nextPeerID (this s) + 1 < 2 ^ 32
  | CallProcessEvents =>
      in_flight fuel s ∧ m_nextPeerID (this s) + Z.of_nat (ws_backlog (net s)) < 2 ^ 32
  | _ => True
  end.

Lemma wp_discard {A} (m : prog (Net U W) A) (P : Net U W → Prop) s :
  wp m (λ _ s', P s') no_ub s → wp (m ;; mret tt) (λ _ s', P s') no_ub s.
Proof. intros Hm. wp_step. eapply wp_conseq; [done|]. intros a s' Hs'. by wp_step. Qed.

Lemma wp_run_api fuel call s :
  wf s → callable fuel call s → wp (run_api fuel call) (λ _ s', wf s') no_ub s.
Proof.
  intros Hwf Hcall. destruct call; simpl in *; try apply wp_discard.
  - eapply wp_conseq; [by apply wp_initialize|]. by intros ? s' [? _].
  - eapply wp_conseq; [by apply wp_shutdown|]. by intros ? s' [? _].
  - eapply wp_conseq; [by apply wp_listen|]. by intros ? s' [? _].
  - eapply wp_conseq; [by apply wp_stopListen|]. by intros ? s' [? _].
  - eapply wp_conseq; [by apply wp_connect|]. by intros ? s' [? _].
  - eapply wp_conseq; [by apply wp_setAutoReconnect|]. by intros ? s' [? _].
  - eapply wp_conseq; [by apply wp_disconnect|]. by intros ? s' [? _].
  - eapply wp_conseq; [by apply wp_sendPacket|]. by intros ? s' [? _].
  - unfold isPacketAvailable. wp_steps; done.
  - eapply wp_conseq; [by apply wp_readPacket|]. by intros ? s' [? _].
  - destruct Hcall. eapply wp_conseq; [by apply wp_processEvents|]. by intros ? s' [? _].
  - apply wp_modify. destruct Hwf. by split.
  - by apply wp_gets.
  - unfold getConnectedPeers. wp_steps; done.
Qed.
End with_callback.
