(* ===== verification/ManagerTheorems.v ===== *)
(** * What the connection manager guarantees

    The theorems about [src/connection_manager.cpp]; the witnesses run the
    manager on [ScriptNet] with a callback that does nothing. *)

From stdpp Require Import base gmap sets list strings fin_maps sorting.
From Stdlib Require Import ZArith Lia.
From S2P Require Import Prelude Bytes Framing Packets RelayBuffers WinSock ConnectionManager ManagerInvariant ManagerCalls.

Module Sample.
Definition no_callback (id : Z) (ev : ConnectionEvent) : prog (Net unit ScriptNet.t) unit := mret tt.

Lemma no_callback_ok : callback_ok no_callback.
Proof. intros id ev s Hwf. apply wp_ret. split_and!; [done..|by destruct ev]. Qed.

(** An initialised manager over a network. *)
Definition start (w : ScriptNet.t) : Net unit ScriptNet.t :=
  mkNet (mkManager true None 0 1 ∅ [] false) tt w.

Definition network (recvs : gmap Z (list (option (list byte)))) (sends : gmap Z (list (option nat)))
    (connects : list bool) (times : list Z) : ScriptNet.t :=
  ScriptNet.mk recvs sends connects [] times 0 0 ∅ 100 ∅ ∅.

Lemma start_wf w : ScriptNet.sockets w = ∅ → wf (start w).
Proof. intros Hw. apply wf_empty; try done. Qed.

Definition state {A} (o : outcome (A * Net unit ScriptNet.t)) : Net unit ScriptNet.t :=
  match o with Ret (_, s) => s | _ => start ScriptNet.idle end.

Definition ip : option string := Some "127.0.0.1"%string.

(** Connected to a server: identifier 1 on socket 100. *)
Definition joined (w : ScriptNet.t) : Net unit ScriptNet.t :=
  state (connect no_callback ip 27015 (start w)).

Lemma joined_wf w : ScriptNet.sockets w = ∅ → wf (joined w).
Proof.
  intros Hw. pose proof (wp_connect no_callback no_callback_ok ip 27015 (start w)) as Hwp.
  unfold wp in Hwp. unfold joined. destruct (connect _ _ _ _) as [[r s]| |].
  - simpl. apply Hwp; [by apply start_wf|done].
  - simpl. by apply start_wf.
  - simpl. by apply start_wf.
Qed.

Definition conn (id : Z) (s : Net unit ScriptNet.t) : Connection :=
  default (open_connection 0 0 "" 0) (connections s !! id).

Lemma conn_lookup id s :
  bool_decide (is_Some (connections s !! id)) = true → connections s !! id = Some (conn id s).
Proof. intros [c Hc]%bool_decide_eq_true_1. unfold conn. by rewrite Hc. Qed.

Lemma silent_network (n : nat) (s : Net unit ScriptNet.t) :
  ScriptNet.recvs (net s) = ∅ → ScriptNet.accepts (net s) = [] → (0 < n)%nat → in_flight n s.
Proof.
  intros Hr Ha Hn. split; simpl; [by rewrite Ha|]. intros x. unfold ScriptNet.inbox.
  by rewrite Hr, lookup_empty.
Qed.
End Sample.

(** ** Safety *)

(** C4. Safety of every public method: from a well-formed manager, whatever
    the network answers and with any callback that only uses existing
    connections, the call returns: no reference to an erased connection, no
    invalidated iterator, no endless loop.  The manager stays well-formed:
    the open sockets are exactly the listening one and those of the
    connections (no leak), connections share no socket, a connected one has a
    socket, and one that failed is queued for removal. *)
Theorem manager_call_safe `{WinSockLaws W} {U} (callback : Z → ConnectionEvent → prog (Net U W) unit)
    fuel call (s : Net U W) :
  callback_ok callback → wf s → callable fuel call s →
  ∃ s', run_api callback fuel call s = Ret (tt, s') ∧ wf s'.
Proof.
  intros Hcb Hwf Hcall. destruct (wp_returns _ _ _ (wp_run_api callback Hcb fuel call s Hwf Hcall))
    as ([] & s' & Hrun & Hs'). by exists s'.
Qed.

Lemma manager_call_safe_witness :
  ∃ s', run_api Sample.no_callback 5 CallProcessEvents (Sample.joined (Sample.network ∅ ∅ [true] [])) = Ret (tt, s')
        ∧ wf s'.
Proof.
  apply (manager_call_safe Sample.no_callback 5 CallProcessEvents).
  - apply Sample.no_callback_ok.
  - apply Sample.joined_wf. reflexivity.
  - split; [apply Sample.silent_network; [reflexivity|reflexivity|lia]|vm_compute; reflexivity].
Defined.

(** ** The output stream *)

Lemma createSendFrame_frame d : createSendFrame d (Zlen d) = Some (frame d).
Proof.
  unfold createSendFrame. rewrite decide_True by lia. rewrite bytes_at_le, frame_unfold.
  do 2 f_equal. unfold Zlen. by rewrite Nat2Z.id, take_ge by lia.
Qed.

Lemma sendPacket_frame `{WinSockLaws W} {U} (s : Net U W) id c x d :
  connections s !! id = Some c → connected c = true → socket c = Some x → sendBuffer c = [] →
  0 < Zlen d < 2 ^ 31 - 4 →
  ∃ ok s' c', sendPacket id (Some d) (Zlen d) s = Ret (ok, s') ∧ connections s' !! id = Some c' ∧
    (∀ k, k ≠ id → connections s' !! k = connections s !! k) ∧
    if ok then ws_sent (net s') x ++ sendBuffer c' = ws_sent (net s) x ++ frame d ∧ connected c' = true
    else connected c' = false ∧ id ∈ m_pendingRemove (this s').
Proof.
  intros Hc Hcon Hx Hbuf Hlen.
  assert (wp (sendPacket id (Some d) (Zlen d)) (λ ok s', ∃ c', connections s' !! id = Some c' ∧
    (∀ k, k ≠ id → connections s' !! k = connections s !! k) ∧
    if ok then ws_sent (net s') x ++ sendBuffer c' = ws_sent (net s) x ++ frame d ∧ connected c' = true
    else connected c' = false ∧ id ∈ m_pendingRemove (this s')) no_ub s) as Hwp.
  2: { apply wp_returns in Hwp as (ok & s' & Hrun & c' & ?). by exists ok, s', c'. }
  unfold sendPacket. wp_step; [lia|]. wp_step. wp_step. rewrite Hc, Hcon. simpl.
  rewrite createSendFrame_frame. rewrite Hx. wp_step. simpl. apply wp_wcall.
  intros r w Hs. apply send_data in Hs as (Hn & _ & _ & Hsent & _).
  assert (Hint : to_int (Zlen (frame d)) = Zlen (frame d)).
  { unfold to_int, Zlen in *. rewrite frame_length. rewrite Z.mod_small; lia. }
  rewrite Hint in Hn. unfold Zlen in Hn.
  assert (∀ c', connections (set_connections (<[id := c']> (connections s)) (set_net w s)) !! id = Some c')
    as Hself by (intros; apply lookup_insert_eq).
  assert (∀ (m : gmap Z Connection) c' k, k ≠ id → (<[id := c']> m : gmap Z Connection) !! k = m !! k) as Hother
    by (intros; by apply lookup_insert_ne).
  destruct r as [n|]; simpl in Hsent, Hn; wp_step.
  - case_decide as Hshort.
    + eapply wp_store_at; [exact Hc|]. wp_step. eexists. split_and!; [by apply Hself|by apply Hother| |done].
      simpl. rewrite Hsent, Hbuf. simpl. by rewrite <- app_assoc, take_drop.
    + wp_step. wp_step. exists c. split_and!; [done|done| |done]. simpl.
      rewrite Hsent, Hbuf, app_nil_r, take_ge by lia. done.
  - apply wp_gets. wp_step.
    + wp_step. eapply wp_store_at; [exact Hc|]. wp_step. eexists.
      split_and!; [by apply Hself|by apply Hother| |done]. simpl. by rewrite Hsent, Hbuf, app_nil_r.
    + wp_step. unfold fail_connection. wp_step. eapply wp_store_at; [exact Hc|].
      apply wp_modify. wp_step. eexists. split_and!; [by apply Hself|by apply Hother|done|].
      simpl. apply elem_of_app. right. by apply list_elem_of_singleton.
Qed.

(** C5. Sending: on a connected peer with nothing waiting, [sendPacket]
    accepts a packet of at most 2 GB and then the bytes on the wire followed by
    the bytes waiting in [sendBuffer] have grown by exactly one frame of the
    packet, however much the kernel took; or the connection failed and is
    queued for removal.  The other connections are not touched. *)
Theorem sendPacket_appends_frame `{WinSockLaws W} {U} (s : Net U W) id c x d :
  connections s !! id = Some c → connected c = true → socket c = Some x → sendBuffer c = [] →
  0 < Zlen d < 2 ^ 31 - 4 →
  ∃ ok s' c', sendPacket id (Some d) (Zlen d) s = Ret (ok, s') ∧ connections s' !! id = Some c' ∧
    (∀ k, k ≠ id → connections s' !! k = connections s !! k) ∧
    if ok then ws_sent (net s') x ++ sendBuffer c' = ws_sent (net s) x ++ frame d ∧ connected c' = true
    else connected c' = false ∧ id ∈ m_pendingRemove (this s').
Proof. apply sendPacket_frame. Qed.

Lemma sendPacket_appends_frame_witness :
  let s := Sample.joined (Sample.network ∅ {[100 := [Some 5%nat]]} [true] []) in
  ∃ ok s' c', sendPacket 1 (Some [x01; x02; x03]) 3 s = Ret (ok, s') ∧ connections s' !! 1 = Some c'.
Proof.
  intros s. destruct (sendPacket_appends_frame s 1 (Sample.conn 1 s) 100 [x01; x02; x03])
    as (ok & s' & c' & Hrun & Hc' & _).
  - apply Sample.conn_lookup. vm_compute. reflexivity.
  - vm_compute. reflexivity.
  - vm_compute. reflexivity.
  - vm_compute. reflexivity.
  - split; vm_compute; reflexivity.
  - exists ok, s', c'. split; [exact Hrun|exact Hc'].
Defined.

(** C7. Flushing: [processWrite] never loses or reorders output: the bytes on
    the wire followed by those waiting are the same before and after, and
    what waits only shrinks. *)
Theorem processWrite_preserves_stream `{WinSockLaws W} {U} (s : Net U W) id c x :
  connections s !! id = Some c → socket c = Some x →
  wp (processWrite id) (λ _ s', ∃ c', connections s' !! id = Some c' ∧
    ws_sent (net s') x ++ sendBuffer c' = ws_sent (net s) x ++ sendBuffer c ∧
    (length (sendBuffer c') ≤ length (sendBuffer c))%nat) no_ub s.
Proof.
  intros Hc Hx. unfold processWrite. wp_step. eapply wp_at; [done|].
  destruct (sendBuffer c) as [|b bs] eqn:Hbuf; [wp_step; exists c; by rewrite Hbuf|].
  rewrite <- Hbuf. rewrite Hx. wp_step. simpl. apply wp_wcall.
  intros r w Hs. apply send_data in Hs as (Hn & _ & _ & Hsent & _).
  assert (r = None ∨ r = Some 0%nat → ws_sent w x = ws_sent (net s) x) as Hsame.
  { intros [-> | ->]; rewrite Hsent; apply app_nil_r. }
  destruct r as [[|n]|].
  - wp_step. exists c. simpl net. by rewrite Hsame by auto.
  - simpl in Hsent, Hn. rewrite decide_True.
    + eapply wp_store_at; [exact Hc|]. eexists. split; [apply lookup_insert_eq|].
      cbn [sendBuffer with_output]. rewrite length_drop. split; [|lia]. simpl net.
      rewrite Hsent, <- app_assoc, take_drop. done.
    + pose proof (to_int_le (Zlen (sendBuffer c))). unfold Zlen in *. lia.
  - wp_step. apply wp_gets. wp_step; [wp_step; exists c; simpl net; by rewrite Hsame by auto|].
    unfold fail_connection. wp_step. eapply wp_store_at; [exact Hc|]. apply wp_modify.
    eexists. split; [apply lookup_insert_eq|]. simpl. by rewrite Hsame by auto.
Qed.

(** The kernel took five bytes of a frame of seven. *)
Definition half_sent : Net unit ScriptNet.t :=
  Sample.state (sendPacket 1 (Some [x01; x02; x03]) 3
    (Sample.joined (Sample.network ∅ {[100 := [Some 5%nat; Some 1%nat]]} [true] []))).

Lemma processWrite_preserves_stream_witness :
  wp (processWrite 1) (λ _ s', ∃ c', connections s' !! 1 = Some c' ∧
    ws_sent (net s') 100 ++ sendBuffer c' = ws_sent (net half_sent) 100 ++ sendBuffer (Sample.conn 1 half_sent) ∧
    (length (sendBuffer c') ≤ length (sendBuffer (Sample.conn 1 half_sent)))%nat) no_ub half_sent.
Proof.
  apply processWrite_preserves_stream; [|vm_compute; reflexivity].
  apply Sample.conn_lookup. vm_compute. reflexivity.
Defined.

(** ** The input stream *)

Lemma partial_needs_more bs ps r :
  frames ReceiveBuffer.accepts bs = (ps, Partial r) → next_frame ReceiveBuffer.accepts r = NeedMore.
Proof. intros H. pose proof (frames_tail ReceiveBuffer.accepts bs) as Ht. by rewrite H in Ht. Qed.

(** C6. Receiving: [processRead] reads until the socket would block, ends or
    fails, and returns.  If the bytes it read, behind those left in the buffer,
    contain no bad length, then exactly the packets they complete are queued
    behind those already queued, in order, and the incomplete rest is kept,
    however the bytes were split over the calls of [recv]. *)
Theorem processRead_reassembles `{WinSockLaws W} {U} fuel (s : Net U W) id c x :
  connections s !! id = Some c → peerID c = id → socket c = Some x →
  next_frame ReceiveBuffer.accepts (ReceiveBuffer.m_buffer (recvBuffer c)) = NeedMore →
  (ws_inbox (net s) x < fuel)%nat →
  ∃ s' c' got, processRead fuel id s = Ret (tt, s') ∧ connections s' !! id = Some c' ∧
    ws_recvd (net s') x = ws_recvd (net s) x ++ got ∧
    ∀ ps r, frames ReceiveBuffer.accepts (ReceiveBuffer.m_buffer (recvBuffer c) ++ got) = (ps, Partial r) →
      receiveQueue c' = PacketQueue.mk (PacketQueue.m_queue (receiveQueue c) ++ (Packet.mk <$> ps)) ∧
      recvBuffer c' = ReceiveBuffer.mk r.
Proof.
  intros Hc Hid Hx Hmore Hf.
  set (post := λ (s0 : Net U W) (c0 : Connection) (s' : Net U W), ∃ c' got,
    connections s' !! id = Some c' ∧ ws_recvd (net s') x = ws_recvd (net s0) x ++ got ∧
    ∀ ps r, frames ReceiveBuffer.accepts (ReceiveBuffer.m_buffer (recvBuffer c0) ++ got) = (ps, Partial r) →
      receiveQueue c' = PacketQueue.mk (PacketQueue.m_queue (receiveQueue c0) ++ (Packet.mk <$> ps)) ∧
      recvBuffer c' = ReceiveBuffer.mk r).
  assert (wp (processRead fuel id) (λ _ s', post s c s') no_ub s) as Hwp.
  2: { apply wp_returns in Hwp as ([] & s' & Hrun & c' & got & ?). by exists s', c', got. }
  revert s c Hc Hid Hx Hmore Hf. induction fuel as [|fuel IH]; intros s c Hc Hid Hx Hmore Hf; [lia|].
  cbn [processRead].
  assert (∀ s' c', connections s' !! id = Some c' → ws_recvd (net s') x = ws_recvd (net s) x →
    receiveQueue c' = receiveQueue c → recvBuffer c' = recvBuffer c → post s c s') as Hstop.
  { intros s' c' Hc' Hr Hq Hb. exists c', []. split_and!; [done|by rewrite app_nil_r|].
    intros ps r. rewrite app_nil_r, frames_unfold, Hmore. intros [= <- <-].
    rewrite Hq, Hb. rewrite app_nil_r. split; [by destruct (receiveQueue c)|by destruct (recvBuffer c)]. }
  wp_step. eapply wp_at; [done|]. rewrite Hx. wp_step. simpl. apply wp_wcall.
  intros o w Ho. apply recv_data in Ho as (Hn & _ & _ & Hrecv & Hin & _).
  destruct o as [[|b bs]|]; simpl in Hrecv, Hin.
  - rewrite Hid. unfold fail_connection. wp_step. eapply wp_store_at; [exact Hc|]. apply wp_modify.
    eapply Hstop; [apply lookup_insert_eq|by rewrite app_nil_r in Hrecv|done|done].
  - set (chunk := b :: bs) in *. rewrite receive_frames.
    destruct (frames ReceiveBuffer.accepts (ReceiveBuffer.m_buffer (recvBuffer c) ++ chunk)) as [ps1 t1] eqn:Hfr.
    wp_step. eapply wp_store_at; [exact Hc|].
    set (c1 := with_input _ _ c). set (s1 := set_connections _ _).
    eapply wp_conseq; [apply (IH s1 c1); [apply lookup_insert_eq|done|done| |]|].
    + simpl. destruct t1 as [r1|r1]; simpl; [by eapply partial_needs_more|done].
    + simpl. lia.
    + intros [] s' (c' & got & Hc' & Hgot & Hres). exists c', (chunk ++ got). split_and!; [done| |].
      * rewrite Hgot. simpl net. rewrite Hrecv. by rewrite <- app_assoc.
      * intros ps r. rewrite app_assoc, frames_app. rewrite Hfr. destruct t1 as [r1|r1]; [|done].
        simpl in Hres |- *. destruct (frames ReceiveBuffer.accepts (r1 ++ got)) as [ps2 t2] eqn:Hfr2.
        simpl. intros Heq. injection Heq as Hps Ht. subst ps t2.
        destruct (Hres ps2 r) as [Hq Hb]; [done|]. split; [|done].
        rewrite Hq. simpl. by rewrite fmap_app, app_assoc.
  - wp_step. apply wp_gets. simpl in Hrecv. rewrite app_nil_r in Hrecv. wp_step.
    + wp_step. by eapply Hstop.
    + rewrite Hid. unfold fail_connection. wp_step. eapply wp_store_at; [exact Hc|]. apply wp_modify.
      eapply Hstop; [apply lookup_insert_eq|done|done|done].
Qed.

Lemma processRead_reassembles_witness :
  let s := Sample.joined (Sample.network {[100 := [Some (take 3 (frame [x07; x08])); Some (drop 3 (frame [x07; x08]))]]}
                                         ∅ [true] []) in
  ∃ s', processRead 9 1 s = Ret (tt, s').
Proof.
  intros s. destruct (processRead_reassembles 9 s 1 (Sample.conn 1 s) 100) as (s' & _ & _ & Hrun & _).
  - apply Sample.conn_lookup. vm_compute. reflexivity.
  - vm_compute. reflexivity.
  - vm_compute. reflexivity.
  - vm_compute. reflexivity.
  - vm_compute. lia.
  - exists s'. exact Hrun.
Defined.

(** ** Both ends of the wire *)



(** ** Reading packets *)

Lemma available_read `{WinSock W} {U} (s : Net U W) id size from bufferSize :
  isPacketAvailable id s = Ret (Some (size, from), s) → size ≤ bufferSize → 0 < bufferSize →
  ∃ c p rest s', connections s !! from = Some c ∧
    PacketQueue.m_queue (receiveQueue c) = p :: rest ∧ Packet.size p = size ∧
    readPacket id true bufferSize s = Ret (Some (Packet.data p, from), s') ∧
    connections s' = <[from := with_input (PacketQueue.mk rest) (recvBuffer c) c]> (connections s) ∧
    net s' = net s ∧ app s' = app s.
Proof.
  intros Hav Hsize Hbuf.
  set (source := if negb (id =? P2P_INVALID_PEER_ID)
                 then match connections s !! id with Some _ => Some id | None => None end
                 else snd <$> first_with_packet (connections s) (map_order (net s) (dom (connections s)))).
  assert (source = Some from ∧ ∃ c, connections s !! from = Some c ∧
            PacketQueue.peek (receiveQueue c) 0 = (true, size)) as (Hsrc & c & Hc & Hpeek).
  { unfold isPacketAvailable, mbind, prog_bind, gets, mret, prog_ret in Hav.
    unfold source. destruct (negb (id =? P2P_INVALID_PEER_ID)).
    - destruct (connections s !! id) as [c|] eqn:Hc; [|done].
      destruct (PacketQueue.peek (receiveQueue c) 0) as [[] n] eqn:Hp; [|done].
      injection Hav as <- <-. eauto.
    - destruct (first_with_packet _ _) as [[n k]|] eqn:Hf; [|done]. injection Hav as -> ->.
      split; [done|]. by eapply first_with_packet_present. }
  unfold PacketQueue.peek in Hpeek. destruct (PacketQueue.m_queue (receiveQueue c)) as [|p rest] eqn:Hq; [done|].
  injection Hpeek as Hp. exists c, p, rest.
  eexists. split_and!; [done|done|done| | | |].
  - unfold readPacket. simpl. rewrite (proj2 (Z.eqb_neq bufferSize 0)) by lia.
    unfold mbind, prog_bind, gets, mret, prog_ret. fold source. rewrite Hsrc.
    unfold conn_at, store, mbind, prog_bind, gets, mret, prog_ret. rewrite Hc.
    unfold PacketQueue.pop. rewrite Hq. unfold modify, conn_at, mbind, prog_bind, gets. rewrite Hc.
    rewrite (proj2 (Z.ltb_ge bufferSize (Packet.size p))) by lia. reflexivity.
  - done.
  - done.
  - done.
Qed.

(** Two packets received from the server. *)
Definition two_packets : Net unit ScriptNet.t :=
  Sample.state (processRead 30 1 (Sample.joined
    (Sample.network {[100 := [Some (frame [x07; x08] ++ frame [x09])]]} ∅ [true] []))).

(** [readPacket] with a buffer that is too small loses the packet: it
    fails, yet the packet has left the queue. *)
Lemma readPacket_small_buffer_loses `{WinSock W} {U} (s : Net U W) id c p rest bufferSize :
  id ≠ P2P_INVALID_PEER_ID → connections s !! id = Some c →
  PacketQueue.m_queue (receiveQueue c) = p :: rest → 0 < bufferSize < Packet.size p →
  ∃ s', readPacket id true bufferSize s = Ret (None, s') ∧
    connections s' !! id = Some (with_input (PacketQueue.mk rest) (recvBuffer c) c).
Proof.
  intros Hid Hc Hq Hsize. eexists. split.
  - unfold readPacket. simpl. rewrite (proj2 (Z.eqb_neq bufferSize 0)) by lia.
    unfold mbind, prog_bind, gets, mret, prog_ret. rewrite (proj2 (Z.eqb_neq id _)) by done. simpl. rewrite Hc.
    unfold conn_at, store, mbind, prog_bind, gets, mret, prog_ret. rewrite Hc.
    unfold PacketQueue.pop. rewrite Hq. unfold modify, conn_at, mbind, prog_bind, gets. rewrite Hc.
    rewrite (proj2 (Z.ltb_lt bufferSize (Packet.size p))) by lia. reflexivity.
  - rewrite connections_set. apply lookup_insert_eq.
Qed.

(** ** Removal and shutdown *)



(** C25. [shutdown] releases everything: afterwards no socket is open, the
    table, the pending removals and the listening socket are gone, and a
    second call does nothing. *)
Theorem shutdown_releases_all `{WinSockLaws W} {U} (s : Net U W) :
  wf s → m_initialized (this s) = true →
  ∃ s', shutdown s = Ret (tt, s') ∧ ws_open (net s') = ∅ ∧ connections s' = ∅ ∧
    m_listenSocket (this s') = None ∧ m_pendingRemove (this s') = [] ∧
    m_initialized (this s') = false ∧ shutdown s' = Ret (tt, s').
Proof.
  intros Hwf Hi. destruct (wp_returns _ _ _ (wp_shutdown s Hwf)) as ([] & s' & Hrun & _ & Hi' & Hall).
  destruct (Hall Hi) as (? & ? & ? & ?). exists s'. split_and!; try done.
  unfold shutdown, mbind, prog_bind, gets. rewrite Hi'. done.
Qed.

Lemma shutdown_releases_all_witness :
  ∃ s', shutdown (Sample.joined (Sample.network ∅ ∅ [true] [])) = Ret (tt, s') ∧ ws_open (net s') = ∅.
Proof.
  destruct (shutdown_releases_all (Sample.joined (Sample.network ∅ ∅ [true] []))) as (s' & Hrun & Ho & _).
  - apply Sample.joined_wf. reflexivity.
  - vm_compute. reflexivity.
  - exists s'. split; [exact Hrun|exact Ho].
Defined.

(** ** Reconnecting *)

Lemma backoff_value attempt maxDelay base :
  0 ≤ base < 2 ^ 32 → 0 ≤ maxDelay < 2 ^ 32 →
  backoff attempt maxDelay base =
    match attempt with O => base | S _ => Z.min (base * 2 ^ Z.of_nat attempt) maxDelay end.
Proof.
  intros Hb Hm. revert base Hb. induction attempt as [|n IH]; intros base Hb; [done|].
  cbn [backoff]. cbv zeta. rewrite u64_small by lia.
  assert (2 ^ Z.of_nat (S n) = 2 * 2 ^ Z.of_nat n) as Hp.
  { rewrite Nat2Z.inj_succ. apply Z.pow_succ_r. lia. }
  assert (1 ≤ 2 ^ Z.of_nat n) as Hone by (apply (Z.pow_le_mono_r 2 0 (Z.of_nat n)); lia).
  destruct (Z.leb_spec maxDelay (base * 2)) as [Hle|Hgt].
  - rewrite Hp, Z.min_r; [done|]. nia.
  - rewrite IH by lia. destruct n as [|n]; [change (2 ^ Z.of_nat 1) with 2; lia|].
    rewrite Hp. f_equal. lia.
Qed.

(** C30. The exponential back-off: after [attempt] failed attempts the next
    delay is the base delay doubled that often, capped at the maximum, without
    overflow of the 64-bit arithmetic; but the first delay is the base delay
    itself, even when it exceeds the maximum. *)
Theorem backoff_delay attempt maxDelay base :
  0 ≤ base < 2 ^ 32 → 0 ≤ maxDelay < 2 ^ 32 →
  backoff attempt maxDelay base =
    match attempt with O => base | S _ => Z.min (base * 2 ^ Z.of_nat attempt) maxDelay end.
Proof. apply backoff_value. Qed.

Lemma backoff_delay_witness : backoff 4 10000 500 = 8000.
Proof. apply (backoff_delay 4 10000 500); lia. Defined.


(** ** Where the manager goes wrong *)

(** A run of calls on the connected manager. *)
Definition after_calls (w : ScriptNet.t) (calls : list api_call) : Net unit ScriptNet.t :=
  fold_left (λ s call, Sample.state (run_api Sample.no_callback 10 call s)) calls (Sample.joined w).



