(* ===== verification/ManagerReconnect.v ===== *)
(** * Reconnecting

    What one call of [attemptReconnects] of [src/connection_manager.cpp] does
    to every connection: which ones it dials, what a success and a failure
    leave behind, and when a connection is dialled next. *)

From stdpp Require Import base gmap sets list strings fin_maps.
From Stdlib Require Import ZArith Lia.
From S2P Require Import Prelude Bytes WinSock ConnectionManager ManagerInvariant ManagerCalls ManagerTheorems.

(** The address and the reconnection state of a connection. *)
Definition same_policy (c c' : Connection) : Prop :=
  remoteIP c' = remoteIP c ∧ remotePort c' = remotePort c ∧ autoReconnect c' = autoReconnect c ∧
  reconnectBaseDelayMs c' = reconnectBaseDelayMs c ∧ reconnectMaxDelayMs c' = reconnectMaxDelayMs c ∧
  reconnectAttempt c' = reconnectAttempt c ∧ nextReconnectAtMs c' = nextReconnectAtMs c.

#[export] Instance same_policy_trans : Transitive same_policy.
Proof. intros a b c (?&?&?&?&?&?&?) (?&?&?&?&?&?&?). split_and!; congruence. Qed.

(** A callback that leaves these alone, as one does that only sends. *)
Definition keeps_policy `{WinSockObs W} {U} (callback : Z → ConnectionEvent → prog (Net U W) unit) : Prop :=
  ∀ id ev s, wf s → wp (callback id ev) (λ _ s', ∀ k c', connections s' !! k = Some c' →
    ∃ c, connections s !! k = Some c ∧ same_policy c c') no_ub s.

(** The connection is dialled at time [now]. *)
Definition due (now : Z) (c : Connection) : bool :=
  autoReconnect c && negb (connected c) && negb (bool_decide (remoteIP c = EmptyString) || (remotePort c =? 0))
  && negb ((nextReconnectAtMs c =? 0) || (now <? nextReconnectAtMs c)).

Definition redialled (now : Z) (c c' : Connection) : Prop :=
  (is_Some (socket c') ∧ reconnectAttempt c' = 0 ∧ nextReconnectAtMs c' = 0) ∨
  (socket c' = None ∧ connected c' = false ∧ reconnectAttempt c' = Z.min (reconnectAttempt c + 1) (2 ^ 32 - 1) ∧
   nextReconnectAtMs c' = u64 (now +
     if decide (reconnectAttempt c = 0) then reconnectBaseDelayMs c
     else Z.min (reconnectBaseDelayMs c * 2 ^ reconnectAttempt c) (reconnectMaxDelayMs c))).

Definition left_alone (c c' : Connection) : Prop := socket c' = socket c ∧ same_policy c c'.

Definition settled (now : Z) (c c' : Connection) : Prop :=
  if due now c then redialled now c c' else left_alone c c'.

(** The ranges of the C++ types. *)
Definition ranged (c : Connection) : Prop :=
  0 ≤ reconnectBaseDelayMs c < 2 ^ 32 ∧ 0 ≤ reconnectMaxDelayMs c < 2 ^ 32 ∧ 0 ≤ reconnectAttempt c < 2 ^ 32.

Section reconnect.
Context {U W : Type} `{HW : WinSock W} `{HO : WinSockObs W} `{HL : !WinSockLaws W}.
Context (callback : Z → ConnectionEvent → prog (Net U W) unit).
Context (Hcallback : callback_ok callback) (Hpolicy : keeps_policy callback).
Implicit Types (s : Net U W) (c : Connection).

(** The range-for over the table visits every key once. *)
Lemma wp_for_each_key (body : Z → prog (Net U W) unit) (I : gset Z → Net U W → Prop) E s :
  (∀ id todo s0, I ({[id]} ∪ todo) s0 → id ∉ todo → dom (connections s0) = dom (connections s) →
     id ∈ dom (connections s) →
     wp (body id) (λ _ s1, I todo s1 ∧ dom (connections s1) = dom (connections s)) E s0) →
  I (dom (connections s)) s →
  wp (for_each_connection body) (λ _ s', I ∅ s' ∧ dom (connections s') = dom (connections s)) E s.
Proof.
  intros Hbody HI. unfold for_each_connection. wp_step. wp_step. wp_step. wp_step.
  set (keys := dom (connections s)) in *. set (order := map_order (net s) keys).
  assert (order ≡ₚ elements keys) as Hperm by apply (map_order_perm (net s) keys).
  eapply wp_conseq; [apply (wp_for_each _ _ (λ l s', NoDup l ∧ (∀ id, id ∈ l → id ∈ keys) ∧
    I (list_to_set l) s' ∧ dom (connections s') = keys))|].
  - intros id l s0 ([Hid Hnd]%NoDup_cons & Hin & HI0 & Hd). wp_step.
    eapply wp_conseq; [apply (Hbody id (list_to_set l))|].
    + exact HI0.
    + by rewrite elem_of_list_to_set.
    + done.
    + apply Hin, list_elem_of_here.
    + intros [] s1 [HI1 Hd1]. wp_step. wp_step. rewrite decide_True by done. wp_step.
      split_and!; [done| |done|done]. intros id' ?. apply Hin. by apply list_elem_of_further.
  - split_and!.
    + rewrite Hperm. apply NoDup_elements.
    + intros id. rewrite Hperm. by rewrite elem_of_elements.
    + replace (list_to_set order : gset Z) with keys; [done|].
      apply set_eq. intros x. rewrite elem_of_list_to_set, Hperm. by rewrite elem_of_elements.
    + done.
  - by intros [] s' (_ & _ & ? & ?).
Qed.

(** Whether a connection is due does not change before its turn. *)
Lemma due_left_alone now k c c' s s' :
  wf s → wf s' → connections s !! k = Some c → connections s' !! k = Some c' → left_alone c c' →
  due now c' = due now c.
Proof.
  intros Hwf Hwf' Hc Hc' (Hs & Hip & Hport & Hauto & _ & _ & _ & Hnext). unfold due.
  rewrite Hip, Hport, Hauto, Hnext. destruct (Z.eqb_spec (nextReconnectAtMs c) 0) as [H0|H0].
  { by rewrite !andb_false_r. }
  assert (socket c = None) as Hnone.
  { destruct (socket c) eqn:Hx; [|done]. exfalso. apply H0, (wf_schedule _ Hwf k c Hc). rewrite Hx. eauto. }
  assert (connected c = false) as ->.
  { destruct (connected c) eqn:Hcon; [|done]. destruct (wf_link _ Hwf _ _ Hc Hcon). congruence. }
  assert (connected c' = false) as ->; [|done].
  destruct (connected c') eqn:Hcon; [|done]. destruct (wf_link _ Hwf' _ _ Hc' Hcon). congruence.
Qed.

Lemma settled_left_alone now k c c1 c2 s2 :
  wf s2 → connections s2 !! k = Some c2 → settled now c c1 → left_alone c1 c2 → settled now c c2.
Proof.
  intros Hwf Hc2 Hset [Hs Hpol]. unfold settled in *. destruct (due now c).
  - pose proof Hpol as (_ & _ & _ & _ & _ & Ha & Hn). destruct Hset as [(Hx & ? & ?)|(Hx & ? & ? & ?)].
    + left. rewrite Hs, Ha, Hn. done.
    + right. rewrite Hs, Ha, Hn. split_and!; [done| |done|done].
      destruct (connected c2) eqn:Hcon; [|done]. destruct (wf_link _ Hwf _ _ Hc2 Hcon). congruence.
  - destruct Hset as [Hs1 Hp1]. split; [congruence|]. by etrans.
Qed.

(** Halfway: the connections of [todo] are as at the start, the others settled. *)
Definition halfway (now : Z) s (todo : gset Z) s1 : Prop :=
  wf s1 ∧ ∀ k c', connections s1 !! k = Some c' → ∃ c, connections s !! k = Some c ∧
    if decide (k ∈ todo) then left_alone c c' else settled now c c'.

Lemma halfway_change now s todo s1 s2 :
  halfway now s todo s1 → wf s2 →
  (∀ k c2, connections s2 !! k = Some c2 → ∃ c1, connections s1 !! k = Some c1 ∧ left_alone c1 c2) →
  halfway now s todo s2.
Proof.
  intros [_ H1] Hwf2 H2. split; [done|]. intros k c2 Hc2.
  destruct (H2 k c2 Hc2) as (c1 & Hc1 & Hla). destruct (H1 k c1 Hc1) as (c & Hc & Hres).
  exists c. split; [done|]. case_decide.
  - destruct Hres as [Hs Hp], Hla as [Hs' Hp']. split; [congruence|by etrans].
  - by eapply settled_left_alone.
Qed.

(** Connection [id] is settled, the others did not change. *)
Lemma halfway_settle now s id todo s1 c1 c2 w :
  wf s → halfway now s ({[id]} ∪ todo) s1 → id ∉ todo → connections s1 !! id = Some c1 →
  wf (set_connections (<[id := c2]> (connections s1)) (set_net w s1)) →
  (∀ c, connections s !! id = Some c → left_alone c c1 → settled now c c2) →
  halfway now s todo (set_connections (<[id := c2]> (connections s1)) (set_net w s1)).
Proof.
  intros Hwf [Hwf1 H1] Hid Hc1 Hwf2 Hset. split; [done|]. intros k c'.
  rewrite connections_set, lookup_insert_Some. intros [[<- <-]|[Hne Hk]].
  - destruct (H1 id c1 Hc1) as (c & Hc & Hla). rewrite decide_True in Hla by set_solver.
    exists c. split; [done|]. rewrite decide_False by done. by apply Hset.
  - destruct (H1 k c' Hk) as (c & Hc & Hres). exists c. split; [done|].
    destruct (decide (k ∈ todo)); [by rewrite decide_True in Hres by set_solver|].
    by rewrite decide_False in Hres by set_solver.
Qed.

Lemma notify_left_alone id ev s :
  wf s → wp (notifyConnectionEvent callback id ev) (λ _ s', wf s' ∧ dom (connections s') = dom (connections s) ∧
    ∀ k c', connections s' !! k = Some c' → ∃ c, connections s !! k = Some c ∧ left_alone c c') no_ub s.
Proof.
  intros Hwf. eapply wp_conseq; [apply wp_and; [by apply wp_notify|]|].
  - instantiate (1 := λ _ s', ∀ k c', connections s' !! k = Some c' →
      ∃ c, connections s !! k = Some c ∧ same_policy c c').
    unfold notifyConnectionEvent. wp_step. wp_step. destruct (m_connectionCallback (this s)); [by apply Hpolicy|].
    wp_step. intros k c' Hc'. exists c'. done.
  - intros [] s' [(Hwf' & [_ Hd] & Hss & _) Hpol]. split_and!; [done..|]. intros k c' Hc'.
    destruct (Hss k c' Hc') as (c & Hc & Hs). destruct (Hpol k c' Hc') as (c0 & Hc0 & Hp).
    exists c. split; [done|]. simplify_eq. by split.
Qed.

(** The answers of the four tests before the dialling. *)
Lemma wp_skip now c (m : prog (Net U W) unit) (Q : unit → Net U W → Prop) E s :
  (due now c = true → wp m Q E s) → (due now c = false → Q tt s) →
  wp (if negb (autoReconnect c) then mret tt
      else if connected c then mret tt
      else if bool_decide (remoteIP c = EmptyString) || (remotePort c =? 0) then mret tt
      else if (nextReconnectAtMs c =? 0) || (now <? nextReconnectAtMs c) then mret tt else m) Q E s.
Proof.
  unfold due. intros Hm Hq. destruct (autoReconnect c); simpl in *; [|apply wp_ret; by apply Hq].
  destruct (connected c); simpl in *; [apply wp_ret; by apply Hq|].
  destruct (bool_decide (remoteIP c = EmptyString) || (remotePort c =? 0)); simpl in *; [apply wp_ret; by apply Hq|].
  destruct ((nextReconnectAtMs c =? 0) || (now <? nextReconnectAtMs c)); simpl in *; [apply wp_ret; by apply Hq|].
  by apply Hm.
Qed.

Lemma left_alone_ranged c c' : left_alone c c' → ranged c → ranged c'.
Proof. unfold ranged. intros (_ & _ & _ & _ & -> & -> & -> & _). done. Qed.

(** A failed attempt schedules the next one. *)
Lemma failed_redialled now c c1 :
  left_alone c c1 → ranged c → socket c1 = None → connected c1 = false →
  redialled now c (with_schedule
    (if reconnectAttempt c1 =? 2 ^ 32 - 1 then reconnectAttempt c1 else reconnectAttempt c1 + 1)
    (u64 (now + backoff (Z.to_nat (reconnectAttempt c1)) (reconnectMaxDelayMs c1) (reconnectBaseDelayMs c1))) c1).
Proof.
  intros (Hs & _ & _ & _ & -> & -> & -> & _) (Hb & Hm & Ha) Hnone Hcon. right.
  cbn [socket connected reconnectAttempt nextReconnectAtMs with_schedule]. split_and!; [done|done| |].
  - destruct (Z.eqb_spec (reconnectAttempt c) (2 ^ 32 - 1)); lia.
  - do 2 f_equal. rewrite backoff_value by done.
    destruct (Z.to_nat (reconnectAttempt c)) as [|n] eqn:Hn; case_decide; [done|lia|lia|].
    rewrite <- Hn, Z2Nat.id by lia. done.
Qed.

Lemma wp_attemptReconnects_settles s :
  wf s → (∀ k c, connections s !! k = Some c → ranged c) →
  wp (attemptReconnects callback) (λ _ s', wf s' ∧ ∀ k c, connections s !! k = Some c →
    ∃ c', connections s' !! k = Some c' ∧ settled (u64 (steady_clock_ms (net s)).1) c c') no_ub s.
Proof.
  intros Hwf Hrange. unfold attemptReconnects, nowMs. wp_step. wp_step. apply wp_wcall.
  intros t w Ht. rewrite Ht. wp_step. set (now := u64 t). set (s0 := set_net w s).
  assert (wf s0) as Hwf0 by (apply wf_net; [eapply same_calm, clock_same; done|done]).
  change (connections s) with (connections s0) in *.
  eapply wp_conseq; [apply (wp_for_each_key _ (halfway now s0))|].
  - intros id todo s1 H1 Hid Hdom Hin. pose proof H1 as [Hwf1 Hall1].
    assert (∃ c1, connections s1 !! id = Some c1) as [c1 Hc1] by (apply elem_of_dom; by rewrite Hdom).
    destruct (Hall1 id c1 Hc1) as (c & Hc & Hla). rewrite decide_True in Hla by set_solver.
    pose proof (due_left_alone now id c c1 s0 s1 Hwf0 Hwf1 Hc Hc1 Hla) as Hdue.
    wp_step. eapply wp_at; [exact Hc1|]. apply (wp_skip now); [intros Hyes|intros Hno].
    2: { split; [|done]. split; [done|]. intros k c' Hk. destruct (Hall1 k c' Hk) as (c0 & Hc0 & Hres).
      exists c0. split; [done|]. destruct (decide (k = id)) as [->|Hne].
      - rewrite decide_False by done. simplify_eq. unfold settled. by rewrite <- Hdue, Hno.
      - destruct (decide (k ∈ todo)); [by rewrite decide_True in Hres by set_solver|].
        by rewrite decide_False in Hres by set_solver. }
    assert (socket c1 = None ∧ connected c1 = false) as [Hnone Hcon].
    { unfold due in Hyes. rewrite !andb_true_iff, !negb_true_iff in Hyes.
      destruct Hyes as [[[_ Hcon] _] [Hn _]%orb_false_iff]. split; [|done].
      destruct (socket c1) eqn:Hx; [|done]. exfalso. apply Z.eqb_neq in Hn. apply Hn.
      apply (wf_schedule _ Hwf1 id c1 Hc1). rewrite Hx. eauto. }
    wp_step. eapply wp_conseq; [apply wp_connectWithTimeout|]. intros r s2 (w2 & -> & Hres). destruct r as [x|].
    + wp_step. eapply wp_store_at; [exact Hc1|]. set (s3 := set_connections _ _).
      assert (wf s3) as Hwf3 by (by apply (wf_attach id c1 _ x w2 s1)).
      eapply wp_conseq; [by apply notify_left_alone|]. intros [] s4 (Hwf4 & Hd4 & Hla4). split.
      * eapply halfway_change; [|done|exact Hla4]. apply (halfway_settle now s0 id todo s1 c1); try done.
        intros c' Hc' _. simplify_eq. unfold settled. rewrite <- Hdue, Hyes. left. simpl. eauto.
      * rewrite Hd4. unfold s3. rewrite connections_set, <- Hdom. apply dom_insert_lookup_L. eauto.
    + eapply wp_store_at; [exact Hc1|]. split.
      * apply (halfway_settle now s0 id todo s1 c1); try done.
        -- apply (wf_store id c1 _ (set_net w2 s1)); [by apply wf_net|done|].
           split_and!; try done; simpl; rewrite Hnone; [by intros [? ?]|by intros _ [? ?]].
        -- intros c' Hc' _. simplify_eq. unfold settled. rewrite <- Hdue, Hyes.
           apply failed_redialled; [done|by eapply Hrange|done|done].
      * rewrite connections_set, <- Hdom. apply dom_insert_lookup_L. eauto.
  - split; [done|]. intros k c' Hk. exists c'. split; [done|]. rewrite decide_True by (by apply elem_of_dom_2 in Hk). done.
  - intros [] s' [[Hwf' Hall] Hd]. split; [done|]. intros k c Hc.
    assert (∃ c', connections s' !! k = Some c') as [c' Hc'].
    { apply elem_of_dom. rewrite Hd. by apply elem_of_dom_2 in Hc. }
    exists c'. split; [done|]. destruct (Hall k c' Hc') as (c0 & Hc0 & Hres).
    rewrite decide_False in Hres by set_solver. by simplify_eq.
Qed.
End reconnect.

(** Sending leaves the policies alone: the callback of the hook is covered. *)
Section send.
Context {U W : Type} `{HW : WinSock W} `{HO : WinSockObs W} `{HL : !WinSockLaws W}.
Implicit Types (s : Net U W) (c : Connection).

Definition policies_kept s s' : Prop :=
  ∀ k c', connections s' !! k = Some c' → ∃ c, connections s !! k = Some c ∧ same_policy c c'.

Lemma policies_refl s : policies_kept s s.
Proof. intros k c Hc. exists c. done. Qed.

Lemma policies_store id c c' w s : connections s !! id = Some c → same_policy c c' →
  policies_kept s (set_connections (<[id := c']> (connections s)) (set_net w s)).
Proof.
  intros Hc Hp k c0. rewrite connections_set, lookup_insert_Some. intros [[<- <-]|[_ Hk]]; [by exists c|].
  by exists c0.
Qed.

Lemma wp_sendPacket_policy id d size s :
  size ≤ Zlen d → wp (sendPacket id (Some d) size) (λ _ s', policies_kept s s') no_ub s.
Proof.
  intros Hsize. unfold sendPacket. wp_step; [wp_step; apply policies_refl|]. wp_step. wp_step.
  destruct (connections s !! id) as [c|] eqn:Hc; [|wp_step; apply policies_refl].
  wp_step; [wp_step; apply policies_refl|].
  unfold createSendFrame. rewrite decide_True by done. wp_step.
  unfold send. destruct (socket c) as [x|].
  - apply wp_wcall. intros [n|] w _.
    + wp_step. case_decide; [|wp_step; wp_step; intros k c0 Hk; by exists c0].
      eapply wp_store_at; [exact Hc|]. wp_step. by apply (policies_store id c _ w s).
    + wp_step. apply wp_gets. wp_step.
      * wp_step. eapply wp_store_at; [exact Hc|]. wp_step. by apply (policies_store id c _ w s).
      * unfold fail_connection. wp_step. wp_step. eapply wp_store_at; [exact Hc|]. apply wp_modify. wp_step.
        by apply (policies_store id c _ w s).
  - wp_step. wp_step. apply wp_gets. replace s with (set_net (net s) s) at 1 by (by destruct s). wp_step.
    + wp_step. eapply wp_store_at; [exact Hc|]. wp_step. by apply (policies_store id c _ (net s) s).
    + unfold fail_connection. wp_step. wp_step. eapply wp_store_at; [exact Hc|]. apply wp_modify. wp_step.
      by apply (policies_store id c _ (net s) s).
Qed.
End send.

(** C9. Automatic reconnection: one round of [attemptReconnects] dials exactly
    the connections that are not connected, want it, have an address, and
    whose scheduled time has come.  A dialled one has a new socket and a clean
    schedule, or counts one more failure and is scheduled after the base delay
    doubled per earlier failure, capped at the maximum.  Every other
    connection keeps its socket and its schedule.  No endless loop, no leak,
    whatever the network answers, with any callback that keeps the policies. *)
Theorem attemptReconnects_settles `{WinSockLaws W} {U}
    (callback : Z → ConnectionEvent → prog (Net U W) unit) (s : Net U W) :
  callback_ok callback → keeps_policy callback → wf s →
  (∀ k c, connections s !! k = Some c → ranged c) →
  ∃ s', attemptReconnects callback s = Ret (tt, s') ∧ wf s' ∧
    ∀ k c, connections s !! k = Some c → ∃ c', connections s' !! k = Some c' ∧
      let now := u64 (steady_clock_ms (net s)).1 in
      if due now c then redialled now c c' else left_alone c c'.
Proof.
  intros Hcb Hpol Hwf Hrange.
  destruct (wp_returns _ _ _ (wp_attemptReconnects_settles callback Hcb Hpol s Hwf Hrange))
    as ([] & s' & Hrun & Hwf' & Hall). by exists s'.
Qed.

(** Disconnected at time 0 with a base delay of 500, it is time 5000, and the
    server refuses. *)
Definition waiting : Net unit ScriptNet.t :=
  after_calls (Sample.network ∅ ∅ [true; false] [0; 5000])
    [CallSetAutoReconnect 1 true 500 10000; CallDisconnect 1].

Lemma waiting_wf : wf waiting.
Proof.
  unfold waiting, after_calls. cbn [fold_left].
  assert (∀ call s, wf s → callable 10 call s → wf (Sample.state (run_api Sample.no_callback 10 call s))) as Hstep.
  { intros call s Hwf Hc. pose proof (wp_run_api _ Sample.no_callback_ok 10 call s Hwf Hc) as Hwp.
    unfold wp in Hwp. destruct (run_api _ _ _ _) as [[a s']| |]; [exact Hwp|done..]. }
  apply Hstep; [apply Hstep; [apply Sample.joined_wf; reflexivity|exact I]|exact I].
Qed.

Lemma attemptReconnects_settles_witness :
  ∃ s' c', attemptReconnects Sample.no_callback waiting = Ret (tt, s') ∧ connections s' !! 1 = Some c' ∧
    reconnectAttempt c' = 1 ∧ nextReconnectAtMs c' = 5500.
Proof.
  destruct (attemptReconnects_settles Sample.no_callback waiting) as (s' & Hrun & _ & Hall).
  - apply Sample.no_callback_ok.
  - intros id ev s _. apply wp_ret. apply policies_refl.
  - apply waiting_wf.
  - assert (map_Forall (λ _ c, ranged c) (connections waiting)) as Hr.
    { unfold ranged. refine (proj1 (bool_decide_eq_true (map_Forall _ _)) _). vm_compute. reflexivity. }
    intros k c Hc. exact (Hr k c Hc).
  - destruct (Hall 1 (Sample.conn 1 waiting)) as (c' & Hc' & Hres).
    { apply Sample.conn_lookup. vm_compute. reflexivity. }
    exists s', c'. split_and!; [exact Hrun|exact Hc'|..].
    all: assert (attemptReconnects Sample.no_callback waiting = Ret (tt, s')) as Hrun' by exact Hrun;
      vm_compute in Hrun'; injection Hrun' as <-; vm_compute in Hc'; injection Hc' as <-; reflexivity.
Defined.
