(* ===== verification/P2PNetwork.v ===== *)
(** * The C interface of the client library

    [include/p2p_network.h] and [src/p2p_network.cpp]: the functions
    [P2P_*] over one global manager.  The globals of the file are the
    application state [Api] of the manager's state; [user] is the state of
    the program that uses the library.  A user callback is a value of type
    [C], run by [user_call]. *)

From stdpp Require Import base gmap sets list strings fin_maps.
From Stdlib Require Import ZArith Lia.
From S2P Require Import Prelude Bytes Packets WinSock ConnectionManager.

Inductive P2PResult : Type :=
  | P2P_OK | P2P_ERROR_NOT_INITIALIZED | P2P_ERROR_ALREADY_INITIALIZED | P2P_ERROR_INVALID_PEER
  | P2P_ERROR_CONNECTION_FAILED | P2P_ERROR_SEND_FAILED | P2P_ERROR_BUFFER_TOO_SMALL
  | P2P_ERROR_NO_PACKET | P2P_ERROR_SOCKET_ERROR | P2P_ERROR_INVALID_PARAM | P2P_ERROR_LISTEN_FAILED.

#[export] Instance P2PResult_eq_dec : EqDecision P2PResult.
Proof. solve_decision. Defined.

(** The numbers a C caller sees. *)
Definition result_code (r : P2PResult) : Z :=
  match r with
  | P2P_OK => 0
  | P2P_ERROR_NOT_INITIALIZED => -1
  | P2P_ERROR_ALREADY_INITIALIZED => -2
  | P2P_ERROR_INVALID_PEER => -3
  | P2P_ERROR_CONNECTION_FAILED => -4
  | P2P_ERROR_SEND_FAILED => -5
  | P2P_ERROR_BUFFER_TOO_SMALL => -6
  | P2P_ERROR_NO_PACKET => -7
  | P2P_ERROR_SOCKET_ERROR => -8
  | P2P_ERROR_INVALID_PARAM => -9
  | P2P_ERROR_LISTEN_FAILED => -10
  end.

(** [g_manager] says that the pointer is not null; the manager itself is
    [this]. *)
Record Api (C V : Type) : Type := mkApi {
  g_manager : bool;
  g_userCallback : option C;
  g_userCallbackData : Z;
  user : V
}.
Arguments mkApi {C V} _ _ _ _.
Arguments g_manager {C V} _.
Arguments g_userCallback {C V} _.
Arguments g_userCallbackData {C V} _.
Arguments user {C V} _.

Section api.
Context {C V W : Type} `{WinSock W}.
#[local] Abbreviation State := (Net (Api C V) W).
Context (user_call : C → Z → bool → Z → prog State unit).
Implicit Types (s : State).

Definition upd_app (f : Api C V → Api C V) s : State := mkNet (this s) (f (app s)) (net s).
Definition set_g_manager (b : bool) : State → State :=
  upd_app (λ a, mkApi b (g_userCallback a) (g_userCallbackData a) (user a)).
Definition set_user (v : V) : State → State :=
  upd_app (λ a, mkApi (g_manager a) (g_userCallback a) (g_userCallbackData a) v).
Definition set_callback (cb : option C) (data : Z) : State → State :=
  upd_app (λ a, mkApi (g_manager a) cb data (user a)).

Definition internalConnectionCallback (id : Z) (event : ConnectionEvent) : prog State unit :=
  a ← gets app;
  match g_userCallback a with
  | Some cb =>
      let connected := match event with EventConnected => true | EventDisconnected => false end in
      user_call cb id connected (g_userCallbackData a)
  | None => mret tt
  end.

(** [g_manager && g_manager->isInitialized()] *)
Definition ready s : bool := g_manager (app s) && m_initialized (this s).

(** [g_manager.reset()]: the destructor shuts the manager down. *)
Definition reset_manager : prog State unit := shutdown ;; modify (set_g_manager false).

Definition P2P_Init : prog State P2PResult :=
  present ← gets (λ s, g_manager (app s));
  if (present : bool) then mret P2P_ERROR_ALREADY_INITIALIZED
  else
  modify (upd_this (λ _, new_manager)) ;;
  modify (set_g_manager true) ;;
  ok ← initialize;
  if negb ok then reset_manager ;; mret P2P_ERROR_SOCKET_ERROR
  else setConnectionCallback true ;; mret P2P_OK.

Definition P2P_Shutdown : prog State unit :=
  present ← gets (λ s, g_manager (app s));
  (if (present : bool) then shutdown ;; reset_manager else mret tt) ;;
  modify (set_callback None 0).

Definition P2P_Listen (port : Z) : prog State P2PResult :=
  r ← gets ready;
  if negb r then mret P2P_ERROR_NOT_INITIALIZED
  else
  ok ← listen port;
  if negb ok then mret P2P_ERROR_LISTEN_FAILED else mret P2P_OK.

Definition P2P_StopListen : prog State unit :=
  present ← gets (λ s, g_manager (app s));
  if (present : bool) then stopListen else mret tt.

(** With the value written to [*outPeerID]. *)
Definition P2P_Connect (ip : option string) (port : Z) (outPeerID : bool)
    : prog State (P2PResult * option Z) :=
  r ← gets ready;
  if negb r then mret (P2P_ERROR_NOT_INITIALIZED, None)
  else if bool_decide (ip = None) || negb outPeerID then mret (P2P_ERROR_INVALID_PARAM, None)
  else
  o ← connect internalConnectionCallback ip port;
  match o with
  | None => mret (P2P_ERROR_CONNECTION_FAILED, None)
  | Some id => mret (P2P_OK, Some id)
  end.

Definition P2P_SetAutoReconnect (id : Z) (enable : bool) (baseDelayMs maxDelayMs : Z) : prog State unit :=
  r ← gets ready;
  if negb r || (id =? P2P_INVALID_PEER_ID) then mret tt
  else setAutoReconnect id enable baseDelayMs maxDelayMs.

Definition P2P_Disconnect (id : Z) : prog State unit :=
  present ← gets (λ s, g_manager (app s));
  if (present : bool) && negb (id =? P2P_INVALID_PEER_ID)
  then disconnect internalConnectionCallback id else mret tt.

Definition P2P_SendPacket (id : Z) (data : option (list byte)) (size : Z) : prog State P2PResult :=
  r ← gets ready;
  if negb r then mret P2P_ERROR_NOT_INITIALIZED
  else if id =? P2P_INVALID_PEER_ID then mret P2P_ERROR_INVALID_PEER
  else if bool_decide (data = None) || (size =? 0) then mret P2P_ERROR_INVALID_PARAM
  else
  ok ← sendPacket id data size;
  if negb ok then mret P2P_ERROR_SEND_FAILED else mret P2P_OK.

Definition P2P_IsPacketAvailable (id : Z) : prog State (option (Z * Z)) :=
  r ← gets ready;
  if negb r then mret None else isPacketAvailable id.

(** With what is written to the buffer and to the output parameters. *)
Definition P2P_ReadPacket (id : Z) (buffer : bool) (bufferSize : Z)
    : prog State (P2PResult * option (list byte * Z)) :=
  r ← gets ready;
  if negb r then mret (P2P_ERROR_NOT_INITIALIZED, None)
  else if negb buffer || (bufferSize =? 0) then mret (P2P_ERROR_INVALID_PARAM, None)
  else
  av ← isPacketAvailable id;
  match av with
  | None => mret (P2P_ERROR_NO_PACKET, None)
  | Some (packetSize, _) =>
      if bufferSize <? packetSize then mret (P2P_ERROR_BUFFER_TOO_SMALL, None)
      else
      o ← readPacket id buffer bufferSize;
      match o with
      | None => mret (P2P_ERROR_NO_PACKET, None)
      | Some res => mret (P2P_OK, Some res)
      end
  end.

Definition P2P_RunCallbacks (fuel : nat) : prog State unit :=
  r ← gets ready;
  if (r : bool) then processEvents internalConnectionCallback fuel else mret tt.

Definition P2P_SetConnectionCallback (cb : option C) (data : Z) : prog State unit :=
  modify (set_callback cb data).

Definition P2P_GetPeerCount : prog State Z :=
  r ← gets ready;
  if negb r then mret 0 else getPeerCount.

Definition P2P_GetConnectedPeers (outPeerIDs : bool) (maxCount : Z) : prog State (list Z) :=
  r ← gets ready;
  if negb r then mret [] else getConnectedPeers outPeerIDs maxCount.
End api.
