(* ===== verification/P2PTheorems.v ===== *)
(** * What the C interface guarantees

    The theorems about [src/p2p_network.cpp]. *)

From stdpp Require Import base gmap sets list strings fin_maps.
From Stdlib Require Import ZArith Lia.
From S2P Require Import Prelude Bytes Framing Packets WinSock ConnectionManager ManagerInvariant ManagerCalls ManagerTheorems P2PNetwork.

(** Moving an equation about a run through a bind. *)
Lemma run_bind {St A B} (m : prog St A) (f : A → prog St B) s a s' :
  m s = Ret (a, s') → (m ≫= f) s = f a s'.
Proof. unfold mbind, prog_bind. by intros ->. Qed.

Section p2p.
Context {C V W : Type} `{HW : WinSock W}.
#[local] Abbreviation State := (Net (Api C V) W).
Implicit Types (s : State).

Lemma run_ready {B} (f : bool → prog State B) s : (gets ready ≫= f) s = f (ready s) s.
Proof. done. Qed.

(** [isPacketAvailable] is a query: it returns and changes nothing. *)
Lemma isPacketAvailable_query {U} id (s : Net U W) :
  ∃ r, isPacketAvailable id s = Ret (r, s).
Proof.
  unfold isPacketAvailable, mbind, prog_bind, gets, mret, prog_ret.
  destruct (negb _); [|eauto]. destruct (connections s !! id) as [c|]; [|eauto].
  destruct (PacketQueue.peek _ _) as [[] n]; eauto.
Qed.
End p2p.

(** C18. [P2P_ReadPacket] never loses a packet.  On an initialised library with
    a proper buffer it does one of three things: without a packet it reports
    [P2P_ERROR_NO_PACKET]; when the next packet does not fit it reports
    [P2P_ERROR_BUFFER_TOO_SMALL]; in both cases nothing changes, so the caller
    can try again; otherwise it delivers the front packet of the sender that
    [P2P_IsPacketAvailable] names and removes exactly that packet. *)
Theorem P2P_ReadPacket_lossless `{WinSock W} {C V} (s : Net (Api C V) W) id bufferSize :
  ready s = true → 0 < bufferSize →
  match P2P_IsPacketAvailable id s with
  | Ret (None, _) => P2P_ReadPacket id true bufferSize s = Ret ((P2P_ERROR_NO_PACKET, None), s)
  | Ret (Some (size, from), _) =>
      if size <=? bufferSize then
        ∃ c p rest s', connections s !! from = Some c ∧
          PacketQueue.m_queue (receiveQueue c) = p :: rest ∧ Packet.size p = size ∧
          P2P_ReadPacket id true bufferSize s = Ret ((P2P_OK, Some (Packet.data p, from)), s') ∧
          connections s' = <[from := with_input (PacketQueue.mk rest) (recvBuffer c) c]> (connections s)
      else P2P_ReadPacket id true bufferSize s = Ret ((P2P_ERROR_BUFFER_TOO_SMALL, None), s)
  | _ => False
  end.
Proof.
  intros Hready Hbuf. unfold P2P_IsPacketAvailable, P2P_ReadPacket. rewrite !run_ready, Hready. simpl.
  rewrite (proj2 (Z.eqb_neq bufferSize 0)) by lia.
  destruct (isPacketAvailable_query id s) as [r Hav]. rewrite Hav.
  erewrite run_bind by exact Hav. destruct r as [[size from]|]; [|done].
  destruct (Z.leb_spec size bufferSize) as [Hle|Hgt].
  - rewrite (proj2 (Z.ltb_ge bufferSize size)) by lia.
    destruct (available_read s id size from bufferSize Hav Hle Hbuf)
      as (c & p & rest & s' & Hc & Hq & Hp & Hrun & Hconns & _).
    exists c, p, rest, s'. split_and!; try done. by erewrite run_bind by exact Hrun.
  - rewrite (proj2 (Z.ltb_lt bufferSize size)) by lia. done.
Qed.

(** The library's state on the scripted network, without a user callback. *)
Definition lib_state (s : Net unit ScriptNet.t) : Net (Api unit unit) ScriptNet.t :=
  mkNet (this s) (mkApi true None 0 tt) (net s).

Lemma P2P_ReadPacket_lossless_witness :
  ∃ s', P2P_ReadPacket 0 true 64 (lib_state two_packets) = Ret ((P2P_OK, Some ([x07; x08], 1)), s').
Proof.
  assert (ready (lib_state two_packets) = true) as Hr by (vm_compute; reflexivity).
  pose proof (P2P_ReadPacket_lossless (lib_state two_packets) 0 64 Hr eq_refl) as Hread.
  assert (P2P_IsPacketAvailable 0 (lib_state two_packets) = Ret (Some (2, 1), lib_state two_packets)) as Hav
    by (vm_compute; reflexivity).
  rewrite Hav in Hread. destruct Hread as (c & p & rest & s' & Hc & Hq & _ & Hrun & _).
  exists s'. assert (Packet.data p = [x07; x08]) as Hp; [|rewrite Hp in Hrun; exact Hrun].
  assert (PacketQueue.m_queue (receiveQueue (Sample.conn 1 two_packets)) = p :: rest) as Hq'.
  { unfold Sample.conn. change (connections two_packets) with (connections (lib_state two_packets)).
    rewrite Hc. exact Hq. }
  vm_compute in Hq'. injection Hq' as Hp _. by rewrite <- Hp.
Defined.

Section shutdown.
Context {U W : Type} `{HW : WinSock W} `{HO : WinSockObs W} `{HL : !WinSockLaws W}.
Implicit Types (s : Net U W).

Lemma wp_closeSocket_app o (Q : unit → Net U W → Prop) E s :
  (∀ w, Q tt (set_net w s)) → wp (closeSocket o) Q E s.
Proof.
  intros HQ. unfold closeSocket. destruct o as [x|]; [apply wp_modify; apply HQ|].
  wp_step. replace s with (set_net (net s) s) by (by destruct s). apply HQ.
Qed.

(** [shutdown] does not touch the program's own state. *)
Lemma wp_shutdown_app s : wp shutdown (λ _ s', app s' = app s) no_ub s.
Proof.
  unfold shutdown. wp_step. wp_step. wp_step; [by wp_step|]. wp_step.
  apply wp_conseq with (Q := λ _ s', app s' = app s).
  { unfold stopListen. wp_step. wp_step. destruct (m_listenSocket (this s)) as [x|]; [|by wp_step].
    wp_step. apply wp_closeSocket_app. intros w. by apply wp_modify. }
  intros [] s1 H1. wp_step. eapply wp_conseq.
  { apply (wp_for_each_connection _ (λ s', app s' = app s)); [|done].
    intros id s2 H2 [c Hc]%elem_of_dom. wp_step. eapply wp_at; [done|].
    by apply wp_closeSocket_app. }
  intros [] s2 [H2 _]. wp_step. wp_step. wp_step. wp_step. wp_step. apply wp_modify. by apply wp_modify.
Qed.
End shutdown.

Lemma P2P_Shutdown_run `{WinSockLaws W} {C V} (s : Net (Api C V) W) :
  wf s → g_manager (app s) = true → m_initialized (this s) = true →
  ∃ s', P2P_Shutdown s = Ret (tt, s') ∧ ws_open (net s') = ∅ ∧ g_manager (app s') = false ∧
    g_userCallback (app s') = None ∧ user (app s') = user (app s).
Proof.
  intros Hwf Hm Hi.
  destruct (wp_returns _ _ _ (wp_and _ _ _ _ _ (wp_shutdown s Hwf) (wp_shutdown_app s)))
    as ([] & s1 & Hrun & (_ & Hi1 & Hall) & Happ).
  destruct (Hall Hi) as (_ & _ & _ & Ho).
  assert (shutdown s1 = Ret (tt, s1)) as Hagain.
  { unfold shutdown, mbind, prog_bind, gets. by rewrite Hi1. }
  set (s' := set_callback None 0 (set_g_manager false s1)). exists s'.
  split_and!; [|done|done|done|simpl; by rewrite Happ].
  unfold P2P_Shutdown, reset_manager, mbind, prog_bind, gets. by rewrite Hm, Hrun, Hagain.
Qed.

(** Everything a call on a library without a manager reports. *)
Definition answers_uninitialized `{WinSock W} {C V} (s : Net (Api C V) W) : Prop :=
  (∀ port, P2P_Listen port s = Ret (P2P_ERROR_NOT_INITIALIZED, s)) ∧
  P2P_StopListen s = Ret (tt, s) ∧
  (∀ id on base max, P2P_SetAutoReconnect id on base max s = Ret (tt, s)) ∧
  (∀ b n, P2P_GetConnectedPeers b n s = Ret ([], s)) ∧
  (∀ run ip port out, P2P_Connect run ip port out s = Ret ((P2P_ERROR_NOT_INITIALIZED, None), s)) ∧
  (∀ id d n, P2P_SendPacket id d n s = Ret (P2P_ERROR_NOT_INITIALIZED, s)) ∧
  (∀ id b n, P2P_ReadPacket id b n s = Ret ((P2P_ERROR_NOT_INITIALIZED, None), s)) ∧
  (∀ id, P2P_IsPacketAvailable id s = Ret (None, s)) ∧
  (∀ run fuel, P2P_RunCallbacks run fuel s = Ret (tt, s)) ∧
  (∀ run id, P2P_Disconnect run id s = Ret (tt, s)) ∧
  P2P_GetPeerCount s = Ret (0, s).


