(* ===== verification/Hook.v ===== *)
(** * The Steam hook

    [hook/hook.cpp]: the replacements of three virtual functions of
    [ISteamNetworking], the connection callback, the configuration file, the
    installation in the virtual table and [DllMain].  Its globals are the
    record [Hook], the [user] part of the state of [P2PNetwork]; the game
    process (memory, Steam's own functions, files, threads) is the class
    [Host].  The trace output is not modelled.  The two threads of the
    library are programs of their own; the data races between them and the
    game's thread are not modelled. *)

From stdpp Require Import base gmap sets list strings fin_maps.
From Stdlib Require Import ZArith Lia.
From S2P Require Import Prelude Bytes Packets WinSock ConnectionManager P2PNetwork.

Definition VTABLE_OFFSET : Z := (0x7F7778).
Definition ISTEAMUSER_OFFSET : Z := (0x7F7760).
Definition VTABLE_SIZE : nat := 48.
Definition VTABLE_INDEX_SendP2PPacket : nat := 0.
Definition VTABLE_INDEX_IsP2PPacketAvailable : nat := 1.
Definition VTABLE_INDEX_ReadP2PPacket : nat := 2.
Definition VTABLE_INDEX_GetSteamID : nat := 2.
(** The size of a [CSteamID], and of a pointer in the 32-bit build. *)
Definition STEAMID_SIZE : Z := 8.
Definition PTR : Z := 4.

(** The addresses of the three hook functions. *)
Inductive hook_fn : Type := Hook_Send | Hook_Available | Hook_Read.

Inductive thread_body : Type := PumpThreadBody | InjectionThreadBody.

Class Host (S : Type) : Type := {
  (** Memory in words; [None] is an access violation. *)
  host_read : S → Z → option Z;
  host_write : S → Z → Z → option S;
  (** [new] and [delete] of an array of pointers. *)
  host_new : S → nat → Z * S;
  host_delete : S → Z → S;
  (** [GetModuleHandle(nullptr)]; 0 when it fails. *)
  host_module : S → Z;
  host_address : hook_fn → Z;
  host_sleep : S → Z → S;
  (** Steam's functions, called at an address with their [this] pointer. *)
  call_GetSteamID : S → Z → Z → Z * S;
  (** Whether the size pointer is not null; the result and the size. *)
  call_IsP2PPacketAvailable : S → Z → Z → bool → Z → (bool * Z) * S;
  call_ReadP2PPacket : S → Z → Z → Z → Z → (Z * Z) * S;
  call_SendP2PPacket : S → Z → Z → Z → option (list byte) → Z → Z → Z → bool * S;
  (** The lines of the configuration file, beside the DLL or in the current
      directory, if there is one. *)
  host_config : S → option (list string);
  host_thread : S → thread_body → S;
  (** [WaitForSingleObject] of at most one second, and [CloseHandle]. *)
  host_join : S → thread_body → S
}.

Record Hook (S : Type) : Type := mkHook {
  g_pObject : Z;
  g_pOriginalVTable : Z;
  g_pNewVTable : Z;
  g_strRemoteIP : string;
  g_nPort : Z;
  g_connectedPeer : Z;
  g_stopPumpThread : bool;
  g_originalRead : Z * Z;        (* [g_originalReadSize], [g_originalReadSteamID] *)
  g_tcpRecvBuffer : list byte;
  g_hasTcpData : bool;
  g_tcpRecvSteamID : Z;
  g_localSteamID : Z;
  host : S
}.
Arguments mkHook {S} _ _ _ _ _ _ _ _ _ _ _ _ _.
Arguments g_pObject {S} _.
Arguments g_pOriginalVTable {S} _.
Arguments g_pNewVTable {S} _.
Arguments g_strRemoteIP {S} _.
Arguments g_nPort {S} _.
Arguments g_connectedPeer {S} _.
Arguments g_stopPumpThread {S} _.
Arguments g_originalRead {S} _.
Arguments g_tcpRecvBuffer {S} _.
Arguments g_hasTcpData {S} _.
Arguments g_tcpRecvSteamID {S} _.
Arguments g_localSteamID {S} _.
Arguments host {S} _.

(** The globals before [DllMain]. *)
Definition initial_hook {S} (h : S) : Hook S :=
  mkHook 0 0 0 "127.0.0.1"%string 27015 0 false (0, 0) [] false 0 0 h.

(** ** The configuration file *)

Section config.

(** The line without its last character, when that is a carriage return. *)
Fixpoint strip_cr (line : string) : string :=
  match line with
  | EmptyString => EmptyString
  | String c EmptyString => if (Ascii.eqb c (Ascii.ascii_of_nat 13)) then EmptyString else line
  | String c rest => String c (strip_cr rest)
  end.

Definition char_code (c : Ascii.ascii) : Z := Z.of_N (Ascii.N_of_ascii c).

Definition is_digit (c : Ascii.ascii) : bool := (48 <=? char_code c) && (char_code c <=? 57).
Definition is_space (c : Ascii.ascii) : bool :=
  (char_code c =? 32) || ((9 <=? char_code c) && (char_code c <=? 13)).

Fixpoint digits (s : string) (acc : Z) : Z :=
  match s with
  | String c s' => if is_digit c then digits s' (10 * acc + (char_code c - 48)) else acc
  | EmptyString => acc
  end.

(** The unsigned part of [std::stoi]; [None] when there is no digit. *)
Definition stoi_digits (s : string) : option Z :=
  match s with
  | String c _ => if is_digit c then Some (digits s 0) else None
  | EmptyString => None
  end.

(** [std::stoi]; [None] is an exception: no number, or not an [int]. *)
Fixpoint stoi (s : string) : option Z :=
  match s with
  | EmptyString => None
  | String c s' =>
      if is_space c then stoi s'
      else
        n ← (if char_code c =? 45 then Z.opp <$> stoi_digits s'
             else if char_code c =? 43 then stoi_digits s' else stoi_digits s);
        if (- 2 ^ 31 <=? n) && (n <? 2 ^ 31) then Some n else None
  end.

(** One line of the file: the address and the port after it; [None] is an
    exception. *)
Definition config_line (cfg : string * Z) (raw : string) : option (string * Z) :=
  let line := strip_cr raw in
  match line with
  | EmptyString => Some cfg
  | String c _ =>
      if (char_code c =? 35) || (char_code c =? 59) then Some cfg
      else if String.prefix "ip="%string line then
        Some (String.substring 3 (String.length line - 3) line, cfg.2)
      else if String.prefix "port="%string line then
        n ← stoi (String.substring 5 (String.length line - 5) line);
        Some (cfg.1, u16 n)
      else Some cfg
  end.

Fixpoint config_lines (cfg : string * Z) (lines : list string) : option (string * Z) :=
  match lines with
  | [] => Some cfg
  | l :: ls => cfg' ← config_line cfg l; config_lines cfg' ls
  end.
End config.

(** ** Packets *)

(** [memcpy] of a [CSteamID] to and from memory of the little-endian host. *)
Definition steamid_bytes (id : Z) : list byte := le_bytes 8 id.
Definition bytes_steamid (bs : list byte) : Z := le_val (take 8 bs).

(** The buffer [Hook_SendP2PPacket] fills: target, sender, data; [None] when
    a [memcpy] leaves it. *)
Definition send_buffer (steamIDRemote local : Z) (pubData : option (list byte)) (cubData : Z)
    : option (list byte) :=
  let totalSize := u32 (STEAMID_SIZE + STEAMID_SIZE + cubData) in
  buf ← write_at 0 (steamid_bytes steamIDRemote) (replicate (Z.to_nat totalSize) x00);
  buf ← write_at 8 (steamid_bytes local) buf;
  match pubData with
  | Some d => if 0 <? cubData then write_at 16 (take (Z.to_nat cubData) d) buf else Some buf
  | None => Some buf
  end.

Section hook.
Context {S W : Type} `{WinSock W} `{Host S}.
#[local] Abbreviation State := (Net (Api unit (Hook S)) W).
Implicit Types (s : State).

Definition hook s : Hook S := user (app s).
Definition upd_hook (f : Hook S → Hook S) s : State := set_user (f (hook s)) s.

Definition set_vtables (obj orig new : Z) : State → State :=
  upd_hook (λ h, mkHook obj orig new (g_strRemoteIP h) (g_nPort h) (g_connectedPeer h)
    (g_stopPumpThread h) (g_originalRead h) (g_tcpRecvBuffer h) (g_hasTcpData h)
    (g_tcpRecvSteamID h) (g_localSteamID h) (host h)).
Definition set_config (cfg : string * Z) : State → State :=
  upd_hook (λ h, mkHook (g_pObject h) (g_pOriginalVTable h) (g_pNewVTable h) cfg.1 cfg.2
    (g_connectedPeer h) (g_stopPumpThread h) (g_originalRead h) (g_tcpRecvBuffer h)
    (g_hasTcpData h) (g_tcpRecvSteamID h) (g_localSteamID h) (host h)).
Definition set_connectedPeer (id : Z) : State → State :=
  upd_hook (λ h, mkHook (g_pObject h) (g_pOriginalVTable h) (g_pNewVTable h) (g_strRemoteIP h)
    (g_nPort h) id (g_stopPumpThread h) (g_originalRead h) (g_tcpRecvBuffer h)
    (g_hasTcpData h) (g_tcpRecvSteamID h) (g_localSteamID h) (host h)).
Definition set_stopPump (b : bool) : State → State :=
  upd_hook (λ h, mkHook (g_pObject h) (g_pOriginalVTable h) (g_pNewVTable h) (g_strRemoteIP h)
    (g_nPort h) (g_connectedPeer h) b (g_originalRead h) (g_tcpRecvBuffer h)
    (g_hasTcpData h) (g_tcpRecvSteamID h) (g_localSteamID h) (host h)).
Definition set_originalRead (r : Z * Z) : State → State :=
  upd_hook (λ h, mkHook (g_pObject h) (g_pOriginalVTable h) (g_pNewVTable h) (g_strRemoteIP h)
    (g_nPort h) (g_connectedPeer h) (g_stopPumpThread h) r (g_tcpRecvBuffer h)
    (g_hasTcpData h) (g_tcpRecvSteamID h) (g_localSteamID h) (host h)).
Definition set_tcp (data : list byte) (has : bool) (id : Z) : State → State :=
  upd_hook (λ h, mkHook (g_pObject h) (g_pOriginalVTable h) (g_pNewVTable h) (g_strRemoteIP h)
    (g_nPort h) (g_connectedPeer h) (g_stopPumpThread h) (g_originalRead h) data has id
    (g_localSteamID h) (host h)).
Definition set_localSteamID (id : Z) : State → State :=
  upd_hook (λ h, mkHook (g_pObject h) (g_pOriginalVTable h) (g_pNewVTable h) (g_strRemoteIP h)
    (g_nPort h) (g_connectedPeer h) (g_stopPumpThread h) (g_originalRead h) (g_tcpRecvBuffer h)
    (g_hasTcpData h) (g_tcpRecvSteamID h) id (host h)).
Definition set_host (x : S) : State → State :=
  upd_hook (λ h, mkHook (g_pObject h) (g_pOriginalVTable h) (g_pNewVTable h) (g_strRemoteIP h)
    (g_nPort h) (g_connectedPeer h) (g_stopPumpThread h) (g_originalRead h) (g_tcpRecvBuffer h)
    (g_hasTcpData h) (g_tcpRecvSteamID h) (g_localSteamID h) x).

(** A call into the game process, and its memory. *)
Definition hcall {A} (f : S → A * S) : prog State A :=
  λ s, let '(a, x) := f (host (hook s)) in Ret (a, set_host x s).
Definition load (addr : Z) : prog State Z :=
  o ← gets (λ s, host_read (host (hook s)) addr);
  match o with Some v => mret v | None => undef OutOfBounds end.
Definition save (addr v : Z) : prog State unit :=
  o ← gets (λ s, host_write (host (hook s)) addr v);
  match o with Some x => modify (set_host x) | None => undef OutOfBounds end.

(** ** The connection callback *)

Definition ConnectionCallback (id : Z) (connected : bool) (userData : Z) : prog State unit :=
  if connected then
    modify (set_connectedPeer id) ;;
    local ← gets (λ s, g_localSteamID (hook s));
    if negb (local =? 0) then
      P2P_SendPacket id (Some (steamid_bytes local)) STEAMID_SIZE ;; mret tt
    else mret tt
  else
    peer ← gets (λ s, g_connectedPeer (hook s));
    if peer =? id then modify (set_connectedPeer P2P_INVALID_PEER_ID) else mret tt.

(** The one callback of the program, as [P2PNetwork] runs it. *)
Definition user_call (cb : unit) : Z → bool → Z → prog State unit := ConnectionCallback.
#[local] Abbreviation callback := (internalConnectionCallback user_call).

(** ** The three hooks *)

(** The address of a function in the original virtual table. *)
Definition original_fn (index : nat) : prog State Z :=
  table ← gets (λ s, g_pOriginalVTable (hook s));
  load (table + PTR * Z.of_nat index).

(** Lines 217-248 of [Hook_IsP2PPacketAvailable]: take the next packet of
    the library, unless one is waiting to be read. *)
Definition fetch_tcp_packet : prog State unit :=
  has ← gets (λ s, g_hasTcpData (hook s));
  if negb has then
    av ← P2P_IsPacketAvailable P2P_INVALID_PEER_ID;
    match av with
    | None => mret tt
    | Some (size, id) =>
        (* [rawBuffer.data()] is null when [size] is 0 *)
        res ← P2P_ReadPacket id (negb (size =? 0)) size;
        match res with
        | (P2P_OK, Some (raw, _)) =>
            if STEAMID_SIZE <=? Zlen raw
            then modify (set_tcp (drop (Z.to_nat STEAMID_SIZE) raw) true (bytes_steamid raw))
            else mret tt
        | _ => mret tt
        end
    end
  else mret tt.

(** [pcubMsgSize] says that the pointer is not null; with the value left in
    [*pcubMsgSize], when something is written. *)
Definition Hook_IsP2PPacketAvailable (fuel : nat) (thisptr : Z) (pcubMsgSize : bool) (nChannel : Z)
    : prog State (bool * option Z) :=
  fn ← original_fn VTABLE_INDEX_IsP2PPacketAvailable;
  '(originalResult, size) ← hcall (λ x, call_IsP2PPacketAvailable x fn thisptr pcubMsgSize nChannel);
  (if (originalResult : bool) && pcubMsgSize then
     fn ← original_fn VTABLE_INDEX_ReadP2PPacket;
     r ← hcall (λ x, call_ReadP2PPacket x fn thisptr size nChannel);
     modify (set_originalRead r)
   else mret tt) ;;
  P2P_RunCallbacks user_call fuel ;;
  fetch_tcp_packet ;;
  h ← gets hook;
  if g_hasTcpData h then mret (true, if pcubMsgSize then Some (u32 (Zlen (g_tcpRecvBuffer h))) else None)
  else mret (false, if pcubMsgSize then Some size else None).

(** What is copied to [pubDest], of [cubDest] bytes when it is not null,
    the size and the sender; [None] is the result [false]. *)
Definition Hook_ReadP2PPacket (pubDest : bool) (cubDest : Z) : prog State (option (list byte * Z * Z)) :=
  h ← gets hook;
  if g_hasTcpData h then
    let copySize := u32 (Zlen (g_tcpRecvBuffer h)) in
    let copied := take (Z.to_nat copySize) (g_tcpRecvBuffer h) in
    if pubDest && (0 <? copySize) && (cubDest <? copySize) then undef OutOfBounds
    else
    modify (set_tcp [] false 0) ;;
    mret (Some (if pubDest then copied else [], copySize, g_tcpRecvSteamID h))
  else mret None.

Definition Hook_SendP2PPacket (thisptr steamIDRemote : Z) (pubData : option (list byte))
    (cubData eP2PSendType nChannel : Z) : prog State bool :=
  fn ← original_fn VTABLE_INDEX_SendP2PPacket;
  originalResult ← hcall (λ x, call_SendP2PPacket x fn thisptr steamIDRemote pubData 8 eP2PSendType nChannel);
  h ← gets hook;
  let targetPeer := g_connectedPeer h in
  (if negb (targetPeer =? P2P_INVALID_PEER_ID) then
     match send_buffer steamIDRemote (g_localSteamID h) pubData cubData with
     | None => undef OutOfBounds
     | Some buf =>
         P2P_SendPacket targetPeer (Some buf) (u32 (STEAMID_SIZE + STEAMID_SIZE + cubData)) ;; mret tt
     end
   else mret tt) ;;
  mret originalResult.

(** ** Installation *)

Definition GetLocalSteamID : prog State Z :=
  base ← gets (λ s, host_module (host (hook s)));
  if base =? 0 then mret 0
  else
  pSteamUser ← load (base + ISTEAMUSER_OFFSET);
  if pSteamUser =? 0 then mret 0
  else
  vtable ← load pSteamUser;
  if vtable =? 0 then mret 0
  else
  fn ← load (vtable + PTR * Z.of_nat VTABLE_INDEX_GetSteamID);
  hcall (λ x, call_GetSteamID x fn pSteamUser).

(** [memcpy] of [n] words. *)
Fixpoint copy_words (n : nat) (dst src : Z) : prog State unit :=
  match n with
  | O => mret tt
  | Datatypes.S n' => v ← load src; save dst v ;; copy_words n' (dst + PTR) (src + PTR)
  end.

Definition HookVTable : prog State bool :=
  base ← gets (λ s, host_module (host (hook s)));
  if base =? 0 then mret false
  else
  obj ← load (base + VTABLE_OFFSET);
  h ← gets hook;
  modify (set_vtables obj (g_pOriginalVTable h) (g_pNewVTable h)) ;;
  if obj =? 0 then mret false
  else
  orig ← load obj;
  modify (set_vtables obj orig (g_pNewVTable h)) ;;
  if orig =? 0 then mret false
  else
  new ← hcall (λ x, host_new x VTABLE_SIZE);
  modify (set_vtables obj orig new) ;;
  copy_words VTABLE_SIZE new orig ;;
  save (new + PTR * Z.of_nat VTABLE_INDEX_SendP2PPacket) (host_address Hook_Send) ;;
  save (new + PTR * Z.of_nat VTABLE_INDEX_IsP2PPacketAvailable) (host_address Hook_Available) ;;
  save (new + PTR * Z.of_nat VTABLE_INDEX_ReadP2PPacket) (host_address Hook_Read) ;;
  save obj new ;;
  mret true.

Definition UnhookVTable : prog State unit :=
  h ← gets hook;
  if (g_pOriginalVTable h =? 0) || (g_pNewVTable h =? 0) || (g_pObject h =? 0) then mret tt
  else
  save (g_pObject h) (g_pOriginalVTable h) ;;
  hcall (λ x, (tt, host_delete x (g_pNewVTable h))) ;;
  modify (set_vtables 0 (g_pOriginalVTable h) 0).

(** The loop that waits for Steam's object; [Sleep] lets the game run. *)
Fixpoint wait_for_object (fuel : nat) (base : Z) : prog State unit :=
  match fuel with
  | O => out_of_fuel
  | Datatypes.S fuel' =>
      n ← load (base + VTABLE_OFFSET - 4);
      p ← load (base + VTABLE_OFFSET);
      if (0 <? n) && negb (p =? 0) then HookVTable ;; mret tt
      else hcall (λ x, (tt, host_sleep x 1000)) ;; wait_for_object fuel' base
  end.

Definition InjectionThread (fuel : nat) : prog State unit :=
  base ← gets (λ s, host_module (host (hook s)));
  if base =? 0 then mret tt
  else
  wait_for_object fuel base ;;
  local ← GetLocalSteamID;
  modify (set_localSteamID local) ;;
  peer ← gets (λ s, g_connectedPeer (hook s));
  P2P_SendPacket peer (Some (steamid_bytes local)) STEAMID_SIZE ;; mret tt.

(** At most [rounds] rounds of the pump thread; [fuel] is for each
    [P2P_RunCallbacks]. *)
Fixpoint PumpThread (rounds fuel : nat) : prog State unit :=
  match rounds with
  | O => mret tt
  | Datatypes.S rounds' =>
      stop ← gets (λ s, g_stopPumpThread (hook s));
      if (stop : bool) then mret tt
      else
      P2P_RunCallbacks user_call fuel ;;
      hcall (λ x, (tt, host_sleep x 10)) ;;
      PumpThread rounds' fuel
  end.

(** [false] when there is no file. *)
Definition LoadConfig : prog State bool :=
  h ← gets hook;
  match host_config (host h) with
  | None => mret false
  | Some lines =>
      match config_lines (g_strRemoteIP h, g_nPort h) lines with
      | None => undef UncaughtException
      | Some cfg => modify (set_config cfg) ;; mret true
      end
  end.

(** [DllMain], [DLL_PROCESS_ATTACH] *)
Definition process_attach : prog State bool :=
  LoadConfig ;;
  r ← P2P_Init;
  if bool_decide (r ≠ P2P_OK) then mret false
  else
  P2P_SetConnectionCallback (Some tt) 0 ;;
  h ← gets hook;
  '(r, id) ← P2P_Connect user_call (Some (g_strRemoteIP h)) (g_nPort h) true;
  (match id with Some id => modify (set_connectedPeer id) | None => mret tt end) ;;
  (if bool_decide (r ≠ P2P_OK) then mret tt
   else
     peer ← gets (λ s, g_connectedPeer (hook s));
     P2P_SetAutoReconnect peer true 500 (10 * 1000)) ;;
  modify (set_stopPump false) ;;
  hcall (λ x, (tt, host_thread x PumpThreadBody)) ;;
  hcall (λ x, (tt, host_thread x InjectionThreadBody)) ;;
  mret true.

(** [DllMain], [DLL_PROCESS_DETACH]; both thread handles are valid.  Each
    wait is of at most one second: a thread may still be running. *)
Definition process_detach : prog State bool :=
  peer ← gets (λ s, g_connectedPeer (hook s));
  (if negb (peer =? P2P_INVALID_PEER_ID) then
     P2P_SetAutoReconnect peer false 0 0 ;;
     P2P_Disconnect user_call peer ;;
     modify (set_connectedPeer P2P_INVALID_PEER_ID)
   else mret tt) ;;
  modify (set_stopPump true) ;;
  hcall (λ x, (tt, host_join x PumpThreadBody)) ;;
  hcall (λ x, (tt, host_join x InjectionThreadBody)) ;;
  UnhookVTable ;;
  P2P_Shutdown ;;
  mret true.
End hook.
