(* ===== verification/HookHost.v ===== *)
(** * The game process below the hook

    What [hook/hook.cpp] relies on in the process it is loaded into, and
    [ScriptHost], a concrete process for the witnesses. *)

From stdpp Require Import base gmap sets list strings fin_maps.
From Stdlib Require Import ZArith Lia.
From S2P Require Import Prelude Bytes Hook.

(** Memory behaves as memory: what the installation relies on.  Waiting for
    the library's threads changes no word of it: the threads have ended or
    are idle, as they are in every run without the races the model leaves out. *)
Class HostLaws (S : Type) `{Host S} : Prop := {
  write_reads x a v x' b : host_write x a v = Some x' →
    host_read x' b = if decide (b = a) then Some v else host_read x b;
  readable_writable x a v : is_Some (host_read x a) → is_Some (host_write x a v);
  new_array x n p x' : host_new x n = (p, x') →
    p ≠ 0 ∧ (∀ i, 0 ≤ i < Z.of_nat n → host_read x (p + PTR * i) = None ∧ is_Some (host_read x' (p + PTR * i))) ∧
    ∀ b, is_Some (host_read x b) → host_read x' b = host_read x b;
  delete_array x p b v : host_read x b = Some v →
    (∀ i, 0 ≤ i < Z.of_nat VTABLE_SIZE → b ≠ p + PTR * i) → host_read (host_delete x p) b = Some v;
  join_keeps x t b : host_read (host_join x t) b = host_read x b
}.

(** A process whose memory is a finite map.  Its Steam answers that nothing
    is available and that every packet was sent. *)
Module ScriptHost.
Record t : Type := mk { memory : gmap Z Z; base : Z; config : option (list string) }.

Definition upd (m : gmap Z Z) (x : t) : t := mk m (base x) (config x).

Fixpoint alloc (n : nat) (p : Z) (m : gmap Z Z) : gmap Z Z :=
  match n with O => m | S n' => <[p + PTR * Z.of_nat n' := 0]> (alloc n' p m) end.

Fixpoint free (n : nat) (p : Z) (m : gmap Z Z) : gmap Z Z :=
  match n with O => m | S n' => delete (p + PTR * Z.of_nat n') (free n' p m) end.

(** An address above all used ones. *)
Definition top (m : gmap Z Z) : Z := 1 + fold_right Z.max 0 (elements (dom m)).

#[global] Instance script_host : Host t := {
  host_read x a := memory x !! a;
  host_write x a v := match memory x !! a with Some _ => Some (upd (<[a := v]> (memory x)) x) | None => None end;
  host_new x n := (top (memory x), upd (alloc n (top (memory x)) (memory x)) x);
  host_delete x p := upd (free VTABLE_SIZE p (memory x)) x;
  host_module := base;
  host_address fn := match fn with Hook_Send => 11 | Hook_Available => 12 | Hook_Read => 13 end;
  host_sleep x _ := x;
  call_GetSteamID x _ _ := (76561197960265729, x);
  call_IsP2PPacketAvailable x _ _ _ _ := ((false, 0), x);
  call_ReadP2PPacket x _ _ _ _ := ((0, 0), x);
  call_SendP2PPacket x _ _ _ _ _ _ _ := (true, x);
  host_config := config;
  host_thread x _ := x;
  host_join x _ := x
}.

Lemma top_above m a : is_Some (m !! a) → a < top m.
Proof.
  intros Ha%elem_of_dom%elem_of_elements. unfold top.
  induction (elements (dom m)) as [|b l IH]; [by apply elem_of_nil in Ha|].
  apply elem_of_cons in Ha as [->|Ha]; simpl; [lia|]. specialize (IH Ha). lia.
Qed.

Lemma alloc_lookup n p m a :
  (alloc n p m !! a = m !! a ∧ ∀ i, 0 ≤ i < Z.of_nat n → a ≠ p + PTR * i) ∨
  (alloc n p m !! a = Some 0 ∧ ∃ i, 0 ≤ i < Z.of_nat n ∧ a = p + PTR * i).
Proof.
  induction n as [|n IH]; [left; split; [done|lia]|]. cbn [alloc].
  destruct (decide (a = p + PTR * Z.of_nat n)) as [->|Hne].
  { right. rewrite lookup_insert_eq. split; [done|]. exists (Z.of_nat n). lia. }
  rewrite lookup_insert_ne by congruence. destruct IH as [[-> Hout]|[-> (i & Hi & ->)]].
  - left. split; [done|]. intros i Hi. destruct (decide (i = Z.of_nat n)) as [->|]; [done|]. apply Hout. lia.
  - right. split; [done|]. exists i. lia.
Qed.

Lemma free_lookup n p m a :
  (∀ i, 0 ≤ i < Z.of_nat n → a ≠ p + PTR * i) → free n p m !! a = m !! a.
Proof.
  induction n as [|n IH]; intros Hout; [done|]. cbn [free].
  rewrite lookup_delete_ne; [apply IH; intros i Hi; apply Hout; lia|].
  intros Heq. apply (Hout (Z.of_nat n)); [lia|done].
Qed.

#[global] Instance script_host_laws : HostLaws t.
Proof.
  split; simpl.
  - intros x a v x' b. destruct (memory x !! a); intros [= <-]. simpl.
    case_decide as Hab; [subst; apply lookup_insert_eq|by apply lookup_insert_ne].
  - intros x a v [w ->]. eauto.
  - intros x n p x' [= <- <-]. simpl. split_and!.
    + assert (∀ l, 0 ≤ fold_right Z.max 0 l) as Hl by (intros l; induction l; simpl; lia).
      unfold top. specialize (Hl (elements (dom (memory x)))). lia.
    + intros i Hi. split.
      * apply eq_None_not_Some. intros Hs%top_above. unfold PTR in Hs. lia.
      * destruct (alloc_lookup n (top (memory x)) (memory x) (top (memory x) + PTR * i))
          as [[_ Hout]|[-> _]]; [by destruct (Hout i Hi)|eauto].
    + intros b Hb. destruct (alloc_lookup n (top (memory x)) (memory x) b) as [[-> _]|[_ (i & Hi & ->)]]; [done|].
      apply top_above in Hb. unfold PTR in Hb. lia.
  - intros x p b v Hb Hout. change (free VTABLE_SIZE p (memory x) !! b = Some v). by rewrite free_lookup.
  - done.
Qed.

Definition idle : t := mk ∅ 0 None.

(** A process at [0x400000] with Steam's object at 100, its table at 1000. *)
Definition game : t :=
  upd (<[0x400000 + VTABLE_OFFSET := 100]> (<[100 := 1000]> (alloc VTABLE_SIZE 1000 ∅))) (mk ∅ 0x400000 None).
End ScriptHost.
