(* ===== verification/HookConfig.v ===== *)
(** * The hook's configuration file

    The theorems about the parser of [LoadConfig] in [hook/hook.cpp]: it
    reads back what a file in its format says. *)

From stdpp Require Import base list strings pretty.
From Stdlib Require Import ZArith Lia Ascii.
From S2P Require Import Prelude Hook.

(** ** Decimal numbers *)

Lemma is_digit_char d : (d < 10)%N →
  is_digit (pretty_N_char d) = true ∧ char_code (pretty_N_char d) - 48 = Z.of_N d ∧
  is_space (pretty_N_char d) = false ∧ char_code (pretty_N_char d) ≠ 45 ∧ char_code (pretty_N_char d) ≠ 43.
Proof.
  intros Hd. assert (Hall : Forall (λ n, is_digit (pretty_N_char n) = true ∧
    char_code (pretty_N_char n) - 48 = Z.of_N n ∧ is_space (pretty_N_char n) = false ∧
    char_code (pretty_N_char n) ≠ 45 ∧ char_code (pretty_N_char n) ≠ 43) (N.of_nat <$> seq 0 10)).
  { repeat constructor; vm_compute; (reflexivity || discriminate). }
  rewrite Forall_forall in Hall. apply Hall. apply list_elem_of_fmap. exists (N.to_nat d).
  rewrite N2Nat.id, elem_of_seq. lia.
Qed.

(** [digits] continues from the number printed so far. *)
Lemma digits_pretty x : ∀ s, digits (pretty_N_go x s) 0 = digits s (Z.of_N x).
Proof.
  induction x as [x IH] using (well_founded_induction N.lt_wf_0). intros s.
  destruct (decide (x = 0)%N) as [->|Hx]; [by rewrite pretty_N_go_0|].
  rewrite pretty_N_go_step by lia. rewrite IH by (apply N.div_lt; lia). cbn [digits].
  destruct (is_digit_char (x mod 10)) as (-> & -> & _); [by apply N.mod_lt|]. f_equal.
  rewrite (N.div_mod x 10) at 3 by done. lia.
Qed.

Lemma pretty_head x : ∀ c s', ∃ d s, (d < 10)%N ∧ pretty_N_go x (String (pretty_N_char c) s') =
  String (pretty_N_char (if decide (x = 0)%N then c else d)) s.
Proof.
  induction x as [x IH] using (well_founded_induction N.lt_wf_0). intros c s'.
  destruct (decide (x = 0)%N) as [->|Hx]; [exists 0%N, s'; rewrite pretty_N_go_0; done|].
  rewrite pretty_N_go_step by lia.
  destruct (IH (x `div` 10)%N ltac:(apply N.div_lt; lia) (x `mod` 10)%N (String (pretty_N_char c) s'))
    as (d & s & Hd & ->).
  exists (if decide (x `div` 10 = 0)%N then (x `mod` 10)%N else d), s.
  split; [case_decide; [by apply N.mod_lt|done]|done].
Qed.

(** The printed number starts with a digit. *)
Lemma pretty_N_head (x : N) : ∃ d s, (d < 10)%N ∧ pretty x = String (pretty_N_char d) s.
Proof.
  unfold pretty, pretty_N. case_decide as Hx; [by exists 0%N, EmptyString|].
  rewrite pretty_N_go_step by lia. destruct (pretty_head (x `div` 10) (x `mod` 10) "") as (d & s & Hd & ->).
  eexists _, s. split; [|done]. case_decide; [by apply N.mod_lt|done].
Qed.

Lemma stoi_digits_pretty (x : N) : stoi_digits (pretty x) = Some (Z.of_N x).
Proof.
  destruct (pretty_N_head x) as (d & s & Hd & Hp). rewrite Hp. cbn [stoi_digits].
  destruct (is_digit_char d Hd) as (-> & _). rewrite <- Hp. f_equal.
  unfold pretty, pretty_N. case_decide as Hx; [by subst|]. by rewrite digits_pretty.
Qed.

Lemma stoi_pretty (x : N) : (x < 2 ^ 31)%N → stoi (pretty x) = Some (Z.of_N x).
Proof.
  intros Hx. destruct (pretty_N_head x) as (d & s & Hd & Hp). rewrite Hp. cbn [stoi].
  destruct (is_digit_char d Hd) as (_ & _ & -> & H45 & H43).
  rewrite (proj2 (Z.eqb_neq _ 45)), (proj2 (Z.eqb_neq _ 43)) by done.
  rewrite <- Hp, stoi_digits_pretty. cbn [mbind option_bind].
  rewrite (proj2 (Z.leb_le _ _)), (proj2 (Z.ltb_lt _ _)) by lia. done.
Qed.

(** ** Lines *)

Definition cr : ascii := ascii_of_nat 13.

(** No carriage return at the end. *)
Fixpoint plain (s : string) : bool :=
  match s with
  | EmptyString => true
  | String c EmptyString => negb (Ascii.eqb c cr)
  | String _ rest => plain rest
  end.

(** The two ways to end a line. *)
Definition eol (s : string) : Prop := s = EmptyString ∨ s = String cr EmptyString.

Lemma strip_cr_plain s : plain s = true → strip_cr s = s.
Proof.
  induction s as [|c [|c' s] IH]; intros Hp; [done| |].
  - cbn [plain strip_cr] in *. unfold cr in *. by destruct (Ascii.eqb c _).
  - change (strip_cr (String c (String c' s))) with (String c (strip_cr (String c' s))). by rewrite IH.
Qed.

Lemma strip_cr_eol s e : plain s = true → eol e → strip_cr (s +:+ e) = s.
Proof.
  intros Hp [-> | ->].
  - assert (s +:+ EmptyString = s) as ->; [|by apply strip_cr_plain].
    clear Hp. induction s as [|c s IH]; [done|].
    change (String c (s +:+ EmptyString) = String c s). by rewrite IH.
  - clear Hp. induction s as [|c s IH]; [done|].
    change (String c s +:+ String cr "") with (String c (s +:+ String cr "")).
    simpl. destruct (s +:+ String cr "") eqn:Hs; [by destruct s|]. by rewrite IH.
Qed.

Lemma plain_app s t : t ≠ EmptyString → plain (s +:+ t) = plain t.
Proof.
  intros Ht. induction s as [|c s IH]; [done|]. rewrite <- IH.
  change (String c s +:+ t) with (String c (s +:+ t)). simpl.
  destruct (s +:+ t) eqn:Hs; [by destruct s|done].
Qed.

Lemma substring_prefix (s t : string) :
  String.substring (String.length s) (String.length (s +:+ t) - String.length s) (s +:+ t) = t.
Proof.
  assert (∀ u n, (String.length u ≤ n)%nat → String.substring 0 n u = u) as Hall.
  { intros u. induction u as [|c u IH]; intros [|n] Hn; simpl in *; try done; [lia|]. by rewrite IH by lia. }
  induction s as [|c s IH]; [|exact IH]. simpl. rewrite Nat.sub_0_r. by apply Hall.
Qed.

Lemma plain_go x : ∀ s, s ≠ EmptyString → plain (pretty_N_go x s) = plain s.
Proof.
  induction x as [x IH] using (well_founded_induction N.lt_wf_0). intros s Hs.
  destruct (decide (x = 0)%N) as [->|Hx]; [by rewrite pretty_N_go_0|].
  rewrite pretty_N_go_step, IH by (done || lia || (apply N.div_lt; lia)). by destruct s.
Qed.

Lemma plain_pretty (x : N) : plain (pretty x) = true.
Proof.
  unfold pretty, pretty_N. case_decide as Hx; [done|]. rewrite pretty_N_go_step by lia.
  rewrite plain_go by done. assert (is_digit (pretty_N_char (x mod 10)) = true) as Hd.
  { apply is_digit_char. by apply N.mod_lt. }
  cbn [plain]. destruct (Ascii.eqb_spec (pretty_N_char (x mod 10)) cr) as [Heq|]; [|done].
  by rewrite Heq in Hd.
Qed.

(** ** Files *)

(** What the lines of a file can say. *)
Inductive entry : Type :=
  | Blank
  | Comment (mark : ascii) (text : string)
  | Address (ip : string)
  | PortNumber (n : N).

Definition render (en : entry) : string :=
  match en with
  | Blank => EmptyString
  | Comment mark text => String mark text
  | Address ip => "ip=" +:+ ip
  | PortNumber n => "port=" +:+ pretty n
  end.

Definition proper (en : entry) : Prop :=
  match en with
  | Blank => True
  | Comment mark text => (char_code mark = 35 ∨ char_code mark = 59) ∧ plain (String mark text) = true
  | Address ip => plain ip = true
  | PortNumber n => (n < 2 ^ 31)%N
  end.

Definition meaning (en : entry) (cfg : string * Z) : string * Z :=
  match en with
  | Blank | Comment _ _ => cfg
  | Address ip => (ip, cfg.2)
  | PortNumber n => (cfg.1, u16 (Z.of_N n))
  end.

Lemma render_plain en : proper en → plain (render en) = true.
Proof.
  destruct en as [|m t|ip|n]; cbn [proper render]; [done|by intros [_ ?]| |intros _].
  - intros Hip. destruct ip as [|c ip]; [done|]. by rewrite plain_app.
  - rewrite plain_app; [apply plain_pretty|]. by destruct (pretty_N_head n) as (d & s & _ & ->).
Qed.

Lemma prefix_app (s t : string) : String.prefix s (s +:+ t) = true.
Proof.
  apply String.prefix_correct. induction s as [|c s IH]; simpl; [by destruct t|by rewrite IH].
Qed.

Lemma config_line_meaning en e cfg :
  proper en → eol e → config_line cfg (render en +:+ e) = Some (meaning en cfg).
Proof.
  intros Hen He. unfold config_line. rewrite strip_cr_eol by (done || by apply render_plain).
  destruct en as [|m t|ip|n]; cbn [render meaning].
  - done.
  - destruct Hen as [[-> | ->] _]; done.
  - change ("ip=" +:+ ip) with (String "i" ("p=" +:+ ip)) at 1. cbv iota.
    rewrite prefix_app. cbn [negb]. by rewrite (substring_prefix "ip=").
  - change ("port=" +:+ pretty n) with (String "p" ("ort=" +:+ pretty n)) at 1. cbv iota.
    assert (String.prefix "ip=" ("port=" +:+ pretty n) = false) as -> by reflexivity.
    rewrite prefix_app. rewrite (substring_prefix "port="), stoi_pretty by done. done.
Qed.


