(* ===== verification/HookTheorems.v ===== *)
(** * What the Steam hook guarantees

    The theorems about [hook/hook.cpp], and the path of a packet from one
    game through the relay to the other. *)

From stdpp Require Import base gmap sets list strings fin_maps.
From Stdlib Require Import ZArith Lia.
From S2P Require Import Prelude Bytes Framing Packets RelayServer RelayBuffers RelaySpec.
From S2P Require Import WinSock ConnectionManager ManagerInvariant ManagerCalls ManagerTheorems ManagerReconnect P2PNetwork P2PTheorems Hook HookHost.

(** ** The hook's callback suits the connection manager *)

Section callback.
Context {S W : Type} `{HW : WinSock W} `{HO : WinSockObs W} `{HL : !WinSockLaws W} `{HH : Host S}.
#[local] Abbreviation State := (Net (Api unit (Hook S)) W).
Implicit Types (s : State).

(** The manager and the network are not touched. *)
Lemma kept_app (f : Api unit (Hook S) → Api unit (Hook S)) s : wf s → kept s (upd_app f s).
Proof.
  intros Hwf. apply kept_intro.
  - by destruct Hwf.
  - by split; [split|].
  - intros k c Hk. eauto.
  - done.
Qed.

Lemma wp_P2P_SendPacket id d size s :
  wf s → size ≤ Zlen d → wp (P2P_SendPacket id (Some d) size) (λ _ s', kept s s') no_ub s.
Proof.
  intros Hwf Hsize. unfold P2P_SendPacket. wp_step. wp_step.
  wp_step; [wp_step; by apply kept_refl|]. wp_step; [wp_step; by apply kept_refl|].
  wp_step; [wp_step; by apply kept_refl|]. wp_step. eapply wp_conseq; [by apply wp_sendPacket|].
  intros ok s' Hk. wp_step; by wp_step.
Qed.

Lemma wp_ConnectionCallback id connected data s :
  wf s → wp (ConnectionCallback id connected data) (λ _ s', kept s s' ∧
    (connected = false → m_pendingRemove (this s') = m_pendingRemove (this s))) no_ub s.
Proof.
  intros Hwf. unfold ConnectionCallback. destruct connected.
  - wp_step. wp_step. wp_step. wp_step. set (s1 := set_connectedPeer id s).
    assert (kept s s1) as Hk1 by (by apply kept_app).
    wp_step; [|by wp_step]. wp_step.
    eapply wp_conseq; [apply (wp_P2P_SendPacket _ _ _ s1); [apply Hk1|done]|].
    intros r s2 Hk2. wp_step. split; [by eapply kept_trans|done].
  - wp_step. wp_step. wp_step; [|wp_step; split; [by apply kept_refl|done]].
    apply wp_modify. split; [by apply kept_app|done].
Qed.

Lemma hook_callback_ok : callback_ok (internalConnectionCallback (user_call (S := S) (W := W))).
Proof.
  intros id ev s Hwf. unfold internalConnectionCallback. wp_step. wp_step.
  destruct (g_userCallback (app s)) as [cb|].
  2: { wp_step. split_and!; [done..|by destruct ev]. }
  unfold user_call. eapply wp_conseq; [by apply wp_ConnectionCallback|].
  intros [] s' [(Hwf' & Hst & Hss & Hp) Hdis]. split_and!; [done..|].
  destruct ev; [done|by apply Hdis].
Qed.

(** It also leaves the reconnection policies alone. *)
Lemma hook_keeps_policy : keeps_policy (internalConnectionCallback (user_call (S := S) (W := W))).
Proof.
  intros id ev s Hwf. unfold internalConnectionCallback. wp_step. wp_step.
  destruct (g_userCallback (app s)) as [cb|]; [|wp_step; apply policies_refl].
  unfold user_call, ConnectionCallback. destruct ev.
  - unfold P2P_SendPacket. repeat wp_step; try (intros k c Hk; by exists c).
    eapply wp_conseq; [by apply wp_sendPacket_policy|]. intros ok s' Hs'. repeat wp_step; exact Hs'.
  - repeat wp_step; intros k c Hk; by exists c.
Qed.
End callback.


(** ** From game to game *)

Section packets.
Lemma steamid_length id : length (steamid_bytes id) = 8%nat.
Proof. apply le_bytes_length. Qed.

Lemma bytes_steamid_app id l : 0 ≤ id < 2 ^ 64 → bytes_steamid (steamid_bytes id ++ l) = id.
Proof.
  intros Hid. unfold bytes_steamid. rewrite take_app_length' by (by rewrite steamid_length).
  apply (le_val_bytes 8). done.
Qed.

Lemma mark_to_key_steamid m : mark_to_key m = bytes_steamid m.
Proof. done. Qed.

(** The buffer of [Hook_SendP2PPacket]. *)
Lemma send_buffer_layout dst local d :
  Zlen d < 2 ^ 32 - 16 →
  send_buffer dst local (Some d) (Zlen d) = Some (steamid_bytes dst ++ steamid_bytes local ++ d).
Proof.
  intros Hlen. unfold send_buffer, STEAMID_SIZE.
  assert (0 ≤ Zlen d) as Hnn by (unfold Zlen; lia).
  replace (u32 (8 + 8 + Zlen d)) with (16 + Zlen d) by (rewrite u32_small; lia).
  assert (Z.to_nat (16 + Zlen d) = 8 + (8 + length d))%nat as -> by (unfold Zlen; lia).
  pose proof (write_at_app [] (steamid_bytes dst) (replicate 8 x00) (replicate 8 x00 ++ replicate (length d) x00)) as Hw0.
  rewrite !app_nil_l in Hw0. change (length []) with 0%nat in Hw0.
  rewrite !(replicate_add 8), Hw0 by (by rewrite steamid_length, length_replicate). cbn [mbind option_bind].
  pose proof (write_at_app (steamid_bytes dst) (steamid_bytes local) (replicate 8 x00) (replicate (length d) x00)) as Hw.
  rewrite !steamid_length in Hw. rewrite Hw by (by rewrite length_replicate). cbn [mbind option_bind].
  assert (take (Z.to_nat (Zlen d)) d = d) as Ht by (apply take_ge; unfold Zlen; lia).
  destruct (Z.ltb_spec 0 (Zlen d)) as [Hpos|Hz].
  - rewrite Ht, app_assoc. rewrite (write_at_end 16 _ (replicate (length d) x00) d).
    + by rewrite <- app_assoc.
    + by rewrite length_app, !steamid_length.
    + by rewrite length_replicate.
  - destruct d; [done|]. unfold Zlen in Hz. simpl in Hz. lia.
Qed.
End packets.


(** ** The virtual table *)

Section vtable.
Context {S W : Type} `{HW : WinSock W} `{HH : Host S} `{HL : !HostLaws S}.
#[local] Abbreviation State := (Net (Api unit (Hook S)) W).
#[local] Abbreviation mem s := (host (hook s)).
Implicit Types (s : State).

Lemma wp_load a v (Q : Z → State → Prop) E s :
  host_read (mem s) a = Some v → Q v s → wp (load a) Q E s.
Proof. intros Ha HQ. unfold load. wp_step. wp_step. by rewrite Ha. Qed.

Lemma wp_save a v (Q : unit → State → Prop) E s :
  is_Some (host_read (mem s) a) →
  (∀ x, (∀ b, host_read x b = if decide (b = a) then Some v else host_read (mem s) b) →
     Q tt (set_host x s)) → wp (save a v) Q E s.
Proof.
  intros Ha HQ. unfold save. wp_step. wp_step.
  destruct (readable_writable (mem s) a v Ha) as [x Hx]. rewrite Hx. apply wp_modify.
  apply HQ. intros b. by apply write_reads.
Qed.

Lemma mem_set x s : mem (set_host x s) = x.
Proof. done. Qed.

Lemma set_host_twice x y s : set_host y (set_host x s) = set_host y s.
Proof. done. Qed.

Lemma wp_copy_words n dst src (f : Z → Z) s :
  (∀ i, 0 ≤ i < Z.of_nat n → host_read (mem s) (src + PTR * i) = Some (f i)) →
  (∀ i, 0 ≤ i < Z.of_nat n → is_Some (host_read (mem s) (dst + PTR * i))) →
  (∀ i j, 0 ≤ i < Z.of_nat n → 0 ≤ j < Z.of_nat n → src + PTR * i ≠ dst + PTR * j) →
  wp (copy_words n dst src) (λ _ s', ∃ x, s' = set_host x s ∧
    (∀ i, 0 ≤ i < Z.of_nat n → host_read x (dst + PTR * i) = Some (f i)) ∧
    (∀ b, (∀ i, 0 ≤ i < Z.of_nat n → b ≠ dst + PTR * i) → host_read x b = host_read (mem s) b))
    no_ub s.
Proof.
  unfold PTR. revert dst src f s. induction n as [|n IH]; intros dst src f s Hsrc Hdst Hdis; cbn [copy_words].
  { wp_step. exists (mem s). split_and!; [by destruct s as [? [] ?], user|lia|done]. }
  wp_step. eapply wp_load; [rewrite <- (Hsrc 0) by lia; f_equal; lia|].
  wp_step. apply wp_save; [replace dst with (dst + 4 * 0) by lia; apply Hdst; lia|].
  intros x Hx. eapply wp_conseq.
  { apply (IH (dst + PTR) (src + PTR) (λ i, f (i + 1))); unfold PTR; rewrite ?mem_set.
    - intros i Hi. rewrite Hx, decide_False.
      + rewrite <- (Hsrc (i + 1)) by lia. f_equal. lia.
      + intros Heq. apply (Hdis (i + 1) 0); lia.
    - intros i Hi. rewrite Hx. case_decide; [eauto|].
      replace (dst + 4 + 4 * i) with (dst + 4 * (i + 1)) by lia. apply Hdst. lia.
    - intros i j Hi Hj Heq. apply (Hdis (i + 1) (j + 1)); lia. }
  intros [] s' (y & -> & Hcopied & Hrest). rewrite set_host_twice. exists y.
  unfold PTR in *. rewrite mem_set in Hrest. split_and!; [done| |].
  - intros i Hi. destruct (decide (i = 0)) as [->|Hne].
    + rewrite Hrest, Hx, decide_True by lia. f_equal.
    + replace (dst + 4 * i) with (dst + 4 + 4 * (i - 1)) by lia. rewrite Hcopied by lia.
      do 2 f_equal. lia.
  - intros b Hb. rewrite Hrest.
    + rewrite Hx, decide_False; [done|]. intros ->. apply (Hb 0); lia.
    + intros i Hi ->. apply (Hb (i + 1)); lia.
Qed.

(** The table at [orig] with the three entries replaced. *)
Definition hooked_entry (f : Z → Z) (i : Z) : Z :=
  if i =? Z.of_nat VTABLE_INDEX_SendP2PPacket then host_address Hook_Send
  else if i =? Z.of_nat VTABLE_INDEX_IsP2PPacketAvailable then host_address Hook_Available
  else if i =? Z.of_nat VTABLE_INDEX_ReadP2PPacket then host_address Hook_Read
  else f i.

(** Steam's object at [obj] has the virtual table [f] at [orig]. *)
Definition object_at (m : S) (obj orig : Z) (f : Z → Z) : Prop :=
  host_read m (host_module m + VTABLE_OFFSET) = Some obj ∧ host_read m obj = Some orig ∧
  host_module m ≠ 0 ∧ obj ≠ 0 ∧ orig ≠ 0 ∧
  ∀ i, 0 ≤ i < Z.of_nat VTABLE_SIZE → host_read m (orig + PTR * i) = Some (f i).

Definition installed (m : S) (obj : Z) (f : Z → Z) s' : Prop :=
  ∃ new, g_pObject (hook s') = obj ∧ g_pNewVTable (hook s') = new ∧ new ≠ 0 ∧
    host_read (mem s') obj = Some new ∧
    (∀ i, 0 ≤ i < Z.of_nat VTABLE_SIZE → host_read (mem s') (new + PTR * i) = Some (hooked_entry f i)) ∧
    (∀ i, 0 ≤ i < Z.of_nat VTABLE_SIZE → host_read m (new + PTR * i) = None) ∧
    ∀ b v, b ≠ obj → host_read m b = Some v → host_read (mem s') b = Some v.

Lemma wp_HookVTable obj orig f s :
  object_at (mem s) obj orig f →
  wp HookVTable (λ ok s', ok = true ∧ g_pOriginalVTable (hook s') = orig ∧ installed (mem s) obj f s') no_ub s.
Proof.
  intros (Hobj & Horig & Hbase & Hobj0 & Horig0 & Htable). unfold HookVTable.
  wp_step. wp_step. rewrite (proj2 (Z.eqb_neq _ 0)) by done. wp_step. eapply wp_load; [done|].
  wp_step. wp_step. wp_step. wp_step. rewrite (proj2 (Z.eqb_neq _ 0)) by done.
  wp_step. eapply wp_load; [exact Horig|]. wp_step. wp_step. rewrite (proj2 (Z.eqb_neq _ 0)) by done.
  set (s1 := set_vtables obj orig _ _). assert (mem s1 = mem s) as Hm1 by done.
  wp_step. unfold wp, hcall at 1. destruct (host_new (host (hook s1)) VTABLE_SIZE) as [new m2] eqn:Hnew.
  rewrite Hm1 in Hnew. destruct (new_array _ _ _ _ Hnew) as (Hnew0 & Hfresh & Hold).
  change (wp (modify (set_vtables obj orig new) ;;
    copy_words VTABLE_SIZE new orig ;;
    save (new + PTR * Z.of_nat VTABLE_INDEX_SendP2PPacket) (host_address Hook_Send) ;;
    save (new + PTR * Z.of_nat VTABLE_INDEX_IsP2PPacketAvailable) (host_address Hook_Available) ;;
    save (new + PTR * Z.of_nat VTABLE_INDEX_ReadP2PPacket) (host_address Hook_Read) ;;
    save obj new ;; mret true)
    (λ ok s', ok = true ∧ g_pOriginalVTable (hook s') = orig ∧ installed (mem s) obj f s') no_ub
    (set_host m2 s1)).
  set (in_new b := ∃ i, 0 ≤ i < Z.of_nat VTABLE_SIZE ∧ b = new + PTR * i).
  assert (∀ b v, host_read (mem s) b = Some v → ¬ in_new b) as Hout.
  { intros b v Hb (i & Hi & ->). destruct (Hfresh i Hi) as [Hnone _]. congruence. }
  wp_step. wp_step. set (s2 := set_vtables obj orig new (set_host m2 s1)).
  wp_step. eapply wp_conseq.
  { apply (wp_copy_words VTABLE_SIZE new orig f s2).
    - intros i Hi. simpl. rewrite Hold; [by apply Htable|]. rewrite Htable by done. eauto.
    - intros i Hi. simpl. by apply Hfresh.
    - intros i j Hi Hj Heq. apply (Hout (orig + PTR * i) (f i)); [by apply Htable|]. exists j. split; [done|lia]. }
  intros [] s3 (m3 & -> & Hcopied & Hrest).
  assert (∀ b v, host_read (mem s) b = Some v → host_read m3 b = Some v) as Hkeep.
  { intros b v Hb. rewrite Hrest.
    - simpl. rewrite Hold; [done|]. rewrite Hb. eauto.
    - intros i Hi ->. eapply Hout; [done|]. by exists i. }
  assert (∀ i, 0 ≤ i < Z.of_nat VTABLE_SIZE → is_Some (host_read m3 (new + PTR * i))) as Hcells
    by (intros i Hi; rewrite Hcopied by done; eauto).
  wp_step. apply wp_save; [by apply Hcells|]. intros m4 Hm4.
  assert (∀ b, is_Some (host_read m3 b) → is_Some (host_read m4 b)) as H4
    by (intros b Hb; rewrite Hm4; case_decide; eauto).
  wp_step. apply wp_save; [by apply H4, Hcells|]. intros m5 Hm5.
  assert (∀ b, is_Some (host_read m3 b) → is_Some (host_read m5 b)) as H5
    by (intros b Hb; rewrite Hm5; case_decide; [eauto|by apply H4]).
  wp_step. apply wp_save; [by apply H5, Hcells|]. intros m6 Hm6.
  wp_step. apply wp_save.
  { rewrite mem_set, Hm6. case_decide; [eauto|]. apply H5. rewrite (Hkeep obj orig) by done. eauto. }
  intros m7 Hm7. wp_step. rewrite !mem_set in Hm4, Hm5, Hm6, Hm7.
  split_and!; [done|done|]. exists new. rewrite mem_set.
  assert (∀ k, (k < VTABLE_SIZE)%nat → in_new (new + PTR * Z.of_nat k)) as Hin
    by (intros k Hk; exists (Z.of_nat k); split; [lia|done]).
  assert (∀ b, b ≠ obj → ¬ in_new b → host_read m7 b = host_read m3 b) as Hold7.
  { intros b Hb Hn. rewrite Hm7, decide_False by done.
    rewrite Hm6, decide_False by (intros ->; apply Hn, Hin; vm_compute; lia).
    rewrite Hm5, decide_False by (intros ->; apply Hn, Hin; vm_compute; lia).
    rewrite Hm4, decide_False by (intros ->; apply Hn, Hin; vm_compute; lia). done. }
  split_and!; [done|done|done| | | |].
  - by rewrite Hm7, decide_True.
  - intros i Hi. rewrite Hm7, decide_False by (intros Heq; eapply Hout; [exact Horig|]; by exists i).
    rewrite Hm6, Hm5, Hm4. unfold hooked_entry, PTR.
    change (Z.of_nat VTABLE_INDEX_SendP2PPacket) with 0.
    change (Z.of_nat VTABLE_INDEX_IsP2PPacketAvailable) with 1.
    change (Z.of_nat VTABLE_INDEX_ReadP2PPacket) with 2.
    destruct (Z.eqb_spec i 0), (Z.eqb_spec i 1), (Z.eqb_spec i 2); repeat case_decide; try lia;
      first [done|by apply Hcopied].
  - intros i Hi. by apply Hfresh.
  - intros b v Hb Hv. rewrite Hold7; [by apply Hkeep|done|by eapply Hout].
Qed.

Lemma wp_UnhookVTable obj orig f m s :
  object_at m obj orig f → g_pOriginalVTable (hook s) = orig → installed m obj f s →
  wp UnhookVTable (λ _ s', (∀ b v, host_read m b = Some v → host_read (mem s') b = Some v) ∧
    g_pNewVTable (hook s') = 0 ∧ g_pObject (hook s') = 0 ∧
    ∃ x, s' = set_vtables 0 orig 0 (set_host x s)) no_ub s.
Proof.
  intros (Hobj & Horig & Hbase & Hobj0 & Horig0 & Htable) Ho (new & Hpo & Hpn & Hn0 & Hread & _ & Hfresh & Hkeep).
  unfold UnhookVTable. wp_step. wp_step. rewrite Ho, Hpo, Hpn.
  rewrite !(proj2 (Z.eqb_neq _ 0)) by done. simpl orb. cbv iota.
  wp_step. apply wp_save; [rewrite Hread; eauto|]. intros m1 Hm1.
  wp_step. unfold wp, hcall. cbv iota beta.
  split_and!; [|done|done|by eexists]. intros b v Hb. simpl.
  apply delete_array.
  - rewrite Hm1. case_decide; [congruence|]. by apply Hkeep.
  - intros i Hi ->. by rewrite Hfresh in Hb.
Qed.
End vtable.

(** C14. Installing the hook: [HookVTable] succeeds, gives Steam's object a new
    table with the three functions replaced and every other entry unchanged,
    and changes no other memory of the game; [UnhookVTable] then restores all
    of it.  Neither touches memory it must not. *)
Theorem hook_vtable_installed {S W : Type} `{WinSock W} `{HostLaws S} obj orig f
    (s : Net (Api unit (Hook S)) W) :
  object_at (host (hook s)) obj orig f →
  ∃ s1 s2, HookVTable s = Ret (true, s1) ∧ installed (host (hook s)) obj f s1 ∧
    UnhookVTable s1 = Ret (tt, s2) ∧ g_pObject (hook s2) = 0 ∧ g_pNewVTable (hook s2) = 0 ∧
    ∀ b v, host_read (host (hook s)) b = Some v → host_read (host (hook s2)) b = Some v.
Proof.
  intros Hobj. destruct (wp_returns _ _ _ (wp_HookVTable obj orig f s Hobj)) as (ok & s1 & Hrun & -> & Ho & Hins).
  destruct (wp_returns _ _ _ (wp_UnhookVTable obj orig f _ s1 Hobj Ho Hins)) as ([] & s2 & Hrun2 & Hmem & Hn & Hp & _).
  by exists s1, s2.
Qed.

(** ** The game reads *)

Lemma run_bind_inv {St A B} (m : prog St A) (f : A → prog St B) s b s' :
  (m ≫= f) s = Ret (b, s') → ∃ a s1, m s = Ret (a, s1) ∧ f a s1 = Ret (b, s').
Proof. unfold mbind, prog_bind. destruct (m s) as [[a s1]| |]; naive_solver. Qed.

(** C22. [IsP2PPacketAvailable] and [ReadP2PPacket] agree: after the first
    reports a size, the second with a buffer of that size succeeds, delivers
    exactly that many bytes and consumes the packet, so that an immediate
    second read fails; after the first reports none, a read fails. *)
Theorem hook_available_then_read {S W : Type} `{WinSock W} `{Host S} fuel thisptr ch has size
    (s s1 : Net (Api unit (Hook S)) W) :
  Hook_IsP2PPacketAvailable fuel thisptr true ch s = Ret ((has, Some size), s1) →
  if has then ∀ cubDest, size ≤ cubDest →
    ∃ d id s2, Hook_ReadP2PPacket true cubDest s1 = Ret (Some (d, size, id), s2) ∧ Zlen d = size ∧
      (∃ rest, g_tcpRecvBuffer (hook s1) = d ++ rest) ∧ net s2 = net s1 ∧ this s2 = this s1 ∧
      Hook_ReadP2PPacket true cubDest s2 = Ret (None, s2)
  else ∀ cubDest, Hook_ReadP2PPacket true cubDest s1 = Ret (None, s1).
Proof.
  unfold Hook_IsP2PPacketAvailable.
  intros (fn & ? & _ & Hrun)%run_bind_inv. apply run_bind_inv in Hrun as ([r n] & ? & _ & Hrun).
  apply run_bind_inv in Hrun as ([] & ? & _ & Hrun). apply run_bind_inv in Hrun as ([] & ? & _ & Hrun).
  apply run_bind_inv in Hrun as ([] & s0 & _ & Hrun). unfold mbind, prog_bind, gets in Hrun.
  unfold Hook_ReadP2PPacket, mbind, prog_bind, gets.
  destruct (g_hasTcpData (hook s0)) eqn:Hhas; injection Hrun as <- <- <-; rewrite Hhas; [|done].
  set (data := g_tcpRecvBuffer (hook s0)). intros cubDest Hcub.
  rewrite (proj2 (Z.ltb_ge cubDest _)) by done. rewrite andb_false_r.
  eexists _, _, _. split_and!; [reflexivity| | |done|done|reflexivity].
  - pose proof (u32_range (Zlen data)). unfold Zlen at 1. rewrite length_take_le; [lia|].
    assert (u32 (Zlen data) ≤ Zlen data) by (apply Z.mod_le; unfold Zlen; lia). unfold Zlen in *. lia.
  - eexists. symmetry. apply take_drop.
Qed.

Section fetch.
Context {S W : Type} `{HW : WinSock W} `{HO : WinSockObs W} `{HL : !WinSockLaws W} `{HH : Host S}.
Implicit Types (s : Net (Api unit (Hook S)) W).

(** A packet found on any connection is found on its own connection. *)
Lemma available_from s size from :
  wf s → isPacketAvailable P2P_INVALID_PEER_ID s = Ret (Some (size, from), s) →
  isPacketAvailable from s = Ret (Some (size, from), s).
Proof.
  intros Hwf. unfold isPacketAvailable, mbind, prog_bind, gets, mret, prog_ret. simpl.
  destruct (first_with_packet _ _) as [[n k]|] eqn:Hf; [|done]. intros [= -> ->].
  apply first_with_packet_present in Hf as (c & Hc & Hpeek).
  destruct (wf_ids s Hwf from c Hc) as [_ ?].
  rewrite (proj2 (Z.eqb_neq from _)) by (unfold P2P_INVALID_PEER_ID; lia). simpl.
  by rewrite Hc, Hpeek.
Qed.
End fetch.

(** C16. Taking a packet of the library for the game: nothing happens while an
    earlier packet has not been read, or when no packet is queued; otherwise
    exactly one packet leaves the front of its queue, and the hook holds its
    data without the eight bytes of the sender, whose SteamID they are.  A
    packet shorter than a SteamID is dropped. *)
Theorem hook_fetch_packet {S W : Type} `{WinSockLaws W} `{Host S} (s : Net (Api unit (Hook S)) W) :
  wf s → ready s = true →
  (∀ k c p, connections s !! k = Some c → p ∈ PacketQueue.m_queue (receiveQueue c) → 0 < Packet.size p) →
  if g_hasTcpData (hook s) then fetch_tcp_packet s = Ret (tt, s)
  else match isPacketAvailable P2P_INVALID_PEER_ID s with
  | Ret (Some (size, from), _) =>
      ∃ c p rest s', connections s !! from = Some c ∧ PacketQueue.m_queue (receiveQueue c) = p :: rest ∧
        fetch_tcp_packet s = Ret (tt, s') ∧
        connections s' = <[from := with_input (PacketQueue.mk rest) (recvBuffer c) c]> (connections s) ∧
        (if STEAMID_SIZE <=? Zlen (Packet.data p)
         then g_hasTcpData (hook s') = true ∧ g_tcpRecvBuffer (hook s') = drop 8 (Packet.data p) ∧
              g_tcpRecvSteamID (hook s') = bytes_steamid (Packet.data p)
         else g_hasTcpData (hook s') = false)
  | _ => fetch_tcp_packet s = Ret (tt, s)
  end.
Proof.
  intros Hwf Hready Hpos. unfold fetch_tcp_packet, P2P_IsPacketAvailable.
  destruct (g_hasTcpData (hook s)) eqn:Hhas.
  { unfold mbind, prog_bind, gets. by rewrite Hhas. }
  destruct (isPacketAvailable_query P2P_INVALID_PEER_ID s) as [r Hav]. rewrite Hav.
  erewrite run_bind by reflexivity. rewrite Hhas. cbn [negb].
  erewrite run_bind by (rewrite run_ready, Hready; exact Hav). destruct r as [[size from]|]; [|done].
  pose proof (available_from s size from Hwf Hav) as Hfrom.
  assert (0 < size) as Hsize.
  { destruct (available_read s P2P_INVALID_PEER_ID size from (Z.max 1 size) Hav)
      as (c & p & rest & _ & Hc & Hq & <- & _); [lia..|]. apply (Hpos from c); [done|].
    rewrite Hq. apply list_elem_of_here. }
  destruct (available_read s from size from size Hfrom) as (c & p & rest & s1 & Hc & Hq & _ & Hrun & Hconns & _ & Happ);
    [lia..|].
  assert (P2P_ReadPacket from (negb (size =? 0)) size s = Ret ((P2P_OK, Some (Packet.data p, from)), s1)) as Hread.
  { unfold P2P_ReadPacket. rewrite run_ready, Hready. rewrite (proj2 (Z.eqb_neq size 0)) by lia. simpl.
    erewrite run_bind by exact Hfrom. cbv beta iota. rewrite Z.ltb_irrefl.
    by erewrite run_bind by exact Hrun. }
  exists c, p, rest. erewrite run_bind by exact Hread. cbv beta iota.
  destruct (STEAMID_SIZE <=? Zlen (Packet.data p)); eexists; (split_and!; [done|done|reflexivity|done|..]);
    try done.
  unfold hook. by rewrite Happ.
Qed.

(** ** The game sends *)


(** ** Unloading *)

(** What the manager's methods leave alone, whatever they return: a relation
    between the program's state before and after. *)
Section frame.
Context {U W : Type} `{HW : WinSock W}.
Context (R : relation U) `{!PreOrder R}.

Definition frames_app {A} (m : prog (Net U W) A) : Prop :=
  ∀ s a s', m s = Ret (a, s') → R (app s) (app s').

Lemma frames_bind {A B} (m : prog (Net U W) A) (f : A → prog (Net U W) B) :
  frames_app m → (∀ a, frames_app (f a)) → frames_app (m ≫= f).
Proof. intros Hm Hf s b s' (a & s1 & H1 & H2)%run_bind_inv. etrans; [by eapply Hm|by eapply Hf]. Qed.

Lemma frames_ret {A} (a : A) : frames_app (mret a).
Proof. by intros s b s' [= <- <-]. Qed.

Lemma frames_gets {A} (f : Net U W → A) : frames_app (gets f).
Proof. by intros s b s' [= <- <-]. Qed.

Lemma frames_undef {A} u : frames_app (undef u : prog (Net U W) A).
Proof. by intros s b s'. Qed.

Lemma frames_modify f : (∀ s, R (app s) (app (f s))) → frames_app (modify f).
Proof. by intros Hf s b s' [= <- <-]. Qed.

Lemma wp_frames {A} (m : prog (Net U W) A) (Q : A → Net U W → Prop) E s :
  frames_app m → wp m Q E s → wp m (λ a s', Q a s' ∧ R (app s) (app s')) E s.
Proof. intros Hf. unfold wp. destruct (m s) as [[a s']| |] eqn:Hm; [|done..]. split; [done|by eapply Hf]. Qed.

Lemma frames_wcall {A} (f : W → A * W) : frames_app (wcall f).
Proof. intros s b s'. unfold wcall. destruct (f (net s)). by intros [= <- <-]. Qed.
End frame.

(** The part of the program's state that unhooking reads. *)
Definition same_install {S} (a a' : Api unit (Hook S)) : Prop :=
  g_manager a' = g_manager a ∧ g_pObject (user a') = g_pObject (user a) ∧
  g_pOriginalVTable (user a') = g_pOriginalVTable (user a) ∧
  g_pNewVTable (user a') = g_pNewVTable (user a) ∧ host (user a') = host (user a).

#[export] Instance same_install_preorder {S} : PreOrder (same_install (S := S)).
Proof. split; [by intros a|]. intros a b c (? & ? & ? & ? & ?) (? & ? & ? & ? & ?). split_and!; congruence. Qed.

Ltac frame_step :=
  lazymatch goal with
  | |- frames_app _ (mbind _ _) => apply frames_bind; [apply _| |intros ?]
  | |- frames_app _ (mret _) => apply frames_ret, _
  | |- frames_app _ (gets _) => apply frames_gets, _
  | |- frames_app _ (undef _) => apply frames_undef
  | |- frames_app _ (wcall _) => apply frames_wcall, _
  | |- frames_app _ (modify _) => apply frames_modify; intros ?; by split_and!
  | |- frames_app _ (if ?b then _ else _) => destruct b
  | |- frames_app _ (match ?x with _ => _ end) => destruct x
  | |- frames_app _ ?m => let f := get_head m in unfold f
  end.

Section detach.
Context {S W : Type} `{HW : WinSock W} `{HO : WinSockObs W} `{HL : !WinSockLaws W}.
Context `{HH : Host S} `{HM : !HostLaws S}.
#[local] Abbreviation State := (Net (Api unit (Hook S)) W).
Implicit Types (s : State).

Lemma frames_setAutoReconnect id enable base max :
  frames_app same_install (P2P_SetAutoReconnect id enable base max : prog State unit).
Proof. repeat frame_step. Qed.

Lemma frames_Disconnect id :
  frames_app same_install (P2P_Disconnect user_call id : prog State unit).
Proof. repeat frame_step. Qed.

Lemma installed_same m obj f s s' :
  same_install (app s) (app s') → installed m obj f s → installed m obj f s'.
Proof.
  unfold installed, hook. intros (_ & Ho & _ & Hn & Hh) (new & ?). exists new. by rewrite Ho, Hn, Hh.
Qed.

(** The library still runs, and the installation is as before. *)
Definition undisturbed s s' : Prop :=
  wf s' ∧ m_initialized (this s') = m_initialized (this s) ∧ same_install (app s) (app s').

Lemma wp_leave_relay id s :
  wf s → wp (P2P_SetAutoReconnect id false 0 0 ;; P2P_Disconnect user_call id ;;
    modify (set_connectedPeer P2P_INVALID_PEER_ID))
    (λ _ s', undisturbed s s' ∧ g_connectedPeer (hook s') = P2P_INVALID_PEER_ID) no_ub s.
Proof.
  intros Hwf. wp_step. eapply wp_conseq; [apply (wp_frames same_install _ (λ _ s1, kept s s1)); [apply frames_setAutoReconnect|]|].
  { unfold P2P_SetAutoReconnect. wp_step. wp_step. wp_step; [wp_step; by apply kept_refl|].
    by apply wp_setAutoReconnect. }
  intros [] s1 [(Hwf1 & [Hf1 _] & _) Hi1]. wp_step.
  eapply wp_conseq; [apply (wp_frames same_install _ (λ _ s2, wf s2 ∧ flow s1 s2)); [apply frames_Disconnect|]|].
  { unfold P2P_Disconnect. wp_step. wp_step.
    wp_step; [|by wp_step]. eapply wp_conseq; [by apply (wp_disconnect _ hook_callback_ok)|].
    by intros [] s2 (? & (? & _) & _). }
  intros [] s2 [[Hwf2 Hf2] Hi2]. apply wp_modify. split; [|done]. split_and!.
  - by destruct Hwf2.
  - simpl. by rewrite (fl_init _ _ Hf2), (fl_init _ _ Hf1).
  - etrans; [done|]. etrans; [done|]. by split_and!.
Qed.
End detach.

