(* ===== verification/HookRuns.v ===== *)
(** * Runs of the hook

    The theorems of [HookTheorems] at concrete states: the library on
    [ScriptNet] inside the process of [ScriptHost]. *)

From stdpp Require Import base gmap sets list strings fin_maps.
From Stdlib Require Import ZArith Lia.
From S2P Require Import Prelude Bytes Framing Packets RelayServer RelaySpec WinSock ConnectionManager ManagerInvariant.
From S2P Require Import ManagerTheorems P2PNetwork Hook HookHost HookTheorems.

(** The globals of the hook after the connection, before the injection. *)
Definition ready_hook (x : ScriptHost.t) : Hook ScriptHost.t :=
  mkHook 0 0 0 "127.0.0.1" 27015 1 false (0, 0) [] false 0 76561197960265729 x.

(** The manager of a sample run below the hook. *)
Definition in_game (h : Hook ScriptHost.t) (s : Net unit ScriptNet.t)
    : Net (Api unit (Hook ScriptHost.t)) ScriptNet.t :=
  mkNet (this s) (mkApi true (Some tt) 0 h) (net s).

Lemma in_game_wf h s : wf s → wf (in_game h s).
Proof. intros [? ? ? ? ? ? ? ?]. by split. Qed.

Definition quiet_game : Net (Api unit (Hook ScriptHost.t)) ScriptNet.t :=
  in_game (ready_hook ScriptHost.game) (Sample.joined (Sample.network ∅ ∅ [true] [])).

Lemma quiet_game_wf : wf quiet_game.
Proof. apply in_game_wf, Sample.joined_wf. reflexivity. Qed.


(** Two registered peers of the relay. *)
Definition two_games : gmap Z peer :=
  <[5 := mkPeer (Some 11) [] []]> {[6 := mkPeer (Some 22) [] []]}.

Lemma two_games_inv : relay_inv two_games.
Proof.
  split; [|vm_compute; discriminate].
  intros r r' k (p & Hp & Hk) (p' & Hp' & Hk'). unfold two_games in *.
  rewrite lookup_insert_Some, lookup_singleton_Some in Hp, Hp'. naive_solver.
Qed.


Lemma game_object : object_at ScriptHost.game 100 1000 (λ _, 0).
Proof.
  split_and!; [vm_compute; reflexivity|vm_compute; reflexivity|discriminate..|].
  intros i Hi. assert (∃ n : nat, (n < VTABLE_SIZE)%nat ∧ i = Z.of_nat n) as (n & Hn & ->).
  { exists (Z.to_nat i). lia. }
  assert (Forall (λ n, host_read ScriptHost.game (1000 + PTR * Z.of_nat n) = Some 0) (seq 0 VTABLE_SIZE)) as Hall.
  { vm_compute. repeat constructor. }
  rewrite Forall_forall in Hall. apply Hall. apply elem_of_seq. lia.
Qed.

Lemma hook_vtable_installed_witness :
  ∃ s1 s2, HookVTable quiet_game = Ret (true, s1) ∧ UnhookVTable s1 = Ret (tt, s2) ∧
    host_read (host (hook s2)) 100 = Some 1000.
Proof.
  destruct (hook_vtable_installed 100 1000 (λ _, 0) quiet_game) as (s1 & s2 & H1 & _ & H2 & _ & _ & Hmem).
  - exact game_object.
  - exists s1, s2. split_and!; [exact H1|exact H2|]. apply Hmem. vm_compute. reflexivity.
Defined.

(** The hook installed in the game. *)
Definition hooked_game : Net (Api unit (Hook ScriptHost.t)) ScriptNet.t :=
  match HookVTable quiet_game with Ret (_, s) => s | _ => quiet_game end.

(** A packet of the relay is on its way: the sender 11 and two bytes. *)
Definition incoming_game : Net (Api unit (Hook ScriptHost.t)) ScriptNet.t :=
  in_game (hook hooked_game) (Sample.joined
    (Sample.network {[100 := [Some (frame (steamid_bytes 11 ++ [x07; x08]))]]} ∅ [true] [])).

Definition polled_game : Net (Api unit (Hook ScriptHost.t)) ScriptNet.t :=
  match Hook_IsP2PPacketAvailable 20 100 true 0 incoming_game with Ret (_, s) => s | _ => incoming_game end.

Lemma hook_available_then_read_witness :
  ∃ d id s2, Hook_ReadP2PPacket true 64 polled_game = Ret (Some (d, 2, id), s2) ∧ Zlen d = 2.
Proof.
  assert (Hook_IsP2PPacketAvailable 20 100 true 0 incoming_game = Ret ((true, Some 2), polled_game)) as Hav.
  { vm_compute. reflexivity. }
  destruct (hook_available_then_read 20 100 0 true 2 incoming_game polled_game Hav 64)
    as (d & id & s2 & Hrun & Hd & _); [lia|]. exists d, id, s2. split; [exact Hrun|exact Hd].
Defined.

(** The packet has been received and queued. *)
Definition queued_game : Net (Api unit (Hook ScriptHost.t)) ScriptNet.t :=
  in_game (hook hooked_game) (Sample.state (processRead 30 1 (Sample.joined
    (Sample.network {[100 := [Some (frame (steamid_bytes 11 ++ [x07; x08]))]]} ∅ [true] [])))).

Lemma queued_game_wf : wf queued_game.
Proof.
  set (w := Sample.network {[100 := [Some (frame (steamid_bytes 11 ++ [x07; x08]))]]} ∅ [true] []).
  assert (wf (Sample.joined w)) as Hwf by (apply Sample.joined_wf; reflexivity).
  assert (connections (Sample.joined w) !! 1 = Some (Sample.conn 1 (Sample.joined w))) as Hc.
  { apply Sample.conn_lookup. vm_compute. reflexivity. }
  pose proof (wp_processRead 30 1 _ 100 _ Hwf Hc) as Hwp.
  apply in_game_wf. fold w. unfold wp in Hwp.
  destruct (processRead 30 1 (Sample.joined w)) as [[[] s]| |]; simpl.
  - apply Hwp; [vm_compute; reflexivity|vm_compute; lia].
  - by apply Sample.start_wf.
  - by apply Sample.start_wf.
Qed.

Lemma hook_fetch_packet_witness :
  ∃ s', fetch_tcp_packet queued_game = Ret (tt, s') ∧ g_hasTcpData (hook s') = true ∧
    g_tcpRecvBuffer (hook s') = [x07; x08] ∧ g_tcpRecvSteamID (hook s') = 11.
Proof.
  pose proof (hook_fetch_packet queued_game) as Hfetch.
  assert (g_hasTcpData (hook queued_game) = false) as Hhas by (vm_compute; reflexivity).
  assert (isPacketAvailable P2P_INVALID_PEER_ID queued_game = Ret (Some (10, 1), queued_game)) as Hav
    by (vm_compute; reflexivity).
  rewrite Hhas, Hav in Hfetch. destruct Hfetch as (c & p & rest & s' & Hc & Hq & Hrun & _ & Hres).
  - exact queued_game_wf.
  - vm_compute. reflexivity.
  - assert (map_Forall (λ _ c, Forall (λ p, 0 < Packet.size p) (PacketQueue.m_queue (receiveQueue c)))
      (connections queued_game)) as Hall.
    { refine (proj1 (bool_decide_eq_true (map_Forall _ _)) _). vm_compute. reflexivity. }
    intros k c p Hc Hp. specialize (Hall k c Hc). rewrite Forall_forall in Hall. exact (Hall p Hp).
  - assert (p = Packet.mk (steamid_bytes 11 ++ [x07; x08])) as ->.
    { assert (match connections queued_game !! 1 with Some c => PacketQueue.m_queue (receiveQueue c) | None => [] end
              = [Packet.mk (steamid_bytes 11 ++ [x07; x08])]) as Hq' by (vm_compute; reflexivity).
      rewrite Hc, Hq in Hq'. by injection Hq'. }
    exists s'. split; [exact Hrun|]. exact Hres.
Defined.


