(* ===== verification/Winmm.v ===== *)
(** * The proxy of winmm.dll

    [winmm/winmm.cpp] and its export list [winmm/x86.def]: a library with the
    name of a system library that forwards every export to the original and
    loads the hook into the game.  The lists below are those of the source,
    in its order; the loader of the system is the class [Loader]. *)

From stdpp Require Import base gmap list strings.
From Stdlib Require Import ZArith Lia Ascii.
From S2P Require Import Prelude.

(** The pointers of [struct winmm_dll], first half. *)
Definition fields_1 : list string := [
  "CloseDriver"; "DefDriverProc"; "DriverCallback"; "DrvGetModuleHandle"; "GetDriverModuleHandle";
  "NotifyCallbackData"; "OpenDriver"; "PlaySound"; "PlaySoundA"; "PlaySoundW"; "SendDriverMessage";
  "WOW32DriverCallback"; "WOW32ResolveMultiMediaHandle"; "WOWAppExit"; "aux32Message"; "auxGetDevCapsA";
  "auxGetDevCapsW"; "auxGetNumDevs"; "auxGetVolume"; "auxOutMessage"; "auxSetVolume"; "joy32Message";
  "joyConfigChanged"; "joyGetDevCapsA"; "joyGetDevCapsW"; "joyGetNumDevs"; "joyGetPos"; "joyGetPosEx";
  "joyGetThreshold"; "joyReleaseCapture"; "joySetCapture"; "joySetThreshold"; "mci32Message";
  "mciDriverNotify"; "mciDriverYield"; "mciExecute"; "mciFreeCommandResource"; "mciGetCreatorTask";
  "mciGetDeviceIDA"; "mciGetDeviceIDFromElementIDA"; "mciGetDeviceIDFromElementIDW"; "mciGetDeviceIDW";
  "mciGetDriverData"; "mciGetErrorStringA"; "mciGetErrorStringW"; "mciGetYieldProc";
  "mciLoadCommandResource"; "mciSendCommandA"; "mciSendCommandW"; "mciSendStringA"; "mciSendStringW";
  "mciSetDriverData"; "mciSetYieldProc"; "mid32Message"; "midiConnect"; "midiDisconnect"; "midiInAddBuffer";
  "midiInClose"; "midiInGetDevCapsA"; "midiInGetDevCapsW"; "midiInGetErrorTextA"; "midiInGetErrorTextW";
  "midiInGetID"; "midiInGetNumDevs"; "midiInMessage"; "midiInOpen"; "midiInPrepareHeader"; "midiInReset";
  "midiInStart"; "midiInStop"; "midiInUnprepareHeader"; "midiOutCacheDrumPatches"; "midiOutCachePatches";
  "midiOutClose"; "midiOutGetDevCapsA"; "midiOutGetDevCapsW"; "midiOutGetErrorTextA";
  "midiOutGetErrorTextW"; "midiOutGetID"; "midiOutGetNumDevs"; "midiOutGetVolume"; "midiOutLongMsg";
  "midiOutMessage"; "midiOutOpen"; "midiOutPrepareHeader"; "midiOutReset"; "midiOutSetVolume";
  "midiOutShortMsg"; "midiOutUnprepareHeader"; "midiStreamClose"; "midiStreamOpen"; "midiStreamOut";
  "midiStreamPause"; "midiStreamPosition"; "midiStreamProperty"; "midiStreamRestart"; "midiStreamStop"
]%string.

(** The pointers of [struct winmm_dll], second half. *)
Definition fields_2 : list string := [
  "mixerClose"; "mixerGetControlDetailsA"; "mixerGetControlDetailsW"; "mixerGetDevCapsA";
  "mixerGetDevCapsW"; "mixerGetID"; "mixerGetLineControlsA"; "mixerGetLineControlsW"; "mixerGetLineInfoA";
  "mixerGetLineInfoW"; "mixerGetNumDevs"; "mixerMessage"; "mixerOpen"; "mixerSetControlDetails";
  "mmDrvInstall"; "mmGetCurrentTask"; "mmTaskBlock"; "mmTaskCreate"; "mmTaskSignal"; "mmTaskYield";
  "mmioAdvance"; "mmioAscend"; "mmioClose"; "mmioCreateChunk"; "mmioDescend"; "mmioFlush"; "mmioGetInfo";
  "mmioInstallIOProcA"; "mmioInstallIOProcW"; "mmioOpenA"; "mmioOpenW"; "mmioRead"; "mmioRenameA";
  "mmioRenameW"; "mmioSeek"; "mmioSendMessage"; "mmioSetBuffer"; "mmioSetInfo"; "mmioStringToFOURCCA";
  "mmioStringToFOURCCW"; "mmioWrite"; "mmsystemGetVersion"; "mod32Message"; "mxd32Message"; "sndPlaySoundA";
  "sndPlaySoundW"; "tid32Message"; "timeBeginPeriod"; "timeEndPeriod"; "timeGetDevCaps";
  "timeGetSystemTime"; "timeGetTime"; "timeKillEvent"; "timeSetEvent"; "waveInAddBuffer"; "waveInClose";
  "waveInGetDevCapsA"; "waveInGetDevCapsW"; "waveInGetErrorTextA"; "waveInGetErrorTextW"; "waveInGetID";
  "waveInGetNumDevs"; "waveInGetPosition"; "waveInMessage"; "waveInOpen"; "waveInPrepareHeader";
  "waveInReset"; "waveInStart"; "waveInStop"; "waveInUnprepareHeader"; "waveOutBreakLoop"; "waveOutClose";
  "waveOutGetDevCapsA"; "waveOutGetDevCapsW"; "waveOutGetErrorTextA"; "waveOutGetErrorTextW";
  "waveOutGetID"; "waveOutGetNumDevs"; "waveOutGetPitch"; "waveOutGetPlaybackRate"; "waveOutGetPosition";
  "waveOutGetVolume"; "waveOutMessage"; "waveOutOpen"; "waveOutPause"; "waveOutPrepareHeader";
  "waveOutReset"; "waveOutRestart"; "waveOutSetPitch"; "waveOutSetPlaybackRate"; "waveOutSetVolume";
  "waveOutUnprepareHeader"; "waveOutWrite"; "wid32Message"; "wod32Message"
]%string.

(** The assignments of [LoadOriginalLibrary]: the pointer and the function asked for, first half. *)
Definition loads_1 : list (string * string) := [
  ("CloseDriver", "CloseDriver"); ("DefDriverProc", "DefDriverProc"); ("DriverCallback", "DriverCallback");
  ("DrvGetModuleHandle", "DrvGetModuleHandle"); ("GetDriverModuleHandle", "GetDriverModuleHandle");
  ("NotifyCallbackData", "NotifyCallbackData"); ("OpenDriver", "OpenDriver"); ("PlaySound", "PlaySound");
  ("PlaySoundA", "PlaySoundA"); ("PlaySoundW", "PlaySoundW"); ("SendDriverMessage", "SendDriverMessage");
  ("WOW32DriverCallback", "WOW32DriverCallback");
  ("WOW32ResolveMultiMediaHandle", "WOW32ResolveMultiMediaHandle"); ("WOWAppExit", "WOWAppExit");
  ("aux32Message", "aux32Message"); ("auxGetDevCapsA", "auxGetDevCapsA");
  ("auxGetDevCapsW", "auxGetDevCapsW"); ("auxGetNumDevs", "auxGetNumDevs");
  ("auxGetVolume", "auxGetVolume"); ("auxOutMessage", "auxOutMessage"); ("auxSetVolume", "auxSetVolume");
  ("joy32Message", "joy32Message"); ("joyConfigChanged", "joyConfigChanged");
  ("joyGetDevCapsA", "joyGetDevCapsA"); ("joyGetDevCapsW", "joyGetDevCapsW");
  ("joyGetNumDevs", "joyGetNumDevs"); ("joyGetPos", "joyGetPos"); ("joyGetPosEx", "joyGetPosEx");
  ("joyGetThreshold", "joyGetThreshold"); ("joyReleaseCapture", "joyReleaseCapture");
  ("joySetCapture", "joySetCapture"); ("joySetThreshold", "joySetThreshold");
  ("mci32Message", "mci32Message"); ("mciDriverNotify", "mciDriverNotify");
  ("mciDriverYield", "mciDriverYield"); ("mciExecute", "mciExecute");
  ("mciFreeCommandResource", "mciFreeCommandResource"); ("mciGetCreatorTask", "mciGetCreatorTask");
  ("mciGetDeviceIDA", "mciGetDeviceIDA"); ("mciGetDeviceIDFromElementIDA", "mciGetDeviceIDFromElementIDA");
  ("mciGetDeviceIDFromElementIDW", "mciGetDeviceIDFromElementIDW"); ("mciGetDeviceIDW", "mciGetDeviceIDW");
  ("mciGetDriverData", "mciGetDriverData"); ("mciGetErrorStringA", "mciGetErrorStringA");
  ("mciGetErrorStringW", "mciGetErrorStringW"); ("mciGetYieldProc", "mciGetYieldProc");
  ("mciLoadCommandResource", "mciLoadCommandResource"); ("mciSendCommandA", "mciSendCommandA");
  ("mciSendCommandW", "mciSendCommandW"); ("mciSendStringA", "mciSendStringA");
  ("mciSendStringW", "mciSendStringW"); ("mciSetDriverData", "mciSetDriverData");
  ("mciSetYieldProc", "mciSetYieldProc"); ("mid32Message", "mid32Message"); ("midiConnect", "midiConnect");
  ("midiDisconnect", "midiDisconnect"); ("midiInAddBuffer", "midiInAddBuffer");
  ("midiInClose", "midiInClose"); ("midiInGetDevCapsA", "midiInGetDevCapsA");
  ("midiInGetDevCapsW", "midiInGetDevCapsW"); ("midiInGetErrorTextA", "midiInGetErrorTextA");
  ("midiInGetErrorTextW", "midiInGetErrorTextW"); ("midiInGetID", "midiInGetID");
  ("midiInGetNumDevs", "midiInGetNumDevs"); ("midiInMessage", "midiInMessage");
  ("midiInOpen", "midiInOpen"); ("midiInPrepareHeader", "midiInPrepareHeader");
  ("midiInReset", "midiInReset"); ("midiInStart", "midiInStart"); ("midiInStop", "midiInStop");
  ("midiInUnprepareHeader", "midiInUnprepareHeader");
  ("midiOutCacheDrumPatches", "midiOutCacheDrumPatches"); ("midiOutCachePatches", "midiOutCachePatches");
  ("midiOutClose", "midiOutClose"); ("midiOutGetDevCapsA", "midiOutGetDevCapsA");
  ("midiOutGetDevCapsW", "midiOutGetDevCapsW"); ("midiOutGetErrorTextA", "midiOutGetErrorTextA");
  ("midiOutGetErrorTextW", "midiOutGetErrorTextW"); ("midiOutGetID", "midiOutGetID");
  ("midiOutGetNumDevs", "midiOutGetNumDevs"); ("midiOutGetVolume", "midiOutGetVolume");
  ("midiOutLongMsg", "midiOutLongMsg"); ("midiOutMessage", "midiOutMessage");
  ("midiOutOpen", "midiOutOpen"); ("midiOutPrepareHeader", "midiOutPrepareHeader");
  ("midiOutReset", "midiOutReset"); ("midiOutSetVolume", "midiOutSetVolume");
  ("midiOutShortMsg", "midiOutShortMsg"); ("midiOutUnprepareHeader", "midiOutUnprepareHeader");
  ("midiStreamClose", "midiStreamClose"); ("midiStreamOpen", "midiStreamOpen");
  ("midiStreamOut", "midiStreamOut"); ("midiStreamPause", "midiStreamPause");
  ("midiStreamPosition", "midiStreamPosition"); ("midiStreamProperty", "midiStreamProperty");
  ("midiStreamRestart", "midiStreamRestart"); ("midiStreamStop", "midiStreamStop")
]%string.

(** The assignments of [LoadOriginalLibrary]: the pointer and the function asked for, second half. *)
Definition loads_2 : list (string * string) := [
  ("mixerClose", "mixerClose"); ("mixerGetControlDetailsA", "mixerGetControlDetailsA");
  ("mixerGetControlDetailsW", "mixerGetControlDetailsW"); ("mixerGetDevCapsA", "mixerGetDevCapsA");
  ("mixerGetDevCapsW", "mixerGetDevCapsW"); ("mixerGetID", "mixerGetID");
  ("mixerGetLineControlsA", "mixerGetLineControlsA"); ("mixerGetLineControlsW", "mixerGetLineControlsW");
  ("mixerGetLineInfoA", "mixerGetLineInfoA"); ("mixerGetLineInfoW", "mixerGetLineInfoW");
  ("mixerGetNumDevs", "mixerGetNumDevs"); ("mixerMessage", "mixerMessage"); ("mixerOpen", "mixerOpen");
  ("mixerSetControlDetails", "mixerSetControlDetails"); ("mmDrvInstall", "mmDrvInstall");
  ("mmGetCurrentTask", "mmGetCurrentTask"); ("mmTaskBlock", "mmTaskBlock");
  ("mmTaskCreate", "mmTaskCreate"); ("mmTaskSignal", "mmTaskSignal"); ("mmTaskYield", "mmTaskYield");
  ("mmioAdvance", "mmioAdvance"); ("mmioAscend", "mmioAscend"); ("mmioClose", "mmioClose");
  ("mmioCreateChunk", "mmioCreateChunk"); ("mmioDescend", "mmioDescend"); ("mmioFlush", "mmioFlush");
  ("mmioGetInfo", "mmioGetInfo"); ("mmioInstallIOProcA", "mmioInstallIOProcA");
  ("mmioInstallIOProcW", "mmioInstallIOProcW"); ("mmioOpenA", "mmioOpenA"); ("mmioOpenW", "mmioOpenW");
  ("mmioRead", "mmioRead"); ("mmioRenameA", "mmioRenameA"); ("mmioRenameW", "mmioRenameW");
  ("mmioSeek", "mmioSeek"); ("mmioSendMessage", "mmioSendMessage"); ("mmioSetBuffer", "mmioSetBuffer");
  ("mmioSetInfo", "mmioSetInfo"); ("mmioStringToFOURCCA", "mmioStringToFOURCCA");
  ("mmioStringToFOURCCW", "mmioStringToFOURCCW"); ("mmioWrite", "mmioWrite");
  ("mmsystemGetVersion", "mmsystemGetVersion"); ("mod32Message", "mod32Message");
  ("mxd32Message", "mxd32Message"); ("sndPlaySoundA", "sndPlaySoundA"); ("sndPlaySoundW", "sndPlaySoundW");
  ("tid32Message", "tid32Message"); ("timeBeginPeriod", "timeBeginPeriod");
  ("timeEndPeriod", "timeEndPeriod"); ("timeGetDevCaps", "timeGetDevCaps");
  ("timeGetSystemTime", "timeGetSystemTime"); ("timeGetTime", "timeGetTime");
  ("timeKillEvent", "timeKillEvent"); ("timeSetEvent", "timeSetEvent");
  ("waveInAddBuffer", "waveInAddBuffer"); ("waveInClose", "waveInClose");
  ("waveInGetDevCapsA", "waveInGetDevCapsA"); ("waveInGetDevCapsW", "waveInGetDevCapsW");
  ("waveInGetErrorTextA", "waveInGetErrorTextA"); ("waveInGetErrorTextW", "waveInGetErrorTextW");
  ("waveInGetID", "waveInGetID"); ("waveInGetNumDevs", "waveInGetNumDevs");
  ("waveInGetPosition", "waveInGetPosition"); ("waveInMessage", "waveInMessage");
  ("waveInOpen", "waveInOpen"); ("waveInPrepareHeader", "waveInPrepareHeader");
  ("waveInReset", "waveInReset"); ("waveInStart", "waveInStart"); ("waveInStop", "waveInStop");
  ("waveInUnprepareHeader", "waveInUnprepareHeader"); ("waveOutBreakLoop", "waveOutBreakLoop");
  ("waveOutClose", "waveOutClose"); ("waveOutGetDevCapsA", "waveOutGetDevCapsA");
  ("waveOutGetDevCapsW", "waveOutGetDevCapsW"); ("waveOutGetErrorTextA", "waveOutGetErrorTextA");
  ("waveOutGetErrorTextW", "waveOutGetErrorTextW"); ("waveOutGetID", "waveOutGetID");
  ("waveOutGetNumDevs", "waveOutGetNumDevs"); ("waveOutGetPitch", "waveOutGetPitch");
  ("waveOutGetPlaybackRate", "waveOutGetPlaybackRate"); ("waveOutGetPosition", "waveOutGetPosition");
  ("waveOutGetVolume", "waveOutGetVolume"); ("waveOutMessage", "waveOutMessage");
  ("waveOutOpen", "waveOutOpen"); ("waveOutPause", "waveOutPause");
  ("waveOutPrepareHeader", "waveOutPrepareHeader"); ("waveOutReset", "waveOutReset");
  ("waveOutRestart", "waveOutRestart"); ("waveOutSetPitch", "waveOutSetPitch");
  ("waveOutSetPlaybackRate", "waveOutSetPlaybackRate"); ("waveOutSetVolume", "waveOutSetVolume");
  ("waveOutUnprepareHeader", "waveOutUnprepareHeader"); ("waveOutWrite", "waveOutWrite");
  ("wid32Message", "wid32Message"); ("wod32Message", "wod32Message")
]%string.

(** The forwarding functions and the pointer each jumps through, first half. *)
Definition stubs_1 : list (string * string) := [
  ("_CloseDriver", "CloseDriver"); ("_DefDriverProc", "DefDriverProc");
  ("_DriverCallback", "DriverCallback"); ("_DrvGetModuleHandle", "DrvGetModuleHandle");
  ("_GetDriverModuleHandle", "GetDriverModuleHandle"); ("_NotifyCallbackData", "NotifyCallbackData");
  ("_OpenDriver", "OpenDriver"); ("_PlaySound", "PlaySound"); ("_PlaySoundA", "PlaySoundA");
  ("_PlaySoundW", "PlaySoundW"); ("_SendDriverMessage", "SendDriverMessage");
  ("_WOW32DriverCallback", "WOW32DriverCallback");
  ("_WOW32ResolveMultiMediaHandle", "WOW32ResolveMultiMediaHandle"); ("_WOWAppExit", "WOWAppExit");
  ("_aux32Message", "aux32Message"); ("_auxGetDevCapsA", "auxGetDevCapsA");
  ("_auxGetDevCapsW", "auxGetDevCapsW"); ("_auxGetNumDevs", "auxGetNumDevs");
  ("_auxGetVolume", "auxGetVolume"); ("_auxOutMessage", "auxOutMessage"); ("_auxSetVolume", "auxSetVolume");
  ("_joy32Message", "joy32Message"); ("_joyConfigChanged", "joyConfigChanged");
  ("_joyGetDevCapsA", "joyGetDevCapsA"); ("_joyGetDevCapsW", "joyGetDevCapsW");
  ("_joyGetNumDevs", "joyGetNumDevs"); ("_joyGetPos", "joyGetPos"); ("_joyGetPosEx", "joyGetPosEx");
  ("_joyGetThreshold", "joyGetThreshold"); ("_joyReleaseCapture", "joyReleaseCapture");
  ("_joySetCapture", "joySetCapture"); ("_joySetThreshold", "joySetThreshold");
  ("_mci32Message", "mci32Message"); ("_mciDriverNotify", "mciDriverNotify");
  ("_mciDriverYield", "mciDriverYield"); ("_mciExecute", "mciExecute");
  ("_mciFreeCommandResource", "mciFreeCommandResource"); ("_mciGetCreatorTask", "mciGetCreatorTask");
  ("_mciGetDeviceIDA", "mciGetDeviceIDA");
  ("_mciGetDeviceIDFromElementIDA", "mciGetDeviceIDFromElementIDA");
  ("_mciGetDeviceIDFromElementIDW", "mciGetDeviceIDFromElementIDW");
  ("_mciGetDeviceIDW", "mciGetDeviceIDW"); ("_mciGetDriverData", "mciGetDriverData");
  ("_mciGetErrorStringA", "mciGetErrorStringA"); ("_mciGetErrorStringW", "mciGetErrorStringW");
  ("_mciGetYieldProc", "mciGetYieldProc"); ("_mciLoadCommandResource", "mciLoadCommandResource");
  ("_mciSendCommandA", "mciSendCommandA"); ("_mciSendCommandW", "mciSendCommandW");
  ("_mciSendStringA", "mciSendStringA"); ("_mciSendStringW", "mciSendStringW");
  ("_mciSetDriverData", "mciSetDriverData"); ("_mciSetYieldProc", "mciSetYieldProc");
  ("_mid32Message", "mid32Message"); ("_midiConnect", "midiConnect"); ("_midiDisconnect", "midiDisconnect");
  ("_midiInAddBuffer", "midiInAddBuffer"); ("_midiInClose", "midiInClose");
  ("_midiInGetDevCapsA", "midiInGetDevCapsA"); ("_midiInGetDevCapsW", "midiInGetDevCapsW");
  ("_midiInGetErrorTextA", "midiInGetErrorTextA"); ("_midiInGetErrorTextW", "midiInGetErrorTextW");
  ("_midiInGetID", "midiInGetID"); ("_midiInGetNumDevs", "midiInGetNumDevs");
  ("_midiInMessage", "midiInMessage"); ("_midiInOpen", "midiInOpen");
  ("_midiInPrepareHeader", "midiInPrepareHeader"); ("_midiInReset", "midiInReset");
  ("_midiInStart", "midiInStart"); ("_midiInStop", "midiInStop");
  ("_midiInUnprepareHeader", "midiInUnprepareHeader");
  ("_midiOutCacheDrumPatches", "midiOutCacheDrumPatches"); ("_midiOutCachePatches", "midiOutCachePatches");
  ("_midiOutClose", "midiOutClose"); ("_midiOutGetDevCapsA", "midiOutGetDevCapsA");
  ("_midiOutGetDevCapsW", "midiOutGetDevCapsW"); ("_midiOutGetErrorTextA", "midiOutGetErrorTextA");
  ("_midiOutGetErrorTextW", "midiOutGetErrorTextW"); ("_midiOutGetID", "midiOutGetID");
  ("_midiOutGetNumDevs", "midiOutGetNumDevs"); ("_midiOutGetVolume", "midiOutGetVolume");
  ("_midiOutLongMsg", "midiOutLongMsg"); ("_midiOutMessage", "midiOutMessage");
  ("_midiOutOpen", "midiOutOpen"); ("_midiOutPrepareHeader", "midiOutPrepareHeader");
  ("_midiOutReset", "midiOutReset"); ("_midiOutSetVolume", "midiOutSetVolume");
  ("_midiOutShortMsg", "midiOutShortMsg"); ("_midiOutUnprepareHeader", "midiOutUnprepareHeader");
  ("_midiStreamClose", "midiStreamClose"); ("_midiStreamOpen", "midiStreamOpen");
  ("_midiStreamOut", "midiStreamOut"); ("_midiStreamPause", "midiStreamPause");
  ("_midiStreamPosition", "midiStreamPosition"); ("_midiStreamProperty", "midiStreamProperty");
  ("_midiStreamRestart", "midiStreamRestart"); ("_midiStreamStop", "midiStreamStop")
]%string.

(** The forwarding functions and the pointer each jumps through, second half. *)
Definition stubs_2 : list (string * string) := [
  ("_mixerClose", "mixerClose"); ("_mixerGetControlDetailsA", "mixerGetControlDetailsA");
  ("_mixerGetControlDetailsW", "mixerGetControlDetailsW"); ("_mixerGetDevCapsA", "mixerGetDevCapsA");
  ("_mixerGetDevCapsW", "mixerGetDevCapsW"); ("_mixerGetID", "mixerGetID");
  ("_mixerGetLineControlsA", "mixerGetLineControlsA"); ("_mixerGetLineControlsW", "mixerGetLineControlsW");
  ("_mixerGetLineInfoA", "mixerGetLineInfoA"); ("_mixerGetLineInfoW", "mixerGetLineInfoW");
  ("_mixerGetNumDevs", "mixerGetNumDevs"); ("_mixerMessage", "mixerMessage"); ("_mixerOpen", "mixerOpen");
  ("_mixerSetControlDetails", "mixerSetControlDetails"); ("_mmDrvInstall", "mmDrvInstall");
  ("_mmGetCurrentTask", "mmGetCurrentTask"); ("_mmTaskBlock", "mmTaskBlock");
  ("_mmTaskCreate", "mmTaskCreate"); ("_mmTaskSignal", "mmTaskSignal"); ("_mmTaskYield", "mmTaskYield");
  ("_mmioAdvance", "mmioAdvance"); ("_mmioAscend", "mmioAscend"); ("_mmioClose", "mmioClose");
  ("_mmioCreateChunk", "mmioCreateChunk"); ("_mmioDescend", "mmioDescend"); ("_mmioFlush", "mmioFlush");
  ("_mmioGetInfo", "mmioGetInfo"); ("_mmioInstallIOProcA", "mmioInstallIOProcA");
  ("_mmioInstallIOProcW", "mmioInstallIOProcW"); ("_mmioOpenA", "mmioOpenA"); ("_mmioOpenW", "mmioOpenW");
  ("_mmioRead", "mmioRead"); ("_mmioRenameA", "mmioRenameA"); ("_mmioRenameW", "mmioRenameW");
  ("_mmioSeek", "mmioSeek"); ("_mmioSendMessage", "mmioSendMessage"); ("_mmioSetBuffer", "mmioSetBuffer");
  ("_mmioSetInfo", "mmioSetInfo"); ("_mmioStringToFOURCCA", "mmioStringToFOURCCA");
  ("_mmioStringToFOURCCW", "mmioStringToFOURCCW"); ("_mmioWrite", "mmioWrite");
  ("_mmsystemGetVersion", "mmsystemGetVersion"); ("_mod32Message", "mod32Message");
  ("_mxd32Message", "mxd32Message"); ("_sndPlaySoundA", "sndPlaySoundA");
  ("_sndPlaySoundW", "sndPlaySoundW"); ("_tid32Message", "tid32Message");
  ("_timeBeginPeriod", "timeBeginPeriod"); ("_timeEndPeriod", "timeEndPeriod");
  ("_timeGetDevCaps", "timeGetDevCaps"); ("_timeGetSystemTime", "timeGetSystemTime");
  ("_timeGetTime", "timeGetTime"); ("_timeKillEvent", "timeKillEvent"); ("_timeSetEvent", "timeSetEvent");
  ("_waveInAddBuffer", "waveInAddBuffer"); ("_waveInClose", "waveInClose");
  ("_waveInGetDevCapsA", "waveInGetDevCapsA"); ("_waveInGetDevCapsW", "waveInGetDevCapsW");
  ("_waveInGetErrorTextA", "waveInGetErrorTextA"); ("_waveInGetErrorTextW", "waveInGetErrorTextW");
  ("_waveInGetID", "waveInGetID"); ("_waveInGetNumDevs", "waveInGetNumDevs");
  ("_waveInGetPosition", "waveInGetPosition"); ("_waveInMessage", "waveInMessage");
  ("_waveInOpen", "waveInOpen"); ("_waveInPrepareHeader", "waveInPrepareHeader");
  ("_waveInReset", "waveInReset"); ("_waveInStart", "waveInStart"); ("_waveInStop", "waveInStop");
  ("_waveInUnprepareHeader", "waveInUnprepareHeader"); ("_waveOutBreakLoop", "waveOutBreakLoop");
  ("_waveOutClose", "waveOutClose"); ("_waveOutGetDevCapsA", "waveOutGetDevCapsA");
  ("_waveOutGetDevCapsW", "waveOutGetDevCapsW"); ("_waveOutGetErrorTextA", "waveOutGetErrorTextA");
  ("_waveOutGetErrorTextW", "waveOutGetErrorTextW"); ("_waveOutGetID", "waveOutGetID");
  ("_waveOutGetNumDevs", "waveOutGetNumDevs"); ("_waveOutGetPitch", "waveOutGetPitch");
  ("_waveOutGetPlaybackRate", "waveOutGetPlaybackRate"); ("_waveOutGetPosition", "waveOutGetPosition");
  ("_waveOutGetVolume", "waveOutGetVolume"); ("_waveOutMessage", "waveOutMessage");
  ("_waveOutOpen", "waveOutOpen"); ("_waveOutPause", "waveOutPause");
  ("_waveOutPrepareHeader", "waveOutPrepareHeader"); ("_waveOutReset", "waveOutReset");
  ("_waveOutRestart", "waveOutRestart"); ("_waveOutSetPitch", "waveOutSetPitch");
  ("_waveOutSetPlaybackRate", "waveOutSetPlaybackRate"); ("_waveOutSetVolume", "waveOutSetVolume");
  ("_waveOutUnprepareHeader", "waveOutUnprepareHeader"); ("_waveOutWrite", "waveOutWrite");
  ("_wid32Message", "wid32Message"); ("_wod32Message", "wod32Message")
]%string.

(** [x86.def]: the exported names and the functions behind them. *)
Definition exports : list (string * string) := [
  ("CloseDriver", "_CloseDriver"); ("DefDriverProc", "_DefDriverProc");
  ("DriverCallback", "_DriverCallback"); ("DrvGetModuleHandle", "_DrvGetModuleHandle");
  ("GetDriverModuleHandle", "_GetDriverModuleHandle"); ("NotifyCallbackData", "_NotifyCallbackData");
  ("OpenDriver", "_OpenDriver"); ("PlaySound", "_PlaySound"); ("PlaySoundA", "_PlaySoundA");
  ("PlaySoundW", "_PlaySoundW"); ("SendDriverMessage", "_SendDriverMessage");
  ("WOW32DriverCallback", "_WOW32DriverCallback");
  ("WOW32ResolveMultiMediaHandle", "_WOW32ResolveMultiMediaHandle"); ("WOWAppExit", "_WOWAppExit");
  ("aux32Message", "_aux32Message"); ("auxGetDevCapsA", "_auxGetDevCapsA");
  ("auxGetDevCapsW", "_auxGetDevCapsW"); ("auxGetNumDevs", "_auxGetNumDevs");
  ("auxGetVolume", "_auxGetVolume"); ("auxOutMessage", "_auxOutMessage"); ("auxSetVolume", "_auxSetVolume");
  ("joy32Message", "_joy32Message"); ("joyConfigChanged", "_joyConfigChanged");
  ("joyGetDevCapsA", "_joyGetDevCapsA"); ("joyGetDevCapsW", "_joyGetDevCapsW");
  ("joyGetNumDevs", "_joyGetNumDevs"); ("joyGetPos", "_joyGetPos"); ("joyGetPosEx", "_joyGetPosEx");
  ("joyGetThreshold", "_joyGetThreshold"); ("joyReleaseCapture", "_joyReleaseCapture");
  ("joySetCapture", "_joySetCapture"); ("joySetThreshold", "_joySetThreshold");
  ("mci32Message", "_mci32Message"); ("mciDriverNotify", "_mciDriverNotify");
  ("mciDriverYield", "_mciDriverYield"); ("mciExecute", "_mciExecute");
  ("mciFreeCommandResource", "_mciFreeCommandResource"); ("mciGetCreatorTask", "_mciGetCreatorTask");
  ("mciGetDeviceIDA", "_mciGetDeviceIDA");
  ("mciGetDeviceIDFromElementIDA", "_mciGetDeviceIDFromElementIDA");
  ("mciGetDeviceIDFromElementIDW", "_mciGetDeviceIDFromElementIDW");
  ("mciGetDeviceIDW", "_mciGetDeviceIDW"); ("mciGetDriverData", "_mciGetDriverData");
  ("mciGetErrorStringA", "_mciGetErrorStringA"); ("mciGetErrorStringW", "_mciGetErrorStringW");
  ("mciGetYieldProc", "_mciGetYieldProc"); ("mciLoadCommandResource", "_mciLoadCommandResource");
  ("mciSendCommandA", "_mciSendCommandA"); ("mciSendCommandW", "_mciSendCommandW");
  ("mciSendStringA", "_mciSendStringA"); ("mciSendStringW", "_mciSendStringW");
  ("mciSetDriverData", "_mciSetDriverData"); ("mciSetYieldProc", "_mciSetYieldProc");
  ("mid32Message", "_mid32Message"); ("midiConnect", "_midiConnect"); ("midiDisconnect", "_midiDisconnect");
  ("midiInAddBuffer", "_midiInAddBuffer"); ("midiInClose", "_midiInClose");
  ("midiInGetDevCapsA", "_midiInGetDevCapsA"); ("midiInGetDevCapsW", "_midiInGetDevCapsW");
  ("midiInGetErrorTextA", "_midiInGetErrorTextA"); ("midiInGetErrorTextW", "_midiInGetErrorTextW");
  ("midiInGetID", "_midiInGetID"); ("midiInGetNumDevs", "_midiInGetNumDevs");
  ("midiInMessage", "_midiInMessage"); ("midiInOpen", "_midiInOpen");
  ("midiInPrepareHeader", "_midiInPrepareHeader"); ("midiInReset", "_midiInReset");
  ("midiInStart", "_midiInStart"); ("midiInStop", "_midiInStop");
  ("midiInUnprepareHeader", "_midiInUnprepareHeader");
  ("midiOutCacheDrumPatches", "_midiOutCacheDrumPatches"); ("midiOutCachePatches", "_midiOutCachePatches");
  ("midiOutClose", "_midiOutClose"); ("midiOutGetDevCapsA", "_midiOutGetDevCapsA");
  ("midiOutGetDevCapsW", "_midiOutGetDevCapsW"); ("midiOutGetErrorTextA", "_midiOutGetErrorTextA");
  ("midiOutGetErrorTextW", "_midiOutGetErrorTextW"); ("midiOutGetID", "_midiOutGetID");
  ("midiOutGetNumDevs", "_midiOutGetNumDevs"); ("midiOutGetVolume", "_midiOutGetVolume");
  ("midiOutLongMsg", "_midiOutLongMsg"); ("midiOutMessage", "_midiOutMessage");
  ("midiOutOpen", "_midiOutOpen"); ("midiOutPrepareHeader", "_midiOutPrepareHeader");
  ("midiOutReset", "_midiOutReset"); ("midiOutSetVolume", "_midiOutSetVolume");
  ("midiOutShortMsg", "_midiOutShortMsg"); ("midiOutUnprepareHeader", "_midiOutUnprepareHeader");
  ("midiStreamClose", "_midiStreamClose"); ("midiStreamOpen", "_midiStreamOpen");
  ("midiStreamOut", "_midiStreamOut"); ("midiStreamPause", "_midiStreamPause");
  ("midiStreamPosition", "_midiStreamPosition"); ("midiStreamProperty", "_midiStreamProperty");
  ("midiStreamRestart", "_midiStreamRestart"); ("midiStreamStop", "_midiStreamStop");
  ("mixerClose", "_mixerClose"); ("mixerGetControlDetailsA", "_mixerGetControlDetailsA");
  ("mixerGetControlDetailsW", "_mixerGetControlDetailsW"); ("mixerGetDevCapsA", "_mixerGetDevCapsA");
  ("mixerGetDevCapsW", "_mixerGetDevCapsW"); ("mixerGetID", "_mixerGetID");
  ("mixerGetLineControlsA", "_mixerGetLineControlsA"); ("mixerGetLineControlsW", "_mixerGetLineControlsW");
  ("mixerGetLineInfoA", "_mixerGetLineInfoA"); ("mixerGetLineInfoW", "_mixerGetLineInfoW");
  ("mixerGetNumDevs", "_mixerGetNumDevs"); ("mixerMessage", "_mixerMessage"); ("mixerOpen", "_mixerOpen");
  ("mixerSetControlDetails", "_mixerSetControlDetails"); ("mmDrvInstall", "_mmDrvInstall");
  ("mmGetCurrentTask", "_mmGetCurrentTask"); ("mmTaskBlock", "_mmTaskBlock");
  ("mmTaskCreate", "_mmTaskCreate"); ("mmTaskSignal", "_mmTaskSignal"); ("mmTaskYield", "_mmTaskYield");
  ("mmioAdvance", "_mmioAdvance"); ("mmioAscend", "_mmioAscend"); ("mmioClose", "_mmioClose");
  ("mmioCreateChunk", "_mmioCreateChunk"); ("mmioDescend", "_mmioDescend"); ("mmioFlush", "_mmioFlush");
  ("mmioGetInfo", "_mmioGetInfo"); ("mmioInstallIOProcA", "_mmioInstallIOProcA");
  ("mmioInstallIOProcW", "_mmioInstallIOProcW"); ("mmioOpenA", "_mmioOpenA"); ("mmioOpenW", "_mmioOpenW");
  ("mmioRead", "_mmioRead"); ("mmioRenameA", "_mmioRenameA"); ("mmioRenameW", "_mmioRenameW");
  ("mmioSeek", "_mmioSeek"); ("mmioSendMessage", "_mmioSendMessage"); ("mmioSetBuffer", "_mmioSetBuffer");
  ("mmioSetInfo", "_mmioSetInfo"); ("mmioStringToFOURCCA", "_mmioStringToFOURCCA");
  ("mmioStringToFOURCCW", "_mmioStringToFOURCCW"); ("mmioWrite", "_mmioWrite");
  ("mmsystemGetVersion", "_mmsystemGetVersion"); ("mod32Message", "_mod32Message");
  ("mxd32Message", "_mxd32Message"); ("sndPlaySoundA", "_sndPlaySoundA");
  ("sndPlaySoundW", "_sndPlaySoundW"); ("tid32Message", "_tid32Message");
  ("timeBeginPeriod", "_timeBeginPeriod"); ("timeEndPeriod", "_timeEndPeriod");
  ("timeGetDevCaps", "_timeGetDevCaps"); ("timeGetSystemTime", "_timeGetSystemTime");
  ("timeGetTime", "_timeGetTime"); ("timeKillEvent", "_timeKillEvent"); ("timeSetEvent", "_timeSetEvent");
  ("waveInAddBuffer", "_waveInAddBuffer"); ("waveInClose", "_waveInClose");
  ("waveInGetDevCapsA", "_waveInGetDevCapsA"); ("waveInGetDevCapsW", "_waveInGetDevCapsW");
  ("waveInGetErrorTextA", "_waveInGetErrorTextA"); ("waveInGetErrorTextW", "_waveInGetErrorTextW");
  ("waveInGetID", "_waveInGetID"); ("waveInGetNumDevs", "_waveInGetNumDevs");
  ("waveInGetPosition", "_waveInGetPosition"); ("waveInMessage", "_waveInMessage");
  ("waveInOpen", "_waveInOpen"); ("waveInPrepareHeader", "_waveInPrepareHeader");
  ("waveInReset", "_waveInReset"); ("waveInStart", "_waveInStart"); ("waveInStop", "_waveInStop");
  ("waveInUnprepareHeader", "_waveInUnprepareHeader"); ("waveOutBreakLoop", "_waveOutBreakLoop");
  ("waveOutClose", "_waveOutClose"); ("waveOutGetDevCapsA", "_waveOutGetDevCapsA");
  ("waveOutGetDevCapsW", "_waveOutGetDevCapsW"); ("waveOutGetErrorTextA", "_waveOutGetErrorTextA");
  ("waveOutGetErrorTextW", "_waveOutGetErrorTextW"); ("waveOutGetID", "_waveOutGetID");
  ("waveOutGetNumDevs", "_waveOutGetNumDevs"); ("waveOutGetPitch", "_waveOutGetPitch");
  ("waveOutGetPlaybackRate", "_waveOutGetPlaybackRate"); ("waveOutGetPosition", "_waveOutGetPosition");
  ("waveOutGetVolume", "_waveOutGetVolume"); ("waveOutMessage", "_waveOutMessage");
  ("waveOutOpen", "_waveOutOpen"); ("waveOutPause", "_waveOutPause");
  ("waveOutPrepareHeader", "_waveOutPrepareHeader"); ("waveOutReset", "_waveOutReset");
  ("waveOutRestart", "_waveOutRestart"); ("waveOutSetPitch", "_waveOutSetPitch");
  ("waveOutSetPlaybackRate", "_waveOutSetPlaybackRate"); ("waveOutSetVolume", "_waveOutSetVolume");
  ("waveOutUnprepareHeader", "_waveOutUnprepareHeader"); ("waveOutWrite", "_waveOutWrite");
  ("wid32Message", "_wid32Message"); ("wod32Message", "_wod32Message")
]%string.

Definition fields : list string := fields_1 ++ fields_2.
Definition loads : list (string * string) := loads_1 ++ loads_2.
Definition stubs : list (string * string) := stubs_1 ++ stubs_2.

(** The first entry of a list of pairs. *)
Fixpoint assoc (l : list (string * string)) (name : string) : option string :=
  match l with
  | [] => None
  | (k, v) :: l' => if decide (k = name) then Some v else assoc l' name
  end.

(** ** Paths *)

Definition is_separator (c : ascii) : bool := Ascii.eqb c "\"%char || Ascii.eqb c "/"%char.

(** [path.find_last_of("\\/")], from position [i] on. *)
Fixpoint find_last_of (i : nat) (path : string) : option nat :=
  match path with
  | EmptyString => None
  | String c rest =>
      match find_last_of (S i) rest with
      | Some pos => Some pos
      | None => if is_separator c then Some i else None
      end
  end.

(** [substr(from)] *)
Definition substr_from (from : nat) (s : string) : string :=
  String.substring from (String.length s - from) s.

(** [tolower] in the locale "C". *)
Definition tolower (c : ascii) : ascii :=
  let n := nat_of_ascii c in
  if ((65 <=? n) && (n <=? 90))%nat then ascii_of_nat (n + 32) else c.
Fixpoint lower (s : string) : string :=
  match s with EmptyString => EmptyString | String c s' => String (tolower c) (lower s') end.

Definition exeName (path : string) : string :=
  match find_last_of 0 path with Some pos => substr_from (pos + 1) path | None => path end.

(** ** The library *)

Definition MAX_PATH : nat := 260.

Class Loader (W : Type) : Type := {
  (** 0 is a null pointer. *)
  GetProcAddress : W → Z → string → Z;
  LoadLibraryA : W → string → Z * W;
  FreeLibrary : W → Z → W;
  GetSystemDirectoryA : W → string;
  GetModuleFileNameA : W → string
}.

(** The pointers are in static storage: those not yet assigned are null. *)
Record Proxy (W : Type) : Type := mkProxy {
  dll : Z;
  pointers : gmap string Z;
  hOriginalDll : Z;
  system : W
}.
Arguments mkProxy {W} _ _ _ _.
Arguments dll {W} _.
Arguments pointers {W} _.
Arguments hOriginalDll {W} _.
Arguments system {W} _.

Definition unloaded {W} (w : W) : Proxy W := mkProxy 0 ∅ 0 w.

Section proxy.
Context {W : Type} `{Loader W}.
Implicit Types (s : Proxy W).

Definition set_dll (h : Z) s : Proxy W := mkProxy h (pointers s) (hOriginalDll s) (system s).
Definition set_pointer (field : string) (p : Z) s : Proxy W :=
  mkProxy (dll s) (<[field := p]> (pointers s)) (hOriginalDll s) (system s).

Definition LoadLibrary (path : string) : prog (Proxy W) Z := λ s,
  let '(h, w) := LoadLibraryA (system s) path in
  Ret (h, mkProxy (dll s) (pointers s) (hOriginalDll s) w).

Definition LoadOriginalLibrary (module : Z) : prog (Proxy W) unit :=
  modify (set_dll module) ;;
  for_each (λ '(field, name),
    modify (λ s, set_pointer field (GetProcAddress (system s) (dll s) name) s)) loads.

(** Where a call of an export continues: the stub's jump through its
    pointer; [None] when there is no such export. *)
Definition export_target (name : string) s : option Z :=
  stub ← assoc exports name;
  field ← assoc stubs stub;
  Some (default 0 (pointers s !! field)).

Definition IsTargetProcess (targetName : string) : prog (Proxy W) bool :=
  path ← gets (λ s, GetModuleFileNameA (system s));
  mret (bool_decide (lower (exeName path) = lower targetName)).

Definition GetProcessDirectory : prog (Proxy W) string :=
  path ← gets (λ s, GetModuleFileNameA (system s));
  mret (match find_last_of 0 path with
        | Some pos => String.substring 0 (pos + 1) path
        | None => EmptyString
        end).

(** [DLL_PROCESS_ATTACH].  [strcat_s] ends the process when the path does
    not fit its buffer. *)
Definition attach : prog (Proxy W) bool :=
  dir ← gets (λ s, GetSystemDirectoryA (system s));
  let systemPath := String.append dir "\winmm.dll" in
  if decide (MAX_PATH ≤ String.length systemPath)%nat then undef OutOfBounds
  else
  h ← LoadLibrary systemPath;
  modify (λ s, mkProxy (dll s) (pointers s) h (system s)) ;;
  (if negb (h =? 0) then LoadOriginalLibrary h else mret tt) ;;
  target ← IsTargetProcess "isaac-ng.exe";
  (if (target : bool) then
     dir ← GetProcessDirectory;
     LoadLibrary (String.append dir "p2p_hook.dll") ;; mret tt
   else mret tt) ;;
  mret true.

(** [DLL_PROCESS_DETACH] *)
Definition detach : prog (Proxy W) bool :=
  h ← gets hOriginalDll;
  (if negb (h =? 0)
   then modify (λ s, mkProxy (dll s) (pointers s) (hOriginalDll s) (FreeLibrary (system s) h))
   else mret tt) ;;
  mret true.
End proxy.
