(* ===== verification/WinmmTheorems.v ===== *)
(** * What the proxy of winmm.dll guarantees

    The theorems about [winmm/winmm.cpp]: every call reaches the original
    library, and only the game gets the hook. *)

From stdpp Require Import base gmap list strings.
From Stdlib Require Import ZArith Lia Ascii.
From S2P Require Import Prelude Winmm.

(** ** The tables *)

(** Every export leads to the pointer of its own name, which is declared, and
    to which the function of that name is assigned exactly once. *)
Definition entry_ok (name : string) : bool :=
  bool_decide ((stub ← assoc exports name; assoc stubs stub) = Some name) &&
  bool_decide (name ∈ fields) &&
  bool_decide (filter (λ l, l.1 = name) loads = [(name, name)]).

Lemma tables_ok : forallb entry_ok (fst <$> exports) = true.
Proof. vm_compute. reflexivity. Qed.

Lemma export_entry name : name ∈ fst <$> exports →
  (stub ← assoc exports name; assoc stubs stub) = Some name ∧ filter (λ l, l.1 = name) loads = [(name, name)].
Proof.
  intros Hin. pose proof tables_ok as Hall. rewrite forallb_forall in Hall.
  specialize (Hall name (proj1 (list_elem_of_In _ _) Hin)). unfold entry_ok in Hall.
  apply andb_true_iff in Hall as [[H1 _]%andb_true_iff H3]. by rewrite !bool_decide_eq_true in H1, H3.
Qed.

Section load.
Context {W : Type} `{Loader W}.
Implicit Types (s : Proxy W).

(** After the assignments of [l], a pointer has the last value assigned. *)
Lemma wp_assign (l : list (string * string)) s :
  wp (for_each (λ '(field, name),
        modify (λ s, set_pointer field (GetProcAddress (system s) (dll s) name) s)) l)
    (λ _ s', dll s' = dll s ∧ system s' = system s ∧ hOriginalDll s' = hOriginalDll s ∧
      ∀ field, pointers s' !! field =
        match last (filter (λ x, x.1 = field) l) with
        | Some (_, name) => Some (GetProcAddress (system s) (dll s) name)
        | None => pointers s !! field
        end) no_ub s.
Proof.
  revert s. induction l as [|[f n] l IH]; intros s; cbn [for_each]; [wp_step; done|].
  wp_step. apply wp_modify. eapply wp_conseq; [apply IH|].
  intros [] s' (Hd & Hw & Ho & Hp). simpl in Hd, Hw, Ho. split_and!; [done..|]. intros field.
  rewrite Hp, filter_cons. simpl. destruct (decide (f = field)) as [->|Hne].
  - rewrite last_cons. destruct (last _) as [[? ?]|]; [done|]. by rewrite lookup_insert_eq.
  - destruct (last _) as [[? ?]|]; [done|]. by rewrite lookup_insert_ne.
Qed.
End load.

(** ** Paths *)

Lemma append_cons c s t : String.append (String c s) t = String c (String.append s t).
Proof. done. Qed.

Lemma substring_all s : String.substring 0 (String.length s) s = s.
Proof. induction s as [|c s IH]; [done|]. simpl. by rewrite IH. Qed.

Lemma substring_split n s : (n ≤ String.length s)%nat →
  String.append (String.substring 0 n s) (substr_from n s) = s.
Proof.
  unfold substr_from. revert n. induction s as [|c s IH]; intros [|n] Hn; simpl in *; try done; try lia.
  - by rewrite substring_all.
  - rewrite append_cons. by rewrite IH by lia.
Qed.

(** No separator in the string. *)
Fixpoint no_separator (s : string) : bool :=
  match s with EmptyString => true | String c s' => negb (is_separator c) && no_separator s' end.

Lemma find_last_of_none i s : no_separator s = true → find_last_of i s = None.
Proof.
  revert i. induction s as [|c s IH]; intros i Hs; [done|]. simpl in *.
  apply andb_true_iff in Hs as [Hc Hs]. rewrite IH by done. apply negb_true_iff in Hc. by rewrite Hc.
Qed.

Lemma find_last_of_app i d c name :
  is_separator c = true → no_separator name = true →
  find_last_of i (String.append d (String c name)) = Some (i + String.length d)%nat.
Proof.
  intros Hc Hname. revert i. induction d as [|x d IH]; intros i.
  - simpl. rewrite find_last_of_none, Hc by done. f_equal. lia.
  - rewrite append_cons. cbn [find_last_of]. rewrite IH. simpl. f_equal. lia.
Qed.

Lemma substring_app d t :
  String.substring 0 (String.length d) (String.append d t) = d ∧ substr_from (String.length d) (String.append d t) = t.
Proof.
  unfold substr_from. induction d as [|c d [IH1 IH2]].
  - simpl. rewrite Nat.sub_0_r, substring_all. by destruct t.
  - rewrite append_cons. simpl. by rewrite IH1, IH2.
Qed.

Lemma length_append d t : String.length (String.append d t) = (String.length d + String.length t)%nat.
Proof. induction d as [|c d IH]; [done|]. rewrite append_cons. simpl. by rewrite IH. Qed.

(** A directory with its separator at the end, or none. *)
Definition is_directory (dir : string) : Prop :=
  dir = EmptyString ∨ ∃ d c, dir = String.append d (String c EmptyString) ∧ is_separator c = true.

Lemma append_assoc a b c : String.append (String.append a b) c = String.append a (String.append b c).
Proof. induction a as [|x a IH]; [done|]. by rewrite !append_cons, IH. Qed.

Lemma find_separator dir name : is_directory dir → no_separator name = true →
  find_last_of 0 (String.append dir name) =
    match dir with EmptyString => None | _ => Some (String.length dir - 1)%nat end.
Proof.
  intros [->|(d & c & -> & Hc)] Hname; [by apply find_last_of_none|].
  rewrite append_assoc. change (String.append (String c "") name) with (String c name).
  rewrite find_last_of_app by done. rewrite length_append. simpl.
  destruct (String.append d (String c "")) eqn:Hd; [by destruct d|]. f_equal. lia.
Qed.

Section path.
Context {W : Type} `{Loader W}.
Implicit Types (s : Proxy W).

Lemma path_split s dir name target :
  GetModuleFileNameA (system s) = String.append dir name → is_directory dir → no_separator name = true →
  GetProcessDirectory s = Ret (dir, s) ∧
  IsTargetProcess target s = Ret (bool_decide (lower name = lower target), s).
Proof.
  intros Hpath Hdir Hname. unfold GetProcessDirectory, IsTargetProcess, exeName, mbind, prog_bind, gets.
  rewrite Hpath, (find_separator dir name) by done. destruct dir as [|c dir]; [done|].
  assert (String.length (String c dir) - 1 + 1 = String.length (String c dir))%nat as -> by (simpl; lia).
  destruct (substring_app (String c dir) name) as [-> ->]. done.
Qed.
End path.

(** C21. Loading the proxy: every export of [x86.def] continues at the function
    of the same name in the original library of the system directory; when
    that library cannot be loaded, every export jumps to a null pointer.  The
    hook beside the executable is loaded exactly when the executable is
    [isaac-ng.exe]; nothing else is loaded. *)
Theorem proxy_forwards `{Loader W} (w : W) dir name h w1 :
  (String.length (GetSystemDirectoryA w) < MAX_PATH - 10)%nat →
  LoadLibraryA w (String.append (GetSystemDirectoryA w) "\winmm.dll") = (h, w1) →
  GetModuleFileNameA w1 = String.append dir name → is_directory dir → no_separator name = true →
  ∃ s', attach (unloaded w) = Ret (true, s') ∧ hOriginalDll s' = h ∧
    (∀ export, export ∈ fst <$> exports →
       export_target export s' = Some (if h =? 0 then 0 else GetProcAddress w1 h export)) ∧
    system s' = if bool_decide (lower name = "isaac-ng.exe"%string)
                then (LoadLibraryA w1 (String.append dir "p2p_hook.dll")).2 else w1.
Proof.
  intros Hlen Hload Hpath Hdir Hname.
  set (s1 := mkProxy 0 ∅ h w1 : Proxy W).
  assert (wp (if negb (h =? 0) then LoadOriginalLibrary h else mret tt) (λ _ s2,
    system s2 = w1 ∧ hOriginalDll s2 = h ∧ ∀ export, export ∈ fst <$> exports →
      export_target export s2 = Some (if h =? 0 then 0 else GetProcAddress w1 h export)) no_ub s1) as Hwp.
  { assert (∀ export (s2 : Proxy W), export ∈ fst <$> exports →
      export_target export s2 = Some (default 0 (pointers s2 !! export))) as Htarget.
    { intros export s2 [He _]%export_entry. unfold export_target.
      destruct (assoc exports export) as [stub|]; [|done]. simpl in *. by rewrite He. }
    destruct (Z.eqb_spec h 0) as [->|Hh]; simpl.
    - wp_step. split_and!; [done|done|]. intros export He. by rewrite Htarget.
    - unfold LoadOriginalLibrary. wp_step. apply wp_modify. eapply wp_conseq; [apply wp_assign|].
      intros [] s2 (Hd & Hw & Ho & Hp). split_and!; [done|done|]. intros export He.
      rewrite Htarget, Hp by done. destruct (export_entry export He) as [_ ->]. done. }
  apply wp_returns in Hwp as ([] & s2 & Hrun & Hsys & Ho & Hexp).
  destruct (path_split s2 dir name "isaac-ng.exe") as [Hdir2 Htarget]; [by rewrite Hsys|done..|].
  unfold attach, mbind, prog_bind, gets, modify. cbn [system unloaded].
  rewrite decide_False by (rewrite length_append; simpl; unfold MAX_PATH in *; lia).
  unfold LoadLibrary. cbn [system unloaded dll pointers hOriginalDll]. rewrite Hload.
  cbn [dll pointers system hOriginalDll]. fold s1. rewrite Hrun, Htarget.
  change (lower "isaac-ng.exe") with "isaac-ng.exe"%string.
  destruct (decide (lower name = "isaac-ng.exe"%string)) as [Hgame|Hgame];
    [rewrite !bool_decide_eq_true_2 by done|rewrite !bool_decide_eq_false_2 by done].
  - rewrite Hdir2, Hsys. destruct (LoadLibraryA w1 _) as [hook w2]. eexists. by split_and!.
  - exists s2. by split_and!.
Qed.

(** A system that resolves names to their lengths and logs what it loads. *)
#[export] Instance log_loader : Loader (list string) := {
  GetProcAddress _ h name := h + Z.of_nat (String.length name);
  LoadLibraryA w path := (4096, path :: w);
  FreeLibrary w _ := w;
  GetSystemDirectoryA _ := "C:\Windows\system32"%string;
  GetModuleFileNameA _ := "C:\Games\Isaac-NG.exe"%string
}.

Lemma proxy_forwards_witness :
  ∃ s', attach (unloaded ([] : list string)) = Ret (true, s') ∧
    export_target "waveOutOpen" s' = Some 4107 ∧
    system s' = ["C:\Games\p2p_hook.dll"; "C:\Windows\system32\winmm.dll"]%string.
Proof.
  destruct (proxy_forwards ([] : list string) "C:\Games\" "Isaac-NG.exe" 4096
    ["C:\Windows\system32\winmm.dll"]%string) as (s' & Hrun & _ & Hexp & Hsys).
  - vm_compute. lia.
  - reflexivity.
  - reflexivity.
  - right. exists "C:\Games"%string, "\"%char. split; reflexivity.
  - reflexivity.
  - exists s'. split_and!; [exact Hrun| |exact Hsys].
    rewrite Hexp; [reflexivity|]. apply (bool_decide_eq_true_1 _). vm_compute. reflexivity.
Defined.
